(** * VFIO PCI device assignment (hw/vfio.c): a shallow embedding

    The development follows the layout of hw/vfio.c: the capability
    scanner, the interrupt bridge (INTx / MSI / MSI-X), the BAR mapper,
    the config-space proxy, the DMA translator and the netlink hot-remove
    handler; then the netlink registration, the release of the BARs, the
    INTx line, the setup of the MSI and MSI-X capabilities, the IOMMU
    domains, the trapped accesses, the host address property, the option
    ROM, the channel and the order in which a device is brought up.
    Machine integers are [Z] with their wrap-around written out, the
    config image is a list of bytes, the BAR table is a list updated by
    index, fd handlers live in a finite map. *)

From Stdlib Require Import ZArith Lia Bool List.
From Stdlib Require String Ascii.
From stdpp Require Import base option list gmap.
Import ListNotations.

Local Open Scope Z_scope.

(** ** Machine integers *)

Definition uint8 (z : Z) : Z := z mod 2 ^ 8.
Definition uint32 (z : Z) : Z := z mod 2 ^ 32.
Definition uint64 (z : Z) : Z := z mod 2 ^ 64.

(** ** PCI register layout *)

Module PCI.

(** Modelled from the spec: pci/header.h and hw/pci.h are not among the
    sources; these are the standard configuration-header offsets and bits
    of the PCI register block that the spec's glossary calls config space. *)
Definition PCI_CONFIG_SPACE_SIZE : Z := 0x100.
Definition PCI_CONFIG_HEADER_SIZE : Z := 0x40.
Definition PCI_CAP_SIZEOF : Z := 4.
Definition PCI_STATUS : Z := 0x06.
Definition PCI_STATUS_CAP_LIST : Z := 0x10.
Definition PCI_CAPABILITY_LIST : Z := 0x34.
Definition PCI_CAP_LIST_ID : Z := 0.
Definition PCI_CAP_LIST_NEXT : Z := 1.
Definition PCI_ROM_ADDRESS : Z := 0x30.
Definition PCI_INTERRUPT_PIN : Z := 0x3d.
Definition PCI_BASE_ADDRESS_0 : Z := 0x10.
Definition PCI_BASE_ADDRESS_SPACE : Z := 0x01.
Definition PCI_BASE_ADDRESS_SPACE_IO : Z := 0x01.
Definition PCI_BASE_ADDRESS_SPACE_MEMORY : Z := 0x00.
Definition PCI_BASE_ADDRESS_MEM_TYPE_64 : Z := 0x04.
Definition PCI_BASE_ADDRESS_MEM_PREFETCH : Z := 0x08.
Definition PCI_ROM_SLOT : nat := 6.
Definition PCI_MSI_FLAGS : Z := 2.
Definition PCI_MSI_FLAGS_ENABLE : Z := 0x01.
Definition PCI_MSIX_FLAGS : Z := 2.
Definition MSIX_CONTROL_OFFSET : Z := PCI_MSIX_FLAGS + 1.
Definition MSIX_ENABLE_MASK : Z := 0x80.

(** hw/vfio.c, "TODO: msix.h should define these". *)
Definition MSIX_CAP_LENGTH : Z := 12.
Definition MSIX_PAGE_SIZE : Z := 0x1000.

End PCI.
Import PCI.

(** ** The emulated config image: [pdev->config], an array of [uint8_t] *)

Definition config_image := list Z.

(** [config[a]]: one byte of the image.  A load yields a [uint8_t]
    whatever the list holds; the array has [pci_config_size] bytes and
    the model reads 0 beyond the list. *)
Definition config_get (config : config_image) (a : Z) : Z :=
  uint8 (nth (Z.to_nat a) config 0).

(** ** Capability scanner *)

Module CapScan.

(** [pos = pdev->config[pos] & ~3], stored back into a [uint8_t]. *)
Definition cap_ptr (config : config_image) (pos : Z) : Z :=
  uint8 (Z.land (config_get config pos) (Z.lnot 3)).

(** [int max_cap = (PCI_CONFIG_SPACE_SIZE - PCI_CONFIG_HEADER_SIZE) /
    PCI_CAP_SIZEOF]. *)
Definition max_cap : nat :=
  Z.to_nat ((PCI_CONFIG_SPACE_SIZE - PCI_CONFIG_HEADER_SIZE) / PCI_CAP_SIZEOF).

(** The body of [while (max_cap--)].  The second component counts the
    iterations that were entered, so that the bound can be stated. *)
Fixpoint find_cap_loop (config : config_image) (cap : Z)
    (max_cap : nat) (pos : Z) : Z * nat :=
  match max_cap with
  | O => (0, O)
  | S remaining =>
      let pos := cap_ptr config pos in
      if pos <? PCI_CONFIG_HEADER_SIZE then (0, 1%nat)
      else
        let id := config_get config (pos + PCI_CAP_LIST_ID) in
        if id =? 0xff then (0, 1%nat)
        else if id =? cap then (pos, 1%nat)
        else
          let '(r, n) :=
            find_cap_loop config cap remaining
              (uint8 (pos + PCI_CAP_LIST_NEXT)) in
          (r, S n)
  end.

Definition cap_list_present (config : config_image) : bool :=
  negb (Z.land (config_get config PCI_STATUS) PCI_STATUS_CAP_LIST =? 0).

Definition find_cap_offset_steps (config : config_image) (cap : Z) : Z * nat :=
  if cap_list_present config
  then find_cap_loop config cap max_cap PCI_CAPABILITY_LIST
  else (0, O).

Definition vfio_find_cap_offset (config : config_image) (cap : Z) : Z :=
  fst (find_cap_offset_steps config cap).

(** The capability chain as the PCI specification describes it, without
    any bound: [chain_from config start k] is the [k]-th capability
    position reached from the pointer byte at [start]. *)
Fixpoint chain_from (config : config_image) (start : Z) (k : nat) : Z :=
  match k with
  | O => cap_ptr config start
  | S k' =>
      chain_from config (uint8 (cap_ptr config start + PCI_CAP_LIST_NEXT)) k'
  end.

Definition chain (config : config_image) (k : nat) : Z :=
  chain_from config PCI_CAPABILITY_LIST k.

Definition cap_id (config : config_image) (pos : Z) : Z :=
  config_get config (pos + PCI_CAP_LIST_ID).

(** A chain element the walk steps over: in range, not the terminator id,
    and not the capability searched for. *)
Definition passed (config : config_image) (cap : Z) (pos : Z) : Prop :=
  PCI_CONFIG_HEADER_SIZE <= pos /\ cap_id config pos <> 0xff /\
  cap_id config pos <> cap.

(** A chain element that stops the walk without a result. *)
Definition stops (config : config_image) (pos : Z) : Prop :=
  pos < PCI_CONFIG_HEADER_SIZE \/ cap_id config pos = 0xff.

(** A chain element that is the capability searched for. *)
Definition matches (config : config_image) (cap : Z) (pos : Z) : Prop :=
  PCI_CONFIG_HEADER_SIZE <= pos /\ cap_id config pos <> 0xff /\
  cap_id config pos = cap.

(** The capability slots of a 256-byte config space: dword-aligned
    offsets from the end of the header on. *)
Definition cap_slots : list Z :=
  map (fun i => PCI_CONFIG_HEADER_SIZE + PCI_CAP_SIZEOF * Z.of_nat i) (seq 0 max_cap).

(** A 256-byte image that is zero except for the bytes listed. *)
Definition image_of (bytes : list (nat * Z)) : config_image :=
  fold_right (fun '(a, b) c => <[a := b]> c) (replicate 256 0) bytes.

(** Power management at 0x40, MSI at 0x50, end of list. *)
Definition two_caps : config_image :=
  image_of [(6%nat, 0x10); (52%nat, 0x40);
            (64%nat, 0x01); (65%nat, 0x50);
            (80%nat, 0x05); (81%nat, 0x00)].

(** Two capabilities that point at each other. *)
Definition cyclic_caps : config_image :=
  image_of [(6%nat, 0x10); (52%nat, 0x40);
            (64%nat, 0x01); (65%nat, 0x44);
            (68%nat, 0x02); (69%nat, 0x40)].

End CapScan.

(** ** Netlink hot-remove handler *)

Module Netlink.

(** [PCIHostDevice]: segment, bus, device and function of the host
    device. *)
Record PCIHostDevice := {
  seg : Z;
  bus : Z;
  dev : Z;
  func : Z;
}.

(** The fields of [VFIODevice] that [vfio_parse_netlink] reads or writes:
    the host identity, the qdev it asks to unplug, the removal timer. *)
Record VFIODevice := {
  host : PCIHostDevice;
  unplug_requests : nat;     (* calls of qdev_unplug(&vdev->pdev.qdev) *)
  remove_timer : option Z;   (* expiry (ms, rt_clock) of the armed timer *)
}.

(** A received generic-netlink message: the sender's port id, the
    command of the genl header and the four identity attributes as
    [genlmsg_parse] leaves them ([None] for an attribute that is absent). *)
Record nl_msg := {
  nl_pid : Z;
  cmd : Z;
  attr_pci_domain : option Z;
  attr_pci_bus : option Z;
  attr_pci_slot : option Z;
  attr_pci_func : option Z;
}.

(** The process-wide state the handler works on: the registry [nl_list]
    and the clock the deadline is taken from. *)
Record State := {
  nl_list : list VFIODevice;
  rt_clock_ms : Z;
}.

(** The test inside [QLIST_FOREACH(vdev, &nl_list, nl_next)]. *)
Definition host_matches (s b d f : Z) (vdev : VFIODevice) : bool :=
  (s =? seg (host vdev)) && (b =? bus (host vdev)) &&
  (d =? dev (host vdev)) && (f =? func (host vdev)).

(** [QLIST_FOREACH ... break]: the position of the first registered
    device with that identity, [None] when the loop runs off the list
    ([vdev == NULL]). *)
Fixpoint nl_lookup (s b d f : Z) (l : list VFIODevice) : option nat :=
  match l with
  | [] => None
  | vdev :: rest =>
      if host_matches s b d f vdev then Some O
      else option_map S (nl_lookup s b d f rest)
  end.

(** What [case VFIO_MSG_REMOVE] does to the device found. *)
Definition request_removal (now : Z) (vdev : VFIODevice) : VFIODevice :=
  {| host := host vdev;
     unplug_requests := S (unplug_requests vdev);
     remove_timer := Some (now + 30000) |}.

Section Handler.

(** linux-vfio.h is not among the sources: the message number is a
    parameter. *)
Variable VFIO_MSG_REMOVE : Z.

Definition vfio_parse_netlink (st : State) (msg : nl_msg) : Z * State :=
  (* Filter out any messages not from the kernel *)
  if negb (nl_pid msg =? 0) then (0, st)
  else
    match attr_pci_domain msg, attr_pci_bus msg,
          attr_pci_slot msg, attr_pci_func msg with
    | Some s, Some b, Some d, Some f =>
        match nl_lookup s b d f (nl_list st) with
        | None => (0, st)
        | Some i =>
            if cmd msg =? VFIO_MSG_REMOVE then
              (0, {| nl_list :=
                       alter (request_removal (rt_clock_ms st)) i (nl_list st);
                     rt_clock_ms := rt_clock_ms st |})
            else (0, st)
        end
    | _, _, _, _ => (-1, st)
    end.

End Handler.

(** The message names the device: all four identity attributes are
    there and equal the device's host address. *)
Definition msg_names (msg : nl_msg) (vdev : VFIODevice) : bool :=
  match attr_pci_domain msg, attr_pci_bus msg,
        attr_pci_slot msg, attr_pci_func msg with
  | Some s, Some b, Some d, Some f => host_matches s b d f vdev
  | _, _, _, _ => false
  end.

End Netlink.

(** ** DMA translator *)

Module DMA.

(** [struct vfio_dma_map], the argument of VFIO_MAP_DMA / VFIO_UNMAP_DMA. *)
Record vfio_dma_map_t := {
  vaddr : Z;
  dmaaddr : Z;
  size : Z;
  flags : Z;
}.

(** One ioctl on the device fd, with what the kernel answered: [None]
    for success, [Some errno] for a failure.  [errno] after a failed
    call is a positive number. *)
Inductive call :=
  | MAP_DMA (fd : Z) (m : vfio_dma_map_t) (err : option positive)
  | UNMAP_DMA (fd : Z) (m : vfio_dma_map_t) (err : option positive).

(** The request of a call, without the kernel's answer. *)
Inductive request :=
  | ReqMap (fd : Z) (m : vfio_dma_map_t)
  | ReqUnmap (fd : Z) (m : vfio_dma_map_t).

Definition request_of (c : call) : request :=
  match c with
  | MAP_DMA fd m _ => ReqMap fd m
  | UNMAP_DMA fd m _ => ReqUnmap fd m
  end.

Definition call_err (c : call) : option positive :=
  match c with
  | MAP_DMA _ _ e => e
  | UNMAP_DMA _ _ e => e
  end.

Definition call_arg (c : call) : vfio_dma_map_t :=
  match c with
  | MAP_DMA _ m _ => m
  | UNMAP_DMA _ m _ => m
  end.

(** The IOVA [a] lies in the range a call names. *)
Definition covers (a : Z) (c : call) : bool :=
  (dmaaddr (call_arg c) <=? a) && (a <? dmaaddr (call_arg c) + size (call_arg c)).

Section Translator.

(** The kernel side of the channel: an IOMMU state of its own and the
    two ioctls acting on it. *)
Context {K : Type}.
Variable ioctl_map_dma : K -> Z -> vfio_dma_map_t -> K * option positive.
Variable ioctl_unmap_dma : K -> Z -> vfio_dma_map_t -> K * option positive.

(** QEMU's memory core: the host pointer behind a ram offset and the
    page descriptor of a guest-physical page. *)
Variable qemu_get_ram_ptr : Z -> Z.
Variable cpu_get_physical_page_desc : Z -> Z.

(** Constants of linux-vfio.h, cpu-all.h and errno.h, none of which is
    among the sources. *)
Variable VFIO_MAX_MAP_SIZE : Z.
Variable VFIO_FLAG_WRITE : Z.
Variable TARGET_PAGE_BITS : Z.
Variable IO_MEM_RAM : Z.
Variable IO_MEM_UNASSIGNED : Z.
Variable EBUSY : positive.

Definition TARGET_PAGE_SIZE : Z := Z.shiftl 1 TARGET_PAGE_BITS.
Definition TARGET_PAGE_MASK : Z := Z.lnot (TARGET_PAGE_SIZE - 1).

(** The kernel state together with the calls issued so far. *)
Record World := {
  kernel : K;
  calls : list call;
}.

Definition do_map (fd : Z) (w : World) (m : vfio_dma_map_t)
    : World * option positive :=
  let '(k, r) := ioctl_map_dma (kernel w) fd m in
  ({| kernel := k; calls := calls w ++ [MAP_DMA fd m r] |}, r).

Definition do_unmap (fd : Z) (w : World) (m : vfio_dma_map_t)
    : World * option positive :=
  let '(k, r) := ioctl_unmap_dma (kernel w) fd m in
  ({| kernel := k; calls := calls w ++ [UNMAP_DMA fd m r] |}, r).

(** What the kernel, in state [k], does with the request of a logged
    call. *)
Definition ioctl (k : K) (c : call) : K * option positive :=
  match c with
  | MAP_DMA fd m _ => ioctl_map_dma k fd m
  | UNMAP_DMA fd m _ => ioctl_unmap_dma k fd m
  end.

(** The kernel was in state [k], was put the calls of the list in
    order, gave to each the answer logged with it, and is left in
    state [k']. *)
Fixpoint asked (k : K) (cs : list call) (k' : K) : Prop :=
  match cs with
  | [] => k' = k
  | c :: cs => call_err c = snd (ioctl k c) /\ asked (fst (ioctl k c)) cs k'
  end.

(** [while (size) { ... }] of [vfio_dma_map].  [None] stands for a loop
    that has not finished within [fuel] iterations. *)
Fixpoint dma_map_loop (fuel : nat) (fd : Z) (w : World)
    (v d fl : Z) (sz : Z) : option (World * Z) :=
  if sz =? 0 then Some (w, 0)
  else
    match fuel with
    | O => None
    | S fuel =>
        (* Pass "reasonably sized" chunks to vfio *)
        let chunk := Z.min sz VFIO_MAX_MAP_SIZE in
        let m := {| vaddr := v; dmaaddr := d; size := chunk; flags := fl |} in
        let '(w, r) := do_map fd w m in
        match r with
        | Some errno => Some (w, - Z.pos errno)
        | None =>
            dma_map_loop fuel fd w
              (uint64 (v + chunk)) (uint64 (d + chunk)) fl (sz - chunk)
        end
    end.

(** Iterations that [vfio_dma_map] can need for [sz] bytes. *)
Definition map_fuel (sz : Z) : nat :=
  S (Z.to_nat (sz / VFIO_MAX_MAP_SIZE)).

Definition vfio_dma_map (fd : Z) (w : World)
    (start_addr sz phys_offset : Z) : option (World * Z) :=
  dma_map_loop (map_fuel sz) fd w
    (uint64 (qemu_get_ram_ptr phys_offset)) start_addr VFIO_FLAG_WRITE sz.

Definition vfio_dma_unmap (fd : Z) (w : World)
    (start_addr sz phys_offset : Z) : World * Z :=
  let m := {| vaddr := uint64 (qemu_get_ram_ptr phys_offset);
              dmaaddr := start_addr; size := sz; flags := VFIO_FLAG_WRITE |} in
  let '(w, r) := do_unmap fd w m in
  match r with
  | Some errno => (w, - Z.pos errno)
  | None => (w, 0)
  end.

(** [while (curr < end) { ... }] of the EBUSY branch.  The result is the
    world, [curr] and [ret] as the loop leaves them. *)
Fixpoint remap_loop (fuel : nat) (fd : Z) (w : World)
    (curr end_ curr_phys ret : Z) : option (World * Z * Z) :=
  if negb (curr <? end_) then Some (w, curr, ret)
  else
    match fuel with
    | O => None
    | S fuel =>
        let phys := cpu_get_physical_page_desc curr in
        if negb (phys =? curr_phys) then
          let '(w, _) := vfio_dma_unmap fd w curr TARGET_PAGE_SIZE phys in
          match vfio_dma_map fd w curr TARGET_PAGE_SIZE curr_phys with
          | None => None
          | Some (w, ret) =>
              if negb (ret =? 0) then Some (w, curr, ret)   (* break *)
              else
                remap_loop fuel fd w (uint64 (curr + TARGET_PAGE_SIZE)) end_
                  (uint64 (curr_phys + TARGET_PAGE_SIZE)) ret
          end
        else
          remap_loop fuel fd w (uint64 (curr + TARGET_PAGE_SIZE)) end_
            (uint64 (curr_phys + TARGET_PAGE_SIZE)) ret
    end.

Definition remap_fuel (sz : Z) : nat := Z.to_nat (sz / TARGET_PAGE_SIZE).

(** [vfio_client_set_memory]; [vdevs] holds the fds of the devices of
    the domain, [QLIST_FIRST] is its head. *)
Definition vfio_client_set_memory (vdevs : list Z) (w : World)
    (start_addr sz phys_offset : Z) : option World :=
  let flags := Z.land phys_offset (Z.lnot TARGET_PAGE_MASK) in
  match vdevs with
  | [] => Some w
  | fd :: _ =>
      if negb (Z.land (Z.lor start_addr sz) (Z.lnot TARGET_PAGE_MASK) =? 0)
      then Some w
      else if flags =? IO_MEM_RAM then
        match vfio_dma_map fd w start_addr sz phys_offset with
        | None => None
        | Some (w, ret) =>
            if ret =? 0 then Some w
            else
              let unmap_all (w : World) :=
                Some (fst (vfio_dma_unmap fd w start_addr sz phys_offset)) in
              if ret =? - Z.pos EBUSY then
                let end_ := uint64 (start_addr + sz) in
                match remap_loop (remap_fuel sz) fd w
                        start_addr end_ phys_offset ret with
                | None => None
                | Some (w, curr, _) =>
                    if negb (curr <? end_) then Some w else unmap_all w
                end
              else unmap_all w
        end
      else if flags =? IO_MEM_UNASSIGNED then
        Some (fst (vfio_dma_unmap fd w start_addr sz phys_offset))
      else Some w
  end.

(** A run of map calls that advances both addresses together: each call
    starts where the one before it ended, carries between 1 and
    [VFIO_MAX_MAP_SIZE] bytes, and the sizes add up to [total]. *)
Inductive chunk_run (fd fl : Z) : Z -> Z -> list call -> Z -> Prop :=
  | chunk_run_nil v d : chunk_run fd fl v d [] 0
  | chunk_run_cons v d sz r cs total :
      0 < sz <= VFIO_MAX_MAP_SIZE ->
      chunk_run fd fl (uint64 (v + sz)) (uint64 (d + sz)) cs total ->
      chunk_run fd fl v d
        (MAP_DMA fd {| vaddr := v; dmaaddr := d; size := sz; flags := fl |} r
           :: cs)
        (sz + total).

(** What the page walk asks for at page [i] of the range: nothing when
    the page is already backed by the wanted ram page, an unmap of the
    old binding followed by a map of the new one otherwise. *)
Definition page_requests (fd : Z) (start_addr phys_offset : Z) (i : nat)
    : list request :=
  let curr := start_addr + Z.of_nat i * TARGET_PAGE_SIZE in
  let curr_phys := uint64 (phys_offset + Z.of_nat i * TARGET_PAGE_SIZE) in
  let phys := cpu_get_physical_page_desc curr in
  if phys =? curr_phys then []
  else
    [ ReqUnmap fd {| vaddr := uint64 (qemu_get_ram_ptr phys); dmaaddr := curr;
                     size := TARGET_PAGE_SIZE; flags := VFIO_FLAG_WRITE |};
      ReqMap fd {| vaddr := uint64 (qemu_get_ram_ptr curr_phys); dmaaddr := curr;
                   size := TARGET_PAGE_SIZE; flags := VFIO_FLAG_WRITE |} ].

End Translator.

Arguments World : clear implicits.

End DMA.

(** *** Kernels and memory maps for running the translator *)

Module DMAExamples.
Import DMA.

(** A kernel that accepts every map and unmap. *)
Definition accept_all (k : unit) (fd : Z) (m : vfio_dma_map_t)
    : unit * option positive := (k, None).

(** A kernel in which the range is already bound: a map of more than
    one 4 KiB page is refused with errno 16, single pages are accepted. *)
Definition busy_range (k : unit) (fd : Z) (m : vfio_dma_map_t)
    : unit * option positive :=
  if size m >? 0x1000 then (k, Some 16%positive) else (k, None).

(** Ram offsets are mapped at a fixed host base. *)
Definition ram_ptr (phys_offset : Z) : Z := 0x7f0000000000 + phys_offset.

(** Guest page 0xa0000 is backed by ram page 0x50000, every other page
    by ram page 0x99000. *)
Definition page_desc (addr : Z) : Z :=
  if addr =? 0xa0000 then 0x50000 else 0x99000.

Definition empty_world : World unit := {| kernel := tt; calls := [] |}.

(** A kernel that counts the calls put to it and refuses the third with
    ENOMEM. *)
Definition refuse_third (k : nat) (fd : Z) (m : vfio_dma_map_t)
    : nat * option positive :=
  (S k, if (k =? 2)%nat then Some 12%positive else None).

Definition fresh_world : World nat := {| kernel := 0%nat; calls := [] |}.

(** A kernel that counts the calls and refuses every map of more than
    one 4 KiB page with EBUSY. *)
Definition busy_counting (k : nat) (fd : Z) (m : vfio_dma_map_t)
    : nat * option positive :=
  (S k, if size m >? 0x1000 then Some 16%positive else None).

Definition accept_counting (k : nat) (fd : Z) (m : vfio_dma_map_t)
    : nat * option positive := (S k, None).

End DMAExamples.

(** ** Resource mapper *)

Module Resources.

(** The name given to a ram block: "<device>.bar<i>", with ".0" or ".1"
    appended for the two halves of a BAR that carries the MSI-X table. *)
Inductive bar_name := BarName (i : nat) (part : option nat).

(** [PCIResource] as hw/vfio.c uses it.  vfio.h is not among the
    sources; the fields are those the code reads and writes, and
    [msix_offset] is taken to be a [uint32_t] like the local it is
    assigned from in [vfio_setup_msi]. *)
Record PCIResource := {
  vfiofd : Z;
  bar : Z;
  valid : bool;
  mem : bool;
  slow : bool;
  msix : bool;
  msix_offset : Z;
  size : Z;
  r_virtbase : Z * Z;
  memory_index : Z * Z;
  io_mem : Z;
  e_phys : Z;
  e_size : Z;
}.

Definition zero_resource : PCIResource :=
  {| vfiofd := 0; bar := 0; valid := false; mem := false; slow := false;
     msix := false; msix_offset := 0; size := 0; r_virtbase := (0, 0);
     memory_index := (0, 0); io_mem := 0; e_phys := 0; e_size := 0 |}.

Definition set_fd_bar (fd b : Z) (r : PCIResource) : PCIResource :=
  {| vfiofd := fd; bar := b; valid := valid r; mem := mem r; slow := slow r;
     msix := msix r; msix_offset := msix_offset r; size := size r;
     r_virtbase := r_virtbase r; memory_index := memory_index r;
     io_mem := io_mem r; e_phys := e_phys r; e_size := e_size r |}.

Definition set_valid (r : PCIResource) : PCIResource :=
  {| vfiofd := vfiofd r; bar := bar r; valid := true; mem := mem r;
     slow := slow r; msix := msix r; msix_offset := msix_offset r;
     size := size r; r_virtbase := r_virtbase r;
     memory_index := memory_index r; io_mem := io_mem r;
     e_phys := e_phys r; e_size := e_size r |}.

Definition set_mem_size (m : bool) (sz : Z) (r : PCIResource) : PCIResource :=
  {| vfiofd := vfiofd r; bar := bar r; valid := valid r; mem := m;
     slow := slow r; msix := msix r; msix_offset := msix_offset r;
     size := sz; r_virtbase := r_virtbase r;
     memory_index := memory_index r; io_mem := io_mem r;
     e_phys := e_phys r; e_size := e_size r |}.

Definition set_slow_io (idx : Z) (r : PCIResource) : PCIResource :=
  {| vfiofd := vfiofd r; bar := bar r; valid := valid r; mem := mem r;
     slow := true; msix := msix r; msix_offset := msix_offset r;
     size := size r; r_virtbase := r_virtbase r;
     memory_index := memory_index r; io_mem := idx;
     e_phys := e_phys r; e_size := e_size r |}.

(** [res->r_virtbase[k] = p; res->memory_index[k] = idx]. *)
Definition set_mapping (k : nat) (p idx : Z) (r : PCIResource) : PCIResource :=
  {| vfiofd := vfiofd r; bar := bar r; valid := valid r; mem := mem r;
     slow := slow r; msix := msix r; msix_offset := msix_offset r;
     size := size r;
     r_virtbase :=
       match k with
       | O => (p, snd (r_virtbase r))
       | _ => (fst (r_virtbase r), p)
       end;
     memory_index :=
       match k with
       | O => (idx, snd (memory_index r))
       | _ => (fst (memory_index r), idx)
       end;
     io_mem := io_mem r; e_phys := e_phys r; e_size := e_size r |}.

Definition set_e (phys sz : Z) (r : PCIResource) : PCIResource :=
  {| vfiofd := vfiofd r; bar := bar r; valid := valid r; mem := mem r;
     slow := slow r; msix := msix r; msix_offset := msix_offset r;
     size := size r; r_virtbase := r_virtbase r;
     memory_index := memory_index r; io_mem := io_mem r;
     e_phys := phys; e_size := sz |}.

(** The callback handed to [pci_register_bar]. *)
Inductive map_func := vfio_iomem_map_cb | vfio_ioport_map_cb.

(** One call of [pci_register_bar]. *)
Record bar_registration := {
  reg_bar : nat;
  reg_size : Z;
  reg_type : Z;
  reg_map : map_func;
}.

(** One established [mmap] of the device fd. *)
Record mmap_call := {
  mm_length : Z;
  mm_offset : Z;
  mm_addr : Z;
}.

(** One ram block made by [qemu_ram_alloc_from_ptr]. *)
Record ram_block := {
  rb_name : bar_name;
  rb_size : Z;
  rb_host : Z;
}.

(** What a piece of guest-physical address space is backed by. *)
Inductive mem_target :=
  | RamBlock (ram_addr : Z)      (* a ram block: a direct mapping *)
  | IoMemory (index : Z)         (* read/write callbacks: trapped *)
  | MsixMmio.                    (* the emulated MSI-X table *)

(** One registration with the guest-physical memory map. *)
Record phys_region := {
  pr_start : Z;
  pr_size : Z;
  pr_target : mem_target;
  pr_region_offset : Z;
}.

(** The device with what the mapper builds around it. *)
Record VFIODevice := {
  dev_vfiofd : Z;
  resources : list PCIResource;
  registered : list bar_registration;
  mmaps : list mmap_call;
  ram_blocks : list ram_block;
  phys_map : list phys_region;
}.

Definition get_res (v : VFIODevice) (i : nat) : PCIResource :=
  default zero_resource (resources v !! i).

Definition upd_res (i : nat) (f : PCIResource -> PCIResource)
    (v : VFIODevice) : VFIODevice :=
  {| dev_vfiofd := dev_vfiofd v;
     resources := alter f i (resources v);
     registered := registered v;
     mmaps := mmaps v;
     ram_blocks := ram_blocks v;
     phys_map := phys_map v |}.

Definition pci_register_bar (i : nat) (sz ty : Z) (cb : map_func)
    (v : VFIODevice) : VFIODevice :=
  {| dev_vfiofd := dev_vfiofd v;
     resources := resources v;
     registered := registered v ++
       [{| reg_bar := i; reg_size := sz; reg_type := ty; reg_map := cb |}];
     mmaps := mmaps v;
     ram_blocks := ram_blocks v;
     phys_map := phys_map v |}.

Definition add_mapping (m : mmap_call) (b : ram_block)
    (v : VFIODevice) : VFIODevice :=
  {| dev_vfiofd := dev_vfiofd v;
     resources := resources v;
     registered := registered v;
     mmaps := mmaps v ++ [m];
     ram_blocks := ram_blocks v ++ [b];
     phys_map := phys_map v |}.

(** The BAR a ram block was made for, and the mmaps made for BAR [i],
    each with the ram block made from it. *)
Definition bar_of (b : ram_block) : nat :=
  match rb_name b with
  | BarName j _ => j
  end.

Definition mappings_of (i : nat) (v : VFIODevice)
    : list (mmap_call * ram_block) :=
  List.filter (fun mb => (bar_of (snd mb) =? i)%nat)
    (combine (mmaps v) (ram_blocks v)).

(** Modelled from the spec: exec.c is not among the sources.  A
    registration makes the range [start, start + size) of guest-physical
    space served by its target; where ranges overlap the later
    registration is the one in force. *)
Definition cpu_register_physical_memory_offset (start sz : Z)
    (target : mem_target) (region_offset : Z) (v : VFIODevice) : VFIODevice :=
  {| dev_vfiofd := dev_vfiofd v;
     resources := resources v;
     registered := registered v;
     mmaps := mmaps v;
     ram_blocks := ram_blocks v;
     phys_map := phys_map v ++
       [{| pr_start := start; pr_size := sz; pr_target := target;
           pr_region_offset := region_offset |}] |}.

Definition cpu_register_physical_memory (start sz : Z) (target : mem_target)
    (v : VFIODevice) : VFIODevice :=
  cpu_register_physical_memory_offset start sz target 0 v.

Definition in_region (a : Z) (r : phys_region) : bool :=
  (pr_start r <=? a) && (a <? pr_start r + pr_size r).


(** The registration in force at guest-physical address [a]. *)
Definition phys_lookup (pm : list phys_region) (a : Z) : option phys_region :=
  fold_left (fun acc r => if in_region a r then Some r else acc) pm None.

(** Modelled from the spec: msix.c is not among the sources.  The table
    page of the BAR, the page at the table offset, is served by the
    virtual interrupt-table emulation. *)
Definition msix_mmio_map (i : nat) (e_phys e_size : Z)
    (v : VFIODevice) : VFIODevice :=
  cpu_register_physical_memory (e_phys + msix_offset (get_res v i))
    MSIX_PAGE_SIZE MsixMmio v.

(** [vfio_iomem_map]: the BAR has been placed at [e_phys] by the guest. *)
Definition vfio_iomem_map (i : nat) (e_phys e_size : Z)
    (v : VFIODevice) : VFIODevice :=
  let v := upd_res i (set_e e_phys e_size) v in
  let res := get_res v i in
  if msix res then
    let v :=
      if msix_offset res >? 0 then
        cpu_register_physical_memory e_phys (msix_offset res)
          (if slow res then IoMemory (io_mem res)
           else RamBlock (fst (memory_index res))) v
      else v in
    (* Overlaying MSI-X table page *)
    let v := msix_mmio_map i e_phys e_size v in
    if e_size >? uint32 (msix_offset res + MSIX_PAGE_SIZE) then
      let offset := uint32 (msix_offset res + MSIX_PAGE_SIZE) in
      let e_phys := uint64 (e_phys + offset) in
      let e_size := uint64 (e_size - offset) in
      cpu_register_physical_memory_offset e_phys e_size
        (if slow res then IoMemory (io_mem res)
         else RamBlock (snd (memory_index res)))
        (if slow res then offset else 0) v
    else v
  else
    cpu_register_physical_memory e_phys e_size
      (if slow res then IoMemory (io_mem res)
       else RamBlock (fst (memory_index res))) v.

(** How [vfio_map_resources] can end: [return 0], [return -1], or, for
    the model only, a loop cut short by its fuel. *)
Inductive outcome :=
  | Done (v : VFIODevice)
  | Failed (v : VFIODevice)
  | OutOfFuel.

Section Mapper.

(** The channel: VFIO_GET_BAR_LEN, the 4-byte config read of a BAR
    register, and mmap of the device fd ([None] for a call that fails). *)
Variable vfio_get_bar_len : nat -> option Z.
Variable pread_bar : Z -> option Z.
Variable do_mmap : Z -> Z -> option Z.

(** QEMU's memory core: the handles it gives out. *)
Variable qemu_ram_alloc_from_ptr : bar_name -> Z -> Z -> Z.
Variable cpu_register_io_memory : nat -> Z.

(** linux-vfio.h is not among the sources. *)
Variable vfio_pci_space_to_offset : Z -> Z.
Variable VFIO_PCI_BAR0_RESOURCE : Z.

(** The mmaps of a BAR are made, or one of them has failed: the device
    is then as the mmaps before that one have left it. *)
Inductive mapped :=
  | Mapped (v : VFIODevice)
  | MapFailed (v : VFIODevice).

(** One [mmap] with the ram block made from it; MAP_FAILED leaves the
    device as it is. *)
Definition map_part (i k : nat) (part : option nat) (len offset : Z)
    (v : VFIODevice) : mapped :=
  match do_mmap len offset with
  | None => MapFailed v
  | Some p =>
      let idx := qemu_ram_alloc_from_ptr (BarName i part) len p in
      Mapped (upd_res i (set_mapping k p idx)
                (add_mapping
                   {| mm_length := len; mm_offset := offset; mm_addr := p |}
                   {| rb_name := BarName i part; rb_size := len; rb_host := p |}
                   v))
  end.

(** The mmaps of a page-aligned memory BAR. *)
Definition map_direct (i : nat) (len : Z) (v : VFIODevice) : mapped :=
  let off := VFIO_PCI_BAR0_RESOURCE + Z.of_nat i in
  let res := get_res v i in
  if msix res then
    let below :=
      if negb (msix_offset res =? 0) then
        map_part i 0 (Some 0%nat) (msix_offset res)
          (vfio_pci_space_to_offset off) v
      else Mapped v in
    match below with
    | MapFailed v => MapFailed v
    | Mapped v =>
        if len >? uint32 (msix_offset res + MSIX_PAGE_SIZE) then
          map_part i 1 (Some 1%nat)
            (uint64 (len - msix_offset res - MSIX_PAGE_SIZE))
            (vfio_pci_space_to_offset off + msix_offset res + MSIX_PAGE_SIZE) v
        else Mapped v
    end
  else map_part i 0 None len (vfio_pci_space_to_offset off) v.

Definition mem_type (bar : Z) : Z :=
  if negb (Z.land bar PCI_BASE_ADDRESS_MEM_PREFETCH =? 0)
  then PCI_BASE_ADDRESS_MEM_PREFETCH
  else PCI_BASE_ADDRESS_SPACE_MEMORY.

(** The slot the loop goes on with after a memory BAR in slot [i]. *)
Definition next_slot (i : nat) (bar : Z) : nat :=
  if negb (Z.land bar PCI_BASE_ADDRESS_MEM_TYPE_64 =? 0) then S (S i) else S i.

Fixpoint map_resources_loop (fuel : nat) (i : nat) (v : VFIODevice)
    : outcome :=
  if (PCI_ROM_SLOT <=? i)%nat then Done v
  else
    match fuel with
    | O => OutOfFuel
    | S fuel =>
        let v := upd_res i (set_fd_bar (dev_vfiofd v) (Z.of_nat i)) v in
        match vfio_get_bar_len i with
        | None => Failed v
        | Some len =>
            if len =? 0 then map_resources_loop fuel (S i) v
            else
              let offset := uint8 (PCI_BASE_ADDRESS_0 + 4 * Z.of_nat i) in
              match pread_bar offset with
              | None => Failed v
              | Some bar =>
                  let space := Z.land bar PCI_BASE_ADDRESS_SPACE in
                  if (space =? PCI_BASE_ADDRESS_SPACE_MEMORY) &&
                     (Z.land len 0xfff =? 0) then
                    (* Page aligned MMIO BARs - direct map *)
                    let v := upd_res i (set_mem_size true len) v in
                    match map_direct i len v with
                    | MapFailed v => Failed v
                    | Mapped v =>
                        let v := pci_register_bar i (size (get_res v i))
                                   (mem_type bar) vfio_iomem_map_cb v in
                        map_resources_loop fuel (next_slot i bar)
                          (upd_res i set_valid v)
                    end
                  else if space =? PCI_BASE_ADDRESS_SPACE_MEMORY then
                    (* Non-page aligned MMIO - slow map *)
                    let v := upd_res i (set_mem_size true len) v in
                    let v := upd_res i
                               (set_slow_io (cpu_register_io_memory i)) v in
                    let v := pci_register_bar i (size (get_res v i))
                               (mem_type bar) vfio_iomem_map_cb v in
                    map_resources_loop fuel (next_slot i bar)
                      (upd_res i set_valid v)
                  else if space =? PCI_BASE_ADDRESS_SPACE_IO then
                    let v :=
                      upd_res i (set_mem_size (mem (get_res v i)) len) v in
                    let v := pci_register_bar i (size (get_res v i))
                               PCI_BASE_ADDRESS_SPACE_IO vfio_ioport_map_cb v in
                    map_resources_loop fuel (S i) (upd_res i set_valid v)
                  else
                    map_resources_loop fuel (S i) (upd_res i set_valid v)
              end
        end
    end.

Definition vfio_map_resources (v : VFIODevice) : outcome :=
  map_resources_loop PCI_ROM_SLOT 0 v.

End Mapper.

(** The device as [vfio_initfn] hands it to the mapper when the MSI-X
    table was found in BAR [table_bar] at [table_offset]: zeroed
    descriptors, that one marked as the carrier of the table. *)
Definition fresh_device (fd : Z) (table : option (nat * Z)) : VFIODevice :=
  let clean :=
    {| dev_vfiofd := fd;
       resources := replicate PCI_ROM_SLOT zero_resource;
       registered := []; mmaps := []; ram_blocks := []; phys_map := [] |} in
  match table with
  | None => clean
  | Some (table_bar, table_offset) =>
      upd_res table_bar
        (fun r =>
           {| vfiofd := vfiofd r; bar := bar r; valid := valid r;
              mem := mem r; slow := slow r; msix := true;
              msix_offset := table_offset; size := size r;
              r_virtbase := r_virtbase r; memory_index := memory_index r;
              io_mem := io_mem r; e_phys := e_phys r; e_size := e_size r |})
        clean
  end.

End Resources.

(** *** A host device for running the mapper *)

Module ResourcesExamples.
Import Resources.

(** BAR 0 is [len0] bytes long, the other BARs are not implemented. *)
Definition bar_len (len0 : Z) (i : nat) : option Z :=
  match i with
  | O => Some len0
  | _ => Some 0
  end.

(** Every BAR register reads as a 32-bit, non-prefetchable memory BAR. *)
Definition bar_reg (offset : Z) : option Z := Some 0.

(** Every mmap succeeds, at a host address that follows the file offset. *)
Definition mmap_at (len offset : Z) : option Z := Some (0x7f0000000000 + offset).

Definition ram_handle (name : bar_name) (len p : Z) : Z := p - 0x7f0000000000.
Definition io_handle (i : nat) : Z := 0x100 + Z.of_nat i.
Definition space_to_offset (sp : Z) : Z := Z.shiftl sp 32.

Definition map_resources_of (len0 : Z) : VFIODevice -> outcome :=
  vfio_map_resources (bar_len len0) bar_reg mmap_at ram_handle io_handle
    space_to_offset 0.

(** BAR 0 is 0x2000 bytes long and BAR 1 0x4000 bytes. *)
Definition two_bars (i : nat) : option Z :=
  match i with
  | 0%nat => Some 0x2000
  | 1%nat => Some 0x4000
  | _ => Some 0
  end.

Definition map_two_bars : VFIODevice -> outcome :=
  vfio_map_resources two_bars bar_reg mmap_at ram_handle io_handle
    space_to_offset 0.

End ResourcesExamples.

(** ** Config-space proxy and interrupt bridge *)

Module Bridge.

(** Modelled from the spec: hw/pci.h is not among the sources; the bits
    of [cap_present] that say the emulated device has an MSI or MSI-X
    capability. *)
Definition QEMU_PCI_CAP_MSI : Z := 0x1.
Definition QEMU_PCI_CAP_MSIX : Z := 0x2.

(** Modelled from the spec: range.h is not among the sources.  Two byte
    ranges overlap when neither ends before the other starts; the
    arguments are [uint64_t]. *)
Definition ranges_overlap (first1 len1 first2 len2 : Z) : bool :=
  let last1 := uint64 (first1 + len1 - 1) in
  let last2 := uint64 (first2 + len2 - 1) in
  negb ((last2 <? uint64 first1) || (last1 <? uint64 first2)).

(** The fields of [PCIDevice] the proxy reads. *)
Record PCIDevice := {
  config : config_image;
  cap_present : Z;
  msi_cap : Z;
  msix_cap : Z;
  msix_entries_nr : Z;
}.

Inductive int_mode := INT_NONE | INT_INTx | INT_MSI | INT_MSIX.

(** [MSIVector]: the fd of its event notifier and its number. *)
Record MSIVector := {
  mv_fd : Z;
  mv_vector : Z;
}.

(** [INTx]. *)
Record INTx := {
  pending : bool;
  pin : Z;
  irq : Z;
  intx_fd : Z;
}.

(** What [vdev->msi_vectors] points at: nothing yet (the device
    structure starts out zeroed), a block of [qemu_malloc], or a block
    that [qemu_free] has taken back while the pointer still holds its
    address. *)
Inductive block := NoBlock | Live | Dangling.

(** What the main loop calls when an fd becomes readable. *)
Inductive fd_handler :=
  | vfio_intx_interrupt
  | vfio_msi_interrupt (vector : nat).

(** A call from [vfio_pci_write_config] into the interrupt bridge. *)
Inductive bridge_call :=
  | EnableMsi (msix : bool)
  | DisableMsi (msix : bool).

(** How a write moved an enable bit. *)
Inductive edge := Rising | Falling | Steady.

Definition edge_of (was_enabled is_enabled : bool) : edge :=
  match was_enabled, is_enabled with
  | false, true => Rising
  | true, false => Falling
  | _, _ => Steady
  end.

(** The bridge call that answers a change of an enable bit. *)
Definition calls_of_edge (e : bool * edge) : list bridge_call :=
  match e with
  | (msix, Rising) => [EnableMsi msix]
  | (msix, Falling) => [DisableMsi msix]
  | (_, Steady) => []
  end.

Definition is_enable_call (msix : bool) (c : bridge_call) : bool :=
  match c with
  | EnableMsi m => Bool.eqb m msix
  | DisableMsi _ => false
  end.

Definition is_disable_call (msix : bool) (c : bridge_call) : bool :=
  match c with
  | EnableMsi _ => false
  | DisableMsi m => Bool.eqb m msix
  end.

Definition is_edge (msix : bool) (e : edge) (x : bool * edge) : bool :=
  Bool.eqb (fst x) msix &&
  match e, snd x with
  | Rising, Rising | Falling, Falling | Steady, Steady => true
  | _, _ => false
  end.

Section Device.

(** The kernel side of the channel, with a state of its own. *)
Context {K : Type}.

(** [VFIODevice] as far as interrupts and config space go, together
    with the pieces of QEMU the bridge registers with: the fd handlers of
    the main loop, the open event notifiers, the MSI-X vectors marked as
    used, the EOI and irq-update notifier lists.  [msi_vectors] is the
    content of the vectors block and [vectors_block] what has become of
    the block itself.  [freed_twice] says that [qemu_free] was handed a
    block it had already taken back: C gives the program no behaviour
    from there on (the allocator of glibc aborts the process), so what
    the functions of the bridge compute after that is not a run of the
    program, and [vfio_pci_write_config] ends there. *)
Record VFIODevice := {
  pdev : PCIDevice;
  msi_cap_size : Z;
  interrupt : int_mode;
  nr_vectors : Z;
  msi_vectors : list MSIVector;
  vectors_block : block;
  freed_twice : bool;
  intx : INTx;
  fd_handlers : gmap Z fd_handler;
  open_notifiers : gset Z;
  msix_used : gset nat;
  eoi_notifiers : list Z;
  irq_update_notifier : bool;
  kernel : K;
}.

Definition set_kernel (k : K) (v : VFIODevice) : VFIODevice :=
  {| pdev := pdev v; msi_cap_size := msi_cap_size v; interrupt := interrupt v;
     nr_vectors := nr_vectors v; msi_vectors := msi_vectors v;
     vectors_block := vectors_block v; freed_twice := freed_twice v; intx := intx v;
     fd_handlers := fd_handlers v; open_notifiers := open_notifiers v;
     msix_used := msix_used v; eoi_notifiers := eoi_notifiers v;
     irq_update_notifier := irq_update_notifier v; kernel := k |}.

Definition set_pdev (p : PCIDevice) (v : VFIODevice) : VFIODevice :=
  {| pdev := p; msi_cap_size := msi_cap_size v; interrupt := interrupt v;
     nr_vectors := nr_vectors v; msi_vectors := msi_vectors v;
     vectors_block := vectors_block v; freed_twice := freed_twice v; intx := intx v;
     fd_handlers := fd_handlers v; open_notifiers := open_notifiers v;
     msix_used := msix_used v; eoi_notifiers := eoi_notifiers v;
     irq_update_notifier := irq_update_notifier v; kernel := kernel v |}.

Definition set_interrupt (m : int_mode) (v : VFIODevice) : VFIODevice :=
  {| pdev := pdev v; msi_cap_size := msi_cap_size v; interrupt := m;
     nr_vectors := nr_vectors v; msi_vectors := msi_vectors v;
     vectors_block := vectors_block v; freed_twice := freed_twice v; intx := intx v;
     fd_handlers := fd_handlers v; open_notifiers := open_notifiers v;
     msix_used := msix_used v; eoi_notifiers := eoi_notifiers v;
     irq_update_notifier := irq_update_notifier v; kernel := kernel v |}.

Definition set_vectors (n : Z) (vs : list MSIVector) (v : VFIODevice)
    : VFIODevice :=
  {| pdev := pdev v; msi_cap_size := msi_cap_size v; interrupt := interrupt v;
     nr_vectors := n; msi_vectors := vs;
     vectors_block := vectors_block v; freed_twice := freed_twice v;
     intx := intx v;
     fd_handlers := fd_handlers v; open_notifiers := open_notifiers v;
     msix_used := msix_used v; eoi_notifiers := eoi_notifiers v;
     irq_update_notifier := irq_update_notifier v; kernel := kernel v |}.

Definition set_block (b : block) (twice : bool) (v : VFIODevice)
    : VFIODevice :=
  {| pdev := pdev v; msi_cap_size := msi_cap_size v; interrupt := interrupt v;
     nr_vectors := nr_vectors v; msi_vectors := msi_vectors v;
     vectors_block := b; freed_twice := twice; intx := intx v;
     fd_handlers := fd_handlers v; open_notifiers := open_notifiers v;
     msix_used := msix_used v; eoi_notifiers := eoi_notifiers v;
     irq_update_notifier := irq_update_notifier v; kernel := kernel v |}.

(** [vdev->msi_vectors = qemu_malloc (...)]: a new block, whatever the
    pointer held before. *)
Definition qemu_malloc_vectors (v : VFIODevice) : VFIODevice :=
  set_block Live (freed_twice v) v.

(** [qemu_free (vdev->msi_vectors)]: the block goes back to the
    allocator and the pointer keeps its address.  Freeing a null
    pointer does nothing; freeing a block that has gone back already is
    the double free. *)
Definition qemu_free_vectors (v : VFIODevice) : VFIODevice :=
  match vectors_block v with
  | NoBlock => v
  | Live => set_block Dangling (freed_twice v) v
  | Dangling => set_block Dangling true v
  end.

Definition set_intx (x : INTx) (v : VFIODevice) : VFIODevice :=
  {| pdev := pdev v; msi_cap_size := msi_cap_size v; interrupt := interrupt v;
     nr_vectors := nr_vectors v; msi_vectors := msi_vectors v;
     vectors_block := vectors_block v; freed_twice := freed_twice v; intx := x;
     fd_handlers := fd_handlers v; open_notifiers := open_notifiers v;
     msix_used := msix_used v; eoi_notifiers := eoi_notifiers v;
     irq_update_notifier := irq_update_notifier v; kernel := kernel v |}.

Definition set_fd_handlers (h : gmap Z fd_handler) (v : VFIODevice)
    : VFIODevice :=
  {| pdev := pdev v; msi_cap_size := msi_cap_size v; interrupt := interrupt v;
     nr_vectors := nr_vectors v; msi_vectors := msi_vectors v;
     vectors_block := vectors_block v; freed_twice := freed_twice v; intx := intx v;
     fd_handlers := h; open_notifiers := open_notifiers v;
     msix_used := msix_used v; eoi_notifiers := eoi_notifiers v;
     irq_update_notifier := irq_update_notifier v; kernel := kernel v |}.

Definition set_open_notifiers (o : gset Z) (v : VFIODevice) : VFIODevice :=
  {| pdev := pdev v; msi_cap_size := msi_cap_size v; interrupt := interrupt v;
     nr_vectors := nr_vectors v; msi_vectors := msi_vectors v;
     vectors_block := vectors_block v; freed_twice := freed_twice v; intx := intx v;
     fd_handlers := fd_handlers v; open_notifiers := o;
     msix_used := msix_used v; eoi_notifiers := eoi_notifiers v;
     irq_update_notifier := irq_update_notifier v; kernel := kernel v |}.

Definition set_msix_used (u : gset nat) (v : VFIODevice) : VFIODevice :=
  {| pdev := pdev v; msi_cap_size := msi_cap_size v; interrupt := interrupt v;
     nr_vectors := nr_vectors v; msi_vectors := msi_vectors v;
     vectors_block := vectors_block v; freed_twice := freed_twice v; intx := intx v;
     fd_handlers := fd_handlers v; open_notifiers := open_notifiers v;
     msix_used := u; eoi_notifiers := eoi_notifiers v;
     irq_update_notifier := irq_update_notifier v; kernel := kernel v |}.

Definition set_irq_notifiers (eoi : list Z) (upd : bool) (v : VFIODevice)
    : VFIODevice :=
  {| pdev := pdev v; msi_cap_size := msi_cap_size v; interrupt := interrupt v;
     nr_vectors := nr_vectors v; msi_vectors := msi_vectors v;
     vectors_block := vectors_block v; freed_twice := freed_twice v; intx := intx v;
     fd_handlers := fd_handlers v; open_notifiers := open_notifiers v;
     msix_used := msix_used v; eoi_notifiers := eoi;
     irq_update_notifier := upd; kernel := kernel v |}.

(** The channel: positioned reads and writes of the physical config
    space, the interrupt ioctls ([true] for a call that returned 0), and
    [eventfd] behind [event_notifier_init] ([None] when it fails). *)
Variable pread_config : K -> Z -> Z -> option Z.
Variable pwrite_config : K -> Z -> Z -> Z -> K.
Variable ioctl_set_irq_eventfd : K -> Z -> K * bool.
Variable ioctl_set_msi_eventfds : K -> bool -> list Z -> K * bool.
Variable ioctl_unmask_irq : K -> K.
Variable eventfd : K -> K * option Z.

(** The fd found in a notifier whose initialisation failed: memory that
    was never written. *)
Variable stale_fd : nat -> Z.

(** QEMU's PCI core (pci.c, msi.c, msix.c, none among the sources): the
    emulation of a config write, the interrupt line behind a pin, the
    number of MSI vectors the guest has been given, and the enable bits
    of the emulated MSI and MSI-X capabilities. *)
Variable pci_default_write_config : PCIDevice -> Z -> Z -> Z -> PCIDevice.
Variable msi_write_config : PCIDevice -> Z -> Z -> Z -> PCIDevice.
Variable msix_write_config : PCIDevice -> Z -> Z -> Z -> PCIDevice.
Variable pci_get_irq : PCIDevice -> Z -> Z.
Variable msi_nr_vectors_allocated : PCIDevice -> Z.
Variable msi_enabled : PCIDevice -> bool.
Variable msix_enabled : PCIDevice -> bool.

(** Modelled from the spec: pci.c is not among the sources.  A read
    served from the locally emulated byte image: [len] bytes at [addr],
    little endian. *)
Fixpoint le_bytes (c : config_image) (addr : Z) (len : nat) : Z :=
  match len with
  | O => 0
  | S n => config_get c addr + 256 * le_bytes c (addr + 1) n
  end.

Definition pci_default_read_config (p : PCIDevice) (addr len : Z) : Z :=
  le_bytes (config p) addr (Z.to_nat len).

Definition has_cap (p : PCIDevice) (cap : Z) : bool :=
  negb (Z.land (cap_present p) cap =? 0).

(** *** PCI config space *)

Definition vfio_pci_read_config (v : VFIODevice) (addr len : Z) : Z :=
  if ranges_overlap addr len PCI_ROM_ADDRESS 4 ||
     (has_cap (pdev v) QEMU_PCI_CAP_MSIX &&
      ranges_overlap addr len (msix_cap (pdev v)) MSIX_CAP_LENGTH) ||
     (has_cap (pdev v) QEMU_PCI_CAP_MSI &&
      ranges_overlap addr len (msi_cap (pdev v)) (msi_cap_size v))
  then pci_default_read_config (pdev v) addr len
  else
    match pread_config (kernel v) addr len with
    | Some val => val
    | None => uint32 (-1)
    end.

(** *** INTx *)

Definition vfio_unmask_intx (v : VFIODevice) : VFIODevice :=
  set_kernel (ioctl_unmask_irq (kernel v)) v.

Definition vfio_disable_intx (v : VFIODevice) : VFIODevice :=
  let v := set_kernel (fst (ioctl_set_irq_eventfd (kernel v) (-1))) v in
  let v := set_irq_notifiers
             (List.filter (fun g => negb (g =? irq (intx v))) (eoi_notifiers v))
             false v in
  let fd := intx_fd (intx v) in
  let v := set_fd_handlers (delete fd (fd_handlers v)) v in
  let v := set_open_notifiers (open_notifiers v ∖ {[fd]}) v in
  set_interrupt INT_NONE v.

(** [vfio_enable_intx], given what it calls to put the current mode
    down.  The result is the device and the value returned (0 or -1). *)
Definition vfio_enable_intx_with
    (disable_interrupts : VFIODevice -> option VFIODevice)
    (v : VFIODevice) : option (VFIODevice * Z) :=
  let pin_reg := uint8 (vfio_pci_read_config v PCI_INTERRUPT_PIN 1) in
  if pin_reg =? 0 then Some (v, 0)
  else
    match disable_interrupts v with
    | None => None
    | Some v =>
        let p := uint8 (pin_reg - 1) in   (* Pin A (1) -> irq[0] *)
        let line := pci_get_irq (pdev v) p in
        let v := set_intx {| pending := pending (intx v); pin := p;
                             irq := line; intx_fd := intx_fd (intx v) |} v in
        let v := set_irq_notifiers (line :: eoi_notifiers v) true v in
        let '(k, r) := eventfd (kernel v) in
        let v := set_kernel k v in
        match r with
        | None => Some (v, -1)
        | Some fd =>
            let v := set_intx {| pending := pending (intx v); pin := pin (intx v);
                                 irq := irq (intx v); intx_fd := fd |} v in
            let v := set_open_notifiers ({[fd]} ∪ open_notifiers v) v in
            let v := set_fd_handlers
                       (<[fd := vfio_intx_interrupt]> (fd_handlers v)) v in
            let '(k, ok) := ioctl_set_irq_eventfd (kernel v) fd in
            let v := set_kernel k v in
            if negb ok then Some (v, -1)
            else
              let v := set_interrupt INT_INTx v in
              Some (vfio_unmask_intx v, 0)
        end
    end.

(** *** MSI/X *)

(** Modelled from the spec: msix.c is not among the sources.  The
    virtual table machinery keeps, per vector, a mark that the vector is
    claimed; [msix_vector_use] sets it, [msix_vector_unuse] releases it. *)
Definition msix_vector_use (i : nat) (v : VFIODevice) : VFIODevice :=
  set_msix_used ({[i]} ∪ msix_used v) v.

Definition msix_vector_unuse (i : nat) (v : VFIODevice) : VFIODevice :=
  set_msix_used (msix_used v ∖ {[i]}) v.

(** Vector [i] of the loop that sets the vectors up. *)
Definition msi_vector_setup (msix : bool) (i : nat) (v : VFIODevice)
    : VFIODevice :=
  let '(k, r) := eventfd (kernel v) in
  let v := set_kernel k v in
  let fd := match r with Some fd => fd | None => stale_fd i end in
  let v := match r with
           | Some fd => set_open_notifiers ({[fd]} ∪ open_notifiers v) v
           | None => v
           end in
  let v := set_vectors (nr_vectors v)
             (msi_vectors v ++ [{| mv_fd := fd; mv_vector := Z.of_nat i |}]) v in
  let v := set_fd_handlers (<[fd := vfio_msi_interrupt i]> (fd_handlers v)) v in
  if msix then msix_vector_use i v else v.

(** [for (i = 0; i < vdev->nr_vectors; i++)], [n] vectors from [i] on. *)
Fixpoint msi_setup_loop (msix : bool) (n : nat) (i : nat) (v : VFIODevice)
    : VFIODevice :=
  match n with
  | O => v
  | S n => msi_setup_loop msix n (S i) (msi_vector_setup msix i v)
  end.

(** What tearing one vector down does; the same three calls are in the
    failure path of [vfio_enable_msi] and in [vfio_disable_msi]. *)
Definition msi_vector_teardown (msix : bool) (i : nat) (v : VFIODevice)
    : VFIODevice :=
  let fd := match msi_vectors v !! i with
            | Some vec => mv_fd vec
            | None => 0
            end in
  let v := if msix then msix_vector_unuse i v else v in
  let v := set_fd_handlers (delete fd (fd_handlers v)) v in
  set_open_notifiers (open_notifiers v ∖ {[fd]}) v.

Fixpoint msi_teardown_loop (msix : bool) (n : nat) (i : nat) (v : VFIODevice)
    : VFIODevice :=
  match n with
  | O => v
  | S n => msi_teardown_loop msix n (S i) (msi_vector_teardown msix i v)
  end.

(** [fds[0] = nr_vectors; fds[i + 1] = fd of vector i]. *)
Definition eventfds_arg (v : VFIODevice) : list Z :=
  nr_vectors v :: map mv_fd (msi_vectors v).

(** The device once the vectors are set up, before the bulk ioctl. *)
Definition msi_prepare (msix : bool) (v : VFIODevice) : VFIODevice :=
  let n := if msix then msix_entries_nr (pdev v)
           else msi_nr_vectors_allocated (pdev v) in
  msi_setup_loop msix (Z.to_nat n) 0
    (qemu_malloc_vectors (set_vectors n [] v)).

(** [vfio_disable_msi], given [vfio_enable_intx]. *)
Definition vfio_disable_msi_with
    (enable_intx : VFIODevice -> option (VFIODevice * Z))
    (msix : bool) (v : VFIODevice) : option VFIODevice :=
  let v := set_kernel (fst (ioctl_set_msi_eventfds (kernel v) msix [0])) v in
  let v := msi_teardown_loop msix (Z.to_nat (nr_vectors v)) 0 v in
  let v := qemu_free_vectors v in
  let v := set_vectors 0 [] v in
  let v := set_interrupt INT_NONE v in
  option_map fst (enable_intx v).

(** [vfio_disable_interrupts]; the three functions call each other, the
    fuel bounds the depth of the calls. *)
Fixpoint vfio_disable_interrupts (fuel : nat) (v : VFIODevice)
    : option VFIODevice :=
  match fuel with
  | O => None
  | S fuel =>
      match interrupt v with
      | INT_NONE => Some v
      | INT_INTx => Some (vfio_disable_intx v)
      | INT_MSI =>
          vfio_disable_msi_with
            (vfio_enable_intx_with (vfio_disable_interrupts fuel)) false v
      | INT_MSIX =>
          vfio_disable_msi_with
            (vfio_enable_intx_with (vfio_disable_interrupts fuel)) true v
      end
  end.

Definition vfio_enable_intx (fuel : nat) (v : VFIODevice)
    : option (VFIODevice * Z) :=
  vfio_enable_intx_with (vfio_disable_interrupts fuel) v.

Definition vfio_disable_msi (fuel : nat) (msix : bool) (v : VFIODevice)
    : option VFIODevice :=
  vfio_disable_msi_with (vfio_enable_intx fuel) msix v.

Definition vfio_enable_msi (fuel : nat) (msix : bool) (v : VFIODevice)
    : option VFIODevice :=
  match vfio_disable_interrupts fuel v with
  | None => None
  | Some v =>
      let v := msi_prepare msix v in
      let '(k, ok) := ioctl_set_msi_eventfds (kernel v) msix (eventfds_arg v) in
      let v := set_kernel k v in
      if negb ok then
        let v := msi_teardown_loop msix (Z.to_nat (nr_vectors v)) 0 v in
        let v := qemu_free_vectors v in
        Some (set_vectors 0 [] v)
      else
        Some (set_interrupt (if msix then INT_MSIX else INT_MSI) v)
  end.

(** *** Config writes *)

(** How a config write, or a sequence of them, ends: it has returned;
    or it has ended inside the last of its calls into the bridge, where
    [qemu_free] was handed the vectors block a second time; or the
    model has run out of fuel.  The first two carry the calls made into
    the bridge. *)
Inductive write_result :=
  | Returned (v : VFIODevice) (calls : list bridge_call)
  | Aborted (v : VFIODevice) (calls : list bridge_call)
  | OutOfFuel.

(** A call into the bridge as [vfio_pci_write_config] sees it. *)
Definition bridge_result (call : bridge_call) (r : option VFIODevice)
    : write_result :=
  match r with
  | None => OutOfFuel
  | Some v => if freed_twice v then Aborted v [call] else Returned v [call]
  end.

(** The MSI or MSI-X part of [vfio_pci_write_config]: when the write
    overlaps the capability, emulate it and tell the bridge about a
    change of the enable bit. *)
Definition cap_write (fuel : nat) (msix : bool) (addr val len : Z)
    (v : VFIODevice) : write_result :=
  let present :=
    has_cap (pdev v) (if msix then QEMU_PCI_CAP_MSIX else QEMU_PCI_CAP_MSI) in
  let overlap :=
    if msix then ranges_overlap addr len (msix_cap (pdev v)) MSIX_CAP_LENGTH
    else ranges_overlap addr len (msi_cap (pdev v)) (msi_cap_size v) in
  if present && overlap then
    let enabled := if msix then msix_enabled else msi_enabled in
    let cap_write_config :=
      if msix then msix_write_config else msi_write_config in
    let was_enabled := enabled (pdev v) in
    let p := pci_default_write_config (pdev v) addr val len in
    let p := cap_write_config p addr val len in
    let v := set_pdev p v in
    let is_enabled := enabled (pdev v) in
    if negb was_enabled && is_enabled then
      bridge_result (EnableMsi msix) (vfio_enable_msi fuel msix v)
    else if was_enabled && negb is_enabled then
      bridge_result (DisableMsi msix) (vfio_disable_msi fuel msix v)
    else Returned v []
  else Returned v [].

Definition vfio_pci_write_config (fuel : nat) (v : VFIODevice)
    (addr val len : Z) : write_result :=
  (* Write everything to VFIO, let it filter out what we can't write *)
  let v := set_kernel (pwrite_config (kernel v) addr val len) v in
  (* Write standard header bits to emulation *)
  if addr <? PCI_CONFIG_HEADER_SIZE then
    Returned (set_pdev (pci_default_write_config (pdev v) addr val len) v) []
  else
    (* MSI/MSI-X Enabling/Disabling *)
    match cap_write fuel false addr val len v with
    | OutOfFuel => OutOfFuel
    | Aborted v calls_msi => Aborted v calls_msi
    | Returned v calls_msi =>
        match cap_write fuel true addr val len v with
        | OutOfFuel => OutOfFuel
        | Aborted v calls_msix => Aborted v (calls_msi ++ calls_msix)
        | Returned v calls_msix => Returned v (calls_msi ++ calls_msix)
        end
    end.

(** A sequence of config writes, each [(addr, val, len)]. *)
Fixpoint write_sequence (fuel : nat) (v : VFIODevice)
    (ws : list (Z * Z * Z)) : write_result :=
  match ws with
  | [] => Returned v []
  | (addr, val, len) :: ws =>
      match vfio_pci_write_config fuel v addr val len with
      | OutOfFuel => OutOfFuel
      | Aborted v calls => Aborted v calls
      | Returned v calls =>
          match write_sequence fuel v ws with
          | OutOfFuel => OutOfFuel
          | Aborted v rest => Aborted v (calls ++ rest)
          | Returned v rest => Returned v (calls ++ rest)
          end
      end
  end.

(** *** The enable bits as a config write moves them *)

(** The emulated device after the local emulation update of a write
    that overlaps the MSI ([msix = false]) or MSI-X capability. *)
Definition emulate_cap_write (msix : bool) (p : PCIDevice)
    (addr val len : Z) : PCIDevice :=
  (if msix then msix_write_config else msi_write_config)
    (pci_default_write_config p addr val len) addr val len.

Definition cap_enabled (msix : bool) (p : PCIDevice) : bool :=
  if msix then msix_enabled p else msi_enabled p.

(** The write overlaps the capability window of a capability the
    device has. *)
Definition cap_window_hit (msix : bool) (p : PCIDevice) (cap_size : Z)
    (addr len : Z) : bool :=
  if msix then
    has_cap p QEMU_PCI_CAP_MSIX &&
    ranges_overlap addr len (msix_cap p) MSIX_CAP_LENGTH
  else
    has_cap p QEMU_PCI_CAP_MSI &&
    ranges_overlap addr len (msi_cap p) cap_size.

(** One write seen from the emulated device alone: was-enabled before
    the local emulation update against is-enabled after it, for a write
    that overlaps the capability window; nothing for any other write. *)
Definition observe_cap (msix : bool) (cap_size : Z) (addr val len : Z)
    (p : PCIDevice) : PCIDevice * list (bool * edge) :=
  if cap_window_hit msix p cap_size addr len then
    let p' := emulate_cap_write msix p addr val len in
    (p', [(msix, edge_of (cap_enabled msix p) (cap_enabled msix p'))])
  else (p, []).

(** The changes of the enable bits over a sequence of writes, MSI
    before MSI-X within one write.  A write that starts inside the
    standard header is mirrored into the image and observed no further. *)
Fixpoint observed_edges (cap_size : Z) (p : PCIDevice)
    (ws : list (Z * Z * Z)) : list (bool * edge) :=
  match ws with
  | [] => []
  | (addr, val, len) :: ws =>
      if addr <? PCI_CONFIG_HEADER_SIZE then
        observed_edges cap_size (pci_default_write_config p addr val len) ws
      else
        let '(p1, e1) := observe_cap false cap_size addr val len p in
        let '(p2, e2) := observe_cap true cap_size addr val len p1 in
        e1 ++ e2 ++ observed_edges cap_size p2 ws
  end.

End Device.

Arguments VFIODevice : clear implicits.
Arguments write_result : clear implicits.

End Bridge.

(** *** A host and an emulated device for running the bridge *)

Module BridgeExamples.
Import Bridge.

(** The kernel state is the number of the next fd it hands out. *)
Definition ex_pread_config (k : Z) (addr len : Z) : option Z :=
  if addr =? PCI_INTERRUPT_PIN then Some 1 else Some 0.
Definition ex_pwrite_config (k : Z) (addr val len : Z) : Z := k.
Definition ex_set_irq_eventfd (k : Z) (fd : Z) : Z * bool := (k, true).
Definition ex_unmask_irq (k : Z) : Z := k.
Definition ex_eventfd (k : Z) : Z * option Z := (k + 1, Some k).
Definition ex_stale_fd (i : nat) : Z := -1.

(** MSI vectors can be registered, MSI-X vectors are refused; dropping
    the registrations (count 0) always works. *)
Definition ex_set_msi_eventfds (k : Z) (msix : bool) (fds : list Z) : Z * bool :=
  (k, match fds with
      | n :: _ => (n =? 0) || negb msix
      | [] => true
      end).

(** Modelled from the spec: pci.c is not among the sources.  A write is
    mirrored into the local image byte for byte, little endian. *)
Fixpoint store_le (c : config_image) (addr val : Z) (len : nat) : config_image :=
  match len with
  | O => c
  | S n => store_le (<[Z.to_nat addr := val mod 256]> c) (addr + 1) (val / 256) n
  end.

Definition ex_default_write_config (p : PCIDevice) (addr val len : Z)
    : PCIDevice :=
  {| config := store_le (config p) addr val (Z.to_nat len);
     cap_present := cap_present p; msi_cap := msi_cap p;
     msix_cap := msix_cap p; msix_entries_nr := msix_entries_nr p |}.

Definition ex_cap_write_config (p : PCIDevice) (addr val len : Z)
    : PCIDevice := p.

Definition ex_get_irq (p : PCIDevice) (pin : Z) : Z := 10 + pin.
Definition ex_nr_vectors (p : PCIDevice) : Z := 1.

(** Modelled from the spec: msi.c and msix.c are not among the sources.
    The emulated enable bits: bit 0 of the MSI flags word, bit 7 of the
    high byte of the MSI-X flags word. *)
Definition ex_msi_enabled (p : PCIDevice) : bool :=
  has_cap p QEMU_PCI_CAP_MSI &&
  negb (Z.land (config_get (config p) (msi_cap p + PCI_MSI_FLAGS))
          PCI_MSI_FLAGS_ENABLE =? 0).

Definition ex_msix_enabled (p : PCIDevice) : bool :=
  has_cap p QEMU_PCI_CAP_MSIX &&
  negb (Z.land (config_get (config p) (msix_cap p + MSIX_CONTROL_OFFSET))
          MSIX_ENABLE_MASK =? 0).

(** A device with the MSI capability at 0x40 (10 bytes) and the MSI-X
    capability at 0x50 (2 vectors), nothing enabled, in mode NONE. *)
Definition ex_device : VFIODevice Z :=
  {| pdev := {| config := replicate 256 0; cap_present := 3;
                msi_cap := 0x40; msix_cap := 0x50; msix_entries_nr := 2 |};
     msi_cap_size := 0xa;
     interrupt := INT_NONE;
     nr_vectors := 0;
     msi_vectors := [];
     vectors_block := NoBlock;
     freed_twice := false;
     intx := {| pending := false; pin := 0; irq := 0; intx_fd := 0 |};
     fd_handlers := ∅;
     open_notifiers := ∅;
     msix_used := ∅;
     eoi_notifiers := [];
     irq_update_notifier := false;
     kernel := 100 |}.

Definition ex_disable_interrupts :=
  vfio_disable_interrupts ex_pread_config ex_set_irq_eventfd
    ex_set_msi_eventfds ex_unmask_irq ex_eventfd ex_get_irq.

Definition ex_prepare := msi_prepare ex_eventfd ex_stale_fd ex_nr_vectors.

Definition ex_enable_msi :=
  vfio_enable_msi ex_pread_config ex_set_irq_eventfd ex_set_msi_eventfds
    ex_unmask_irq ex_eventfd ex_stale_fd ex_get_irq ex_nr_vectors.

Definition ex_disable_msi :=
  vfio_disable_msi ex_pread_config ex_set_irq_eventfd ex_set_msi_eventfds
    ex_unmask_irq ex_eventfd ex_get_irq.

Definition ex_write_config :=
  vfio_pci_write_config ex_pread_config ex_pwrite_config ex_set_irq_eventfd
    ex_set_msi_eventfds ex_unmask_irq ex_eventfd ex_stale_fd
    ex_default_write_config ex_cap_write_config ex_cap_write_config
    ex_get_irq ex_nr_vectors ex_msi_enabled ex_msix_enabled.

Definition ex_writes :=
  write_sequence ex_pread_config ex_pwrite_config ex_set_irq_eventfd
    ex_set_msi_eventfds ex_unmask_irq ex_eventfd ex_stale_fd
    ex_default_write_config ex_cap_write_config ex_cap_write_config
    ex_get_irq ex_nr_vectors ex_msi_enabled ex_msix_enabled.

Definition ex_edges :=
  observed_edges ex_default_write_config ex_cap_write_config
    ex_cap_write_config ex_msi_enabled ex_msix_enabled.

(** The same writes to a kernel that accepts every registration. *)
Definition ex_accept_eventfds (k : Z) (msix : bool) (fds : list Z)
    : Z * bool := (k, true).

Definition ex_writes_accepting :=
  write_sequence ex_pread_config ex_pwrite_config ex_set_irq_eventfd
    ex_accept_eventfds ex_unmask_irq ex_eventfd ex_stale_fd
    ex_default_write_config ex_cap_write_config ex_cap_write_config
    ex_get_irq ex_nr_vectors ex_msi_enabled ex_msix_enabled.

(** Whether the writes have returned, and the calls made. *)
Definition calls_made {K} (r : write_result K)
    : option (bool * list bridge_call) :=
  match r with
  | Returned _ calls => Some (true, calls)
  | Aborted _ calls => Some (false, calls)
  | OutOfFuel => None
  end.

End BridgeExamples.

(** ** Netlink registration *)

Module NetlinkRegistry.
Import Netlink.

(** The REGISTER message [vfio_register_netlink] sends: the mask of the
    message types the device understands and the device's identity. *)
Record register_msg := {
  reg_msgcap : Z;
  reg_domain : Z;
  reg_bus : Z;
  reg_slot : Z;
  reg_func : Z;
}.

(** [vfio_nl_handle] with [vfio_nl_family]: the one socket all devices
    share. *)
Record nl_socket := {
  sock_fd : Z;
  sock_family : Z;
}.

(** The registry with the socket, the fd whose handler is
    [vfio_netlink_event], and the messages sent so far. *)
Record World := {
  st : State;
  nl_handle : option nl_socket;
  nl_fd_handler : option Z;
  sent : list register_msg;
}.

Section Register.

Variable VFIO_MSG_REMOVE : Z.

(** libnl: the fd of a freshly allocated handle ([None] when
    [nl_handle_alloc] fails), the family id [genl_ctrl_resolve] returns
    (negative on failure), the result of [nl_socket_modify_cb] (nonzero on
    failure). *)
Variable nl_handle_alloc : option Z.
Variable genl_ctrl_resolve : Z.
Variable nl_socket_modify_cb : Z.

Definition register_msg_of (vdev : VFIODevice) : register_msg :=
  {| reg_msgcap := Z.shiftl 1 VFIO_MSG_REMOVE;
     reg_domain := seg (host vdev);
     reg_bus := bus (host vdev);
     reg_slot := dev (host vdev);
     reg_func := func (host vdev) |}.

(** [QLIST_INSERT_HEAD] and the REGISTER message. *)
Definition insert_and_announce (w : World) (sock : option nl_socket)
    (handler : option Z) (vdev : VFIODevice) : World :=
  {| st := {| nl_list := vdev :: nl_list (st w);
              rt_clock_ms := rt_clock_ms (st w) |};
     nl_handle := sock;
     nl_fd_handler := handler;
     sent := sent w ++ [register_msg_of vdev] |}.

(** The world after [nl_handle_destroy] on a failed set-up. *)
Definition destroyed (w : World) : World :=
  {| st := st w; nl_handle := None; nl_fd_handler := nl_fd_handler w;
     sent := sent w |}.

Definition vfio_register_netlink (w : World) (vdev : VFIODevice) : Z * World :=
  match nl_list (st w) with
  | [] =>
      match nl_handle_alloc with
      | None => (-1, destroyed w)
      | Some fd =>
          if genl_ctrl_resolve <? 0 then (-1, destroyed w)
          else if negb (nl_socket_modify_cb =? 0) then (-1, destroyed w)
          else
            (0, insert_and_announce w
                  (Some {| sock_fd := fd; sock_family := genl_ctrl_resolve |})
                  (Some fd) vdev)
      end
  | _ :: _ => (0, insert_and_announce w (nl_handle w) (nl_fd_handler w) vdev)
  end.

(** [vfio_unregister_netlink] for the device at position [i] of the
    registry.  A pending timer is deleted and freed; in the model it
    leaves with the device.  For a device that is not in the list the C
    code has no defined behaviour; the model then changes nothing. *)
Definition vfio_unregister_netlink (w : World) (i : nat) : World :=
  match nl_list (st w) !! i with
  | None => w
  | Some _ =>
      let l := delete i (nl_list (st w)) in
      let s := {| nl_list := l; rt_clock_ms := rt_clock_ms (st w) |} in
      match l with
      | [] => {| st := s; nl_handle := None; nl_fd_handler := None;
                 sent := sent w |}
      | _ :: _ => {| st := s; nl_handle := nl_handle w;
                     nl_fd_handler := nl_fd_handler w; sent := sent w |}
      end
  end.

End Register.

(** The REMOVE message the kernel sends for a device. *)
Definition remove_msg_for (VFIO_MSG_REMOVE : Z) (vdev : VFIODevice) : nl_msg :=
  {| nl_pid := 0; cmd := VFIO_MSG_REMOVE;
     attr_pci_domain := Some (seg (host vdev));
     attr_pci_bus := Some (bus (host vdev));
     attr_pci_slot := Some (dev (host vdev));
     attr_pci_func := Some (func (host vdev)) |}.

(** The socket exists, with its handler installed, exactly while some
    device is registered. *)
Definition socket_while_registered (w : World) : Prop :=
  (nl_list (st w) = [] <-> nl_handle w = None) /\
  nl_fd_handler w = sock_fd <$> nl_handle w.

(** An empty registry, a device, and the registry after the device
    registered over a socket with fd 9 and family 24. *)
Definition ex_dev : VFIODevice :=
  {| host := {| seg := 0; bus := 3; dev := 0; func := 1 |};
     unplug_requests := 0; remove_timer := None |}.

Definition ex_world : World :=
  {| st := {| nl_list := []; rt_clock_ms := 100 |};
     nl_handle := None; nl_fd_handler := None; sent := [] |}.

Definition ex_world1 : World :=
  snd (vfio_register_netlink 1 (Some 9) 24 0 ex_world ex_dev).

End NetlinkRegistry.

(** ** Releasing the BARs *)

Module Unmap.
Import Resources.

(** What [vfio_unmap_resources] hands back, call by call. *)
Inductive release :=
  | UnassignMemory (start len : Z)   (* cpu_register_physical_memory(.., IO_MEM_UNASSIGNED) *)
  | RamFree (ram_addr : Z)           (* qemu_ram_free_from_ptr *)
  | Munmap (addr len : Z)
  | IoUnregister (index : Z).        (* cpu_unregister_io_memory *)

(** The body of the loop for one descriptor. *)
Definition unmap_slot (res : PCIResource) : list release :=
  if valid res && mem res then
    if msix res then
      (if negb (msix_offset res =? 0) then
         [ UnassignMemory (e_phys res) (msix_offset res);
           RamFree (fst (memory_index res));
           Munmap (fst (r_virtbase res)) (msix_offset res) ]
       else []) ++
      (if size res >? uint32 (msix_offset res + MSIX_PAGE_SIZE) then
         [ UnassignMemory
             (uint64 (e_phys res + MSIX_PAGE_SIZE + msix_offset res))
             (uint64 (e_size res - MSIX_PAGE_SIZE - msix_offset res));
           RamFree (snd (memory_index res));
           Munmap (snd (r_virtbase res))
             (uint64 (size res - MSIX_PAGE_SIZE - msix_offset res)) ]
       else [])
    else if negb (slow res) then
      [ UnassignMemory (e_phys res) (e_size res);
        RamFree (fst (memory_index res));
        Munmap (fst (r_virtbase res)) (size res) ]
    else [ IoUnregister (io_mem res) ]
  else [].

(** [for (i = 0; i < PCI_ROM_SLOT; i++, res++)], [n] slots from [i] on. *)
Fixpoint unmap_loop (n : nat) (i : nat) (v : VFIODevice) : list release :=
  match n with
  | O => []
  | S n => unmap_slot (get_res v i) ++ unmap_loop n (S i) v
  end.

Definition vfio_unmap_resources (v : VFIODevice) : list release :=
  unmap_loop PCI_ROM_SLOT 0 v.

(** The munmap calls among the releases, as (address, length). *)
Definition munmaps (rs : list release) : list (Z * Z) :=
  flat_map (fun r => match r with Munmap a l => [(a, l)] | _ => [] end) rs.

(** The ram blocks freed among the releases. *)
Definition ram_frees (rs : list release) : list Z :=
  flat_map (fun r => match r with RamFree a => [a] | _ => [] end) rs.

End Unmap.

Module UnmapExamples.
Import Resources ResourcesExamples.

(** Every BAR register reads as a 64-bit, non-prefetchable memory BAR. *)
Definition bar_reg64 (offset : Z) : option Z :=
  Some PCI_BASE_ADDRESS_MEM_TYPE_64.

Definition map_resources64_of (len0 : Z) : VFIODevice -> outcome :=
  vfio_map_resources (bar_len len0) bar_reg64 mmap_at ram_handle io_handle
    space_to_offset 0.

End UnmapExamples.

(** ** The INTx line *)

Module IntxLine.
Import Bridge.

(** What the INTx handlers do to the outside: [qemu_set_irq] on the line
    of a pin, the VFIO_UNMASK_IRQ ioctl, and the (de)registration of the
    EOI notifier on a GSI. *)
Inductive line_action :=
  | SetIrq (pin level : Z)
  | UnmaskIrq
  | AddEoiNotifier (gsi : Z)
  | RemoveEoiNotifier (gsi : Z).

Definition set_pending (b : bool) (x : INTx) : INTx :=
  {| pending := b; pin := pin x; irq := irq x; intx_fd := intx_fd x |}.

Definition set_irq (line : Z) (x : INTx) : INTx :=
  {| pending := pending x; pin := pin x; irq := line; intx_fd := intx_fd x |}.

(** [vfio_intx_interrupt]; [fired] is what
    [event_notifier_test_and_clear] returns. *)
Definition vfio_intx_interrupt (fired : bool) (x : INTx)
    : INTx * list line_action :=
  if negb fired then (x, [])
  else (set_pending true x, [SetIrq (pin x) 1]).

(** [vfio_eoi]. *)
Definition vfio_eoi (x : INTx) : INTx * list line_action :=
  if negb (pending x) then (x, [])
  else (set_pending false x, [SetIrq (pin x) 0; UnmaskIrq]).

(** [vfio_update_irq]; [pci_get_irq] is the routing of the moment, from
    pin to interrupt line. *)
Definition vfio_update_irq (pci_get_irq : Z -> Z) (x : INTx)
    : INTx * list line_action :=
  let line := pci_get_irq (pin x) in
  if line =? irq x then (x, [])
  else
    let removed := RemoveEoiNotifier (irq x) in
    let x := set_irq line x in
    if line <? 0 then (x, [removed])
    else
      (* Re-enable the interrupt in case we missed an EOI *)
      let '(x, acts) := vfio_eoi x in
      (x, [removed; AddEoiNotifier line] ++ acts).

(** What the main loop, the interrupt controller and the PCI core call
    the handlers for. *)
Inductive line_event :=
  | FdReadable (fired : bool)
  | Eoi
  | IrqRouted (pci_get_irq : Z -> Z).

Definition handle (e : line_event) (x : INTx) : INTx * list line_action :=
  match e with
  | FdReadable fired => vfio_intx_interrupt fired x
  | Eoi => vfio_eoi x
  | IrqRouted route => vfio_update_irq route x
  end.

Fixpoint handle_all (es : list line_event) (x : INTx)
    : INTx * list line_action :=
  match es with
  | [] => (x, [])
  | e :: es =>
      let '(x, acts) := handle e x in
      let '(x, rest) := handle_all es x in
      (x, acts ++ rest)
  end.

(** The level of the line after the actions, from the level before. *)
Definition level_after (before : Z) (acts : list line_action) : Z :=
  fold_left (fun l a => match a with SetIrq _ level => level | _ => l end)
    acts before.

Definition is_unmask (a : line_action) : bool :=
  match a with UnmaskIrq => true | _ => false end.

Definition is_fired (e : line_event) : bool :=
  match e with FdReadable true => true | _ => false end.

(** The GSIs the EOI notifier is registered on after the actions. *)
Definition eoi_gsis (before : list Z) (acts : list line_action) : list Z :=
  fold_left
    (fun gs a =>
       match a with
       | AddEoiNotifier g => g :: gs
       | RemoveEoiNotifier g => List.filter (fun h => negb (h =? g)) gs
       | _ => gs
       end) acts before.

Definition ex_intx : INTx :=
  {| pending := false; pin := 0; irq := 11; intx_fd := 40 |}.

Definition ex_events : list line_event :=
  [FdReadable true; FdReadable false; Eoi; Eoi; FdReadable true;
   IrqRouted (fun _ => 10); FdReadable true].

End IntxLine.

Module MsiExamples.
Import Bridge BridgeExamples.

(** The guest has been given four MSI vectors, and the kernel accepts
    every registration. *)
Definition ex_four_vectors (p : PCIDevice) : Z := 4.
Definition ex_accept_msi_eventfds (k : Z) (msix : bool) (fds : list Z)
    : Z * bool := (k, true).

Definition ex_enable_four :=
  vfio_enable_msi ex_pread_config ex_set_irq_eventfd ex_accept_msi_eventfds
    ex_unmask_irq ex_eventfd ex_stale_fd ex_get_irq ex_four_vectors.



End MsiExamples.

(** ** Interrupt setup: the MSI and MSI-X capabilities *)

Module SetupMsi.
Import CapScan Resources.

(** Modelled from the spec: pci_regs.h is not among the sources; these
    are the standard ids, offsets and masks of the MSI and MSI-X
    capabilities. *)
Definition PCI_CAP_ID_MSI : Z := 0x05.
Definition PCI_CAP_ID_MSIX : Z := 0x11.
Definition PCI_CAP_FLAGS : Z := 2.
Definition PCI_MSI_FLAGS_QMASK : Z := 0x0e.
Definition PCI_MSI_FLAGS_64BIT : Z := 0x80.
Definition PCI_MSI_FLAGS_MASKBIT : Z := 0x100.
Definition PCI_MSIX_TABLE : Z := 4.
Definition PCI_MSIX_BIR : Z := 7.
Definition PCI_MSIX_TABSIZE : Z := 0x7ff.

Definition uint16 (z : Z) : Z := z mod 2 ^ 16.

(** One call of [msi_init] and one of [msix_init]. *)
Record msi_init_call := {
  mi_pos : Z;
  mi_entries : Z;
  mi_64bit : bool;
  mi_maskbit : bool;
}.

Record msix_init_call := {
  mx_entries : Z;
  mx_bar : Z;
  mx_len : Z;
}.

(** The device as far as [vfio_setup_msi] goes: the BAR descriptors,
    the emulated config image, the size of the MSI capability, and what
    the emulation was initialised with.  [resources] has six entries
    and the BAR indicator of the table register has three bits: the
    stores through [resources[6]] and [resources[7]] land behind the
    array, in whatever the structure holds there; [beyond] keeps them,
    as BAR indicator and offset. *)
Record VFIODevice := {
  dev : Resources.VFIODevice;
  config : config_image;
  msi_cap_size : Z;
  msi_inits : list msi_init_call;
  msix_inits : list msix_init_call;
  beyond : list (Z * Z);
}.

(** [return 0] or [return -1]. *)
Inductive outcome :=
  | Done (v : VFIODevice)
  | Failed (v : VFIODevice).

(** [resources[bar].msix = true; resources[bar].msix_offset = offset]. *)
Definition set_msix (offset : Z) (r : PCIResource) : PCIResource :=
  {| vfiofd := vfiofd r; bar := bar r; valid := valid r;
     mem := mem r; slow := slow r; msix := true;
     msix_offset := offset; size := size r;
     r_virtbase := r_virtbase r; memory_index := memory_index r;
     io_mem := io_mem r; e_phys := e_phys r; e_size := e_size r |}.

(** The two stores, made without a test of [bar]. *)
Definition store_msix (bar offset : Z) (v : VFIODevice) : VFIODevice :=
  if (Z.to_nat bar <? PCI_ROM_SLOT)%nat then
    {| dev := upd_res (Z.to_nat bar) (set_msix offset) (dev v);
       config := config v; msi_cap_size := msi_cap_size v;
       msi_inits := msi_inits v; msix_inits := msix_inits v;
       beyond := beyond v |}
  else
    {| dev := dev v;
       config := config v; msi_cap_size := msi_cap_size v;
       msi_inits := msi_inits v; msix_inits := msix_inits v;
       beyond := beyond v ++ [(bar, offset)] |}.

Section Setup.

(** The channel: the 2-byte and the 4-byte positioned read of the
    physical config space ([None] for a short read) and
    VFIO_GET_BAR_LEN ([None] for a failed ioctl). *)
Variable pread_config16 : Z -> option Z.
Variable pread_config32 : Z -> option Z.
Variable vfio_get_bar_len : Z -> option Z.

(** msi.c and msix.c are not among the sources: the initialisation of
    the emulated capabilities changes the image, or fails. *)
Variable msi_init : config_image -> Z -> Z -> bool -> bool -> option config_image.
Variable msix_init : config_image -> Z -> Z -> Z -> option config_image.

(** The MSI part; [None] stands for [return -1]. *)
Definition setup_msi_cap (v : VFIODevice) : option VFIODevice :=
  let pos := vfio_find_cap_offset (config v) PCI_CAP_ID_MSI in
  if pos =? 0 then Some v
  else
    match pread_config16 (pos + PCI_CAP_FLAGS) with
    | None => None
    | Some ctrl =>
        let ctrl := uint16 ctrl in
        let msi_64bit := negb (Z.land ctrl PCI_MSI_FLAGS_64BIT =? 0) in
        let msi_maskbit := negb (Z.land ctrl PCI_MSI_FLAGS_MASKBIT =? 0) in
        let entries :=
          Z.shiftl 1 (Z.shiftr (Z.land ctrl PCI_MSI_FLAGS_QMASK) 1) in
        match msi_init (config v) pos entries msi_64bit msi_maskbit with
        | None => None
        | Some image =>
            Some {| dev := dev v; config := image;
                    msi_cap_size :=
                      0xa + (if msi_maskbit then 0xa else 0) +
                      (if msi_64bit then 0x4 else 0);
                    msi_inits := msi_inits v ++
                      [{| mi_pos := pos; mi_entries := entries;
                          mi_64bit := msi_64bit; mi_maskbit := msi_maskbit |}];
                    msix_inits := msix_inits v;
                    beyond := beyond v |}
        end
    end.

(** The MSI-X part. *)
Definition setup_msix_cap (v : VFIODevice) : outcome :=
  let pos := vfio_find_cap_offset (config v) PCI_CAP_ID_MSIX in
  if pos =? 0 then Done v
  else
    match pread_config16 (pos + PCI_CAP_FLAGS) with
    | None => Failed v
    | Some ctrl =>
        match pread_config32 (pos + PCI_MSIX_TABLE) with
        | None => Failed v
        | Some table =>
            let ctrl := uint16 ctrl in
            let table := uint32 table in
            let bar := Z.land table PCI_MSIX_BIR in
            let offset := uint32 (Z.land table (Z.lnot PCI_MSIX_BIR)) in
            let entries := Z.land ctrl PCI_MSIX_TABSIZE + 1 in
            let v := store_msix bar offset v in
            match vfio_get_bar_len (Z.land table PCI_MSIX_BIR) with
            | None => Failed v
            | Some len =>
                match msix_init (config v) entries bar len with
                | None => Failed v
                | Some image =>
                    Done {| dev := dev v; config := image;
                            msi_cap_size := msi_cap_size v;
                            msi_inits := msi_inits v;
                            msix_inits := msix_inits v ++
                              [{| mx_entries := entries; mx_bar := bar;
                                  mx_len := len |}];
                            beyond := beyond v |}
                end
            end
        end
    end.

Definition vfio_setup_msi (v : VFIODevice) : outcome :=
  match setup_msi_cap v with
  | None => Failed v
  | Some v => setup_msix_cap v
  end.

End Setup.

(** An image with MSI at 0x40 and MSI-X at 0x50. *)
Definition ex_image : config_image :=
  image_of [(6%nat, 0x10); (52%nat, 0x40);
            (64%nat, 0x05); (65%nat, 0x50);
            (80%nat, 0x11); (81%nat, 0x00)].

(** The MSI flags say 64-bit with 4 vectors, the MSI-X flags 8 entries;
    the table is in BAR 2 at offset 0x2000.  The emulation accepts
    every initialisation and leaves the image as it is. *)
Definition ex_pread16 (offset : Z) : option Z :=
  if offset =? 0x42 then Some 0x84 else Some 0x7.
Definition ex_pread32 (offset : Z) : option Z := Some 0x2002.
Definition ex_bar_len (bar : Z) : option Z := Some 0x4000.
Definition ex_msi_init (c : config_image) (pos entries : Z)
    (msi_64bit msi_maskbit : bool) : option config_image := Some c.
Definition ex_msix_init (c : config_image) (entries bar len : Z)
    : option config_image := Some c.

Definition ex_device : VFIODevice :=
  {| dev := fresh_device 7 None; config := ex_image; msi_cap_size := 0;
     msi_inits := []; msix_inits := []; beyond := [] |}.

(** The same device behind a table register that names BAR 6. *)
Definition ex_pread32_bir6 (offset : Z) : option Z := Some 0x2006.

Definition ex_setup_msi_bir6 : VFIODevice -> outcome :=
  vfio_setup_msi ex_pread16 ex_pread32_bir6 ex_bar_len ex_msi_init
    ex_msix_init.

Definition ex_setup_msi : VFIODevice -> outcome :=
  vfio_setup_msi ex_pread16 ex_pread32 ex_bar_len ex_msi_init ex_msix_init.

End SetupMsi.

(** ** IOMMU domains *)

Module Uiommu.

(** hw/vfio_pci.h. *)
Definition VFIO_FLAG_UIOMMU_SHARED_BIT : Z := 0.
Definition VFIO_FLAG_UIOMMU_SHARED : Z := Z.shiftl 1 VFIO_FLAG_UIOMMU_SHARED_BIT.

(** Modelled from the spec: qemu-common.h is not among the sources;
    [qemu_isdigit] is true of the characters '0' to '9'. *)
Definition qemu_isdigit (c : Ascii.ascii) : bool :=
  let n := Ascii.nat_of_ascii c in
  (48 <=? n)%nat && (n <=? 57)%nat.

(** [VFIOUIOMMU]: an IOMMU domain, with the devices that joined it,
    the last one first.  A device is named by a number. *)
Record VFIOUIOMMU := {
  u_fd : Z;
  opened : bool;
  vdevs : list nat;
}.

(** The fields of [VFIODevice] that matter here; [uiommu] points at the
    domain the device has joined, named by its fd. *)
Record VFIODevice := {
  dev_id : nat;
  vfiofd : Z;
  uiommufd_name : option String.string;
  flags : Z;
  uiommu : option Z;
}.

Definition set_uiommu (u : option Z) (vdev : VFIODevice) : VFIODevice :=
  {| dev_id := dev_id vdev; vfiofd := vfiofd vdev;
     uiommufd_name := uiommufd_name vdev; flags := flags vdev; uiommu := u |}.

(** A system call gives a value or sets [errno]. *)
Inductive sys_result := Ok (value : Z) | Errno (e : Z).

Section Domains.

Context {K : Type}.

(** [uiommu_list] with what hangs on it: the physical memory clients
    registered with QEMU (one per domain, named by the domain's fd), the
    fds that [open] gave out and that were not closed since, and the
    kernel. *)
Record Registry := {
  uiommu_list : list VFIOUIOMMU;
  clients : list Z;
  open_fds : list Z;
  kernel : K;
}.

Variable strtol : String.string -> Z.
Variable monitor_get_fd : String.string -> Z.
Variable open_uiommu : K -> K * sys_result.
Variable ioctl_set_uiommu_domain : K -> Z -> Z -> K * sys_result.

Definition set_kernel (k : K) (st : Registry) : Registry :=
  {| uiommu_list := uiommu_list st; clients := clients st;
     open_fds := open_fds st; kernel := k |}.

(** The first part of [enable_uiommu]: the fd of the domain to join and
    whether it was opened here, or the value returned early. *)
Definition pick_domain (vdev : VFIODevice) (st : Registry)
    : Registry * (Z * bool + Z) :=
  match uiommufd_name vdev with
  | Some (String.String c _ as name) =>
      if qemu_isdigit c then (st, inl (strtol name, false))
      else
        let fd := monitor_get_fd name in
        if fd <? 0 then (st, inr fd) else (st, inl (fd, false))
  | _ =>
      match negb (Z.land (flags vdev) VFIO_FLAG_UIOMMU_SHARED =? 0),
            uiommu_list st with
      | true, first :: _ => (st, inl (u_fd first, false))
      | _, _ =>
          let '(k, r) := open_uiommu (kernel st) in
          match r with
          | Errno e => (set_kernel k st, inr (- e))
          | Ok fd =>
              ({| uiommu_list := uiommu_list st; clients := clients st;
                  open_fds := fd :: open_fds st; kernel := k |},
               inl (fd, true))
          end
      end
  end.

(** [QLIST_FOREACH (uiommu, &uiommu_list, next) if (uiommu->fd == fd)
    break]. *)
Definition find_domain (fd : Z) (l : list VFIOUIOMMU) : option VFIOUIOMMU :=
  List.find (fun u => u_fd u =? fd) l.

(** [QLIST_INSERT_HEAD (&uiommu->vdevs, vdev, iommu_next)] for the
    domain found in the list. *)
Fixpoint join_domain (fd : Z) (id : nat) (l : list VFIOUIOMMU)
    : list VFIOUIOMMU :=
  match l with
  | [] => []
  | u :: l =>
      if u_fd u =? fd
      then {| u_fd := u_fd u; opened := opened u; vdevs := id :: vdevs u |} :: l
      else u :: join_domain fd id l
  end.

Definition enable_uiommu (vdev : VFIODevice) (st : Registry)
    : Z * VFIODevice * Registry :=
  match pick_domain vdev st with
  | (st, inr ret) => (ret, vdev, st)
  | (st, inl (fd, was_opened)) =>
      let '(k, r) := ioctl_set_uiommu_domain (kernel st) (vfiofd vdev) fd in
      let st := set_kernel k st in
      match r with
      | Errno e => (- e, vdev, st)
      | Ok _ =>
          let st :=
            match find_domain fd (uiommu_list st) with
            | None =>
                {| uiommu_list :=
                     {| u_fd := fd; opened := was_opened;
                        vdevs := [dev_id vdev] |} :: uiommu_list st;
                   clients := fd :: clients st;
                   open_fds := open_fds st; kernel := kernel st |}
            | Some _ =>
                {| uiommu_list := join_domain fd (dev_id vdev) (uiommu_list st);
                   clients := clients st;
                   open_fds := open_fds st; kernel := kernel st |}
            end in
          (0, set_uiommu (Some fd) vdev, st)
      end
  end.

(** [QLIST_REMOVE]: the first entry that is the node. *)
Fixpoint remove_first {A} (is_it : A -> bool) (l : list A) : list A :=
  match l with
  | [] => []
  | x :: l => if is_it x then l else x :: remove_first is_it l
  end.

(** [QLIST_REMOVE (vdev, iommu_next)] in the domain of the device. *)
Fixpoint leave_domain (fd : Z) (id : nat) (l : list VFIOUIOMMU)
    : list VFIOUIOMMU :=
  match l with
  | [] => []
  | u :: l =>
      if u_fd u =? fd
      then {| u_fd := u_fd u; opened := opened u;
              vdevs := remove_first (Nat.eqb id) (vdevs u) |} :: l
      else u :: leave_domain fd id l
  end.

Definition disable_uiommu (vdev : VFIODevice) (st : Registry)
    : VFIODevice * Registry :=
  let st :=
    set_kernel (fst (ioctl_set_uiommu_domain (kernel st) (vfiofd vdev) (-1))) st in
  match uiommu vdev with
  | None => (vdev, st)
  | Some fd =>
      let l := leave_domain fd (dev_id vdev) (uiommu_list st) in
      let vdev := set_uiommu None vdev in
      match find_domain fd l with
      | Some u =>
          match vdevs u with
          | [] =>
              (vdev,
               {| uiommu_list := remove_first (fun u => u_fd u =? fd) l;
                  clients := remove_first (Z.eqb fd) (clients st);
                  open_fds :=
                    if opened u then remove_first (Z.eqb fd) (open_fds st)
                    else open_fds st;
                  kernel := kernel st |})
          | _ :: _ =>
              (vdev,
               {| uiommu_list := l; clients := clients st;
                  open_fds := open_fds st; kernel := kernel st |})
          end
      | None =>
          (vdev,
           {| uiommu_list := l; clients := clients st;
              open_fds := open_fds st; kernel := kernel st |})
      end
  end.

(** The devices that have joined a domain. *)
Definition members (st : Registry) : list nat :=
  flat_map vdevs (uiommu_list st).

End Domains.

Arguments Registry : clear implicits.

End Uiommu.

Module UiommuExamples.
Import Uiommu.

(** The kernel state is the number of the next fd it hands out; every
    call succeeds, the monitor knows no fd by name. *)
Definition ex_strtol (s : String.string) : Z := 30.
Definition ex_monitor_get_fd (s : String.string) : Z := -1.
Definition ex_open (k : Z) : Z * sys_result := (k + 1, Ok k).
Definition ex_set_domain (k : Z) (vfiofd fd : Z) : Z * sys_result := (k, Ok 0).

Definition ex_enable :=
  enable_uiommu ex_strtol ex_monitor_get_fd ex_open ex_set_domain.

(** A kernel that refuses VFIO_SET_UIOMMU_DOMAIN with EINVAL. *)
Definition ex_refuse_domain (k : Z) (vfiofd fd : Z) : Z * sys_result :=
  (k, Errno 22).
Definition ex_enable_refused :=
  enable_uiommu ex_strtol ex_monitor_get_fd ex_open ex_refuse_domain.
Definition ex_disable := disable_uiommu ex_set_domain.

Definition ex_empty : Registry Z :=
  {| uiommu_list := []; clients := []; open_fds := []; kernel := 50 |}.

(** Two devices that share. *)
Definition ex_first : VFIODevice :=
  {| dev_id := 1; vfiofd := 7; uiommufd_name := None;
     flags := VFIO_FLAG_UIOMMU_SHARED; uiommu := None |}.
Definition ex_second : VFIODevice :=
  {| dev_id := 2; vfiofd := 8; uiommufd_name := None;
     flags := VFIO_FLAG_UIOMMU_SHARED; uiommu := None |}.

(** The first device has joined: one domain, on fd 50. *)
Definition ex_first_joined : VFIODevice := snd (fst (ex_enable ex_first ex_empty)).
Definition ex_one_domain : Registry Z := snd (ex_enable ex_first ex_empty).

End UiommuExamples.

(** ** Trapped BAR accesses *)

Module Trapped.
Import Resources.

Section Access.

(** The channel: a positioned read of [len] bytes from the device fd
    into a [uint32_t]; the result is that word after a read of the full
    length, [None] for any other outcome. *)
Variable pread_resource : Z -> Z -> Z -> option Z.

(** linux-vfio.h is not among the sources. *)
Variable vfio_pci_space_to_offset : Z -> Z.
Variable VFIO_PCI_BAR0_RESOURCE : Z.

Definition vfio_resource_read (res : PCIResource) (addr len : Z) : Z :=
  let offset :=
    uint64 (vfio_pci_space_to_offset (VFIO_PCI_BAR0_RESOURCE + bar res)) in
  match pread_resource (vfiofd res) len (uint64 (offset + addr)) with
  | None => 0xffffffff
  | Some val => uint32 val
  end.

(** The handlers of a slow memory BAR; [addr] is a
    [target_phys_addr_t], cut to the [uint32_t] of the callee. *)
Definition vfio_resource_readb (res : PCIResource) (addr : Z) : Z :=
  Z.land (vfio_resource_read res (uint32 addr) 1) 0xff.

Definition vfio_resource_readw (res : PCIResource) (addr : Z) : Z :=
  Z.land (vfio_resource_read res (uint32 addr) 2) 0xffff.

Definition vfio_resource_readl (res : PCIResource) (addr : Z) : Z :=
  vfio_resource_read res (uint32 addr) 4.

(** [vfio_resource_reads[]], indexed by the width of the access. *)
Definition vfio_resource_reads (i : nat) : PCIResource -> Z -> Z :=
  match i with
  | 0%nat => vfio_resource_readb
  | 1%nat => vfio_resource_readw
  | _ => vfio_resource_readl
  end.

(** The handlers of an I/O BAR; [addr] is the port. *)
Definition vfio_ioport_readb (res : PCIResource) (addr : Z) : Z :=
  Z.land (vfio_resource_read res (uint32 (addr - e_phys res)) 1) 0xff.

Definition vfio_ioport_readw (res : PCIResource) (addr : Z) : Z :=
  Z.land (vfio_resource_read res (uint32 (addr - e_phys res)) 2) 0xffff.

Definition vfio_ioport_readl (res : PCIResource) (addr : Z) : Z :=
  vfio_resource_read res (uint32 (addr - e_phys res)) 4.

(** The read handlers that [vfio_ioport_map] registers, by width. *)
Definition vfio_ioport_reads (i : nat) : PCIResource -> Z -> Z :=
  match i with
  | 0%nat => vfio_ioport_readb
  | 1%nat => vfio_ioport_readw
  | _ => vfio_ioport_readl
  end.

(** [vfio_ioport_map]: the descriptor once the guest has placed the
    BAR. *)
Definition vfio_ioport_map (e_phys e_size : Z) (res : PCIResource)
    : PCIResource :=
  set_e e_phys e_size res.

End Access.

End Trapped.

(** ** The host address property *)

Module HostAddr.
Import Netlink.

(** A C string, without its terminating NUL. *)
Definition cstring := list Ascii.ascii.

Definition code (c : Ascii.ascii) : Z := Z.of_nat (Ascii.nat_of_ascii c).
Definition chr (n : Z) : Ascii.ascii := Ascii.ascii_of_nat (Z.to_nat n).

Definition colon : Ascii.ascii := chr 58.
Definition dot : Ascii.ascii := chr 46.

Definition uint16 (z : Z) : Z := z mod 2 ^ 16.

(** Modelled from the spec: the C library is not among the sources.
    [sscanf (p, "%4[^c]%n", field, &n)] reads up to four characters
    other than [c]; it returns 1 when it has read at least one, which
    are then in [field], their number in [n]. *)
Fixpoint scan_set (stop : Ascii.ascii) (width : nat) (p : cstring) : cstring :=
  match width, p with
  | S w, c :: p' =>
      if Ascii.eqb c stop then [] else c :: scan_set stop w p'
  | _, _ => []
  end.

Definition sscanf_field (stop : Ascii.ascii) (p : cstring)
    : option (cstring * nat) :=
  match scan_set stop 4 p with
  | [] => None
  | field => Some (field, length field)
  end.

(** [p[n] == c]; the character after the last one is the NUL. *)
Definition char_is (p : cstring) (n : nat) (c : Ascii.ascii) : bool :=
  match p !! n with
  | Some x => Ascii.eqb x c
  | None => false
  end.

(** Modelled from the spec: [strtol (field, NULL, 16)] skips white
    space, takes a sign and an optional 0x, and reads hexadecimal digits
    as far as they go.  A field has at most four characters, so the
    value is far from the range of [long]. *)
Definition isspace (c : Ascii.ascii) : bool :=
  (code c =? 32) || ((9 <=? code c) && (code c <=? 13)).

Definition hex_value (c : Ascii.ascii) : option Z :=
  let n := code c in
  if (48 <=? n) && (n <=? 57) then Some (n - 48)
  else if (97 <=? n) && (n <=? 102) then Some (n - 87)
  else if (65 <=? n) && (n <=? 70) then Some (n - 55)
  else None.

Fixpoint skip_space (p : cstring) : cstring :=
  match p with
  | c :: p' => if isspace c then skip_space p' else p
  | [] => []
  end.

Fixpoint hex_digits_value (acc : Z) (p : cstring) : Z :=
  match p with
  | c :: p' =>
      match hex_value c with
      | Some d => hex_digits_value (16 * acc + d) p'
      | None => acc
      end
  | [] => acc
  end.

Definition skip_0x (p : cstring) : cstring :=
  match p with
  | z :: x :: d :: p' =>
      if (code z =? 48) && ((code x =? 120) || (code x =? 88)) &&
         bool_decide (is_Some (hex_value d))
      then d :: p' else p
  | _ => p
  end.

Definition strtol16 (p : cstring) : Z :=
  let p := skip_space p in
  let '(negative, p) :=
    match p with
    | c :: p' =>
        if code c =? 45 then (true, p')
        else if code c =? 43 then (false, p')
        else (false, p)
    | [] => (false, p)
    end in
  let v := hex_digits_value 0 (skip_0x p) in
  if negative then - v else v.

Section Property.

(** errno.h is not among the sources. *)
Variable EINVAL : Z.

(** [parse_hostaddr]: the value returned and the [PCIHostDevice] behind
    [ptr] afterwards.  [seg] is a [uint16_t], [bus] a [uint8_t], [dev]
    a bit-field of 5 and [func] one of 3 bits. *)
Definition parse_hostaddr (ptr : PCIHostDevice) (str : cstring)
    : Z * PCIHostDevice :=
  let invalid := (- EINVAL, ptr) in
  let p := str in
  match sscanf_field colon p with
  | None => invalid
  | Some (field, n) =>
      if negb (char_is p n colon) then invalid
      else
        let seg := strtol16 field in
        let p := drop (n + 1) p in
        match sscanf_field colon p with
        | None => invalid
        | Some (field, n) =>
            let '(seg, bus, p) :=
              if char_is p n colon
              then (seg, strtol16 field, drop (n + 1) p)
              else (0, seg, p) in
            match sscanf_field dot p with
            | None => invalid
            | Some (field, n) =>
                if negb (char_is p n dot) then invalid
                else
                  let dev := strtol16 field in
                  let p := drop (n + 1) p in
                  match p with
                  | c :: _ =>
                      if negb (Uiommu.qemu_isdigit c) then invalid
                      else
                        let func := code c - 48 in
                        (0, {| seg := uint16 seg; bus := uint8 bus;
                               dev := dev mod 2 ^ 5;
                               func := func mod 2 ^ 3 |})
                  | [] => invalid
                  end
            end
        end
  end.

End Property.

(** Modelled from the spec: [snprintf] with "%04x:%02x:%02x.%x".  A
    number is written in lower-case hexadecimal digits, without leading
    zeros, and filled up with zeros to its width; at most [len - 1]
    characters are stored, the length of the whole text is returned. *)
Definition hex_char (d : Z) : Ascii.ascii :=
  if d <? 10 then chr (48 + d) else chr (87 + d).

Fixpoint hex_digits (fuel : nat) (n : Z) : cstring :=
  match fuel with
  | O => []
  | S fuel =>
      if n <? 16 then [hex_char n]
      else hex_digits fuel (n / 16) ++ [hex_char (n mod 16)]
  end.

(** An [unsigned int] has at most eight hexadecimal digits. *)
Definition to_hex (n : Z) : cstring := hex_digits 8 (uint32 n).

Definition zero_pad (width : nat) (s : cstring) : cstring :=
  replicate (width - length s) (chr 48) ++ s.

Definition print_hostaddr (ptr : PCIHostDevice) (len : Z) : Z * cstring :=
  let text :=
    zero_pad 4 (to_hex (seg ptr)) ++ [colon] ++
    zero_pad 2 (to_hex (bus ptr)) ++ [colon] ++
    zero_pad 2 (to_hex (dev ptr)) ++ [dot] ++
    to_hex (func ptr) in
  (Z.of_nat (length text), take (Z.to_nat (len - 1)) text).

(** The numbers from [start] on, [len] of them. *)
Fixpoint zseq (start : Z) (len : nat) : list Z :=
  match len with
  | O => []
  | S len => start :: zseq (start + 1) len
  end.

(** A written number reads back: it has the digits of its width, none
    of them a separator, and [strtol] gives the number. *)
Definition reads_back (width : nat) (n : Z) : bool :=
  let s := zero_pad width (to_hex n) in
  (length s =? width)%nat &&
  forallb (fun c => negb (Ascii.eqb c colon) && negb (Ascii.eqb c dot)) s &&
  (strtol16 s =? n).

End HostAddr.

(** ** The option ROM *)

Module Rom.

(** What [pread] on the device fd gives: the bytes it has read, which
    may be fewer than asked for or none, or -1 with [errno]. *)
Inductive read_result :=
  | ReadBytes (data : list Z)
  | ReadError (errno : Z).

(** One [pread]: the count asked for, the file offset, the answer. *)
Record read_call := {
  rd_count : Z;
  rd_offset : Z;
  rd_result : read_result;
}.

Definition rd_data (c : read_call) : list Z :=
  match rd_result c with
  | ReadBytes data => data
  | ReadError _ => []
  end.

Section Loader.

Context {K : Type}.

(** The device as far as the ROM goes: [pdev.romfile] and
    [pdev.rom_bar], [pdev.rom_offset], the ram block behind it while it
    exists, the size of the ROM BAR once it is registered, and the
    reads made. *)
Record VFIODevice := {
  romfile : bool;
  rom_bar : bool;
  rom_offset : Z;
  rom_image : option (list Z);
  rom_registered : option Z;
  reads : list read_call;
  kernel : K;
}.

(** The channel: VFIO_GET_BAR_LEN for the ROM slot and [pread]. *)
Variable vfio_get_rom_len : K -> K * option Z.
Variable pread : K -> Z -> Z -> K * read_result.

(** [qemu_ram_alloc], and the file offset of the ROM
    ([vfio_pci_space_to_offset (VFIO_PCI_ROM_RESOURCE)]). *)
Variable qemu_ram_alloc : Z -> Z.
Variable voff : Z.

(** errno.h is not among the sources. *)
Variable EINTR : Z.
Variable EAGAIN : Z.

(** [memcpy] of what was read to [ptr + off]. *)
Definition store (image : list Z) (off : Z) (data : list Z) : list Z :=
  take (Z.to_nat off) image ++ data ++
  drop (Z.to_nat off + length data) image.

(** How the read loop ends: at [size == 0] or an empty read, or with an
    error that is neither EINTR nor EAGAIN. *)
Inductive loop_end :=
  | LoopDone (k : K) (image : list Z) (log : list read_call)
  | LoopFailed (k : K) (image : list Z) (log : list read_call).

(** [while (size) { ... }]; [None] for a loop cut short by its fuel. *)
Fixpoint rom_read_loop (fuel : nat) (k : K) (image : list Z)
    (log : list read_call) (off size : Z) : option loop_end :=
  if size =? 0 then Some (LoopDone k image log)
  else
    match fuel with
    | O => None
    | S fuel =>
        let '(k, r) := pread k size (voff + off) in
        let r := match r with
                 | ReadBytes data => ReadBytes (take (Z.to_nat size) data)
                 | ReadError e => ReadError e
                 end in
        let log := log ++ [{| rd_count := size; rd_offset := voff + off;
                              rd_result := r |}] in
        match r with
        | ReadBytes [] =>
            (* expect that we could get back less than the ROM BAR *)
            Some (LoopDone k image log)
        | ReadBytes data =>
            let bytes := Z.of_nat (length data) in
            rom_read_loop fuel k (store image off data) log
              (off + bytes) (size - bytes)
        | ReadError e =>
            if (e =? EINTR) || (e =? EAGAIN)
            then rom_read_loop fuel k image log off size
            else Some (LoopFailed k image log)
        end
    end.

Definition vfio_load_rom (fuel : nat) (v : VFIODevice)
    : option (Z * VFIODevice) :=
  (* If loading ROM from file, pci handles it *)
  if romfile v || negb (rom_bar v) then Some (0, v)
  else
    let '(k, r) := vfio_get_rom_len (kernel v) in
    let with_kernel k :=
      {| romfile := romfile v; rom_bar := rom_bar v;
         rom_offset := rom_offset v; rom_image := rom_image v;
         rom_registered := rom_registered v; reads := reads v;
         kernel := k |} in
    match r with
    | None => Some (-1, with_kernel k)
    | Some size =>
        if size =? 0 then Some (0, with_kernel k)
        else
          let len := size in
          let offset := qemu_ram_alloc size in
          let image := replicate (Z.to_nat size) 0xff in
          match rom_read_loop fuel k image (reads v) 0 size with
          | None => None
          | Some (LoopFailed k image log) =>
              Some (-1,
                    {| romfile := romfile v; rom_bar := rom_bar v;
                       rom_offset := 0; rom_image := None;
                       rom_registered := rom_registered v; reads := log;
                       kernel := k |})
          | Some (LoopDone k image log) =>
              Some (0,
                    {| romfile := romfile v; rom_bar := rom_bar v;
                       rom_offset := offset; rom_image := Some image;
                       rom_registered := Some len; reads := log;
                       kernel := k |})
          end
    end.

End Loader.

Arguments VFIODevice : clear implicits.

(** A ROM of 6 bytes of which the device gives 4, two at a time; the
    kernel state counts the reads. *)
Definition ex_rom_len (k : nat) : nat * option Z := (k, Some 6).
Definition ex_pread (k : nat) (count offset : Z) : nat * read_result :=
  (S k,
   match k with
   | 0%nat => ReadBytes [0x55; 0xaa]
   | 1%nat => ReadBytes [0x01; 0x02]
   | _ => ReadBytes []
   end).
Definition ex_device : VFIODevice nat :=
  {| romfile := false; rom_bar := true; rom_offset := 0; rom_image := None;
     rom_registered := None; reads := []; kernel := 0%nat |}.
Definition ex_load_rom :=
  vfio_load_rom ex_rom_len ex_pread (fun size => 0x40000) 0x600000000 4 11.

End Rom.

(** ** The channel to the kernel *)

Module Channel.
Import Netlink.

Definition cstring := list Ascii.ascii.

(** "vfio" and "/dev/". *)
Definition vfio_prefix : cstring :=
  map Ascii.ascii_of_nat [118; 102; 105; 111]%nat.
Definition dev_dir : cstring :=
  map Ascii.ascii_of_nat [47; 100; 101; 118; 47]%nat.

(** [!strncmp (name, "vfio", 4)]. *)
Fixpoint starts_with (prefix name : cstring) : bool :=
  match prefix, name with
  | [], _ => true
  | c :: prefix, d :: name => Ascii.eqb c d && starts_with prefix name
  | _ :: _, [] => false
  end.

(** [de->d_name[0] == '.']. *)
Definition hidden (name : cstring) : bool :=
  match name with
  | c :: _ => Ascii.eqb c (Ascii.ascii_of_nat 46)
  | [] => false
  end.

(** [while ((de = readdir (dir))) { ... }] over the entries of the
    directory, in the order [readdir] gives them. *)
Fixpoint find_vfio_entry (entries : list cstring) : option cstring :=
  match entries with
  | [] => None
  | name :: entries =>
      if hidden name then find_vfio_entry entries
      else if starts_with vfio_prefix name then Some name
      else find_vfio_entry entries
  end.

(** The fields of [VFIODevice] that [enable_vfio] reads and writes. *)
Record VFIODevice := {
  host : PCIHostDevice;
  vfiofd_name : option cstring;
  vfiofd : Z;
}.

Definition set_vfiofd (fd : Z) (v : VFIODevice) : VFIODevice :=
  {| host := host v; vfiofd_name := vfiofd_name v; vfiofd := fd |}.

(** What this process has opened and closed, in order: the directory
    stream of [opendir] on the sysfs directory of a host device, a file
    of [open], the fd of [close].  Neither function calls [closedir]. *)
Inductive file_call :=
  | OpenDir (device : PCIHostDevice)
  | Open (path : cstring) (fd : Z)
  | Close (fd : Z).

Section Enable.

(** Modelled from the spec: the C library and the monitor are not among
    the sources.  [strtol (name, NULL, 0)], [monitor_get_fd], the
    entries of the sysfs directory of a host device ([None] when it
    cannot be opened) and [open (path, O_RDWR)]. *)
Variable strtol : cstring -> Z.
Variable monitor_get_fd : cstring -> Z.
Variable opendir : PCIHostDevice -> option (list cstring).
Variable open_rdwr : cstring -> Z.

(** The value returned, the device and the file calls.  The name of
    the device node is written to [char vfio_dev[16]] by [sprintf]
    without a test of its length; the path handed to [open] is taken as
    the string that was written. *)
Definition enable_vfio (v : VFIODevice) (files : list file_call)
    : Z * VFIODevice * list file_call :=
  match vfiofd_name v with
  | Some (c :: _ as name) =>
      if Uiommu.qemu_isdigit c
      then (0, set_vfiofd (strtol name) v, files)
      else
        let v := set_vfiofd (monitor_get_fd name) v in
        if vfiofd v <? 0 then (-1, v, files)
        else (0, v, files)
  | _ =>
      match opendir (host v) with
      | None => (-1, v, files)
      | Some entries =>
          let files := files ++ [OpenDir (host v)] in
          match find_vfio_entry entries with
          | None => (-1, v, files)
          | Some name =>
              let vfio_dev := dev_dir ++ name in
              let fd := open_rdwr vfio_dev in
              let v := set_vfiofd fd v in
              if fd <? 0 then (-1, v, files)
              else (0, v, files ++ [Open vfio_dev fd])
          end
      end
  end.

(** [disable_vfio]: if we opened it, close it, otherwise leave it
    alone. *)
Definition disable_vfio (v : VFIODevice) (files : list file_call)
    : list file_call :=
  match vfiofd_name v with
  | Some (_ :: _) => files
  | _ => files ++ [Close (vfiofd v)]
  end.

End Enable.

(** The directory of the example: ".", "..", "power", "vfio3", "vfio7". *)
Definition ex_entries : list cstring :=
  map (map Ascii.ascii_of_nat)
    [[46]; [46; 46]; [112; 111; 119; 101; 114];
     [118; 102; 105; 111; 51]; [118; 102; 105; 111; 55]]%nat.

Definition ex_device : VFIODevice :=
  {| host := {| seg := 0; bus := 1; dev := 0; func := 0 |};
     vfiofd_name := None; vfiofd := -1 |}.

Definition ex_enable_vfio :=
  enable_vfio (fun _ => 0) (fun _ => -1) (fun _ => Some ex_entries)
    (fun _ => 9).

End Channel.

(* ================================================================== *)
(** * Properties *)

(** ** Machine integers and the config image *)

Lemma uint8_range z : 0 <= uint8 z < 256.
Proof. unfold uint8. change (2 ^ 8) with 256. apply Z.mod_pos_bound. lia. Qed.

Lemma uint8_small z : 0 <= z < 256 -> uint8 z = z.
Proof. intros H. unfold uint8. change (2 ^ 8) with 256. apply Z.mod_small. lia. Qed.

Lemma uint32_small z : 0 <= z < 2 ^ 32 -> uint32 z = z.
Proof. intros H. unfold uint32. apply Z.mod_small. lia. Qed.

Lemma uint64_range z : 0 <= uint64 z < 2 ^ 64.
Proof. unfold uint64. apply Z.mod_pos_bound. lia. Qed.

Lemma config_get_range config a : 0 <= config_get config a < 256.
Proof. apply uint8_range. Qed.

(** ** Capability scanner *)

Module CapScanFacts.
Import CapScan.

Lemma land_lnot3 b : Z.land b (Z.lnot 3) = 4 * (b / 4).
Proof.
  change 3 with (Z.ones 2).
  rewrite <- Z.ldiff_land, Z.ldiff_ones_r by lia.
  rewrite Z.shiftr_div_pow2, Z.shiftl_mul_pow2 by lia.
  change (2 ^ 2) with 4. lia.
Qed.

Lemma cap_ptr_slot config pos :
  0 <= cap_ptr config pos <= 252 /\ cap_ptr config pos mod 4 = 0.
Proof.
  unfold cap_ptr. rewrite land_lnot3.
  pose proof (config_get_range config pos) as Hb.
  assert (0 <= config_get config pos / 4 < 64) as Hq.
  { split; [apply Z.div_pos; lia | apply Z.div_lt_upper_bound; lia]. }
  rewrite uint8_small by lia. split; [lia|].
  rewrite Z.mul_comm. apply Z.mod_mul. lia.
Qed.

Lemma chain_from_slot config start k :
  0 <= chain_from config start k <= 252 /\ chain_from config start k mod 4 = 0.
Proof.
  revert start. induction k as [|k IH]; intros start; simpl.
  - apply cap_ptr_slot.
  - apply IH.
Qed.

(** The chain is generated by iterating one step function. *)
Lemma chain_from_step config start k :
  chain_from config start (S k) =
  cap_ptr config (uint8 (chain_from config start k + PCI_CAP_LIST_NEXT)).
Proof.
  revert start. induction k as [|k IH]; intros start.
  - reflexivity.
  - change (chain_from config start (S (S k)))
      with (chain_from config (uint8 (cap_ptr config start + PCI_CAP_LIST_NEXT)) (S k)).
    rewrite IH. reflexivity.
Qed.

Lemma chain_from_shift config start i j d :
  chain_from config start i = chain_from config start j ->
  chain_from config start (i + d) = chain_from config start (j + d).
Proof.
  intros Heq. induction d as [|d IH].
  - by rewrite !Nat.add_0_r.
  - rewrite !Nat.add_succ_r, !chain_from_step. by rewrite IH.
Qed.

(** The loop never enters more iterations than its counter allows. *)
Lemma find_cap_loop_steps config cap n pos :
  (snd (find_cap_loop config cap n pos) <= n)%nat.
Proof.
  revert pos. induction n as [|n IH]; intros pos; simpl; [lia|].
  destruct (_ <? _); simpl; [lia|].
  destruct (_ =? 255); simpl; [lia|].
  destruct (_ =? cap); simpl; [lia|].
  specialize (IH (uint8 (cap_ptr config pos + PCI_CAP_LIST_NEXT))).
  destruct (find_cap_loop _ _ _ _) as [r m]. simpl in *. lia.
Qed.

(** A nonzero result is the first matching element of the chain. *)
Lemma find_cap_loop_sound config cap n pos r :
  fst (find_cap_loop config cap n pos) = r -> r <> 0 ->
  exists k, (k < n)%nat /\ chain_from config pos k = r /\
    matches config cap r /\
    forall j, (j < k)%nat -> passed config cap (chain_from config pos j).
Proof.
  revert pos. induction n as [|n IH]; intros pos; simpl; [congruence|].
  destruct (Z.ltb_spec (cap_ptr config pos) PCI_CONFIG_HEADER_SIZE) as [Hlt|Hge];
    simpl; [congruence|].
  destruct (Z.eqb_spec (config_get config (cap_ptr config pos + PCI_CAP_LIST_ID)) 255)
    as [Hff|Hnff]; simpl; [congruence|].
  destruct (Z.eqb_spec (config_get config (cap_ptr config pos + PCI_CAP_LIST_ID)) cap)
    as [Hid|Hnid]; simpl.
  - intros <- _. exists O. split; [lia|]. split; [done|]. split; [done|].
    intros j Hj. lia.
  - specialize (IH (uint8 (cap_ptr config pos + PCI_CAP_LIST_NEXT))).
    destruct (find_cap_loop _ _ _ _) as [r' m]. simpl in *.
    intros Hr Hnz. destruct (IH Hr Hnz) as (k & Hk & Hch & Hm & Hpass).
    exists (S k). split; [lia|]. split; [done|]. split; [done|].
    intros [|j] Hj; simpl; [done | apply Hpass; lia].
Qed.

(** A terminator id or an out-of-range pointer met first gives 0. *)
Lemma find_cap_loop_stops config cap n pos k :
  (forall j, (j < k)%nat -> passed config cap (chain_from config pos j)) ->
  stops config (chain_from config pos k) ->
  fst (find_cap_loop config cap n pos) = 0.
Proof.
  revert pos k. induction n as [|n IH]; intros pos k Hpass Hstop; simpl; [done|].
  destruct (Z.ltb_spec (cap_ptr config pos) PCI_CONFIG_HEADER_SIZE) as [Hlt|Hge];
    simpl; [done|].
  destruct (Z.eqb_spec (config_get config (cap_ptr config pos + PCI_CAP_LIST_ID)) 255)
    as [Hff|Hnff]; simpl; [done|].
  destruct k as [|k].
  { simpl in Hstop. destruct Hstop as [?|?]; [lia | done]. }
  destruct (Z.eqb_spec (config_get config (cap_ptr config pos + PCI_CAP_LIST_ID)) cap)
    as [Hid|Hnid]; simpl.
  { destruct (Hpass O ltac:(lia)) as (_ & _ & Hne). by destruct Hne. }
  specialize (IH (uint8 (cap_ptr config pos + PCI_CAP_LIST_NEXT)) k).
  destruct (find_cap_loop _ _ _ _) as [r' m]. simpl in *.
  apply IH; [|done]. intros j Hj. apply (Hpass (S j)). lia.
Qed.

(** A match within the counter's reach is returned. *)
Lemma find_cap_loop_finds config cap n pos k :
  (forall j, (j < k)%nat -> passed config cap (chain_from config pos j)) ->
  matches config cap (chain_from config pos k) ->
  (k < n)%nat ->
  fst (find_cap_loop config cap n pos) = chain_from config pos k.
Proof.
  revert pos k. induction n as [|n IH]; intros pos k Hpass Hm Hk; [lia|]. simpl.
  destruct k as [|k].
  - destruct Hm as (Hge & Hnff & Hid). simpl in *. unfold cap_id in *.
    destruct (Z.ltb_spec (cap_ptr config pos) PCI_CONFIG_HEADER_SIZE); [lia|].
    destruct (Z.eqb_spec (config_get config (cap_ptr config pos + PCI_CAP_LIST_ID)) 255);
      [done|].
    destruct (Z.eqb_spec (config_get config (cap_ptr config pos + PCI_CAP_LIST_ID)) cap);
      [done|done].
  - destruct (Hpass O ltac:(lia)) as (Hge & Hnff & Hnid). simpl in *. unfold cap_id in *.
    destruct (Z.ltb_spec (cap_ptr config pos) PCI_CONFIG_HEADER_SIZE); [lia|].
    destruct (Z.eqb_spec (config_get config (cap_ptr config pos + PCI_CAP_LIST_ID)) 255);
      [done|].
    destruct (Z.eqb_spec (config_get config (cap_ptr config pos + PCI_CAP_LIST_ID)) cap);
      [done|].
    specialize (IH (uint8 (cap_ptr config pos + PCI_CAP_LIST_NEXT)) k).
    destruct (find_cap_loop _ _ _ _) as [r' m]. simpl in *.
    apply IH; [|done|lia]. intros j Hj. apply (Hpass (S j)). lia.
Qed.

Lemma cap_slots_length : length cap_slots = max_cap.
Proof. unfold cap_slots. by rewrite length_map, length_seq. Qed.

Lemma in_cap_slots p :
  PCI_CONFIG_HEADER_SIZE <= p <= 252 -> p mod 4 = 0 -> In p cap_slots.
Proof.
  unfold PCI_CONFIG_HEADER_SIZE. intros Hr Hm.
  apply in_map_iff. exists (Z.to_nat ((p - 0x40) / 4)). split.
  - unfold PCI_CONFIG_HEADER_SIZE, PCI_CAP_SIZEOF.
    rewrite Z2Nat.id by (apply Z.div_pos; lia).
    pose proof (Z.div_mod p 4 ltac:(lia)) as Hp.
    replace (p - 64) with (p + (-16) * 4) by lia.
    rewrite Z.div_add by lia. lia.
  - apply in_seq. split; [lia|]. simpl.
    change max_cap with (Z.to_nat 48).
    apply Z2Nat.inj_lt; [apply Z.div_pos; lia | lia |].
    apply Z.div_lt_upper_bound; lia.
Qed.

(** Up to its first match the chain never revisits a slot, so the match
    lies within [max_cap] steps: the counter cuts off cycles only. *)
Lemma first_match_within_max_cap config cap start k :
  (forall j, (j < k)%nat -> passed config cap (chain_from config start j)) ->
  matches config cap (chain_from config start k) ->
  (k < max_cap)%nat.
Proof.
  intros Hpass Hm.
  set (visited := map (chain_from config start) (seq 0 (S k))).
  assert (NoDup visited) as Hnd.
  { apply NoDup_fmap_2_strong; [|apply NoDup_seq].
    intros i j Hi Hj Heq.
    apply list_elem_of_In, in_seq in Hi. apply list_elem_of_In, in_seq in Hj.
    destruct (Nat.lt_trichotomy i j) as [Hlt|[->|Hlt]]; [exfalso| done |exfalso].
    - pose proof (chain_from_shift config start i j (k - j) Heq) as Hs.
      replace (j + (k - j))%nat with k in Hs by lia.
      destruct (Hpass (i + (k - j))%nat ltac:(lia)) as (_ & _ & Hne).
      destruct Hm as (_ & _ & He). rewrite Hs in Hne. done.
    - symmetry in Heq.
      pose proof (chain_from_shift config start j i (k - i) Heq) as Hs.
      replace (i + (k - i))%nat with k in Hs by lia.
      destruct (Hpass (j + (k - i))%nat ltac:(lia)) as (_ & _ & Hne).
      destruct Hm as (_ & _ & He). rewrite Hs in Hne. done. }
  assert (incl visited cap_slots) as Hincl.
  { intros p Hp. apply in_map_iff in Hp as (i & <- & Hi). apply in_seq in Hi.
    pose proof (chain_from_slot config start i) as [Hr Hmod].
    apply in_cap_slots; [|done]. split; [|lia].
    destruct (Nat.eq_dec i k) as [->|Hne]; [apply Hm | apply Hpass; lia]. }
  apply NoDup_ListNoDup in Hnd.
  pose proof (NoDup_incl_length Hnd Hincl) as Hlen.
  unfold visited in Hlen.
  rewrite length_map, length_seq, cap_slots_length in Hlen. lia.
Qed.

(** The scanner on a well-formed list, on a list without the capability
    asked for, and on a cyclic list, which it leaves when the counter
    runs out. *)
Example find_msi_in_two_caps :
  find_cap_offset_steps two_caps 0x05 = (0x50, 2%nat).
Proof. vm_compute. reflexivity. Qed.

Example find_msix_in_two_caps :
  find_cap_offset_steps two_caps 0x11 = (0, 3%nat).
Proof. vm_compute. reflexivity. Qed.

Example find_in_cyclic_caps :
  find_cap_offset_steps cyclic_caps 0x05 = (0, 48%nat).
Proof. vm_compute. reflexivity. Qed.

(** C7.  On every config image, well formed or not, the capability walk
    enters at most [max_cap] = (256 - 64) / 4 = 48 iterations.  Its result
    is 0 when the capability-list status bit is unset; otherwise it is the
    first element of the chain whose id is the requested one, when there
    is one, and 0 when an out-of-range pointer (which includes the empty
    list) or the terminator id 0xff comes first.  A nonzero result is
    always such a first match. *)
Theorem vfio_find_cap_offset_bounded_first_match :
  forall (config : config_image) (cap : Z),
    (snd (find_cap_offset_steps config cap) <= max_cap)%nat /\
    max_cap = 48%nat /\
    (cap_list_present config = false -> vfio_find_cap_offset config cap = 0) /\
    (forall k,
        cap_list_present config = true ->
        (forall j, (j < k)%nat -> passed config cap (chain config j)) ->
        matches config cap (chain config k) ->
        vfio_find_cap_offset config cap = chain config k) /\
    (forall k,
        (forall j, (j < k)%nat -> passed config cap (chain config j)) ->
        stops config (chain config k) ->
        vfio_find_cap_offset config cap = 0) /\
    (vfio_find_cap_offset config cap <> 0 ->
     cap_list_present config = true /\
     exists k, (k < max_cap)%nat /\
       chain config k = vfio_find_cap_offset config cap /\
       matches config cap (chain config k) /\
       forall j, (j < k)%nat -> passed config cap (chain config j)).
Proof.
  intros config cap.
  unfold vfio_find_cap_offset, find_cap_offset_steps, chain.
  split; [|split; [reflexivity|]].
  { destruct (cap_list_present config); [apply find_cap_loop_steps | simpl; lia]. }
  split; [intros ->; reflexivity|].
  split.
  { intros k -> Hpass Hm.
    apply find_cap_loop_finds; [done|done|].
    eapply first_match_within_max_cap; eauto. }
  split.
  { intros k Hpass Hstop. destruct (cap_list_present config); [|done].
    eapply find_cap_loop_stops; eauto. }
  destruct (cap_list_present config); [|done].
  intros Hnz. split; [done|].
  destruct (find_cap_loop_sound config cap max_cap PCI_CAPABILITY_LIST _ eq_refl Hnz)
    as (k & Hk & Hch & Hm & Hpass).
  exists k. rewrite Hch. done.
Qed.

End CapScanFacts.

(** ** Netlink hot-remove handler *)

Module NetlinkFacts.
Import Netlink.

Lemma nl_lookup_none s b d f l :
  (forall vdev, In vdev l -> host_matches s b d f vdev = false) ->
  nl_lookup s b d f l = None.
Proof.
  induction l as [|vdev l IH]; intros Hno; simpl; [done|].
  rewrite (Hno vdev) by (by left).
  rewrite IH; [done|]. intros v Hv. apply Hno. by right.
Qed.

Lemma nl_lookup_some s b d f l i :
  nl_lookup s b d f l = Some i ->
  exists vdev, l !! i = Some vdev /\ host_matches s b d f vdev = true.
Proof.
  revert i. induction l as [|vdev l IH]; intros i; simpl; [done|].
  destruct (host_matches s b d f vdev) eqn:Hm.
  - intros [= <-]. by exists vdev.
  - destruct (nl_lookup s b d f l) as [j|]; simpl; [|done].
    intros [= <-]. destruct (IH j eq_refl) as (v & Hv & Hmv). by exists v.
Qed.

(** A registered device receiving REMOVE is asked to unplug and gets the
    30 second timer: the handler does act when the identity is known. *)
Example remove_registered_arms_timer :
  let d0 := {| host := {| seg := 0; bus := 1; dev := 0; func := 0 |};
               unplug_requests := 0; remove_timer := None |} in
  let msg := {| nl_pid := 0; cmd := 1;
                attr_pci_domain := Some 0; attr_pci_bus := Some 1;
                attr_pci_slot := Some 0; attr_pci_func := Some 0 |} in
  vfio_parse_netlink 1 {| nl_list := [d0]; rt_clock_ms := 500 |} msg =
  (0, {| nl_list := [{| host := host d0; unplug_requests := 1;
                        remove_timer := Some 30500 |}];
         rt_clock_ms := 500 |}).
Proof. reflexivity. Qed.

(** C8.  A REMOVE message whose identity names no device of the registry
    leaves the whole state as it was: no qdev_unplug, no timer, no field
    of any device changed. *)
Theorem remove_unregistered_is_noop :
  forall (VFIO_MSG_REMOVE : Z) (st : State) (msg : nl_msg),
    cmd msg = VFIO_MSG_REMOVE ->
    (forall vdev, In vdev (nl_list st) -> msg_names msg vdev = false) ->
    snd (vfio_parse_netlink VFIO_MSG_REMOVE st msg) = st.
Proof.
  intros REMOVE st msg _ Hno. unfold vfio_parse_netlink, msg_names in *.
  destruct (negb (nl_pid msg =? 0)); [done|].
  destruct (attr_pci_domain msg) as [s|]; [|done].
  destruct (attr_pci_bus msg) as [b|]; [|done].
  destruct (attr_pci_slot msg) as [d|]; [|done].
  destruct (attr_pci_func msg) as [f|]; [|done].
  by rewrite (nl_lookup_none s b d f (nl_list st) Hno).
Qed.

Lemma remove_unregistered_is_noop_witness :
  let d0 := {| host := {| seg := 0; bus := 1; dev := 0; func := 0 |};
               unplug_requests := 0; remove_timer := None |} in
  let st := {| nl_list := [d0]; rt_clock_ms := 500 |} in
  let msg := {| nl_pid := 0; cmd := 1;
                attr_pci_domain := Some 0; attr_pci_bus := Some 2;
                attr_pci_slot := Some 0; attr_pci_func := Some 0 |} in
  snd (vfio_parse_netlink 1 st msg) = st.
Proof.
  intros d0 st msg. apply (remove_unregistered_is_noop 1 st msg).
  - reflexivity.
  - intros vdev [<-|[]]. reflexivity.
Defined.

(** C10.  A message whose sender port id is not 0 (not the kernel) is
    dropped before its attributes are looked at: whatever its command and
    payload, the handler returns 0 and the state is the one it was given. *)
Theorem foreign_sender_is_discarded :
  forall (VFIO_MSG_REMOVE : Z) (st : State) (msg : nl_msg),
    nl_pid msg <> 0 ->
    vfio_parse_netlink VFIO_MSG_REMOVE st msg = (0, st).
Proof.
  intros REMOVE st msg Hpid. unfold vfio_parse_netlink.
  destruct (Z.eqb_spec (nl_pid msg) 0); [done|reflexivity].
Qed.

Lemma foreign_sender_is_discarded_witness :
  let d0 := {| host := {| seg := 0; bus := 1; dev := 0; func := 0 |};
               unplug_requests := 0; remove_timer := None |} in
  let st := {| nl_list := [d0]; rt_clock_ms := 500 |} in
  let msg := {| nl_pid := 4242; cmd := 1;
                attr_pci_domain := Some 0; attr_pci_bus := Some 1;
                attr_pci_slot := Some 0; attr_pci_func := Some 0 |} in
  vfio_parse_netlink 1 st msg = (0, st).
Proof.
  intros d0 st msg. apply (foreign_sender_is_discarded 1 st msg).
  simpl. lia.
Defined.

End NetlinkFacts.

(** ** DMA translator *)

Module DMAFacts.
Import DMA.

Section Translator.

Variable K : Type.
Variable ioctl_map_dma : K -> Z -> vfio_dma_map_t -> K * option positive.
Variable ioctl_unmap_dma : K -> Z -> vfio_dma_map_t -> K * option positive.
Variable qemu_get_ram_ptr : Z -> Z.
Variable cpu_get_physical_page_desc : Z -> Z.
Variable VFIO_MAX_MAP_SIZE : Z.
Variable VFIO_FLAG_WRITE : Z.
Variable TARGET_PAGE_BITS : Z.
Variable IO_MEM_RAM : Z.
Variable IO_MEM_UNASSIGNED : Z.
Variable EBUSY : positive.

Local Abbreviation map_loop := (dma_map_loop ioctl_map_dma VFIO_MAX_MAP_SIZE).
Local Abbreviation dma_map :=
  (vfio_dma_map ioctl_map_dma qemu_get_ram_ptr VFIO_MAX_MAP_SIZE VFIO_FLAG_WRITE).
Local Abbreviation dma_unmap :=
  (vfio_dma_unmap ioctl_unmap_dma qemu_get_ram_ptr VFIO_FLAG_WRITE).
Local Abbreviation run := (chunk_run VFIO_MAX_MAP_SIZE).
Local Abbreviation PAGE := (TARGET_PAGE_SIZE TARGET_PAGE_BITS).
Local Abbreviation put := (asked ioctl_map_dma ioctl_unmap_dma).

Lemma asked_app k cs1 k1 cs2 k2 :
  put k cs1 k1 -> put k1 cs2 k2 -> put k (cs1 ++ cs2) k2.
Proof.
  revert k. induction cs1 as [|c cs1 IH]; intros k; cbn.
  - by intros ->.
  - intros [Hc H1] H2. split; [done|]. by apply IH.
Qed.

Lemma asked_map k fd m :
  put k [MAP_DMA fd m (snd (ioctl_map_dma k fd m))]
    (fst (ioctl_map_dma k fd m)).
Proof. by cbn. Qed.

Lemma asked_unmap k fd m :
  put k [UNMAP_DMA fd m (snd (ioctl_unmap_dma k fd m))]
    (fst (ioctl_unmap_dma k fd m)).
Proof. by cbn. Qed.

Definition succeeded (c : call) : Prop := call_err c = None.

(** How a run of map calls ends: all of them succeeded and the whole
    size was handed over, or the last one failed with [e] and nothing
    was issued after it. *)
Definition map_outcome (fd : Z) (sz : Z) (cs : list call) (total ret : Z) : Prop :=
  (ret = 0 /\ total = sz /\ Forall succeeded cs) \/
  (exists e cs0 m,
      ret = - Z.pos e /\ cs = cs0 ++ [MAP_DMA fd m (Some e)] /\
      Forall succeeded cs0 /\ total <= sz).

Lemma chunk_run_total fd fl v d cs total :
  run fd fl v d cs total -> 0 <= total /\ (total = 0 -> cs = []).
Proof.
  induction 1 as [|v d sz r cs total Hsz _ [IH _]]; [done|].
  split; [lia|]. intros ?. lia.
Qed.

(** The loop, given enough iterations for the size it is asked to map. *)
Lemma dma_map_loop_run fuel fd w v d fl sz :
  0 < VFIO_MAX_MAP_SIZE -> 0 <= sz ->
  sz <= Z.of_nat fuel * VFIO_MAX_MAP_SIZE ->
  exists w' ret cs total,
    map_loop fuel fd w v d fl sz = Some (w', ret) /\
    calls w' = calls w ++ cs /\
    put (kernel w) cs (kernel w') /\
    run fd fl v d cs total /\
    map_outcome fd sz cs total ret.
Proof.
  intros Hmax. revert w v d sz.
  induction fuel as [|fuel IH]; intros w v d sz Hsz Hfuel.
  - assert (sz = 0) as -> by lia. simpl.
    exists w, 0, [], 0. rewrite app_nil_r.
    repeat split; [constructor|]. left. repeat split. constructor.
  - simpl. destruct (Z.eqb_spec sz 0) as [->|Hnz].
    { exists w, 0, [], 0. rewrite app_nil_r.
      repeat split; [constructor|]. left. repeat split. constructor. }
    set (chunk := Z.min sz VFIO_MAX_MAP_SIZE).
    assert (0 < chunk <= VFIO_MAX_MAP_SIZE /\ chunk <= sz) as [Hchunk Hle]
      by (unfold chunk; lia).
    unfold do_map.
    pose proof (asked_map (kernel w) fd
                  {| vaddr := v; dmaaddr := d; size := chunk; flags := fl |})
      as Hput.
    destruct (ioctl_map_dma (kernel w) fd _) as [k [e|]] eqn:Hk.
    + eexists _, _, [_], (chunk + 0). split; [reflexivity|]. simpl.
      split; [reflexivity|]. split; [exact Hput|]. split.
      * constructor; [done|constructor].
      * right. exists e, [], {| vaddr := v; dmaaddr := d; size := chunk; flags := fl |}.
        repeat split; [constructor | lia].
    + set (w1 := {| kernel := k; calls := _ |}).
      destruct (IH w1 (uint64 (v + chunk)) (uint64 (d + chunk)) (sz - chunk))
        as (w' & ret & cs & total & Hrun & Hcalls & Hasked & Hchunks & Hout);
        [lia|lia|].
      exists w', ret,
        (MAP_DMA fd {| vaddr := v; dmaaddr := d; size := chunk; flags := fl |} None :: cs),
        (chunk + total).
      split; [done|]. split.
      { rewrite Hcalls. unfold w1. simpl. by rewrite <- app_assoc. }
      split.
      { apply (asked_app _ [_] k); [exact Hput|exact Hasked]. }
      split; [by constructor|].
      destruct Hout as [(-> & -> & Hall)|(e & cs0 & m & -> & -> & Hall & Htot)].
      * left. repeat split; [lia|]. constructor; done.
      * right. exists e, (MAP_DMA fd {| vaddr := v; dmaaddr := d; size := chunk; flags := fl |} None :: cs0), m.
        repeat split; [constructor; done | lia].
Qed.

Lemma map_fuel_enough sz :
  0 < VFIO_MAX_MAP_SIZE -> 0 <= sz ->
  sz <= Z.of_nat (map_fuel VFIO_MAX_MAP_SIZE sz) * VFIO_MAX_MAP_SIZE.
Proof.
  intros Hmax Hsz. unfold map_fuel.
  rewrite Nat2Z.inj_succ, Z2Nat.id by (apply Z.div_pos; lia).
  pose proof (Z.div_mod sz VFIO_MAX_MAP_SIZE ltac:(lia)).
  pose proof (Z.mod_pos_bound sz VFIO_MAX_MAP_SIZE Hmax). nia.
Qed.

(** Calls of one run tile the interval they start at: an IOVA inside it
    lies in exactly one call, an IOVA outside it in none. *)
Lemma chunk_run_tiles fd fl v d cs total a :
  run fd fl v d cs total -> 0 <= d -> d + total <= 2 ^ 64 ->
  length (List.filter (covers a) cs) =
  if (d <=? a) && (a <? d + total) then 1%nat else 0%nat.
Proof.
  induction 1 as [v d|v d sz r cs total Hsz Hrun IH]; intros Hd Hend.
  - simpl. destruct (Z.leb_spec d a), (Z.ltb_spec a (d + 0)); simpl; lia.
  - pose proof (chunk_run_total _ _ _ _ _ _ Hrun) as [Htot Hnil].
    simpl. unfold covers at 1. simpl.
    destruct (Z.eq_dec total 0) as [->|Hpos].
    + rewrite (Hnil eq_refl). simpl.
      replace (d + (sz + 0)) with (d + sz) by lia.
      by destruct ((d <=? a) && (a <? d + sz)).
    + assert (uint64 (d + sz) = d + sz) as Hd' by (apply Z.mod_small; lia).
      rewrite Hd' in IH. specialize (IH ltac:(lia) ltac:(lia)).
      destruct (Z.leb_spec d a), (Z.ltb_spec a (d + sz)); simpl;
        rewrite IH;
        destruct (Z.leb_spec (d + sz) a), (Z.ltb_spec a (d + sz + total)),
                 (Z.ltb_spec a (d + (sz + total))); simpl; lia.
Qed.

(** C5.  Whatever the kernel answers, [vfio_dma_map] hands the request
    over in consecutive VFIO_MAP_DMA ioctls of 1 to [VFIO_MAX_MAP_SIZE]
    bytes, the host address and the IOVA of each call being those of the
    call before it advanced by that call's size.  The calls [cs] are put
    to the kernel in that order and the answers are the kernel's, the
    kernel being left in the state the last of them leaves.  When every
    call is accepted the result is 0, the sizes add up to the requested
    size, and every IOVA of the requested range lies in exactly one call
    and no other IOVA in any.  When the kernel refuses a call it is the
    last one issued and the result is the negated errno of that call, a
    negative number. *)
Theorem vfio_dma_map_chunked_cover fd (w : World K) start_addr sz phys_offset :
  0 < VFIO_MAX_MAP_SIZE -> 0 <= sz ->
  exists w' ret cs total,
    dma_map fd w start_addr sz phys_offset = Some (w', ret) /\
    calls w' = calls w ++ cs /\
    put (kernel w) cs (kernel w') /\
    run fd VFIO_FLAG_WRITE (uint64 (qemu_get_ram_ptr phys_offset)) start_addr
      cs total /\
    map_outcome fd sz cs total ret /\
    (ret <> 0 -> ret < 0) /\
    (ret = 0 -> 0 <= start_addr -> start_addr + sz <= 2 ^ 64 ->
     forall a,
       length (List.filter (covers a) cs) =
       if (start_addr <=? a) && (a <? start_addr + sz) then 1%nat else 0%nat).
Proof.
  intros Hmax Hsz. unfold vfio_dma_map.
  destruct (dma_map_loop_run (map_fuel VFIO_MAX_MAP_SIZE sz) fd w
              (uint64 (qemu_get_ram_ptr phys_offset)) start_addr
              VFIO_FLAG_WRITE sz Hmax Hsz (map_fuel_enough sz Hmax Hsz))
    as (w' & ret & cs & total & Hrun & Hcalls & Hasked & Hchunks & Hout).
  exists w', ret, cs, total. repeat (split; [done|]). split.
  - destruct Hout as [(-> & _)|(e & ? & ? & -> & _)]; [done|lia].
  - intros -> Hstart Hend a.
    destruct Hout as [(_ & -> & _)|(e & ? & ? & ? & _)]; [|lia].
    by apply (chunk_run_tiles fd VFIO_FLAG_WRITE
                (uint64 (qemu_get_ram_ptr phys_offset))).
Qed.

(** *** The page walk of the EBUSY branch *)

Definition map_succeeded (c : call) : Prop :=
  match c with
  | MAP_DMA _ _ e => e = None
  | UNMAP_DMA _ _ _ => True
  end.

Lemma page_size_pos : 0 <= TARGET_PAGE_BITS -> 0 < PAGE.
Proof.
  intros Hb. unfold TARGET_PAGE_SIZE. rewrite Z.shiftl_1_l.
  apply Z.pow_pos_nonneg; lia.
Qed.

(** Mapping a single page takes one call when a page fits a chunk. *)
Lemma dma_map_page fd (w : World K) curr phys :
  0 < PAGE <= VFIO_MAX_MAP_SIZE ->
  dma_map fd w curr PAGE phys =
  let '(w', r) :=
    do_map ioctl_map_dma fd w
      {| vaddr := uint64 (qemu_get_ram_ptr phys); dmaaddr := curr;
         size := PAGE; flags := VFIO_FLAG_WRITE |} in
  Some (w', match r with Some e => - Z.pos e | None => 0 end).
Proof.
  intros [Hpos Hle]. unfold vfio_dma_map, map_fuel. cbn [dma_map_loop].
  destruct (Z.eqb_spec PAGE 0) as [?|_]; [lia|].
  rewrite Z.min_l by lia.
  destruct (do_map _ _ _ _) as [w' [e|]]; [done|].
  rewrite Z.sub_diag. by destruct (Z.to_nat _).
Qed.

Lemma uint64_add_l x y : uint64 (uint64 x + y) = uint64 (x + y).
Proof. unfold uint64. apply Z.add_mod_idemp_l. lia. Qed.

Lemma flat_map_seq_cons {A} (f : nat -> list A) i j :
  (i < j)%nat ->
  flat_map f (seq i (j - i)) = f i ++ flat_map f (seq (S i) (j - S i)).
Proof.
  intros Hlt. replace (j - i)%nat with (S (j - S i)) by lia. reflexivity.
Qed.

Local Abbreviation walk := (remap_loop ioctl_map_dma ioctl_unmap_dma
  qemu_get_ram_ptr cpu_get_physical_page_desc VFIO_MAX_MAP_SIZE
  VFIO_FLAG_WRITE TARGET_PAGE_BITS).
Local Abbreviation requests := (page_requests qemu_get_ram_ptr
  cpu_get_physical_page_desc VFIO_FLAG_WRITE TARGET_PAGE_BITS).

(** The walk from page [i] of an [n]-page range: it issues the requests
    of the pages [i .. j-1] in order, where [j = n] when no remap failed,
    and page [j-1] is the one whose remap failed otherwise. *)
Lemma remap_loop_walk fuel fd (w : World K) i n start_addr phys_offset ret :
  0 <= TARGET_PAGE_BITS -> PAGE <= VFIO_MAX_MAP_SIZE ->
  0 <= start_addr -> start_addr + Z.of_nat n * PAGE < 2 ^ 64 ->
  (i <= n)%nat -> (n - i <= fuel)%nat ->
  exists w' curr' ret' cs j,
    walk fuel fd w (start_addr + Z.of_nat i * PAGE)
      (start_addr + Z.of_nat n * PAGE)
      (uint64 (phys_offset + Z.of_nat i * PAGE)) ret = Some (w', curr', ret') /\
    calls w' = calls w ++ cs /\ put (kernel w) cs (kernel w') /\
    (i <= j <= n)%nat /\
    map request_of cs = flat_map (requests fd start_addr phys_offset) (seq i (j - i)) /\
    ((start_addr + Z.of_nat n * PAGE <= curr' /\ j = n /\ Forall map_succeeded cs) \/
     (curr' < start_addr + Z.of_nat n * PAGE /\
      exists cs0 m e,
        cs = cs0 ++ [MAP_DMA fd m (Some e)] /\ Forall map_succeeded cs0)).
Proof.
  intros Hbits Hmax Hstart Hend.
  pose proof (page_size_pos Hbits) as Hpage.
  revert w i ret. induction fuel as [|fuel IH]; intros w i ret Hi Hfuel.
  - assert (i = n) as -> by lia. simpl.
    rewrite Z.ltb_irrefl. simpl.
    exists w, (start_addr + Z.of_nat n * PAGE), ret, [], n.
    rewrite app_nil_r, Nat.sub_diag. repeat split; try done; try lia.
    left. repeat split; [lia | constructor].
  - destruct (Nat.eq_dec i n) as [->|Hne].
    { simpl. rewrite Z.ltb_irrefl. simpl.
      exists w, (start_addr + Z.of_nat n * PAGE), ret, [], n.
      rewrite app_nil_r, Nat.sub_diag. repeat split; try done; try lia.
      left. repeat split; [lia | constructor]. }
    assert (i < n)%nat as Hlt by lia.
    assert (start_addr + Z.of_nat i * PAGE + PAGE =
            start_addr + Z.of_nat (S i) * PAGE) as Hnext by lia.
    assert (uint64 (start_addr + Z.of_nat i * PAGE + PAGE) =
            start_addr + Z.of_nat (S i) * PAGE) as Hcurr.
    { rewrite Hnext. apply Z.mod_small. nia. }
    assert (uint64 (uint64 (phys_offset + Z.of_nat i * PAGE) + PAGE) =
            uint64 (phys_offset + Z.of_nat (S i) * PAGE)) as Hphys.
    { rewrite uint64_add_l. f_equal. lia. }
    cbn [remap_loop].
    destruct (Z.ltb_spec (start_addr + Z.of_nat i * PAGE)
                (start_addr + Z.of_nat n * PAGE)) as [_|?]; [|nia].
    cbn [negb]. rewrite Hcurr, Hphys.
    destruct (Z.eqb_spec
                (cpu_get_physical_page_desc (start_addr + Z.of_nat i * PAGE))
                (uint64 (phys_offset + Z.of_nat i * PAGE))) as [Heq|Hdiff];
      cbn [negb].
    + destruct (IH w (S i) ret ltac:(lia) ltac:(lia))
        as (w' & curr' & ret' & cs & j & Hrun & Hcalls & Hasked & Hj & Hreq
            & Hout).
      exists w', curr', ret', cs, j. repeat (split; [done || lia|]).
      split; [|done].
      rewrite flat_map_seq_cons by lia. rewrite Hreq.
      unfold page_requests at 2.
      destruct (Z.eqb_spec
                (cpu_get_physical_page_desc (start_addr + Z.of_nat i * PAGE))
                (uint64 (phys_offset + Z.of_nat i * PAGE))); [done|done].
    + unfold vfio_dma_unmap, do_unmap.
      destruct (ioctl_unmap_dma (kernel w) fd _) as [k1 r1] eqn:Hun.
      set (um := UNMAP_DMA fd _ r1).
      set (w1 := {| kernel := k1; calls := calls w ++ [um] |}).
      assert ((let '(w0, _) :=
                 match r1 with
                 | Some errno => (w1, - Z.pos errno)
                 | None => (w1, 0)
                 end in
               match dma_map fd w0 (start_addr + Z.of_nat i * PAGE) PAGE
                       (uint64 (phys_offset + Z.of_nat i * PAGE)) with
               | Some (w2, ret0) =>
                   if negb (ret0 =? 0)
                   then Some (w2, start_addr + Z.of_nat i * PAGE, ret0)
                   else walk fuel fd w2 (start_addr + Z.of_nat (S i) * PAGE)
                          (start_addr + Z.of_nat n * PAGE)
                          (uint64 (phys_offset + Z.of_nat (S i) * PAGE)) ret0
               | None => None
               end) =
              match dma_map fd w1 (start_addr + Z.of_nat i * PAGE) PAGE
                       (uint64 (phys_offset + Z.of_nat i * PAGE)) with
               | Some (w2, ret0) =>
                   if negb (ret0 =? 0)
                   then Some (w2, start_addr + Z.of_nat i * PAGE, ret0)
                   else walk fuel fd w2 (start_addr + Z.of_nat (S i) * PAGE)
                          (start_addr + Z.of_nat n * PAGE)
                          (uint64 (phys_offset + Z.of_nat (S i) * PAGE)) ret0
               | None => None
               end) as -> by (by destruct r1).
      rewrite dma_map_page by lia. unfold do_map.
      destruct (ioctl_map_dma (kernel w1) fd _) as [k2 r2] eqn:Hmp.
      set (mp := MAP_DMA fd _ r2).
      set (w2 := {| kernel := k2; calls := calls w1 ++ [mp] |}).
      assert (put (kernel w) [um; mp] k2) as Hput.
      { unfold um, mp. cbn. rewrite Hun. cbn. split; [done|].
        change k1 with (kernel w1). rewrite Hmp. by cbn. }
      assert (map request_of [um; mp] = requests fd start_addr phys_offset i)
        as Hpage_req.
      { unfold page_requests.
        destruct (Z.eqb_spec
                (cpu_get_physical_page_desc (start_addr + Z.of_nat i * PAGE))
                (uint64 (phys_offset + Z.of_nat i * PAGE))); [done|].
        reflexivity. }
      destruct r2 as [e|].
      * assert ((- Z.pos e =? 0) = false) as -> by (apply Z.eqb_neq; lia).
        cbn [negb].
        exists w2, (start_addr + Z.of_nat i * PAGE), (- Z.pos e), [um; mp], (S i).
        split; [done|]. split.
        { unfold w2, w1. simpl. by rewrite <- app_assoc. }
        split; [exact Hput|].
        split; [lia|]. split.
        { replace (S i - i)%nat with 1%nat by lia. simpl.
          by rewrite app_nil_r. }
        right. split; [nia|]. exists [um]. eexists. exists e.
        split; [reflexivity|]. by repeat constructor.
      * cbn [Z.eqb negb].
        destruct (IH w2 (S i) 0 ltac:(lia) ltac:(lia))
          as (w' & curr' & ret' & cs & j & Hrun & Hcalls & Hasked & Hj & Hreq
              & Hout).
        exists w', curr', ret', (um :: mp :: cs), j.
        split; [done|]. split.
        { rewrite Hcalls. unfold w2, w1. simpl. by rewrite <- !app_assoc. }
        split.
        { apply (asked_app _ [um; mp] k2); [exact Hput|exact Hasked]. }
        split; [lia|]. split.
        { rewrite flat_map_seq_cons by lia. rewrite <- Hpage_req, <- Hreq.
          reflexivity. }
        destruct Hout as [(? & ? & Hall)|(? & cs0 & m & e & -> & Hall)].
        -- left. repeat split; try done. by repeat constructor.
        -- right. split; [done|]. exists (um :: mp :: cs0), m, e.
           split; [done|]. by repeat constructor.
Qed.

Lemma request_of_arg c fd m :
  request_of c = ReqUnmap fd m \/ request_of c = ReqMap fd m -> call_arg c = m.
Proof. destruct c; simpl; intros [H|H]; congruence. Qed.

(** Every request of the walk names one page whose current backing is
    not the wanted one. *)
Lemma page_requests_differ fd start_addr phys_offset i q :
  In q (requests fd start_addr phys_offset i) ->
  cpu_get_physical_page_desc (start_addr + Z.of_nat i * PAGE) <>
    uint64 (phys_offset + Z.of_nat i * PAGE) /\
  exists m, (q = ReqUnmap fd m \/ q = ReqMap fd m) /\
    dmaaddr m = start_addr + Z.of_nat i * PAGE /\ size m = PAGE.
Proof.
  unfold page_requests.
  destruct (Z.eqb_spec
              (cpu_get_physical_page_desc (start_addr + Z.of_nat i * PAGE))
              (uint64 (phys_offset + Z.of_nat i * PAGE))) as [|Hne]; [done|].
  intros [<-|[<-|[]]]; (split; [done|]); eexists; (split; [eauto|done]).
Qed.

Lemma aligned_size_pages sz :
  0 <= TARGET_PAGE_BITS -> 0 <= sz ->
  Z.land sz (Z.lnot (TARGET_PAGE_MASK TARGET_PAGE_BITS)) = 0 ->
  sz = Z.of_nat (Z.to_nat (sz / PAGE)) * PAGE.
Proof.
  intros Hbits Hsz Hal. pose proof (page_size_pos Hbits) as Hpage.
  unfold TARGET_PAGE_MASK in Hal. rewrite Z.lnot_involutive in Hal.
  unfold TARGET_PAGE_SIZE in *. rewrite Z.shiftl_1_l in *.
  rewrite Z.sub_1_r, <- Z.ones_equiv, Z.land_ones in Hal by lia.
  rewrite Z2Nat.id by (apply Z.div_pos; lia).
  pose proof (Z.div_mod sz (2 ^ TARGET_PAGE_BITS) ltac:(lia)). lia.
Qed.

Local Abbreviation set_memory := (vfio_client_set_memory ioctl_map_dma
  ioctl_unmap_dma qemu_get_ram_ptr cpu_get_physical_page_desc
  VFIO_MAX_MAP_SIZE VFIO_FLAG_WRITE TARGET_PAGE_BITS IO_MEM_RAM
  IO_MEM_UNASSIGNED EBUSY).

(** The pages the walk can reach: those of the range when its end
    [start_addr + sz] is an address, none when the end, computed in
    [target_phys_addr_t], has wrapped. *)
Definition walk_pages (start_addr sz : Z) : nat :=
  if start_addr + sz <? 2 ^ 64 then Z.to_nat (sz / PAGE) else 0%nat.

(** X25.  When the map of a page-aligned RAM range comes back with
    -EBUSY, [vfio_client_set_memory] visits the pages of the range in
    order and compares [cpu_get_physical_page_desc] of each with the ram
    page wanted there.  The calls [cs] it puts to the kernel in that
    walk are, page by page, nothing for a page whose binding matches,
    and one VFIO_UNMAP_DMA of the old binding followed by one
    VFIO_MAP_DMA of the new one for a page whose binding differs; so
    every call of the walk names a single page that differs.  The calls
    reach the kernel in that order and the answers are the kernel's.
    The walk covers all pages unless the kernel refuses a remap; the
    first refused remap ends it and the whole range is unmapped once.
    All this for a range that ends below 2^64: when [start_addr + sz]
    reaches 2^64 the end address wraps, no page is visited and nothing
    is put to the kernel. *)
Theorem set_memory_ebusy_walks_changed_pages
    vdevs fd rest (w w1 : World K) start_addr sz phys_offset :
  0 <= TARGET_PAGE_BITS -> PAGE <= VFIO_MAX_MAP_SIZE ->
  vdevs = fd :: rest ->
  0 <= start_addr < 2 ^ 64 -> 0 <= sz < 2 ^ 64 ->
  0 <= phys_offset < 2 ^ 64 ->
  Z.land (Z.lor start_addr sz) (Z.lnot (TARGET_PAGE_MASK TARGET_PAGE_BITS)) = 0 ->
  Z.land phys_offset (Z.lnot (TARGET_PAGE_MASK TARGET_PAGE_BITS)) = IO_MEM_RAM ->
  dma_map fd w start_addr sz phys_offset = Some (w1, - Z.pos EBUSY) ->
  exists w2 cs j rollback,
    set_memory vdevs w start_addr sz phys_offset = Some w2 /\
    calls w2 = calls w1 ++ cs ++ rollback /\
    put (kernel w1) (cs ++ rollback) (kernel w2) /\
    (j <= walk_pages start_addr sz)%nat /\
    map request_of cs =
      flat_map (requests fd start_addr phys_offset) (seq 0 j) /\
    (forall c, In c cs ->
       exists i, (i < j)%nat /\
         dmaaddr (call_arg c) = start_addr + Z.of_nat i * PAGE /\
         size (call_arg c) = PAGE /\
         cpu_get_physical_page_desc (start_addr + Z.of_nat i * PAGE) <>
           uint64 (phys_offset + Z.of_nat i * PAGE)) /\
    ((j = walk_pages start_addr sz /\ Forall map_succeeded cs /\
      rollback = []) \/
     (exists cs0 m e r,
        cs = cs0 ++ [MAP_DMA fd m (Some e)] /\ Forall map_succeeded cs0 /\
        rollback =
          [UNMAP_DMA fd {| vaddr := uint64 (qemu_get_ram_ptr phys_offset);
                           dmaaddr := start_addr; size := sz;
                           flags := VFIO_FLAG_WRITE |} r])).
Proof.
  intros Hbits Hmax -> Hstart Hsz Hphys Hal Hram Hbusy.
  pose proof (page_size_pos Hbits) as Hpage.
  unfold vfio_client_set_memory.
  rewrite Hal, Hram, Z.eqb_refl, Z.eqb_refl. cbn [negb].
  rewrite Hbusy.
  assert ((- Z.pos EBUSY =? 0) = false) as -> by (apply Z.eqb_neq; lia).
  rewrite Z.eqb_refl. unfold walk_pages.
  destruct (Z.ltb_spec (start_addr + sz) (2 ^ 64)) as [Hend|Hwrap].
  2:{ (* the end address has wrapped *)
      assert (uint64 (start_addr + sz) = start_addr + sz - 2 ^ 64) as ->.
      { unfold uint64. symmetry.
        apply (Z.mod_unique _ _ 1); lia. }
      assert (forall fuel ret,
                walk fuel fd w1 start_addr (start_addr + sz - 2 ^ 64)
                  phys_offset ret = Some (w1, start_addr, ret)) as ->.
      { intros fuel ret.
        assert ((start_addr <? start_addr + sz - 2 ^ 64) = false) as Hlt
          by (apply Z.ltb_ge; lia).
        destruct fuel; cbn [remap_loop]; by rewrite Hlt. }
      assert ((start_addr <? start_addr + sz - 2 ^ 64) = false) as ->
        by (apply Z.ltb_ge; lia).
      cbn [negb]. exists w1, [], 0%nat, [].
      rewrite !app_nil_r. split; [done|]. split; [done|]. split; [done|].
      split; [done|]. split; [done|]. split; [by intros c []|].
      left. by repeat split. }
  assert (Z.land sz (Z.lnot (TARGET_PAGE_MASK TARGET_PAGE_BITS)) = 0) as Hsz_al.
  { rewrite Z.land_lor_distr_l in Hal. by apply Z.lor_eq_0_iff in Hal as [_ ?]. }
  pose proof (aligned_size_pages sz Hbits ltac:(lia) Hsz_al) as Hn.
  set (n := Z.to_nat (sz / PAGE)) in *.
  assert (uint64 (start_addr + sz) = start_addr + sz) as ->
    by (apply Z.mod_small; lia).
  destruct (remap_loop_walk (remap_fuel TARGET_PAGE_BITS sz) fd w1 0 n
              start_addr phys_offset (- Z.pos EBUSY) Hbits Hmax ltac:(lia)
              ltac:(lia) ltac:(lia) ltac:(unfold remap_fuel; lia))
    as (w' & curr' & ret' & cs & j & Hrun & Hcalls & Hasked & Hj & Hreq
        & Hout).
  rewrite Nat.sub_0_r in Hreq.
  change (Z.of_nat 0 * PAGE) with 0 in Hrun.
  rewrite !Z.add_0_r, <- Hn in Hrun.
  assert (uint64 phys_offset = phys_offset) as Hpo by (apply Z.mod_small; lia).
  rewrite Hpo in Hrun.
  rewrite Hrun.
  assert (forall c, In c cs ->
            exists i, (i < j)%nat /\
              dmaaddr (call_arg c) = start_addr + Z.of_nat i * PAGE /\
              size (call_arg c) = PAGE /\
              cpu_get_physical_page_desc (start_addr + Z.of_nat i * PAGE) <>
                uint64 (phys_offset + Z.of_nat i * PAGE)) as Hpages.
  { intros c Hc. apply (in_map request_of) in Hc. rewrite Hreq in Hc.
    apply in_flat_map in Hc as (i & Hi & Hq). apply in_seq in Hi.
    apply page_requests_differ in Hq as (Hne & m & Hm & Hd & Hs).
    apply request_of_arg in Hm as ->. exists i. repeat split; [lia|done..]. }
  destruct Hout as [(Hdone & -> & Hall)|(Hbreak & cs0 & m & e & -> & Hall)].
  - destruct (Z.ltb_spec curr' (start_addr + sz)) as [?|_]; [lia|]. cbn [negb].
    exists w', cs, n, []. rewrite !app_nil_r. repeat (split; [done|]).
    left. done.
  - destruct (Z.ltb_spec curr' (start_addr + sz)) as [_|?]; [|lia]. cbn [negb].
    unfold vfio_dma_unmap, do_unmap.
    pose proof (asked_unmap (kernel w') fd
                  {| vaddr := uint64 (qemu_get_ram_ptr phys_offset);
                     dmaaddr := start_addr; size := sz;
                     flags := VFIO_FLAG_WRITE |}) as Hput.
    destruct (ioctl_unmap_dma (kernel w') fd _) as [k r] eqn:Hun.
    set (um := UNMAP_DMA fd _ r).
    exists {| kernel := k; calls := calls w' ++ [um] |},
      (cs0 ++ [MAP_DMA fd m (Some e)]), j, [um]. split.
    { by destruct r. }
    split.
    { simpl. by rewrite Hcalls, <- app_assoc. }
    split.
    { apply (asked_app _ _ (kernel w')); [exact Hasked|exact Hput]. }
    split; [lia|]. split; [done|]. split; [done|].
    right. exists cs0, m, e, r. done.
Qed.

End Translator.

Section Runs.
Import DMAExamples.

(** A 10 MiB request with a 4 MiB limit per call goes out as 4 + 4 + 2
    MiB, each call starting where the one before it ended. *)
Example dma_map_10MiB :
  option_map (fun r => (calls (fst r), snd r))
    (vfio_dma_map accept_all ram_ptr 0x400000 1 5 empty_world 0x100000 0xa00000 0) =
  Some ([ MAP_DMA 5 {| vaddr := 0x7f0000000000; dmaaddr := 0x100000;
                       size := 0x400000; flags := 1 |} None;
          MAP_DMA 5 {| vaddr := 0x7f0000400000; dmaaddr := 0x500000;
                       size := 0x400000; flags := 1 |} None;
          MAP_DMA 5 {| vaddr := 0x7f0000800000; dmaaddr := 0x900000;
                       size := 0x200000; flags := 1 |} None ], 0).
Proof. vm_compute. reflexivity. Qed.

(** The same request to a kernel that refuses the third call: the two
    calls before it were accepted, the third is the last one, and the
    result is -ENOMEM; the kernel has seen three calls. *)
Example dma_map_third_refused :
  option_map (fun r => (kernel (fst r), calls (fst r), snd r))
    (vfio_dma_map refuse_third ram_ptr 0x400000 1 5 fresh_world 0x100000 0xa00000 0) =
  Some (3%nat,
        [ MAP_DMA 5 {| vaddr := 0x7f0000000000; dmaaddr := 0x100000;
                       size := 0x400000; flags := 1 |} None;
          MAP_DMA 5 {| vaddr := 0x7f0000400000; dmaaddr := 0x500000;
                       size := 0x400000; flags := 1 |} None;
          MAP_DMA 5 {| vaddr := 0x7f0000800000; dmaaddr := 0x900000;
                       size := 0x200000; flags := 1 |} (Some 12%positive) ],
        -12).
Proof. vm_compute. reflexivity. Qed.

Lemma vfio_dma_map_chunked_cover_witness :
  exists w' ret cs total,
    vfio_dma_map refuse_third ram_ptr 0x400000 1 5 fresh_world
      0x100000 0xa00000 0 = Some (w', ret) /\
    calls w' = calls fresh_world ++ cs /\
    asked refuse_third accept_counting (kernel fresh_world) cs (kernel w') /\
    chunk_run 0x400000 5 1 (uint64 (ram_ptr 0)) 0x100000 cs total /\
    map_outcome 5 0xa00000 cs total ret /\
    (ret <> 0 -> ret < 0) /\
    (ret = 0 -> 0 <= 0x100000 -> 0x100000 + 0xa00000 <= 2 ^ 64 ->
     forall a,
       length (List.filter (covers a) cs) =
       if (0x100000 <=? a) && (a <? 0x100000 + 0xa00000) then 1%nat else 0%nat).
Proof.
  apply (vfio_dma_map_chunked_cover nat refuse_third accept_counting ram_ptr
           0x400000 1 5 fresh_world 0x100000 0xa00000 0); lia.
Defined.

(** Two pages at 0xa0000, wanted on ram pages 0x50000 and 0x51000; the
    first is bound as wanted, the second is not.  The kernel refuses the
    two-page map with EBUSY; the walk leaves the first page alone and
    rebinds the second. *)
Example set_memory_ebusy_run :
  option_map calls
    (vfio_client_set_memory busy_range accept_all ram_ptr page_desc
       0x400000 1 12 0 16 16%positive [5] empty_world 0xa0000 0x2000 0x50000) =
  Some [ MAP_DMA 5 {| vaddr := 0x7f0000050000; dmaaddr := 0xa0000;
                      size := 0x2000; flags := 1 |} (Some 16%positive);
         UNMAP_DMA 5 {| vaddr := 0x7f0000099000; dmaaddr := 0xa1000;
                        size := 0x1000; flags := 1 |} None;
         MAP_DMA 5 {| vaddr := 0x7f0000051000; dmaaddr := 0xa1000;
                      size := 0x1000; flags := 1 |} None ].
Proof. vm_compute. reflexivity. Qed.

Lemma set_memory_ebusy_walks_changed_pages_witness :
  let w1 : World nat :=
    {| kernel := 1%nat;
       calls := [ MAP_DMA 5 {| vaddr := 0x7f0000050000; dmaaddr := 0xa0000;
                               size := 0x2000; flags := 1 |} (Some 16%positive) ] |} in
  exists w2 cs j rollback,
    vfio_client_set_memory busy_counting accept_counting ram_ptr page_desc
      0x400000 1 12 0 16 16%positive [5] fresh_world 0xa0000 0x2000 0x50000 =
      Some w2 /\
    calls w2 = calls w1 ++ cs ++ rollback /\
    asked busy_counting accept_counting (kernel w1) (cs ++ rollback)
      (kernel w2) /\
    (j <= walk_pages 12 0xa0000 0x2000)%nat /\
    map request_of cs =
      flat_map (page_requests ram_ptr page_desc 1 12 5 0xa0000 0x50000) (seq 0 j) /\
    (forall c, In c cs ->
       exists i, (i < j)%nat /\
         dmaaddr (call_arg c) = 0xa0000 + Z.of_nat i * TARGET_PAGE_SIZE 12 /\
         size (call_arg c) = TARGET_PAGE_SIZE 12 /\
         page_desc (0xa0000 + Z.of_nat i * TARGET_PAGE_SIZE 12) <>
           uint64 (0x50000 + Z.of_nat i * TARGET_PAGE_SIZE 12)) /\
    ((j = walk_pages 12 0xa0000 0x2000 /\
      Forall map_succeeded cs /\ rollback = []) \/
     (exists cs0 m e r,
        cs = cs0 ++ [MAP_DMA 5 m (Some e)] /\ Forall map_succeeded cs0 /\
        rollback =
          [UNMAP_DMA 5 {| vaddr := uint64 (ram_ptr 0x50000);
                          dmaaddr := 0xa0000; size := 0x2000;
                          flags := 1 |} r])).
Proof.
  intros w1.
  apply (set_memory_ebusy_walks_changed_pages nat busy_counting
           accept_counting ram_ptr page_desc 0x400000 1 12 0 16 16%positive
           [5] 5 [] fresh_world w1 0xa0000 0x2000 0x50000);
    try reflexivity; try (vm_compute; intuition congruence); try lia.
Defined.

(** A kernel that takes no page back: the remap of the first page that
    differs is refused, the walk stops there, and the whole range is
    unmapped once. *)
Example set_memory_ebusy_remap_refused :
  option_map (fun w => (kernel w, calls w))
    (vfio_client_set_memory (fun k fd m => (S k, Some 16%positive))
       accept_counting ram_ptr page_desc
       0x400000 1 12 0 16 16%positive [5] fresh_world 0xa1000 0x2000 0x51000) =
  Some (4%nat,
        [ MAP_DMA 5 {| vaddr := 0x7f0000051000; dmaaddr := 0xa1000;
                       size := 0x2000; flags := 1 |} (Some 16%positive);
          UNMAP_DMA 5 {| vaddr := 0x7f0000099000; dmaaddr := 0xa1000;
                         size := 0x1000; flags := 1 |} None;
          MAP_DMA 5 {| vaddr := 0x7f0000051000; dmaaddr := 0xa1000;
                       size := 0x1000; flags := 1 |} (Some 16%positive);
          UNMAP_DMA 5 {| vaddr := 0x7f0000051000; dmaaddr := 0xa1000;
                         size := 0x2000; flags := 1 |} None ]).
Proof. vm_compute. reflexivity. Qed.

(** C4.  The walk misses the pages of a range that ends at 2^64.  The
    two pages below 2^64 are wanted on ram pages 0x50000 and 0x51000
    and bound to another one: the range is page aligned and RAM, the
    map comes back with -EBUSY and both pages differ, so both are to be
    unmapped and remapped.  But [start_addr + size], computed in
    [target_phys_addr_t], is 0: [curr < end] fails before the first
    page, [curr >= end] holds at once, and [vfio_client_set_memory]
    returns after the one refused map with nothing unmapped and nothing
    remapped. *)
Lemma set_memory_ebusy_wrapped_end_walks_nothing :
  let start_addr := 2 ^ 64 - 0x2000 in
  let failed :=
    MAP_DMA 5 {| vaddr := 0x7f0000050000; dmaaddr := start_addr;
                 size := 0x2000; flags := 1 |} (Some 16%positive) in
  Z.land (Z.lor start_addr 0x2000) (Z.lnot (TARGET_PAGE_MASK 12)) = 0 /\
  Z.land 0x50000 (Z.lnot (TARGET_PAGE_MASK 12)) = 0 /\
  option_map (fun r => (calls (fst r), snd r))
    (vfio_dma_map busy_counting ram_ptr 0x400000 1 5 fresh_world
       start_addr 0x2000 0x50000) = Some ([failed], -16) /\
  page_desc start_addr <> 0x50000 /\
  page_desc (start_addr + 0x1000) <> 0x51000 /\
  match
    vfio_client_set_memory busy_counting accept_counting ram_ptr page_desc
      0x400000 1 12 0 16 16%positive [5] fresh_world start_addr 0x2000 0x50000
  with
  | Some w2 =>
      calls w2 = [failed] /\ kernel w2 = 1%nat /\
      List.filter (fun c => dmaaddr (call_arg c) =? start_addr + 0x1000)
        (calls w2) = []
  | None => False
  end.
Proof. vm_compute. repeat split; discriminate. Qed.

End Runs.

End DMAFacts.

(** ** Resource mapper *)

Module ResourcesFacts.
Import Resources.

Section Mapper.

Variable vfio_get_bar_len : nat -> option Z.
Variable pread_bar : Z -> option Z.
Variable do_mmap : Z -> Z -> option Z.
Variable qemu_ram_alloc_from_ptr : bar_name -> Z -> Z -> Z.
Variable cpu_register_io_memory : nat -> Z.
Variable vfio_pci_space_to_offset : Z -> Z.
Variable VFIO_PCI_BAR0_RESOURCE : Z.

Local Abbreviation loop := (map_resources_loop vfio_get_bar_len pread_bar
  do_mmap qemu_ram_alloc_from_ptr cpu_register_io_memory
  vfio_pci_space_to_offset VFIO_PCI_BAR0_RESOURCE).
Local Abbreviation map_resources := (vfio_map_resources vfio_get_bar_len
  pread_bar do_mmap qemu_ram_alloc_from_ptr cpu_register_io_memory
  vfio_pci_space_to_offset VFIO_PCI_BAR0_RESOURCE).
Local Abbreviation direct := (map_direct do_mmap qemu_ram_alloc_from_ptr
  vfio_pci_space_to_offset VFIO_PCI_BAR0_RESOURCE).
Local Abbreviation part := (map_part do_mmap qemu_ram_alloc_from_ptr).

(** The kernel reports a length for BAR [i], and it is not zero. *)
Definition reported_nonzero (i : nat) : Prop :=
  exists len, vfio_get_bar_len i = Some len /\ len <> 0.

(** Only BARs of nonzero reported length are marked valid or registered. *)
Definition only_nonzero (v : VFIODevice) : Prop :=
  (forall i res, resources v !! i = Some res -> valid res = true ->
     reported_nonzero i) /\
  (forall r, In r (registered v) -> reported_nonzero (reg_bar r)).

Lemma next_slot_gt i bar : (i < next_slot i bar)%nat.
Proof. unfold next_slot. destruct (negb _); lia. Qed.

(** Six iterations are enough: the loop never runs out of fuel. *)
Lemma map_resources_loop_total fuel i v :
  (PCI_ROM_SLOT - i <= fuel)%nat -> loop fuel i v <> OutOfFuel.
Proof.
  revert i v. induction fuel as [|fuel IH]; intros i v Hfuel;
    cbn [map_resources_loop].
  - destruct (Nat.leb_spec PCI_ROM_SLOT i); [done|lia].
  - destruct (Nat.leb_spec PCI_ROM_SLOT i); [done|].
    destruct (vfio_get_bar_len i) as [len|]; [|done].
    destruct (len =? 0); [apply IH; lia|].
    destruct (pread_bar _) as [bar|]; [|done].
    pose proof (next_slot_gt i bar).
    destruct (_ && _).
    { destruct (direct _ _ _); [apply IH; lia|done]. }
    destruct (_ =? PCI_BASE_ADDRESS_SPACE_MEMORY); [apply IH; lia|].
    destruct (_ =? PCI_BASE_ADDRESS_SPACE_IO); apply IH; lia.
Qed.

Lemma only_nonzero_upd_keep i f v :
  (forall r, valid (f r) = true -> valid r = true) ->
  only_nonzero v -> only_nonzero (upd_res i f v).
Proof.
  intros Hf [Hval Hreg]. split; [|done].
  intros j res. simpl. rewrite list_lookup_alter.
  case_decide as Hij; [subst j|by apply Hval].
  destruct (resources v !! i) as [r|] eqn:Hr; simpl; [|done].
  intros [= <-] Hv. eapply Hval; [done|]. by apply Hf.
Qed.

Lemma only_nonzero_upd_reported i f v :
  reported_nonzero i -> only_nonzero v -> only_nonzero (upd_res i f v).
Proof.
  intros Hrep [Hval Hreg]. split; [|done].
  intros j res. simpl. rewrite list_lookup_alter.
  case_decide as Hij; [by subst j|by apply Hval].
Qed.

Lemma only_nonzero_register i sz ty cb v :
  reported_nonzero i -> only_nonzero v ->
  only_nonzero (pci_register_bar i sz ty cb v).
Proof.
  intros Hrep [Hval Hreg]. split; [done|].
  intros r. simpl. rewrite in_app_iff. intros [?|[<-|[]]]; [by apply Hreg|done].
Qed.

(** The device the mmaps of a BAR have left, made or failed. *)
Definition mapped_device (m : mapped) : VFIODevice :=
  match m with
  | Mapped v | MapFailed v => v
  end.

Lemma only_nonzero_part i k name len offset v :
  reported_nonzero i -> only_nonzero v ->
  only_nonzero (mapped_device (part i k name len offset v)).
Proof.
  intros Hrep Hinv. unfold map_part.
  destruct (do_mmap len offset) as [p|]; [|done]. cbn.
  apply only_nonzero_upd_reported; [done|]. apply Hinv.
Qed.

Lemma only_nonzero_direct i len v :
  reported_nonzero i -> only_nonzero v ->
  only_nonzero (mapped_device (direct i len v)).
Proof.
  intros Hrep Hinv. unfold map_direct.
  destruct (msix (get_res v i)); [|by apply only_nonzero_part].
  destruct (negb _).
  - pose proof (only_nonzero_part i 0 (Some 0%nat) (msix_offset (get_res v i))
                  (vfio_pci_space_to_offset
                     (VFIO_PCI_BAR0_RESOURCE + Z.of_nat i)) v Hrep Hinv) as H1.
    destruct (part i 0 _ _ _ v) as [v1|v1]; [|done]. cbn in H1.
    destruct (_ >? _); [by apply only_nonzero_part|done].
  - destruct (_ >? _); [by apply only_nonzero_part|done].
Qed.

(** The invariant holds on whatever the loop returns. *)
Lemma map_resources_loop_only_nonzero fuel i v :
  only_nonzero v ->
  match loop fuel i v with
  | Done v' | Failed v' => only_nonzero v'
  | OutOfFuel => True
  end.
Proof.
  revert i v. induction fuel as [|fuel IH]; intros i v Hinv;
    cbn [map_resources_loop].
  - by destruct (_ <=? _)%nat.
  - destruct (_ <=? _)%nat; [done|].
    assert (only_nonzero (upd_res i (set_fd_bar (dev_vfiofd v) (Z.of_nat i)) v))
      as Hinv1 by (by apply only_nonzero_upd_keep).
    destruct (vfio_get_bar_len i) as [len|] eqn:Hlen; [|done].
    destruct (Z.eqb_spec len 0) as [->|Hnz]; [by apply IH|].
    assert (reported_nonzero i) as Hrep by (by exists len).
    destruct (pread_bar _) as [bar|]; [|done].
    destruct (_ && _).
    { pose proof (only_nonzero_direct i len
                    (upd_res i (set_mem_size true len)
                       (upd_res i (set_fd_bar (dev_vfiofd v) (Z.of_nat i)) v))
                    Hrep ltac:(by apply only_nonzero_upd_reported)) as Hd.
      destruct (direct _ _ _) as [v2|v2]; cbn in Hd; [|done].
      apply IH. apply only_nonzero_upd_reported; [done|].
      by apply only_nonzero_register. }
    destruct (_ =? PCI_BASE_ADDRESS_SPACE_MEMORY).
    { apply IH. apply only_nonzero_upd_reported; [done|].
      apply only_nonzero_register; [done|].
      by do 2 (apply only_nonzero_upd_reported; [done|]). }
    destruct (_ =? PCI_BASE_ADDRESS_SPACE_IO).
    { apply IH. apply only_nonzero_upd_reported; [done|].
      apply only_nonzero_register; [done|].
      by apply only_nonzero_upd_reported. }
    apply IH. by apply only_nonzero_upd_reported.
Qed.

(** C9.  Started on a device whose descriptors are all invalid and of
    which no BAR is registered yet, [vfio_map_resources] returns (0 or
    -1), and in the device it leaves behind: a slot whose queried length
    is zero has an invalid descriptor and is not among the BARs handed to
    [pci_register_bar]; a descriptor marked valid belongs to a slot whose
    reported length is not zero. *)
Theorem zero_length_bar_never_valid (v : VFIODevice) :
  (forall res, In res (resources v) -> valid res = false) ->
  registered v = [] ->
  exists v',
    (map_resources v = Done v' \/ map_resources v = Failed v') /\
    forall i,
      (vfio_get_bar_len i = Some 0 ->
       (forall res, resources v' !! i = Some res -> valid res = false) /\
       (forall r, In r (registered v') -> reg_bar r <> i)) /\
      (forall res, resources v' !! i = Some res -> valid res = true ->
       exists len, vfio_get_bar_len i = Some len /\ len <> 0).
Proof.
  intros Hinvalid Hnone.
  assert (only_nonzero v) as Hinv.
  { split.
    - intros i res Hres Hval. apply list_elem_of_lookup_2, list_elem_of_In in Hres.
      rewrite (Hinvalid res Hres) in Hval. done.
    - rewrite Hnone. intros r []. }
  pose proof (map_resources_loop_only_nonzero PCI_ROM_SLOT 0 v Hinv) as Hfinal.
  pose proof (map_resources_loop_total PCI_ROM_SLOT 0 v ltac:(lia)) as Htotal.
  unfold vfio_map_resources.
  destruct (loop PCI_ROM_SLOT 0%nat v) as [v'|v'|]; [| |done].
  all: exists v'; (split; [auto|]); destruct Hfinal as [Hval Hreg]; intros i.
  all: split; [|by apply Hval].
  all: intros Hzero; split.
  all: try (intros res Hres; destruct (valid res) eqn:Hv; [|done];
            destruct (Hval i res Hres Hv) as (len & Hlen & Hnz); congruence).
  all: intros r Hr Heq; destruct (Hreg r Hr) as (len & Hlen & Hnz);
    rewrite Heq in Hlen; congruence.
Qed.

(** *** The BAR that carries the MSI-X table *)

Lemma get_res_lookup v i r : resources v !! i = Some r -> get_res v i = r.
Proof. unfold get_res. by intros ->. Qed.

Lemma lookup_upd_res i f v r :
  resources v !! i = Some r -> resources (upd_res i f v) !! i = Some (f r).
Proof. intros H. cbn [upd_res resources]. by rewrite list_lookup_alter_eq, H. Qed.



(** The mmaps of a BAR that carries the table at a nonzero offset: the
    part below the table page, and the part above it exactly when the
    BAR is longer than table offset plus table page. *)
Lemma direct_msix_mappings i v r len p0 p1 :
  resources v !! i = Some r -> msix r = true -> msix_offset r <> 0 ->
  let base := vfio_pci_space_to_offset (VFIO_PCI_BAR0_RESOURCE + Z.of_nat i) in
  let above_len := uint64 (len - msix_offset r - MSIX_PAGE_SIZE) in
  let has_above := len >? uint32 (msix_offset r + MSIX_PAGE_SIZE) in
  do_mmap (msix_offset r) base = Some p0 ->
  do_mmap above_len (base + msix_offset r + MSIX_PAGE_SIZE) = Some p1 ->
  exists v',
    direct i len v = Mapped v' /\
    mmaps v' =
      mmaps v ++
      {| mm_length := msix_offset r; mm_offset := base; mm_addr := p0 |} ::
      (if has_above
       then [{| mm_length := above_len;
                mm_offset := base + msix_offset r + MSIX_PAGE_SIZE;
                mm_addr := p1 |}]
       else []).
Proof.
  intros Hr Hmsix Hoff base above_len has_above Hbelow Habove.
  unfold map_direct. rewrite (get_res_lookup v i r Hr), Hmsix.
  destruct (Z.eqb_spec (msix_offset r) 0) as [?|_]; [done|]. cbn [negb].
  unfold map_part at 1. fold base. rewrite Hbelow.
  fold has_above. destruct has_above.
  - unfold map_part. fold base above_len. rewrite Habove.
    eexists. split; [reflexivity|]. cbn. by rewrite <- app_assoc.
  - eexists. split; [reflexivity|]. reflexivity.
Qed.



(** *** What an iteration leaves of another BAR *)











(** *** The table BAR through the loop *)

Section TableBar.

(** BAR [i]: 0x2000 bytes of memory, the table page its last page. *)
Variable i : nat.
Variable bar_i : Z.
Hypothesis Hlen : vfio_get_bar_len i = Some 0x2000.
Hypothesis Hbar :
  pread_bar (uint8 (PCI_BASE_ADDRESS_0 + 4 * Z.of_nat i)) = Some bar_i.
Hypothesis Hspace :
  Z.land bar_i PCI_BASE_ADDRESS_SPACE = PCI_BASE_ADDRESS_SPACE_MEMORY.












End TableBar.

End Mapper.

Section Runs.
Import ResourcesExamples.


(** One page more and there is a second direct mapping, above the
    table page, with the residual offset 0x2000 into the BAR. *)
Example table_in_middle_page_two_mappings :
  match map_resources_of 0x3000 (fresh_device 7 (Some (0%nat, 0x1000))) with
  | Done v' =>
      mmaps v' = [ {| mm_length := 0x1000; mm_offset := 0;
                      mm_addr := 0x7f0000000000 |};
                   {| mm_length := 0x1000; mm_offset := 0x2000;
                      mm_addr := 0x7f0000002000 |} ] /\
      phys_map (vfio_iomem_map 0 0xfe000000 0x3000 v') =
        [ {| pr_start := 0xfe000000; pr_size := 0x1000;
             pr_target := RamBlock 0; pr_region_offset := 0 |};
          {| pr_start := 0xfe001000; pr_size := 0x1000;
             pr_target := MsixMmio; pr_region_offset := 0 |};
          {| pr_start := 0xfe002000; pr_size := 0x1000;
             pr_target := RamBlock 0x2000; pr_region_offset := 0 |} ]
  | _ => False
  end.
Proof. vm_compute. repeat split. Qed.


(** The table BAR next to a second memory BAR of 0x4000 bytes: three
    pages are mapped for the two, one of them for the table BAR. *)
Example table_bar_beside_another :
  match map_two_bars (fresh_device 7 (Some (0%nat, 0x1000))) with
  | Done v' =>
      map reg_bar (registered v') = [0; 1]%nat /\
      map mm_length (mmaps v') = [0x1000; 0x4000] /\
      map fst (mappings_of 0 v') =
        [{| mm_length := 0x1000; mm_offset := 0; mm_addr := 0x7f0000000000 |}]
  | _ => False
  end.
Proof. vm_compute. done. Qed.

Lemma zero_length_bar_never_valid_witness :
  exists v',
    (map_resources_of 0x2000 (fresh_device 7 None) = Done v' \/
     map_resources_of 0x2000 (fresh_device 7 None) = Failed v') /\
    forall i,
      (bar_len 0x2000 i = Some 0 ->
       (forall res, resources v' !! i = Some res -> valid res = false) /\
       (forall r, In r (registered v') -> reg_bar r <> i)) /\
      (forall res, resources v' !! i = Some res -> valid res = true ->
       exists len, bar_len 0x2000 i = Some len /\ len <> 0).
Proof.
  apply (zero_length_bar_never_valid (bar_len 0x2000) bar_reg mmap_at
           ram_handle io_handle space_to_offset 0 (fresh_device 7 None)).
  - intros res Hres. vm_compute in Hres. intuition (subst; reflexivity).
  - reflexivity.
Defined.

End Runs.

End ResourcesFacts.

(** ** Config-space proxy and interrupt bridge *)

Module BridgeFacts.
Import Bridge.

Section Device.

Context {K : Type}.
Variable pread_config : K -> Z -> Z -> option Z.
Variable pwrite_config : K -> Z -> Z -> Z -> K.
Variable ioctl_set_irq_eventfd : K -> Z -> K * bool.
Variable ioctl_set_msi_eventfds : K -> bool -> list Z -> K * bool.
Variable ioctl_unmask_irq : K -> K.
Variable eventfd : K -> K * option Z.
Variable stale_fd : nat -> Z.
Variable pci_default_write_config : PCIDevice -> Z -> Z -> Z -> PCIDevice.
Variable msi_write_config : PCIDevice -> Z -> Z -> Z -> PCIDevice.
Variable msix_write_config : PCIDevice -> Z -> Z -> Z -> PCIDevice.
Variable pci_get_irq : PCIDevice -> Z -> Z.
Variable msi_nr_vectors_allocated : PCIDevice -> Z.
Variable msi_enabled : PCIDevice -> bool.
Variable msix_enabled : PCIDevice -> bool.

Local Abbreviation read_config := (vfio_pci_read_config pread_config).
Local Abbreviation disable_interrupts :=
  (vfio_disable_interrupts pread_config ioctl_set_irq_eventfd
     ioctl_set_msi_eventfds ioctl_unmask_irq eventfd pci_get_irq).
Local Abbreviation enable_intx_with :=
  (vfio_enable_intx_with pread_config ioctl_set_irq_eventfd ioctl_unmask_irq
     eventfd pci_get_irq).
Local Abbreviation enable_intx :=
  (vfio_enable_intx pread_config ioctl_set_irq_eventfd
     ioctl_set_msi_eventfds ioctl_unmask_irq eventfd pci_get_irq).
Local Abbreviation disable_msi :=
  (vfio_disable_msi pread_config ioctl_set_irq_eventfd
     ioctl_set_msi_eventfds ioctl_unmask_irq eventfd pci_get_irq).
Local Abbreviation enable_msi :=
  (vfio_enable_msi pread_config ioctl_set_irq_eventfd
     ioctl_set_msi_eventfds ioctl_unmask_irq eventfd stale_fd pci_get_irq
     msi_nr_vectors_allocated).
Local Abbreviation prepare :=
  (msi_prepare eventfd stale_fd msi_nr_vectors_allocated).
Local Abbreviation setup_loop := (msi_setup_loop eventfd stale_fd).
Local Abbreviation vector_setup := (msi_vector_setup eventfd stale_fd).

(** C6.  A config read whose range overlaps the option-ROM address
    register, the MSI capability window of a device that has MSI, or the
    MSI-X capability window of a device that has MSI-X is answered from
    the emulated image; every other read is answered with what the
    positioned read of the physical device returns (all ones when that
    read fails). *)
Theorem config_read_routing (v : VFIODevice K) (addr len : Z) :
  let emulated :=
    ranges_overlap addr len PCI_ROM_ADDRESS 4 ||
    (has_cap (pdev v) QEMU_PCI_CAP_MSI &&
     ranges_overlap addr len (msi_cap (pdev v)) (msi_cap_size v)) ||
    (has_cap (pdev v) QEMU_PCI_CAP_MSIX &&
     ranges_overlap addr len (msix_cap (pdev v)) MSIX_CAP_LENGTH) in
  (emulated = true ->
   read_config v addr len = pci_default_read_config (pdev v) addr len) /\
  (emulated = false ->
   read_config v addr len =
   match pread_config (kernel v) addr len with
   | Some val => val
   | None => 0xffffffff
   end).
Proof.
  unfold vfio_pci_read_config. cbv zeta.
  destruct (ranges_overlap addr len PCI_ROM_ADDRESS 4);
    destruct (has_cap (pdev v) QEMU_PCI_CAP_MSI &&
              ranges_overlap addr len (msi_cap (pdev v)) (msi_cap_size v));
    destruct (has_cap (pdev v) QEMU_PCI_CAP_MSIX &&
              ranges_overlap addr len (msix_cap (pdev v)) MSIX_CAP_LENGTH);
    cbn [orb]; split; intros; done.
Qed.

(** *** What the vector loops leave alone *)

Lemma vector_setup_frame msix i (v : VFIODevice K) :
  let v' := vector_setup msix i v in
  interrupt v' = interrupt v /\ nr_vectors v' = nr_vectors v /\
  pdev v' = pdev v /\
  exists vec, msi_vectors v' = msi_vectors v ++ [vec].
Proof.
  unfold msi_vector_setup. destruct (eventfd (kernel v)) as [k [fd|]];
    destruct msix; cbn; eauto.
Qed.

Lemma setup_loop_frame msix n i (v : VFIODevice K) :
  let v' := setup_loop msix n i v in
  interrupt v' = interrupt v /\ nr_vectors v' = nr_vectors v /\
  pdev v' = pdev v /\
  length (msi_vectors v') = (length (msi_vectors v) + n)%nat.
Proof.
  revert i v. induction n as [|n IH]; intros i v; cbn [msi_setup_loop].
  - cbv zeta. repeat split. lia.
  - destruct (vector_setup_frame msix i v) as (Hi & Hn & Hp & vec & Hv).
    destruct (IH (S i) (vector_setup msix i v)) as (Hi' & Hn' & Hp' & Hl).
    cbv zeta. rewrite Hi', Hi, Hn', Hn, Hp', Hp, Hl, Hv, length_app.
    cbn [length]. repeat split. lia.
Qed.

Lemma vector_teardown_frame msix i (v : VFIODevice K) :
  let v' := msi_vector_teardown msix i v in
  interrupt v' = interrupt v /\ nr_vectors v' = nr_vectors v /\
  pdev v' = pdev v /\ msi_vectors v' = msi_vectors v /\ kernel v' = kernel v.
Proof. unfold msi_vector_teardown. by destruct msix. Qed.

Lemma teardown_loop_frame msix n i (v : VFIODevice K) :
  let v' := msi_teardown_loop msix n i v in
  interrupt v' = interrupt v /\ nr_vectors v' = nr_vectors v /\
  pdev v' = pdev v /\ msi_vectors v' = msi_vectors v /\ kernel v' = kernel v.
Proof.
  revert i v. induction n as [|n IH]; intros i v; cbn [msi_teardown_loop];
    [done|].
  destruct (vector_teardown_frame msix i v) as (Hi & Hn & Hp & Hv & Hk).
  destruct (IH (S i) (msi_vector_teardown msix i v)) as (Hi' & Hn' & Hp' & Hv' & Hk').
  cbv zeta. by rewrite Hi', Hn', Hp', Hv', Hk'.
Qed.

(** [qemu_free] changes what has become of the block, and nothing
    else. *)
Lemma qemu_free_vectors_frame (v : VFIODevice K) :
  let v' := qemu_free_vectors v in
  pdev v' = pdev v /\ msi_cap_size v' = msi_cap_size v /\
  interrupt v' = interrupt v /\ nr_vectors v' = nr_vectors v /\
  msi_vectors v' = msi_vectors v /\ intx v' = intx v /\
  fd_handlers v' = fd_handlers v /\ open_notifiers v' = open_notifiers v /\
  msix_used v' = msix_used v /\ eoi_notifiers v' = eoi_notifiers v /\
  irq_update_notifier v' = irq_update_notifier v /\ kernel v' = kernel v.
Proof. unfold qemu_free_vectors. by destruct (vectors_block v). Qed.

(** The vector loops leave the block alone. *)
Lemma teardown_loop_same_block msix n i (v : VFIODevice K) :
  vectors_block (msi_teardown_loop msix n i v) = vectors_block v /\
  freed_twice (msi_teardown_loop msix n i v) = freed_twice v.
Proof.
  revert i v. induction n as [|n IH]; intros i v; cbn [msi_teardown_loop];
    [done|].
  destruct (IH (S i) (msi_vector_teardown msix i v)) as [-> ->].
  unfold msi_vector_teardown. by destruct msix.
Qed.

(** *** What the teardown loop removes *)

(** An fd without handler and not open stays so. *)
Lemma vector_teardown_gone msix i (v : VFIODevice K) fd :
  fd_handlers v !! fd = None -> fd ∉ open_notifiers v ->
  fd_handlers (msi_vector_teardown msix i v) !! fd = None /\
  fd ∉ open_notifiers (msi_vector_teardown msix i v).
Proof.
  intros Hh Ho. unfold msi_vector_teardown.
  destruct msix; cbn; (split; [|set_solver]);
    rewrite lookup_delete; by case_decide.
Qed.

Lemma vector_teardown_unused msix i j (v : VFIODevice K) :
  j ∉ msix_used v -> j ∉ msix_used (msi_vector_teardown msix i v).
Proof. intros H. unfold msi_vector_teardown. destruct msix; cbn; set_solver. Qed.

Lemma teardown_loop_gone msix n i (v : VFIODevice K) fd :
  fd_handlers v !! fd = None -> fd ∉ open_notifiers v ->
  fd_handlers (msi_teardown_loop msix n i v) !! fd = None /\
  fd ∉ open_notifiers (msi_teardown_loop msix n i v).
Proof.
  revert i v. induction n as [|n IH]; intros i v Hh Ho; cbn [msi_teardown_loop];
    [done|].
  destruct (vector_teardown_gone msix i v fd Hh Ho). by apply IH.
Qed.

Lemma teardown_loop_unused msix n i j (v : VFIODevice K) :
  j ∉ msix_used v -> j ∉ msix_used (msi_teardown_loop msix n i v).
Proof.
  revert i v. induction n as [|n IH]; intros i v H; cbn [msi_teardown_loop];
    [done|].
  by apply IH, vector_teardown_unused.
Qed.

(** Every vector within the loop's range loses its handler and its
    notifier, and, for MSI-X, its mark. *)
Lemma teardown_loop_unwinds msix n i j (v : VFIODevice K) vec :
  (i <= j < i + n)%nat -> msi_vectors v !! j = Some vec ->
  let v' := msi_teardown_loop msix n i v in
  fd_handlers v' !! mv_fd vec = None /\ mv_fd vec ∉ open_notifiers v' /\
  (msix = true -> j ∉ msix_used v').
Proof.
  revert i v. induction n as [|n IH]; intros i v Hj Hvec; [lia|].
  cbn [msi_teardown_loop]. cbv zeta.
  destruct (Nat.eq_dec i j) as [->|Hne].
  - assert (fd_handlers (msi_vector_teardown msix j v) !! mv_fd vec = None /\
            mv_fd vec ∉ open_notifiers (msi_vector_teardown msix j v) /\
            (msix = true -> j ∉ msix_used (msi_vector_teardown msix j v)))
      as (Hh & Ho & Hu).
    { unfold msi_vector_teardown. rewrite Hvec.
      destruct msix; cbn; rewrite lookup_delete_eq;
        (split; [done|]); (split; [set_solver|]); [set_solver|done]. }
    destruct (teardown_loop_gone msix n (S j) _ _ Hh Ho) as [Hh' Ho'].
    repeat split; try done. intros Hm. by apply teardown_loop_unused, Hu.
  - apply IH; [lia|].
    by destruct (vector_teardown_frame msix i v) as (_ & _ & _ & -> & _).
Qed.

(** *** Putting the current mode down *)

Lemma disable_interrupts_none fuel (v : VFIODevice K) :
  interrupt v = INT_NONE -> disable_interrupts (S fuel) v = Some v.
Proof. intros H. cbn [vfio_disable_interrupts]. by rewrite H. Qed.

(** [vfio_enable_intx] on a device in mode NONE returns, in mode NONE
    (no pin, or a failure on the way) or INTx. *)
Lemma enable_intx_with_from_none dis (v : VFIODevice K) :
  interrupt v = INT_NONE ->
  (forall s, interrupt s = INT_NONE -> dis s = Some s) ->
  exists v' r, enable_intx_with dis v = Some (v', r) /\
    (interrupt v' = INT_NONE \/ interrupt v' = INT_INTx).
Proof.
  intros Hnone Hdis. unfold vfio_enable_intx_with.
  destruct (_ =? 0); [by eauto|].
  rewrite (Hdis v Hnone). cbn.
  destruct (eventfd (kernel v)) as [k [fd|]]; cbn; [|by eauto].
  destruct (ioctl_set_irq_eventfd k fd) as [k' [|]]; cbn; by eauto.
Qed.

Lemma disable_msi_with_modes fuel msix (v : VFIODevice K) :
  exists v',
    vfio_disable_msi_with ioctl_set_msi_eventfds
      (enable_intx_with (disable_interrupts (S fuel))) msix v = Some v' /\
    (interrupt v' = INT_NONE \/ interrupt v' = INT_INTx).
Proof.
  unfold vfio_disable_msi_with.
  edestruct (enable_intx_with_from_none (disable_interrupts (S fuel)))
    as (v' & r & -> & Hmode); [| |by exists v'].
  - reflexivity.
  - intros s. apply disable_interrupts_none.
Qed.

Lemma disable_interrupts_unfold fuel (v : VFIODevice K) :
  disable_interrupts (S fuel) v =
  match interrupt v with
  | INT_NONE => Some v
  | INT_INTx => Some (vfio_disable_intx ioctl_set_irq_eventfd v)
  | INT_MSI =>
      vfio_disable_msi_with ioctl_set_msi_eventfds
        (enable_intx_with (disable_interrupts fuel)) false v
  | INT_MSIX =>
      vfio_disable_msi_with ioctl_set_msi_eventfds
        (enable_intx_with (disable_interrupts fuel)) true v
  end.
Proof. reflexivity. Qed.

(** Two levels of calls are all the three functions ever need. *)
Lemma disable_interrupts_total fuel (v : VFIODevice K) :
  (2 <= fuel)%nat ->
  exists s,
    disable_interrupts fuel v = Some s /\
    (interrupt s = INT_NONE \/ interrupt s = INT_INTx) /\
    (interrupt v = INT_NONE \/ interrupt v = INT_INTx -> interrupt s = INT_NONE).
Proof.
  intros Hfuel. destruct fuel as [|[|fuel]]; [lia|lia|].
  rewrite disable_interrupts_unfold.
  destruct (interrupt v) eqn:Hmode.
  - exists v. rewrite Hmode. auto.
  - exists (vfio_disable_intx ioctl_set_irq_eventfd v). auto.
  - destruct (disable_msi_with_modes fuel false v) as (s & -> & Hs).
    exists s. repeat split; [done|]. by intros [?|?].
  - destruct (disable_msi_with_modes fuel true v) as (s & -> & Hs).
    exists s. repeat split; [done|]. by intros [?|?].
Qed.

(** C2 (as the code has it).  Whenever the bulk registration ioctl of
    [vfio_enable_msi] fails, the function returns with every vector it
    created unwound (no fd handler, event notifier cleaned up and, for
    MSI-X, the vector no longer marked as used) and a vector count of
    zero.  The interrupt mode is the one [vfio_disable_interrupts] had
    left: NONE when the mode before the attempt was NONE or INTx; after
    MSI or MSI-X, whose teardown tries INTx again, it is NONE or INTx. *)
Theorem enable_msi_failure_unwinds fuel msix (v : VFIODevice K) :
  (2 <= fuel)%nat ->
  exists s1,
    disable_interrupts fuel v = Some s1 /\
    let s2 := prepare msix s1 in
    (snd (ioctl_set_msi_eventfds (kernel s2) msix (eventfds_arg s2)) = false ->
     exists v',
       enable_msi fuel msix v = Some v' /\
       nr_vectors v' = 0 /\ msi_vectors v' = [] /\
       length (msi_vectors s2) = Z.to_nat (nr_vectors s2) /\
       (forall vec, In vec (msi_vectors s2) ->
          fd_handlers v' !! (mv_fd vec) = None /\
          mv_fd vec ∉ open_notifiers v') /\
       (msix = true ->
        forall i, (i < Z.to_nat (nr_vectors s2))%nat -> i ∉ msix_used v') /\
       interrupt v' = interrupt s1 /\
       (interrupt v = INT_NONE \/ interrupt v = INT_INTx ->
        interrupt v' = INT_NONE) /\
       (interrupt v' = INT_NONE \/ interrupt v' = INT_INTx)).
Proof.
  intros Hfuel.
  destruct (disable_interrupts_total fuel v Hfuel) as (s1 & Hs1 & Hmode & Hquiet).
  exists s1. split; [done|]. intros s2 Hfail.
  unfold vfio_enable_msi. rewrite Hs1. fold s2.
  destruct (ioctl_set_msi_eventfds (kernel s2) msix (eventfds_arg s2))
    as [k ok] eqn:Hioctl. cbn in Hfail. subst ok. cbn [negb].
  set (n := if msix then msix_entries_nr (pdev s1)
            else msi_nr_vectors_allocated (pdev s1)).
  destruct (setup_loop_frame msix (Z.to_nat n) 0
              (qemu_malloc_vectors (set_vectors n [] s1)))
    as (Hi2 & Hn2 & Hp2 & Hl2).
  change (setup_loop msix (Z.to_nat n) 0
            (qemu_malloc_vectors (set_vectors n [] s1))) with s2 in *.
  cbn in Hi2, Hn2, Hl2.
  set (s3 := msi_teardown_loop msix _ 0 (set_kernel k s2)).
  destruct (teardown_loop_frame msix (Z.to_nat (nr_vectors (set_kernel k s2))) 0
              (set_kernel k s2)) as (Hi3 & Hn3 & Hp3 & Hv3 & Hk3).
  fold s3 in Hi3, Hn3, Hp3, Hv3, Hk3. cbn in Hi3.
  destruct (qemu_free_vectors_frame s3)
    as (_ & _ & Hi4 & _ & _ & _ & Hh4 & Ho4 & Hu4 & _).
  eexists. split; [reflexivity|].
  cbn [set_vectors nr_vectors msi_vectors fd_handlers open_notifiers
       msix_used interrupt].
  rewrite Hi4, Hh4, Ho4, Hu4.
  split; [done|]. split; [done|]. split; [by rewrite Hl2, Hn2|].
  assert (forall j vec, msi_vectors s2 !! j = Some vec ->
            fd_handlers s3 !! (mv_fd vec) = None /\
            mv_fd vec ∉ open_notifiers s3 /\ (msix = true -> j ∉ msix_used s3))
    as Hunwound.
  { intros j vec Hvec. apply (teardown_loop_unwinds msix _ 0 j); [|done].
    apply lookup_lt_Some in Hvec. cbn. rewrite Hn2, <- Hl2. lia. }
  split.
  { intros vec Hin. apply list_elem_of_In, list_elem_of_lookup in Hin as [j Hj].
    destruct (Hunwound j vec Hj) as (? & ? & _). done. }
  split.
  { intros Hm i Hi. rewrite Hn2, <- Hl2 in Hi.
    destruct (lookup_lt_is_Some_2 (msi_vectors s2) i Hi) as [vec Hvec].
    by destruct (Hunwound i vec Hvec) as (_ & _ & Hu); apply Hu. }
  rewrite Hi3, Hi2. split; [done|]. split; [done|done].
Qed.

(** *** The bridge never touches the emulated PCI device *)

Definition same_pci (v v' : VFIODevice K) : Prop :=
  pdev v' = pdev v /\ msi_cap_size v' = msi_cap_size v.

Lemma same_pci_trans (a b c : VFIODevice K) :
  same_pci a b -> same_pci b c -> same_pci a c.
Proof. intros [? ?] [? ?]. split; congruence. Qed.

Lemma setup_loop_same_pci msix n i (v : VFIODevice K) :
  same_pci v (setup_loop msix n i v).
Proof.
  revert i v. induction n as [|n IH]; intros i v; cbn [msi_setup_loop]; [done|].
  eapply same_pci_trans; [|apply IH].
  unfold msi_vector_setup. by destruct (eventfd (kernel v)) as [k [fd|]], msix.
Qed.

Lemma teardown_loop_same_pci msix n i (v : VFIODevice K) :
  same_pci v (msi_teardown_loop msix n i v).
Proof.
  revert i v. induction n as [|n IH]; intros i v; cbn [msi_teardown_loop];
    [done|].
  eapply same_pci_trans; [|apply IH].
  unfold msi_vector_teardown. by destruct msix.
Qed.

Lemma enable_intx_with_same_pci dis (v v' : VFIODevice K) r :
  (forall a b, dis a = Some b -> same_pci a b) ->
  enable_intx_with dis v = Some (v', r) -> same_pci v v'.
Proof.
  intros Hdis. unfold vfio_enable_intx_with.
  destruct (_ =? 0); [by intros [= <- <-]|].
  destruct (dis v) as [s|] eqn:Hs; [|done]. apply Hdis in Hs. cbn.
  destruct (eventfd (kernel s)) as [k [fd|]]; cbn.
  - destruct (ioctl_set_irq_eventfd k fd) as [k' [|]]; cbn;
      intros [= <- <-]; apply Hs.
  - intros [= <- <-]. apply Hs.
Qed.

Lemma qemu_free_vectors_same_pci (v : VFIODevice K) :
  same_pci v (qemu_free_vectors v).
Proof. unfold qemu_free_vectors. by destruct (vectors_block v). Qed.

Lemma disable_msi_with_same_pci en msix (v v' : VFIODevice K) :
  (forall a b r, en a = Some (b, r) -> same_pci a b) ->
  vfio_disable_msi_with ioctl_set_msi_eventfds en msix v = Some v' ->
  same_pci v v'.
Proof.
  intros Hen. unfold vfio_disable_msi_with.
  destruct (en _) as [[s r]|] eqn:Hs; [|done]. cbn. intros [= <-].
  apply Hen in Hs. eapply same_pci_trans; [|apply Hs].
  eapply same_pci_trans; [|apply qemu_free_vectors_same_pci].
  apply (teardown_loop_same_pci msix _ 0 (set_kernel _ v)).
Qed.

Lemma disable_interrupts_same_pci fuel (v s : VFIODevice K) :
  disable_interrupts fuel v = Some s -> same_pci v s.
Proof.
  revert v s. induction fuel as [|fuel IH]; intros v s; [done|].
  rewrite disable_interrupts_unfold.
  destruct (interrupt v).
  - by intros [= <-].
  - by intros [= <-].
  - apply disable_msi_with_same_pci. intros a b r.
    by apply enable_intx_with_same_pci.
  - apply disable_msi_with_same_pci. intros a b r.
    by apply enable_intx_with_same_pci.
Qed.

(** With two levels of fuel [vfio_enable_msi] and [vfio_disable_msi]
    return, and the emulated device is as it was. *)
Lemma enable_msi_returns fuel msix (v : VFIODevice K) :
  (2 <= fuel)%nat ->
  exists v', enable_msi fuel msix v = Some v' /\ same_pci v v'.
Proof.
  intros Hfuel.
  destruct (disable_interrupts_total fuel v Hfuel) as (s1 & Hs1 & _).
  pose proof (disable_interrupts_same_pci fuel v s1 Hs1) as Hpci.
  unfold vfio_enable_msi. rewrite Hs1.
  assert (same_pci v (prepare msix s1)) as Hprep.
  { eapply same_pci_trans; [apply Hpci|]. unfold msi_prepare.
    apply (setup_loop_same_pci msix _ 0
             (qemu_malloc_vectors (set_vectors _ [] s1))). }
  destruct (ioctl_set_msi_eventfds _ msix _) as [k [|]]; cbn [negb];
    eexists; (split; [reflexivity|]).
  - apply Hprep.
  - eapply same_pci_trans; [apply Hprep|].
    eapply same_pci_trans; [|apply qemu_free_vectors_same_pci].
    apply (teardown_loop_same_pci msix _ 0 (set_kernel k (prepare msix s1))).
Qed.

Lemma disable_msi_returns fuel msix (v : VFIODevice K) :
  (2 <= fuel)%nat ->
  exists v', disable_msi fuel msix v = Some v' /\ same_pci v v'.
Proof.
  intros Hfuel. destruct fuel as [|fuel]; [lia|].
  unfold vfio_disable_msi, vfio_enable_intx.
  destruct (disable_msi_with_modes fuel msix v) as (v' & Hv' & _).
  exists v'. split; [done|].
  eapply disable_msi_with_same_pci; [|exact Hv']. intros a b r.
  apply enable_intx_with_same_pci. intros x y.
  apply disable_interrupts_same_pci.
Qed.

(** *** The vectors block *)

(** The device as [vfio_initfn] leaves it and as the bridge keeps it
    while no block is freed twice: in mode MSI or MSI-X [msi_vectors]
    points at a live block. *)
Definition quiet (v : VFIODevice K) : Prop :=
  freed_twice v = false /\
  (interrupt v = INT_MSI \/ interrupt v = INT_MSIX -> vectors_block v = Live).

Lemma setup_loop_same_block msix n i (v : VFIODevice K) :
  vectors_block (setup_loop msix n i v) = vectors_block v /\
  freed_twice (setup_loop msix n i v) = freed_twice v.
Proof.
  revert i v. induction n as [|n IH]; intros i v; cbn [msi_setup_loop];
    [done|].
  destruct (IH (S i) (vector_setup msix i v)) as [-> ->].
  unfold msi_vector_setup. by destruct (eventfd (kernel v)) as [k [fd|]], msix.
Qed.

Lemma disable_interrupts_stays fuel (s b : VFIODevice K) :
  interrupt s = INT_NONE -> disable_interrupts fuel s = Some b -> b = s.
Proof.
  intros Hnone. destruct fuel as [|fuel]; [done|].
  cbn [vfio_disable_interrupts]. rewrite Hnone. by intros [= <-].
Qed.

(** [vfio_enable_intx] on a device in mode NONE leaves the block
    alone. *)
Lemma enable_intx_with_same_block dis (v v' : VFIODevice K) r :
  interrupt v = INT_NONE ->
  (forall s b, interrupt s = INT_NONE -> dis s = Some b -> b = s) ->
  enable_intx_with dis v = Some (v', r) ->
  vectors_block v' = vectors_block v /\ freed_twice v' = freed_twice v.
Proof.
  intros Hnone Hdis. unfold vfio_enable_intx_with.
  destruct (_ =? 0); [by intros [= <- <-]|].
  destruct (dis v) as [s|] eqn:Hs; [|done].
  apply (Hdis _ _ Hnone) in Hs as ->. cbn.
  destruct (eventfd (kernel v)) as [k [fd|]]; cbn.
  - destruct (ioctl_set_irq_eventfd k fd) as [k' [|]]; cbn;
      by intros [= <- <-].
  - by intros [= <- <-].
Qed.

(** What [vfio_disable_msi] does to the block. *)
Lemma disable_msi_with_block fuel msix (v v' : VFIODevice K) :
  vfio_disable_msi_with ioctl_set_msi_eventfds
    (enable_intx_with (disable_interrupts fuel)) msix v = Some v' ->
  vectors_block v' =
    match vectors_block v with NoBlock => NoBlock | _ => Dangling end /\
  freed_twice v' =
    match vectors_block v with Dangling => true | _ => freed_twice v end.
Proof.
  unfold vfio_disable_msi_with.
  set (k := fst (ioctl_set_msi_eventfds (kernel v) msix [0])).
  set (s1 := msi_teardown_loop msix _ 0 (set_kernel k v)).
  set (s2 := set_interrupt INT_NONE (set_vectors 0 [] (qemu_free_vectors s1))).
  destruct (enable_intx_with (disable_interrupts fuel) s2) as [[s r]|] eqn:Hrun;
    [|done].
  cbn. intros [= <-].
  apply enable_intx_with_same_block in Hrun as [-> ->];
    [|done|intros a b; apply disable_interrupts_stays].
  destruct (teardown_loop_same_block msix
              (Z.to_nat (nr_vectors (set_kernel k v))) 0 (set_kernel k v))
    as [Hb1 Ht1].
  fold s1 in Hb1, Ht1. cbn [set_kernel vectors_block freed_twice] in Hb1, Ht1.
  cbn [s2 set_interrupt set_vectors vectors_block freed_twice].
  unfold qemu_free_vectors. rewrite Hb1.
  destruct (vectors_block v); cbn; by rewrite ?Hb1, ?Ht1.
Qed.

(** Putting the current mode down frees a live block once. *)
Lemma disable_interrupts_quiet fuel (v s : VFIODevice K) :
  disable_interrupts fuel v = Some s -> quiet v -> freed_twice s = false.
Proof.
  intros Hrun [Htwice Hlive]. destruct fuel as [|fuel]; [done|].
  rewrite disable_interrupts_unfold in Hrun.
  destruct (interrupt v) eqn:Hmode.
  - by injection Hrun as <-.
  - by injection Hrun as <-.
  - apply disable_msi_with_block in Hrun as [_ ->].
    by rewrite Hlive by auto.
  - apply disable_msi_with_block in Hrun as [_ ->].
    by rewrite Hlive by auto.
Qed.

(** [vfio_enable_msi] never frees a block twice: it frees the live
    block of the mode it puts down and, when the kernel refuses, the
    block it has just allocated. *)
Lemma enable_msi_quiet fuel msix (v v' : VFIODevice K) :
  (2 <= fuel)%nat -> enable_msi fuel msix v = Some v' ->
  quiet v -> quiet v'.
Proof.
  intros Hfuel Hrun Hquiet.
  destruct (disable_interrupts_total fuel v Hfuel) as (s1 & Hs1 & Hmode & _).
  pose proof (disable_interrupts_quiet fuel v s1 Hs1 Hquiet) as Ht1.
  revert Hrun. unfold vfio_enable_msi. rewrite Hs1. unfold msi_prepare.
  set (n := if msix then _ else _).
  set (s0 := qemu_malloc_vectors (set_vectors n [] s1)).
  destruct (setup_loop_same_block msix (Z.to_nat n) 0 s0) as [Hb2 Ht2].
  destruct (setup_loop_frame msix (Z.to_nat n) 0 s0) as (Hi2 & _).
  set (s2 := setup_loop msix (Z.to_nat n) 0 s0) in *.
  cbn in Hb2, Ht2, Hi2.
  destruct (ioctl_set_msi_eventfds (kernel s2) msix (eventfds_arg s2))
    as [k ok].
  destruct ok; cbn [negb]; intros [= <-]; unfold quiet.
  - cbn. by rewrite Ht2, Ht1, Hb2.
  - set (s3 := msi_teardown_loop msix _ 0 (set_kernel k s2)).
    assert (vectors_block s3 = Live /\ freed_twice s3 = false /\
            interrupt s3 = interrupt s1) as (Hb3 & Ht3 & Hi3).
    { subst s3.
      destruct (teardown_loop_same_block msix (Z.to_nat (nr_vectors s2)) 0
                  (set_kernel k s2)) as [Hb Ht].
      destruct (teardown_loop_frame msix (Z.to_nat (nr_vectors s2)) 0
                  (set_kernel k s2)) as (Hi & _).
      rewrite Hb, Ht, Hi. cbn. by rewrite Hb2, Ht2, Hi2. }
    cbn [set_vectors freed_twice vectors_block interrupt].
    unfold qemu_free_vectors. rewrite Hb3. cbn. split; [done|].
    rewrite Hi3. intros [Hm|Hm]; rewrite Hm in Hmode; by destruct Hmode.
Qed.

(** [vfio_disable_msi] that has not freed a block twice leaves the
    device quiet. *)
Lemma disable_msi_quiet fuel msix (v v' : VFIODevice K) :
  (1 <= fuel)%nat -> disable_msi fuel msix v = Some v' ->
  freed_twice v' = false -> quiet v'.
Proof.
  intros Hfuel Hrun Htwice. split; [done|].
  destruct fuel as [|fuel]; [lia|].
  destruct (disable_msi_with_modes fuel msix v) as (x & Hx & Hmode).
  pose proof (eq_trans (eq_sym Hx) Hrun) as [= ->].
  intros [Hm|Hm]; rewrite Hm in Hmode; by destruct Hmode.
Qed.

(** *** Config writes *)

Local Abbreviation write_config :=
  (vfio_pci_write_config pread_config pwrite_config ioctl_set_irq_eventfd
     ioctl_set_msi_eventfds ioctl_unmask_irq eventfd stale_fd
     pci_default_write_config msi_write_config msix_write_config pci_get_irq
     msi_nr_vectors_allocated msi_enabled msix_enabled).
Local Abbreviation one_cap_write :=
  (cap_write pread_config ioctl_set_irq_eventfd
     ioctl_set_msi_eventfds ioctl_unmask_irq eventfd stale_fd
     pci_default_write_config msi_write_config msix_write_config pci_get_irq
     msi_nr_vectors_allocated msi_enabled msix_enabled).
Local Abbreviation writes :=
  (write_sequence pread_config pwrite_config ioctl_set_irq_eventfd
     ioctl_set_msi_eventfds ioctl_unmask_irq eventfd stale_fd
     pci_default_write_config msi_write_config msix_write_config pci_get_irq
     msi_nr_vectors_allocated msi_enabled msix_enabled).
Local Abbreviation observe :=
  (observe_cap pci_default_write_config msi_write_config msix_write_config
     msi_enabled msix_enabled).
Local Abbreviation edges :=
  (observed_edges pci_default_write_config msi_write_config
     msix_write_config msi_enabled msix_enabled).

(** A write, or a sequence of writes, against the edges observed on the
    emulated device: when it has returned, its calls are those of the
    edges and the emulated device is the observed one; when it has
    ended in the double free, its calls are those of the edges up to
    the one whose call did not return. *)
Definition follows (observed : list (bool * edge)) (p : PCIDevice)
    (cap_size : Z) (r : write_result K) : Prop :=
  match r with
  | Returned v' calls =>
      calls = flat_map calls_of_edge observed /\
      pdev v' = p /\ msi_cap_size v' = cap_size
  | Aborted v' calls =>
      freed_twice v' = true /\
      exists rest, flat_map calls_of_edge observed = calls ++ rest
  | OutOfFuel => False
  end.

Lemma bridge_result_follows call (v v' : VFIODevice K) e p :
  calls_of_edge e = [call] -> pdev v' = p ->
  msi_cap_size v' = msi_cap_size v ->
  follows [e] p (msi_cap_size v) (bridge_result call (Some v')).
Proof.
  intros He Hp Hc. unfold bridge_result.
  destruct (freed_twice v') eqn:Htwice; cbn [follows flat_map].
  - split; [done|]. exists []. by rewrite He.
  - by rewrite He.
Qed.

(** One capability block of a write. *)
Lemma cap_write_follows_edge fuel msix addr val len (v : VFIODevice K) :
  (2 <= fuel)%nat ->
  let obs := observe msix (msi_cap_size v) addr val len (pdev v) in
  follows (snd obs) (fst obs) (msi_cap_size v)
    (one_cap_write fuel msix addr val len v).
Proof.
  intros Hfuel. unfold cap_write, observe_cap, cap_window_hit.
  destruct msix.
  - destruct (has_cap (pdev v) QEMU_PCI_CAP_MSIX && _); [|done].
    cbn [pdev set_pdev cap_enabled fst snd emulate_cap_write].
    set (p' := msix_write_config _ _ _ _).
    destruct (msix_enabled (pdev v)), (msix_enabled p');
      cbn [negb andb edge_of]; [done| | |done].
    + destruct (disable_msi_returns fuel true (set_pdev p' v) Hfuel)
        as (v' & -> & Hp & Hc).
      by apply (bridge_result_follows _ v).
    + destruct (enable_msi_returns fuel true (set_pdev p' v) Hfuel)
        as (v' & -> & Hp & Hc).
      by apply (bridge_result_follows _ v).
  - destruct (has_cap (pdev v) QEMU_PCI_CAP_MSI && _); [|done].
    cbn [pdev set_pdev cap_enabled fst snd emulate_cap_write].
    set (p' := msi_write_config _ _ _ _).
    destruct (msi_enabled (pdev v)), (msi_enabled p');
      cbn [negb andb edge_of]; [done| | |done].
    + destruct (disable_msi_returns fuel false (set_pdev p' v) Hfuel)
        as (v' & -> & Hp & Hc).
      by apply (bridge_result_follows _ v).
    + destruct (enable_msi_returns fuel false (set_pdev p' v) Hfuel)
        as (v' & -> & Hp & Hc).
      by apply (bridge_result_follows _ v).
Qed.

Lemma count_enable_calls msix (es : list (bool * edge)) :
  length (List.filter (is_enable_call msix) (flat_map calls_of_edge es)) =
  length (List.filter (is_edge msix Rising) es).
Proof.
  induction es as [|[m e] es IH]; [done|].
  cbn [flat_map]. rewrite List.filter_app, length_app, IH.
  destruct m, msix, e; reflexivity.
Qed.

Lemma count_disable_calls msix (es : list (bool * edge)) :
  length (List.filter (is_disable_call msix) (flat_map calls_of_edge es)) =
  length (List.filter (is_edge msix Falling) es).
Proof.
  induction es as [|[m e] es IH]; [done|].
  cbn [flat_map]. rewrite List.filter_app, length_app, IH.
  destruct m, msix, e; reflexivity.
Qed.

(** The final emulated device of the observation. *)
Fixpoint observed_device (cap_size : Z) (p : PCIDevice)
    (ws : list (Z * Z * Z)) : PCIDevice :=
  match ws with
  | [] => p
  | (addr, val, len) :: ws =>
      if addr <? PCI_CONFIG_HEADER_SIZE then
        observed_device cap_size (pci_default_write_config p addr val len) ws
      else
        let p1 := fst (observe false cap_size addr val len p) in
        let p2 := fst (observe true cap_size addr val len p1) in
        observed_device cap_size p2 ws
  end.

(** The calls of a sequence of writes are those of the observed edges. *)
Lemma write_sequence_follows_edges fuel (ws : list (Z * Z * Z))
    (v : VFIODevice K) :
  (2 <= fuel)%nat ->
  follows (edges (msi_cap_size v) (pdev v) ws)
    (observed_device (msi_cap_size v) (pdev v) ws) (msi_cap_size v)
    (writes fuel v ws).
Proof.
  intros Hfuel. revert v.
  induction ws as [|[[addr val] len] ws IH]; intros v; [done|].
  cbn [write_sequence observed_edges observed_device].
  unfold vfio_pci_write_config.
  destruct (addr <? PCI_CONFIG_HEADER_SIZE).
  - pose proof (IH (set_pdev (pci_default_write_config (pdev v) addr val len)
                      (set_kernel (pwrite_config (kernel v) addr val len) v)))
      as Hrun.
    cbn [pdev msi_cap_size set_pdev set_kernel] in Hrun |- *.
    destruct (writes fuel _ ws) as [v' rest|v' rest|]; [done|done|done].
  - pose proof (cap_write_follows_edge fuel false addr val len
                  (set_kernel (pwrite_config (kernel v) addr val len) v) Hfuel)
      as H1.
    cbn [pdev msi_cap_size set_kernel] in H1.
    destruct (observe false _ _ _ _ _) as [p1 e1]. cbn [fst snd] in H1 |- *.
    destruct (one_cap_write fuel false _ _ _ _) as [v1 c1|v1 c1|];
      cbn [follows] in H1 |- *; [|destruct H1 as (Ht & rest & Hrest)|done].
    2:{ split; [done|]. exists (rest ++ flat_map calls_of_edge
                                  (snd (observe true (msi_cap_size v) addr val len p1)
                                   ++ edges (msi_cap_size v)
                                        (fst (observe true (msi_cap_size v) addr val len p1)) ws)).
        destruct (observe true _ _ _ _ _) as [p2 e2]. cbn [fst snd].
        by rewrite flat_map_app, Hrest, <- app_assoc. }
    destruct H1 as (-> & Hp1 & Hc1).
    pose proof (cap_write_follows_edge fuel true addr val len v1 Hfuel) as H2.
    rewrite Hp1, Hc1 in H2.
    destruct (observe true _ _ _ _ _) as [p2 e2]. cbn [fst snd] in H2 |- *.
    destruct (one_cap_write fuel true _ _ _ _) as [v2 c2|v2 c2|];
      cbn [follows] in H2 |- *; [|destruct H2 as (Ht & rest & Hrest)|done].
    2:{ split; [done|].
        exists (rest ++ flat_map calls_of_edge (edges (msi_cap_size v) p2 ws)).
        by rewrite !flat_map_app, Hrest, <- !app_assoc. }
    destruct H2 as (-> & Hp2 & Hc2).
    pose proof (IH v2) as Hrun. rewrite Hp2, Hc2 in Hrun.
    destruct (writes fuel v2 ws) as [v' rest|v' rest|];
      cbn [follows] in Hrun |- *; [| |done].
    + destruct Hrun as (-> & Hp & Hc).
      by rewrite !flat_map_app, <- app_assoc.
    + destruct Hrun as (Ht & more & Hmore). split; [done|]. exists more.
      by rewrite !flat_map_app, Hmore, <- !app_assoc.
Qed.

(** How a write, or a sequence of writes, on a quiet device ends: it
    returns with the device quiet, or it ends inside a disable call. *)
Definition settled (r : write_result K) : Prop :=
  match r with
  | Returned v' _ => quiet v'
  | Aborted _ calls => exists calls0 msix, calls = calls0 ++ [DisableMsi msix]
  | OutOfFuel => False
  end.

Lemma cap_write_settled fuel msix addr val len (v : VFIODevice K) :
  (2 <= fuel)%nat -> quiet v ->
  settled (one_cap_write fuel msix addr val len v).
Proof.
  intros Hfuel Hquiet. unfold cap_write.
  destruct (has_cap (pdev v) _ && _); [|done].
  set (p' := (if msix then msix_write_config else msi_write_config) _ _ _ _).
  assert (quiet (set_pdev p' v)) as Hq' by done.
  destruct (negb _ && _).
  - destruct (enable_msi_returns fuel msix (set_pdev p' v) Hfuel)
      as (v' & Hrun & _). rewrite Hrun. unfold bridge_result.
    pose proof (enable_msi_quiet fuel msix _ v' Hfuel Hrun Hq') as Hv'.
    destruct Hv' as [Ht Hl]. rewrite Ht. by split.
  - destruct (_ && negb _); [|done].
    destruct (disable_msi_returns fuel msix (set_pdev p' v) Hfuel)
      as (v' & Hrun & _). rewrite Hrun. unfold bridge_result.
    destruct (freed_twice v') eqn:Ht.
    + by exists [], msix.
    + apply (disable_msi_quiet fuel msix (set_pdev p' v)); [lia|done|done].
Qed.

Lemma write_sequence_settled fuel (ws : list (Z * Z * Z))
    (v : VFIODevice K) :
  (2 <= fuel)%nat -> quiet v -> settled (writes fuel v ws).
Proof.
  intros Hfuel. revert v.
  induction ws as [|[[addr val] len] ws IH]; intros v Hquiet; [done|].
  cbn [write_sequence]. unfold vfio_pci_write_config.
  destruct (addr <? PCI_CONFIG_HEADER_SIZE).
  - pose proof (IH (set_pdev (pci_default_write_config
                                (pdev (set_kernel
                                         (pwrite_config (kernel v) addr val len)
                                         v)) addr val len)
                      (set_kernel (pwrite_config (kernel v) addr val len) v))
                  Hquiet) as Hrun.
    destruct (writes fuel _ ws) as [v' rest|v' rest|]; done.
  - pose proof (cap_write_settled fuel false addr val len
                  (set_kernel (pwrite_config (kernel v) addr val len) v)
                  Hfuel Hquiet) as H1.
    destruct (one_cap_write fuel false _ _ _ _) as [v1 c1|v1 c1|];
      cbn [settled] in H1 |- *; [|done|done].
    pose proof (cap_write_settled fuel true addr val len v1 Hfuel H1) as H2.
    destruct (one_cap_write fuel true _ _ _ _) as [v2 c2|v2 c2|];
      cbn [settled] in H2 |- *; [| |done].
    + pose proof (IH v2 H2) as Hrun.
      destruct (writes fuel v2 ws) as [v' rest|v' rest|];
        cbn [settled] in Hrun |- *; [done| |done].
      destruct Hrun as (calls0 & m & ->).
      exists ((c1 ++ c2) ++ calls0), m. by rewrite <- !app_assoc.
    + destruct H2 as (calls0 & m & ->).
      exists (c1 ++ calls0), m. by rewrite <- !app_assoc.
Qed.

(** C3 (as the code has it).  Over every sequence of config writes
    that [vfio_pci_write_config] returns from, the calls it makes into
    the interrupt bridge are, in order, those of the changes of the
    emulated enable bits observed at the writes that start at or beyond
    the end of the standard header and overlap the capability window:
    was-enabled before the local emulation update against is-enabled
    after it.  So the MSI (MSI-X) enable is called exactly once per
    observed 0 to 1 change, the disable exactly once per observed 1 to
    0 change, and a write that leaves the bit as it was calls neither.
    A write that starts inside the standard header is mirrored into the
    image and calls nothing.  With two levels of fuel the model never
    runs dry: a sequence either returns or ends inside a call into the
    bridge in which the vectors block is freed a second time, and then
    the calls made are those of the changes observed up to that one.
    On a quiet device (no block freed twice, a live block in mode MSI
    or MSI-X) a sequence that returns leaves the device quiet, and the
    call in which a sequence ends is a disable. *)
Theorem write_config_calls_once_per_transition fuel (ws : list (Z * Z * Z))
    (v : VFIODevice K) :
  (2 <= fuel)%nat ->
  let observed := edges (msi_cap_size v) (pdev v) ws in
  match writes fuel v ws with
  | Returned v' calls =>
      calls = flat_map calls_of_edge observed /\
      (forall msix,
         length (List.filter (is_enable_call msix) calls) =
           length (List.filter (is_edge msix Rising) observed) /\
         length (List.filter (is_disable_call msix) calls) =
           length (List.filter (is_edge msix Falling) observed)) /\
      (quiet v -> quiet v')
  | Aborted v' calls =>
      freed_twice v' = true /\
      (exists rest, flat_map calls_of_edge observed = calls ++ rest) /\
      (quiet v -> exists calls0 msix, calls = calls0 ++ [DisableMsi msix])
  | OutOfFuel => False
  end.
Proof.
  intros Hfuel. cbv zeta.
  pose proof (write_sequence_follows_edges fuel ws v Hfuel) as Hrun.
  pose proof (write_sequence_settled fuel ws v Hfuel) as Hset.
  destruct (writes fuel v ws) as [v' calls|v' calls|];
    cbn [follows settled] in Hrun, Hset; [| |done].
  - destruct Hrun as (-> & _). split; [done|]. split; [|done].
    intros msix. split; [apply count_enable_calls | apply count_disable_calls].
  - destruct Hrun as (Ht & Hrest). by repeat split.
Qed.

(** A sequence that clears no enable bit returns. *)
Lemma writes_without_disable_return fuel (ws : list (Z * Z * Z))
    (v : VFIODevice K) :
  (2 <= fuel)%nat -> quiet v ->
  (forall x, In x (edges (msi_cap_size v) (pdev v) ws) -> snd x <> Falling) ->
  exists v' calls, writes fuel v ws = Returned v' calls.
Proof.
  intros Hfuel Hquiet Hrising.
  pose proof (write_sequence_follows_edges fuel ws v Hfuel) as Hrun.
  pose proof (write_sequence_settled fuel ws v Hfuel Hquiet) as Hset.
  destruct (writes fuel v ws) as [v' calls|v' calls|];
    cbn [follows settled] in Hrun, Hset; [by eauto| |done].
  destruct Hrun as (_ & rest & Hrest). destruct Hset as (calls0 & m & ->).
  assert (In (DisableMsi m)
            (flat_map calls_of_edge (edges (msi_cap_size v) (pdev v) ws)))
    as Hin.
  { rewrite Hrest. apply in_or_app. left. apply in_or_app. right. by left. }
  apply in_flat_map in Hin as ([m' e] & Hx & Hc).
  specialize (Hrising _ Hx). cbn in Hrising.
  destruct e; cbn in Hc; [by destruct Hc|done|done].
Qed.

End Device.

Section Runs.
Import BridgeExamples.

(** Reads inside the MSI window come from the image, the pin register
    comes from the physical device. *)
Example read_config_routes :
  vfio_pci_read_config ex_pread_config ex_device 0x42 2 = 0 /\
  vfio_pci_read_config ex_pread_config ex_device PCI_INTERRUPT_PIN 1 = 1.
Proof. split; reflexivity. Qed.

(** MSI is enabled, then the guest enables MSI-X and the kernel refuses
    the vectors: the MSI teardown has brought INTx back, and INTx, not
    NONE, is the mode the failed attempt ends in. *)
Lemma enable_msi_failure_after_msi_ends_in_intx :
  match ex_enable_msi 2 false ex_device with
  | Some v1 =>
      interrupt v1 = INT_MSI /\
      match ex_disable_interrupts 2 v1 with
      | Some s1 =>
          let s2 := ex_prepare true s1 in
          snd (ex_set_msi_eventfds (kernel s2) true (eventfds_arg s2)) = false /\
          match ex_enable_msi 2 true v1 with
          | Some v2 =>
              nr_vectors v2 = 0 /\ interrupt v2 = INT_INTx /\
              interrupt v2 <> INT_NONE
          | None => False
          end
      | None => False
      end
  | None => False
  end.
Proof. vm_compute. repeat split; discriminate. Qed.

Lemma enable_msi_failure_unwinds_witness :
  exists s1,
    ex_disable_interrupts 2 ex_device = Some s1 /\
    let s2 := ex_prepare true s1 in
    (snd (ex_set_msi_eventfds (kernel s2) true (eventfds_arg s2)) = false ->
     exists v',
       ex_enable_msi 2 true ex_device = Some v' /\
       nr_vectors v' = 0 /\ msi_vectors v' = [] /\
       length (msi_vectors s2) = Z.to_nat (nr_vectors s2) /\
       (forall vec, In vec (msi_vectors s2) ->
          fd_handlers v' !! (mv_fd vec) = None /\
          mv_fd vec ∉ open_notifiers v') /\
       (true = true ->
        forall i, (i < Z.to_nat (nr_vectors s2))%nat -> i ∉ msix_used v') /\
       interrupt v' = interrupt s1 /\
       (interrupt ex_device = INT_NONE \/ interrupt ex_device = INT_INTx ->
        interrupt v' = INT_NONE) /\
       (interrupt v' = INT_NONE \/ interrupt v' = INT_INTx)).
Proof.
  apply (enable_msi_failure_unwinds ex_pread_config ex_set_irq_eventfd
           ex_set_msi_eventfds ex_unmask_irq ex_eventfd ex_stale_fd ex_get_irq
           ex_nr_vectors 2 true ex_device).
  lia.
Defined.

(** Setting, keeping and clearing the MSI enable bit by byte writes to
    the flags register: one enable, nothing, one disable. *)
Example msi_enable_bit_writes :
  calls_made
    (ex_writes 2 ex_device [(0x42, 1, 1); (0x42, 1, 1); (0x42, 0, 1)]) =
  Some (true, [EnableMsi false; DisableMsi false]).
Proof. vm_compute. reflexivity. Qed.

(** A 4-byte write at 0x3f reaches the MSI flags byte at 0x42 and sets
    the enable bit in the image, but starts inside the standard header:
    it overlaps the MSI window, the emulated bit goes from 0 to 1, and no
    enable is called. *)
Lemma header_write_into_msi_window_calls_nothing :
  cap_window_hit false (pdev ex_device) (msi_cap_size ex_device) 0x3f 4 = true /\
  ex_msi_enabled (pdev ex_device) = false /\
  match ex_write_config 2 ex_device 0x3f 0x01000000 4 with
  | Returned v' calls =>
      ex_msi_enabled (pdev v') = true /\ calls = [] /\
      length (List.filter (is_enable_call false) calls) <> 1%nat
  | _ => False
  end.
Proof. vm_compute. repeat split; discriminate. Qed.

Lemma write_config_calls_once_per_transition_witness :
  let ws := [(0x42, 1, 1); (0x42, 1, 1); (0x42, 0, 1)] in
  let observed := ex_edges (msi_cap_size ex_device) (pdev ex_device) ws in
  calls_made (ex_writes 2 ex_device ws) =
    Some (true, [EnableMsi false; DisableMsi false]) /\
  match ex_writes 2 ex_device ws with
  | Returned v' calls =>
      calls = flat_map calls_of_edge observed /\
      (forall msix,
         length (List.filter (is_enable_call msix) calls) =
           length (List.filter (is_edge msix Rising) observed) /\
         length (List.filter (is_disable_call msix) calls) =
           length (List.filter (is_edge msix Falling) observed)) /\
      (quiet ex_device -> quiet v')
  | Aborted v' calls =>
      freed_twice v' = true /\
      (exists rest, flat_map calls_of_edge observed = calls ++ rest) /\
      (quiet ex_device ->
       exists calls0 msix, calls = calls0 ++ [DisableMsi msix])
  | OutOfFuel => False
  end.
Proof.
  intros ws. split; [vm_compute; reflexivity|].
  apply (write_config_calls_once_per_transition ex_pread_config
           ex_pwrite_config ex_set_irq_eventfd ex_set_msi_eventfds
           ex_unmask_irq ex_eventfd ex_stale_fd ex_default_write_config
           ex_cap_write_config ex_cap_write_config ex_get_irq ex_nr_vectors
           ex_msi_enabled ex_msix_enabled 2 ws ex_device).
  lia.
Defined.

(** The guest sets the MSI-X enable bit and the kernel refuses the
    vectors: [vfio_enable_msi] has freed the block it had just
    allocated and left the pointer.  The guest clears the bit again:
    [vfio_disable_msi] frees the same block, and the run ends there,
    inside the second call. *)
Example refused_msix_then_disable_frees_twice :
  calls_made (ex_writes 2 ex_device [(0x52, 0x8000, 2)]) =
    Some (true, [EnableMsi true]) /\
  match ex_writes 2 ex_device [(0x52, 0x8000, 2)] with
  | Returned v' _ => vectors_block v' = Dangling /\ freed_twice v' = false
  | _ => False
  end /\
  calls_made (ex_writes 2 ex_device [(0x52, 0x8000, 2); (0x53, 0, 1)]) =
    Some (false, [EnableMsi true; DisableMsi true]) /\
  calls_made
    (ex_writes 2 ex_device [(0x52, 0x8000, 2); (0x53, 0, 1); (0x42, 1, 1)]) =
    Some (false, [EnableMsi true; DisableMsi true]).
Proof. vm_compute. done. Qed.

(** With a kernel that accepts every registration: MSI on, MSI-X on,
    MSI off, MSI-X off.  Enabling MSI-X has put MSI down and freed its
    block; disabling MSI frees the block of MSI-X; disabling MSI-X frees
    that block again. *)
Example both_enabled_then_disabled_frees_twice :
  calls_made
    (ex_writes_accepting 2 ex_device
       [(0x42, 1, 1); (0x53, 0x80, 1); (0x42, 0, 1)]) =
    Some (true, [EnableMsi false; EnableMsi true; DisableMsi false]) /\
  calls_made
    (ex_writes_accepting 2 ex_device
       [(0x42, 1, 1); (0x53, 0x80, 1); (0x42, 0, 1); (0x53, 0, 1)]) =
    Some (false, [EnableMsi false; EnableMsi true; DisableMsi false;
                  DisableMsi true]).
Proof. vm_compute. done. Qed.

End Runs.

End BridgeFacts.

(** ** Netlink registration and removal *)

Module NetlinkRegistryFacts.
Import Netlink NetlinkRegistry.

Lemma host_matches_self vdev :
  host_matches (seg (host vdev)) (bus (host vdev)) (dev (host vdev))
    (func (host vdev)) vdev = true.
Proof. unfold host_matches. by rewrite !Z.eqb_refl. Qed.

(** [nl_lookup] finds the least position whose device matches. *)
Lemma nl_lookup_first s b d f l i vdev :
  l !! i = Some vdev -> host_matches s b d f vdev = true ->
  (forall j v, (j < i)%nat -> l !! j = Some v -> host_matches s b d f v = false) ->
  nl_lookup s b d f l = Some i.
Proof.
  revert i. induction l as [|x l IH]; intros i Hi Hm Hbefore; [done|].
  destruct i as [|i]; simpl in *.
  - injection Hi as ->. by rewrite Hm.
  - rewrite (Hbefore O x) by (done || lia).
    rewrite (IH i Hi Hm); [done|].
    intros j v Hj Hv. apply (Hbefore (S j) v); [lia|done].
Qed.

Lemma alter_is_insert {A} (g : A -> A) (l : list A) i x :
  l !! i = Some x -> alter g i l = <[i := g x]> l.
Proof.
  revert i. induction l as [|y l IH]; intros i Hi; [done|].
  destruct i as [|i]; simpl in *.
  - by injection Hi as ->.
  - f_equal. by apply IH.
Qed.

(** X1.  A REMOVE message from the kernel acts on the first device of the
    registry that carries the identity it names, and on nothing else: that
    device is asked to unplug once more and its timer is set to expire 30
    seconds from now; every other device, also a later one with the same
    identity, and the clock stay as they were. *)
Theorem remove_acts_on_first_match :
  forall (VFIO_MSG_REMOVE : Z) (st : State) (msg : nl_msg) (i : nat)
         (vdev : VFIODevice),
    nl_pid msg = 0 -> cmd msg = VFIO_MSG_REMOVE ->
    nl_list st !! i = Some vdev -> msg_names msg vdev = true ->
    (forall j v, (j < i)%nat -> nl_list st !! j = Some v ->
                 msg_names msg v = false) ->
    vfio_parse_netlink VFIO_MSG_REMOVE st msg =
    (0, {| nl_list :=
             <[i := {| host := host vdev;
                       unplug_requests := S (unplug_requests vdev);
                       remove_timer := Some (rt_clock_ms st + 30000) |}]>
               (nl_list st);
           rt_clock_ms := rt_clock_ms st |}).
Proof.
  intros REMOVE st msg i vdev Hpid Hcmd Hi Hnames Hbefore.
  unfold vfio_parse_netlink, msg_names in *. rewrite Hpid, Hcmd. cbn [Z.eqb negb].
  destruct (attr_pci_domain msg) as [s|]; [|done].
  destruct (attr_pci_bus msg) as [b|]; [|done].
  destruct (attr_pci_slot msg) as [d|]; [|done].
  destruct (attr_pci_func msg) as [f|]; [|done].
  rewrite (nl_lookup_first s b d f (nl_list st) i vdev Hi Hnames Hbefore).
  rewrite Z.eqb_refl. by rewrite (alter_is_insert _ _ _ _ Hi).
Qed.

Lemma remove_acts_on_first_match_witness :
  let d0 := {| host := {| seg := 0; bus := 1; dev := 0; func := 0 |};
               unplug_requests := 0; remove_timer := None |} in
  let d1 := {| host := {| seg := 0; bus := 2; dev := 0; func := 0 |};
               unplug_requests := 0; remove_timer := None |} in
  let st := {| nl_list := [d0; d1; d1]; rt_clock_ms := 500 |} in
  let msg := {| nl_pid := 0; cmd := 1;
                attr_pci_domain := Some 0; attr_pci_bus := Some 2;
                attr_pci_slot := Some 0; attr_pci_func := Some 0 |} in
  vfio_parse_netlink 1 st msg =
  (0, {| nl_list :=
           <[1%nat := {| host := host d1;
                         unplug_requests := S (unplug_requests d1);
                         remove_timer := Some (rt_clock_ms st + 30000) |}]>
             (nl_list st);
         rt_clock_ms := rt_clock_ms st |}).
Proof.
  intros d0 d1 st msg.
  apply (remove_acts_on_first_match 1 st msg 1%nat d1); try reflexivity.
  intros [|j] v Hj Hv; [|lia]. by injection Hv as <-.
Defined.

(** X2.  The handler changes the state only for a REMOVE message from the
    kernel that names a registered device, and it returns -1 only for a
    message from the kernel that lacks an identity attribute (and then
    changes nothing). *)
Theorem parse_netlink_acts_only_on_kernel_remove :
  forall (VFIO_MSG_REMOVE : Z) (st : State) (msg : nl_msg),
    (snd (vfio_parse_netlink VFIO_MSG_REMOVE st msg) <> st ->
     nl_pid msg = 0 /\ cmd msg = VFIO_MSG_REMOVE /\
     exists vdev, In vdev (nl_list st) /\ msg_names msg vdev = true) /\
    (fst (vfio_parse_netlink VFIO_MSG_REMOVE st msg) = -1 <->
     nl_pid msg = 0 /\
     (attr_pci_domain msg = None \/ attr_pci_bus msg = None \/
      attr_pci_slot msg = None \/ attr_pci_func msg = None)) /\
    (fst (vfio_parse_netlink VFIO_MSG_REMOVE st msg) = -1 ->
     snd (vfio_parse_netlink VFIO_MSG_REMOVE st msg) = st) /\
    (fst (vfio_parse_netlink VFIO_MSG_REMOVE st msg) = -1 \/
     fst (vfio_parse_netlink VFIO_MSG_REMOVE st msg) = 0).
Proof.
  intros REMOVE st msg. unfold vfio_parse_netlink, msg_names.
  destruct (Z.eqb_spec (nl_pid msg) 0) as [Hpid|Hpid]; cbn [negb].
  2: { repeat split; try done; try (by right).
       intros [? _]. done. }
  destruct (attr_pci_domain msg) as [s|];
    [|repeat split; try done; auto; intros; auto].
  destruct (attr_pci_bus msg) as [b|];
    [|repeat split; try done; auto; intros; auto].
  destruct (attr_pci_slot msg) as [d|];
    [|repeat split; try done; auto; intros; auto].
  destruct (attr_pci_func msg) as [f|];
    [|repeat split; try done; auto 6; intros; auto 6].
  destruct (nl_lookup s b d f (nl_list st)) as [i|] eqn:Hlook.
  - destruct (NetlinkFacts.nl_lookup_some _ _ _ _ _ _ Hlook) as (vdev & Hv & Hm).
    destruct (Z.eqb_spec (cmd msg) REMOVE) as [Hcmd|Hcmd]; cbn [fst snd].
    + repeat split; try done; try (by right).
      * exists vdev. split; [|done].
        apply list_elem_of_In. by apply list_elem_of_lookup_2 with i.
      * intros (_ & [?|[?|[?|?]]]); done.
    + repeat split; try done; try (by right).
      intros (_ & [?|[?|[?|?]]]); done.
  - cbn [fst snd]. repeat split; try done; try (by right).
    intros (_ & [?|[?|[?|?]]]); done.
Qed.

Section Register.

Variable VFIO_MSG_REMOVE : Z.
Variable nl_handle_alloc : option Z.
Variable genl_ctrl_resolve : Z.
Variable nl_socket_modify_cb : Z.

Local Abbreviation register :=
  (vfio_register_netlink VFIO_MSG_REMOVE nl_handle_alloc genl_ctrl_resolve
     nl_socket_modify_cb).

(** What a successful registration leaves behind. *)
Lemma register_success w vdev w' :
  register w vdev = (0, w') ->
  nl_list (st w') = vdev :: nl_list (st w) /\
  rt_clock_ms (st w') = rt_clock_ms (st w) /\
  sent w' = sent w ++ [register_msg_of VFIO_MSG_REMOVE vdev] /\
  (nl_list (st w) <> [] ->
   nl_handle w' = nl_handle w /\ nl_fd_handler w' = nl_fd_handler w) /\
  (nl_list (st w) = [] ->
   exists fd, nl_handle_alloc = Some fd /\
     nl_handle w' = Some {| sock_fd := fd; sock_family := genl_ctrl_resolve |} /\
     nl_fd_handler w' = Some fd).
Proof.
  unfold vfio_register_netlink.
  destruct (nl_list (st w)) eqn:Hl.
  - destruct nl_handle_alloc as [fd|]; [|by intros [= ?]].
    destruct (genl_ctrl_resolve <? 0); [by intros [= ?]|].
    destruct (negb _); [by intros [= ?]|].
    intros [= <-]. cbn. rewrite Hl. repeat split; try done. by exists fd.
  - intros [= <-]. cbn. rewrite Hl. repeat split; done.
Qed.

(** X3.  Registered, then named by the kernel in a REMOVE message: the
    device just registered is the one that is asked to unplug and gets the
    timer, whatever else is in the registry; and the REGISTER message that
    went out carries its identity and the REMOVE bit. *)
Theorem registered_device_receives_remove w vdev w' :
  register w vdev = (0, w') ->
  vfio_parse_netlink VFIO_MSG_REMOVE (st w')
    (remove_msg_for VFIO_MSG_REMOVE vdev) =
  (0, {| nl_list :=
           {| host := host vdev;
              unplug_requests := S (unplug_requests vdev);
              remove_timer := Some (rt_clock_ms (st w) + 30000) |}
           :: nl_list (st w);
         rt_clock_ms := rt_clock_ms (st w) |}) /\
  last (sent w') =
  Some {| reg_msgcap := Z.shiftl 1 VFIO_MSG_REMOVE;
          reg_domain := seg (host vdev); reg_bus := bus (host vdev);
          reg_slot := dev (host vdev); reg_func := func (host vdev) |}.
Proof.
  intros Hreg.
  destruct (register_success w vdev w' Hreg) as (Hl & Hc & Hs & _).
  split.
  - unfold vfio_parse_netlink, remove_msg_for. cbn. rewrite Hl. cbn.
    rewrite host_matches_self, Z.eqb_refl, Hc. reflexivity.
  - rewrite Hs, last_snoc. reflexivity.
Qed.

(** X4.  Registration followed by unregistration of the same device gives
    the registry back as it was, and, when the registry was empty before
    (and so had no socket), leaves no socket and no fd handler behind. *)
Theorem register_unregister_round_trip w vdev w' :
  register w vdev = (0, w') ->
  st (vfio_unregister_netlink w' 0) = st w /\
  (nl_list (st w) = [] ->
   nl_handle (vfio_unregister_netlink w' 0) = None /\
   nl_fd_handler (vfio_unregister_netlink w' 0) = None) /\
  (nl_list (st w) <> [] ->
   nl_handle (vfio_unregister_netlink w' 0) = nl_handle w /\
   nl_fd_handler (vfio_unregister_netlink w' 0) = nl_fd_handler w).
Proof.
  intros Hreg.
  destruct (register_success w vdev w' Hreg) as (Hl & Hc & _ & Hkeep & _).
  unfold vfio_unregister_netlink. rewrite Hl. cbn.
  destruct (st w) as [l c] eqn:Hst. cbn in *.
  destruct l as [|x l]; cbn; rewrite ?Hc.
  - repeat split; done.
  - destruct (Hkeep ltac:(done)) as [-> ->]. repeat split; done.
Qed.

(** X5.  The socket and its fd handler exist exactly while some device is
    registered: the relation holds after every registration, failed or
    not, and after every unregistration. *)
Theorem socket_lives_while_registered w :
  socket_while_registered w ->
  (forall vdev, socket_while_registered (snd (register w vdev))) /\
  (forall i, socket_while_registered (vfio_unregister_netlink w i)).
Proof.
  intros [Hiff Hh]. split.
  - intros vdev. unfold vfio_register_netlink.
    destruct (nl_list (st w)) as [|x l] eqn:Hl.
    + assert (nl_handle w = None) as Hnone by (by apply Hiff).
      rewrite Hnone in Hh.
      destruct nl_handle_alloc as [fd|]; [|by split; cbn; rewrite ?Hl].
      destruct (genl_ctrl_resolve <? 0); [by split; cbn; rewrite ?Hl|].
      destruct (negb _); [by split; cbn; rewrite ?Hl|].
      split; cbn; [|done]. split; intros; done.
    + split; cbn; [|done]. split; [done|].
      intros Hnone. apply Hiff in Hnone. done.
  - intros i. unfold vfio_unregister_netlink.
    destruct (nl_list (st w) !! i) as [v|] eqn:Hi; [|done].
    destruct (delete i (nl_list (st w))) as [|y l'] eqn:Hd; split; cbn;
      rewrite ?Hd; try done.
    split; [done|]. intros Hnone. apply Hiff in Hnone.
    rewrite Hnone in Hi. done.
Qed.

End Register.

Section Runs.

Lemma registered_device_receives_remove_witness :
  vfio_parse_netlink 1 (st ex_world1) (remove_msg_for 1 ex_dev) =
  (0, {| nl_list :=
           {| host := host ex_dev;
              unplug_requests := S (unplug_requests ex_dev);
              remove_timer := Some (rt_clock_ms (st ex_world) + 30000) |}
           :: nl_list (st ex_world);
         rt_clock_ms := rt_clock_ms (st ex_world) |}) /\
  last (sent ex_world1) =
  Some {| reg_msgcap := Z.shiftl 1 1;
          reg_domain := seg (host ex_dev); reg_bus := bus (host ex_dev);
          reg_slot := dev (host ex_dev); reg_func := func (host ex_dev) |}.
Proof.
  apply (registered_device_receives_remove 1 (Some 9) 24 0 ex_world ex_dev ex_world1).
  reflexivity.
Defined.

Lemma register_unregister_round_trip_witness :
  st (vfio_unregister_netlink ex_world1 0) = st ex_world /\
  (nl_list (st ex_world) = [] ->
   nl_handle (vfio_unregister_netlink ex_world1 0) = None /\
   nl_fd_handler (vfio_unregister_netlink ex_world1 0) = None) /\
  (nl_list (st ex_world) <> [] ->
   nl_handle (vfio_unregister_netlink ex_world1 0) = nl_handle ex_world /\
   nl_fd_handler (vfio_unregister_netlink ex_world1 0) = nl_fd_handler ex_world).
Proof.
  apply (register_unregister_round_trip 1 (Some 9) 24 0 ex_world ex_dev ex_world1).
  reflexivity.
Defined.

Lemma socket_lives_while_registered_witness :
  (forall vdev,
     socket_while_registered
       (snd (vfio_register_netlink 1 (Some 9) 24 0 ex_world vdev))) /\
  (forall i, socket_while_registered (vfio_unregister_netlink ex_world i)).
Proof.
  apply (socket_lives_while_registered 1 (Some 9) 24 0 ex_world).
  split; [split; reflexivity | reflexivity].
Defined.

End Runs.

End NetlinkRegistryFacts.

(** ** Mapping and releasing the BARs *)

Module UnmapFacts.
Import Resources Unmap.

Lemma bar_space_cases bar :
  Z.land bar PCI_BASE_ADDRESS_SPACE = PCI_BASE_ADDRESS_SPACE_MEMORY \/
  Z.land bar PCI_BASE_ADDRESS_SPACE = PCI_BASE_ADDRESS_SPACE_IO.
Proof.
  unfold PCI_BASE_ADDRESS_SPACE, PCI_BASE_ADDRESS_SPACE_MEMORY,
    PCI_BASE_ADDRESS_SPACE_IO.
  assert (Z.land bar 1 = bar mod 2) as ->.
  { change 1 with (Z.ones 1). by rewrite Z.land_ones. }
  pose proof (Z.mod_pos_bound bar 2 ltac:(lia)). lia.
Qed.

Lemma lookup_upd_res_ne i k f v :
  i <> k -> resources (upd_res i f v) !! k = resources v !! k.
Proof. intros H. cbn [upd_res resources]. by apply list_lookup_alter_ne. Qed.

Section Mapper.

Variable vfio_get_bar_len : nat -> option Z.
Variable pread_bar : Z -> option Z.
Variable do_mmap : Z -> Z -> option Z.
Variable qemu_ram_alloc_from_ptr : bar_name -> Z -> Z -> Z.
Variable cpu_register_io_memory : nat -> Z.
Variable vfio_pci_space_to_offset : Z -> Z.
Variable VFIO_PCI_BAR0_RESOURCE : Z.

Local Abbreviation loop := (map_resources_loop vfio_get_bar_len pread_bar
  do_mmap qemu_ram_alloc_from_ptr cpu_register_io_memory
  vfio_pci_space_to_offset VFIO_PCI_BAR0_RESOURCE).
Local Abbreviation map_resources := (vfio_map_resources vfio_get_bar_len
  pread_bar do_mmap qemu_ram_alloc_from_ptr cpu_register_io_memory
  vfio_pci_space_to_offset VFIO_PCI_BAR0_RESOURCE).
Local Abbreviation direct := (map_direct do_mmap qemu_ram_alloc_from_ptr
  vfio_pci_space_to_offset VFIO_PCI_BAR0_RESOURCE).
Local Abbreviation part := (map_part do_mmap qemu_ram_alloc_from_ptr).

(** The config offset of the register of BAR [i]. *)
Definition bar_reg_offset (i : nat) : Z :=
  uint8 (PCI_BASE_ADDRESS_0 + 4 * Z.of_nat i).

(** The device the loop goes on with after each kind of BAR. *)
Definition after_skip (i : nat) (v : VFIODevice) : VFIODevice :=
  upd_res i (set_fd_bar (dev_vfiofd v) (Z.of_nat i)) v.

Definition after_register (i : nat) (ty : Z) (cb : map_func)
    (v : VFIODevice) : VFIODevice :=
  upd_res i set_valid (pci_register_bar i (size (get_res v i)) ty cb v).

Definition after_slow (i : nat) (len bar : Z) (v : VFIODevice) : VFIODevice :=
  after_register i (mem_type bar) vfio_iomem_map_cb
    (upd_res i (set_slow_io (cpu_register_io_memory i))
       (upd_res i (set_mem_size true len) (after_skip i v))).

Definition after_io (i : nat) (len : Z) (v : VFIODevice) : VFIODevice :=
  after_register i PCI_BASE_ADDRESS_SPACE_IO vfio_ioport_map_cb
    (upd_res i (set_mem_size (mem (get_res (after_skip i v) i)) len)
       (after_skip i v)).

(** Induction over a run of the loop that ends with [return 0]: a
    property that every kind of iteration carries from its slot to the
    slot the loop goes on with holds at the end, beyond the last slot. *)
Lemma loop_done_ind (P : nat -> VFIODevice -> Prop) :
  (forall i v, (i < PCI_ROM_SLOT)%nat -> P i v ->
     vfio_get_bar_len i = Some 0 -> P (S i) (after_skip i v)) ->
  (forall i v len bar v2, (i < PCI_ROM_SLOT)%nat -> P i v ->
     vfio_get_bar_len i = Some len -> len <> 0 ->
     pread_bar (bar_reg_offset i) = Some bar ->
     Z.land bar PCI_BASE_ADDRESS_SPACE = PCI_BASE_ADDRESS_SPACE_MEMORY ->
     Z.land len 0xfff = 0 ->
     direct i len (upd_res i (set_mem_size true len) (after_skip i v)) = Mapped v2 ->
     P (next_slot i bar) (after_register i (mem_type bar) vfio_iomem_map_cb v2)) ->
  (forall i v len bar, (i < PCI_ROM_SLOT)%nat -> P i v ->
     vfio_get_bar_len i = Some len -> len <> 0 ->
     pread_bar (bar_reg_offset i) = Some bar ->
     Z.land bar PCI_BASE_ADDRESS_SPACE = PCI_BASE_ADDRESS_SPACE_MEMORY ->
     Z.land len 0xfff <> 0 ->
     P (next_slot i bar) (after_slow i len bar v)) ->
  (forall i v len bar, (i < PCI_ROM_SLOT)%nat -> P i v ->
     vfio_get_bar_len i = Some len -> len <> 0 ->
     pread_bar (bar_reg_offset i) = Some bar ->
     Z.land bar PCI_BASE_ADDRESS_SPACE = PCI_BASE_ADDRESS_SPACE_IO ->
     P (S i) (after_io i len v)) ->
  forall fuel i v v',
    P i v -> loop fuel i v = Done v' ->
    exists j, (PCI_ROM_SLOT <= j)%nat /\ P j v'.
Proof.
  intros Hskip Hdirect Hslow Hio.
  induction fuel as [|fuel IH]; intros i v v' HP; cbn [map_resources_loop].
  - destruct (Nat.leb_spec PCI_ROM_SLOT i); [|done].
    intros [= <-]. by exists i.
  - destruct (Nat.leb_spec PCI_ROM_SLOT i) as [Hi|Hi].
    { intros [= <-]. by exists i. }
    fold (after_skip i v).
    destruct (vfio_get_bar_len i) as [len|] eqn:Hlen; [|done].
    destruct (Z.eqb_spec len 0) as [->|Hnz].
    { apply IH. by apply Hskip. }
    fold (bar_reg_offset i).
    destruct (pread_bar (bar_reg_offset i)) as [bar|] eqn:Hbar; [|done].
    destruct (bar_space_cases bar) as [Hsp|Hsp]; rewrite Hsp.
    + cbn [Z.eqb PCI_BASE_ADDRESS_SPACE_MEMORY andb].
      destruct (Z.eqb_spec (Z.land len 4095) 0) as [Hal|Hal].
      * destruct (direct i len _) as [v2|v2] eqn:Hd; [|done].
        apply IH. by eapply Hdirect.
      * apply IH. by apply Hslow.
    + cbn [Z.eqb PCI_BASE_ADDRESS_SPACE_MEMORY PCI_BASE_ADDRESS_SPACE_IO andb
           Pos.eqb].
      apply IH. by apply (Hio i v len bar).
Qed.

(** *** What mapping leaves for releasing *)

(** A mapping as munmap names it, a ram block as its handle. *)
Definition mm_key (m : mmap_call) : Z * Z := (mm_addr m, mm_length m).

Definition rb_handle (b : ram_block) : Z :=
  qemu_ram_alloc_from_ptr (rb_name b) (rb_size b) (rb_host b).

(** The device before the mapper ran: six descriptors that are neither
    valid nor marked as memory or slow, nothing mapped or registered. *)
Definition pristine (v : VFIODevice) : Prop :=
  length (resources v) = PCI_ROM_SLOT /\
  mmaps v = [] /\ ram_blocks v = [] /\ registered v = [] /\
  forall r, In r (resources v) ->
    valid r = false /\ mem r = false /\ slow r = false.

(** No BAR that carries the MSI-X table is a memory BAR whose length is
    not a multiple of the page size. *)
Definition no_slow_table (v : VFIODevice) : Prop :=
  forall i r len bar,
    resources v !! i = Some r -> msix r = true ->
    vfio_get_bar_len i = Some len -> pread_bar (bar_reg_offset i) = Some bar ->
    Z.land bar PCI_BASE_ADDRESS_SPACE = PCI_BASE_ADDRESS_SPACE_MEMORY ->
    Z.land len 0xfff = 0.

Lemma flat_map_seq_ext {A} (f g : nat -> list A) n :
  (forall k, (k < n)%nat -> f k = g k) ->
  flat_map f (seq 0 n) = flat_map g (seq 0 n).
Proof.
  induction n as [|n IH]; intros H; [done|].
  rewrite seq_S, !flat_map_app. cbn. rewrite IH, H by (intros; auto with lia).
  done.
Qed.

Lemma flat_map_seq_tail {A} (g : nat -> list A) i j :
  (i <= j)%nat -> (forall k, (i <= k)%nat -> g k = []) ->
  flat_map g (seq 0 j) = flat_map g (seq 0 i).
Proof.
  intros Hij Hnil. induction j as [|j IH]; [by replace i with 0%nat by lia|].
  destruct (Nat.eq_dec i (S j)) as [->|Hne]; [done|].
  rewrite seq_S, flat_map_app. cbn. rewrite Hnil, IH by lia. by rewrite !app_nil_r.
Qed.

Lemma unmap_slot_invalid r : valid r = false -> unmap_slot r = [].
Proof. intros H. unfold unmap_slot. by rewrite H. Qed.

Lemma get_res_upd_res i f v r :
  resources v !! i = Some r -> get_res (upd_res i f v) i = f r.
Proof.
  intros H. apply ResourcesFacts.get_res_lookup.
  by apply ResourcesFacts.lookup_upd_res.
Qed.

Lemma get_res_ext v v' k :
  resources v' !! k = resources v !! k -> get_res v' k = get_res v k.
Proof. unfold get_res. by intros ->. Qed.

(** One mmap with its ram block: the descriptor gets the pointer and
    the handle, the two lists get one entry each. *)
Lemma part_effect i k name len offset v v2 r :
  resources v !! i = Some r ->
  part i k name len offset v = Mapped v2 ->
  exists p,
    resources v2 !! i =
      Some (set_mapping k p (qemu_ram_alloc_from_ptr (BarName i name) len p) r) /\
    (forall j, j <> i -> resources v2 !! j = resources v !! j) /\
    length (resources v2) = length (resources v) /\
    registered v2 = registered v /\
    mmaps v2 = mmaps v ++ [{| mm_length := len; mm_offset := offset; mm_addr := p |}] /\
    ram_blocks v2 =
      ram_blocks v ++ [{| rb_name := BarName i name; rb_size := len; rb_host := p |}].
Proof.
  intros Hr. unfold map_part.
  destruct (do_mmap len offset) as [p|]; [|done]. intros [= <-].
  exists p. split; [by apply ResourcesFacts.lookup_upd_res|].
  split; [intros j Hj; by rewrite lookup_upd_res_ne|].
  split; [cbn; by rewrite length_alter|]. done.
Qed.

(** The mmaps of a page-aligned memory BAR are the ones its descriptor
    will be released by. *)
Lemma direct_effect i len v v2 r :
  resources v !! i = Some r ->
  mem r = true -> slow r = false -> size r = len ->
  direct i len v = Mapped v2 ->
  exists r2,
    resources v2 !! i = Some r2 /\
    (forall j, j <> i -> resources v2 !! j = resources v !! j) /\
    length (resources v2) = length (resources v) /\
    registered v2 = registered v /\
    size r2 = len /\
    map mm_key (mmaps v2) =
      map mm_key (mmaps v) ++ munmaps (unmap_slot (set_valid r2)) /\
    map rb_handle (ram_blocks v2) =
      map rb_handle (ram_blocks v) ++ ram_frees (unmap_slot (set_valid r2)).
Proof.
  intros Hr Hmem Hslow Hsize. unfold map_direct.
  rewrite (ResourcesFacts.get_res_lookup v i r Hr).
  destruct (msix r) eqn:Hmsix.
  - destruct (Z.eqb_spec (msix_offset r) 0) as [Hoff|Hoff]; cbn [negb].
    + destruct (Z.gtb_spec len (uint32 (msix_offset r + MSIX_PAGE_SIZE)))
        as [Hgt|Hle].
      * intros Hp. destruct (part_effect _ _ _ _ _ _ _ _ Hr Hp)
          as (p & Hr2 & Hother & Hlen & Hreg & Hmm & Hrb).
        eexists. split; [exact Hr2|]. repeat (split; [done|]).
        rewrite Hmm, Hrb, !map_app. unfold unmap_slot. cbn.
        rewrite Hmem, Hmsix, Hsize. cbn.
        destruct (Z.gtb_spec len (uint32 (msix_offset r + MSIX_PAGE_SIZE)));
          [|lia].
        rewrite Hoff. cbn. unfold mm_key, rb_handle. cbn.
        replace (len - MSIX_PAGE_SIZE - 0) with (len - 0 - MSIX_PAGE_SIZE) by lia.
        done.
      * intros [= <-]. exists r. repeat (split; [done|]).
        unfold unmap_slot. cbn. rewrite Hmem, Hmsix, Hsize. cbn.
        destruct (Z.eqb_spec (msix_offset r) 0); [|done]. cbn.
        destruct (Z.gtb_spec len (uint32 (msix_offset r + MSIX_PAGE_SIZE)));
          [lia|]. cbn. by rewrite !app_nil_r.
    + destruct (part i 0 _ _ _ v) as [v1|v1] eqn:Hp1; [|done].
      destruct (part_effect _ _ _ _ _ _ _ _ Hr Hp1)
        as (p0 & Hr1 & Hother1 & Hlen1 & Hreg1 & Hmm1 & Hrb1).
      destruct (Z.gtb_spec len (uint32 (msix_offset r + MSIX_PAGE_SIZE)))
        as [Hgt|Hle].
      * intros Hp2. destruct (part_effect _ _ _ _ _ _ _ _ Hr1 Hp2)
          as (p1 & Hr2 & Hother2 & Hlen2 & Hreg2 & Hmm2 & Hrb2).
        eexists. split; [exact Hr2|].
        split; [intros j Hj; by rewrite Hother2, Hother1|].
        split; [congruence|]. split; [congruence|]. split; [done|].
        rewrite Hmm2, Hmm1, Hrb2, Hrb1, !map_app, <- !app_assoc.
        unfold unmap_slot. cbn. rewrite Hmem, Hmsix, Hsize. cbn.
        destruct (Z.eqb_spec (msix_offset r) 0); [done|]. cbn.
        destruct (Z.gtb_spec len (uint32 (msix_offset r + MSIX_PAGE_SIZE)));
          [|lia]. cbn. unfold mm_key, rb_handle. cbn.
        replace (len - MSIX_PAGE_SIZE - msix_offset r)
          with (len - msix_offset r - MSIX_PAGE_SIZE) by lia.
        done.
      * intros [= <-]. eexists. split; [exact Hr1|].
        repeat (split; [done|]).
        rewrite Hmm1, Hrb1, !map_app.
        unfold unmap_slot. cbn. rewrite Hmem, Hmsix, Hsize. cbn.
        destruct (Z.eqb_spec (msix_offset r) 0); [done|]. cbn.
        destruct (Z.gtb_spec len (uint32 (msix_offset r + MSIX_PAGE_SIZE)));
          [lia|]. done.
  - intros Hp. destruct (part_effect _ _ _ _ _ _ _ _ Hr Hp)
      as (p & Hr2 & Hother & Hlen & Hreg & Hmm & Hrb).
    eexists. split; [exact Hr2|]. repeat (split; [done|]).
    rewrite Hmm, Hrb, !map_app. unfold unmap_slot. cbn.
    rewrite Hmem, Hmsix, Hslow, Hsize. done.
Qed.


(** The loop invariant of the round trip: the slots from [i] on are as
    they were, and what was mapped so far is what the descriptors of the
    slots before [i] are released by. *)
Definition released_inv (v0 : VFIODevice) (i : nat) (v : VFIODevice) : Prop :=
  length (resources v) = PCI_ROM_SLOT /\
  (forall k, (i <= k)%nat -> resources v !! k = resources v0 !! k) /\
  map mm_key (mmaps v) =
    flat_map (fun k => munmaps (unmap_slot (get_res v k))) (seq 0 i) /\
  map rb_handle (ram_blocks v) =
    flat_map (fun k => ram_frees (unmap_slot (get_res v k))) (seq 0 i).

Lemma pristine_slot_invalid v0 v k :
  pristine v0 -> resources v !! k = resources v0 !! k ->
  unmap_slot (get_res v k) = [].
Proof.
  intros (_ & _ & _ & _ & Hall) Hk. apply unmap_slot_invalid.
  unfold get_res. rewrite Hk.
  destruct (resources v0 !! k) as [r|] eqn:Hr; [|done].
  apply Hall, list_elem_of_In. by apply list_elem_of_lookup_2 with k.
Qed.

Lemma released_step v0 i j v v3 ri :
  pristine v0 -> released_inv v0 i v -> (S i <= j)%nat ->
  (forall k, k <> i -> resources v3 !! k = resources v !! k) ->
  length (resources v3) = length (resources v) ->
  resources v3 !! i = Some ri ->
  map mm_key (mmaps v3) = map mm_key (mmaps v) ++ munmaps (unmap_slot ri) ->
  map rb_handle (ram_blocks v3) =
    map rb_handle (ram_blocks v) ++ ram_frees (unmap_slot ri) ->
  released_inv v0 j v3.
Proof.
  intros Hp (Hlen & Hrest & Hmm & Hrb) Hj Hother Hlen3 Hri Hmm3 Hrb3.
  assert (forall k, (S i <= k)%nat -> unmap_slot (get_res v3 k) = []) as Hnil.
  { intros k Hk. apply (pristine_slot_invalid v0); [done|].
    rewrite Hother, Hrest by lia. done. }
  split; [congruence|].
  split; [intros k Hk; rewrite Hother, Hrest by lia; done|].
  split.
  - rewrite (flat_map_seq_tail _ (S i) j); [|done|intros k Hk; by rewrite Hnil].
    rewrite seq_S, flat_map_app. cbn.
    rewrite (ResourcesFacts.get_res_lookup v3 i ri Hri), app_nil_r, Hmm3, Hmm.
    f_equal. apply flat_map_seq_ext. intros k Hk.
    rewrite (get_res_ext v v3 k); [done|]. apply Hother. lia.
  - rewrite (flat_map_seq_tail _ (S i) j); [|done|intros k Hk; by rewrite Hnil].
    rewrite seq_S, flat_map_app. cbn.
    rewrite (ResourcesFacts.get_res_lookup v3 i ri Hri), app_nil_r, Hrb3, Hrb.
    f_equal. apply flat_map_seq_ext. intros k Hk.
    rewrite (get_res_ext v v3 k); [done|]. apply Hother. lia.
Qed.

Lemma next_slot_ge i bar : (S i <= next_slot i bar)%nat.
Proof. unfold next_slot. destruct (negb _); lia. Qed.

Lemma munmaps_app a b : munmaps (a ++ b) = munmaps a ++ munmaps b.
Proof. apply flat_map_app. Qed.

Lemma ram_frees_app a b : ram_frees (a ++ b) = ram_frees a ++ ram_frees b.
Proof. apply flat_map_app. Qed.

Lemma unmap_loop_munmaps n i v :
  munmaps (unmap_loop n i v) =
    flat_map (fun k => munmaps (unmap_slot (get_res v k))) (seq i n).
Proof.
  revert i. induction n as [|n IH]; intros i; [done|].
  cbn [unmap_loop seq flat_map]. by rewrite munmaps_app, IH.
Qed.

Lemma unmap_loop_ram_frees n i v :
  ram_frees (unmap_loop n i v) =
    flat_map (fun k => ram_frees (unmap_slot (get_res v k))) (seq i n).
Proof.
  revert i. induction n as [|n IH]; intros i; [done|].
  cbn [unmap_loop seq flat_map]. by rewrite ram_frees_app, IH.
Qed.

Lemma released_inv_run v0 v' :
  pristine v0 -> no_slow_table v0 ->
  map_resources v0 = Done v' ->
  exists j, (PCI_ROM_SLOT <= j)%nat /\ released_inv v0 j v'.
Proof.
  intros Hp Hns. unfold vfio_map_resources.
  apply (loop_done_ind (released_inv v0)).
  - (* a BAR of length 0 *)
    intros i v Hi Hinv Hlen.
    destruct Hinv as (Hl & Hrest & Hmm & Hrb).
    destruct (lookup_lt_is_Some_2 (resources v) i) as [r Hr]; [lia|].
    apply (released_step v0 i (S i) v _
             (set_fd_bar (dev_vfiofd v) (Z.of_nat i) r)); try done.
    + intros k Hk. by apply lookup_upd_res_ne.
    + cbn. by rewrite length_alter.
    + by apply ResourcesFacts.lookup_upd_res.
    + rewrite unmap_slot_invalid; [by rewrite app_nil_r|]. cbn.
      destruct Hp as (_ & _ & _ & _ & Hall).
      apply (Hall r), list_elem_of_In, list_elem_of_lookup_2 with i.
      by rewrite <- Hrest.
    + rewrite unmap_slot_invalid; [by rewrite app_nil_r|]. cbn.
      destruct Hp as (_ & _ & _ & _ & Hall).
      apply (Hall r), list_elem_of_In, list_elem_of_lookup_2 with i.
      by rewrite <- Hrest.
  - (* a page-aligned memory BAR *)
    intros i v len bar v2 Hi Hinv Hlen Hnz Hbar Hsp Hal Hd.
    pose proof Hinv as (Hl & Hrest & Hmm & Hrb).
    destruct (lookup_lt_is_Some_2 (resources v) i) as [r Hr]; [lia|].
    assert (valid r = false /\ mem r = false /\ slow r = false)
      as (Hv & Hm & Hs).
    { destruct Hp as (_ & _ & _ & _ & Hall).
      apply (Hall r), list_elem_of_In, list_elem_of_lookup_2 with i.
      by rewrite <- Hrest. }
    set (r1 := set_mem_size true len (set_fd_bar (dev_vfiofd v) (Z.of_nat i) r)).
    assert (resources (upd_res i (set_mem_size true len) (after_skip i v)) !! i
            = Some r1) as Hr1.
    { apply ResourcesFacts.lookup_upd_res.
      by apply ResourcesFacts.lookup_upd_res. }
    destruct (direct_effect i len _ v2 r1 Hr1) as
      (r2 & Hr2 & Hother & Hlen2 & Hreg & Hsz & Hmm2 & Hrb2); try done.
    apply (released_step v0 i _ v _ (set_valid r2)); try done.
    + apply next_slot_ge.
    + intros k Hk. unfold after_register.
      rewrite lookup_upd_res_ne by done. cbn [pci_register_bar resources].
      rewrite Hother by done. unfold after_skip.
      by rewrite !lookup_upd_res_ne.
    + unfold after_register. cbn. rewrite length_alter, Hlen2. cbn.
      by rewrite !length_alter.
    + unfold after_register. by apply ResourcesFacts.lookup_upd_res.
  - (* a memory BAR that is not page aligned *)
    intros i v len bar Hi Hinv Hlen Hnz Hbar Hsp Hal.
    pose proof Hinv as (Hl & Hrest & Hmm & Hrb).
    destruct (lookup_lt_is_Some_2 (resources v) i) as [r Hr]; [lia|].
    assert (valid r = false /\ mem r = false /\ slow r = false)
      as (Hv & Hm & Hs).
    { destruct Hp as (_ & _ & _ & _ & Hall).
      apply (Hall r), list_elem_of_In, list_elem_of_lookup_2 with i.
      by rewrite <- Hrest. }
    assert (msix r = false) as Hmsix.
    { destruct (msix r) eqn:Hx; [|done]. exfalso. apply Hal.
      apply (Hns i r len bar); try done. by rewrite <- Hrest. }
    set (ri := set_valid (set_slow_io (cpu_register_io_memory i)
                 (set_mem_size true len
                    (set_fd_bar (dev_vfiofd v) (Z.of_nat i) r)))).
    assert (unmap_slot ri = [IoUnregister (cpu_register_io_memory i)]) as Hri.
    { unfold unmap_slot, ri. cbn. by rewrite Hmsix. }
    apply (released_step v0 i _ v _ ri); try done.
    + apply next_slot_ge.
    + intros k Hk. unfold after_slow, after_register, after_skip.
      rewrite lookup_upd_res_ne by done. cbn [pci_register_bar resources].
      by rewrite !lookup_upd_res_ne.
    + unfold after_slow, after_register, after_skip. cbn.
      by rewrite !length_alter.
    + unfold after_slow, after_register, after_skip.
      apply ResourcesFacts.lookup_upd_res. cbn [pci_register_bar resources].
      do 2 apply ResourcesFacts.lookup_upd_res.
      by apply ResourcesFacts.lookup_upd_res.
    + rewrite Hri. cbn. by rewrite app_nil_r.
    + rewrite Hri. cbn. by rewrite app_nil_r.
  - (* an I/O BAR *)
    intros i v len bar Hi Hinv Hlen Hnz Hbar Hsp.
    pose proof Hinv as (Hl & Hrest & Hmm & Hrb).
    destruct (lookup_lt_is_Some_2 (resources v) i) as [r Hr]; [lia|].
    assert (valid r = false /\ mem r = false /\ slow r = false)
      as (Hv & Hm & Hs).
    { destruct Hp as (_ & _ & _ & _ & Hall).
      apply (Hall r), list_elem_of_In, list_elem_of_lookup_2 with i.
      by rewrite <- Hrest. }
    set (ri := set_valid (set_mem_size false len
                 (set_fd_bar (dev_vfiofd v) (Z.of_nat i) r))).
    assert (unmap_slot ri = []) as Hri by done.
    assert (get_res (after_skip i v) i
            = set_fd_bar (dev_vfiofd v) (Z.of_nat i) r) as Hg.
    { unfold after_skip. by apply get_res_upd_res. }
    apply (released_step v0 i _ v _ ri); try done.
    + intros k Hk. unfold after_io, after_register, after_skip.
      rewrite lookup_upd_res_ne by done. cbn [pci_register_bar resources].
      by rewrite !lookup_upd_res_ne.
    + unfold after_io, after_register. cbn. by rewrite !length_alter.
    + unfold after_io, after_register. rewrite Hg.
      replace (mem (set_fd_bar (dev_vfiofd v) (Z.of_nat i) r)) with false
        by (cbn; congruence).
      apply ResourcesFacts.lookup_upd_res. cbn [pci_register_bar resources].
      apply ResourcesFacts.lookup_upd_res.
      by apply ResourcesFacts.lookup_upd_res.
    + rewrite Hri. cbn. by rewrite app_nil_r.
    + rewrite Hri. cbn. by rewrite app_nil_r.
  - (* before the first slot *)
    destruct Hp as (Hl & Hmm & Hrb & _ & _).
    split; [done|]. split; [done|]. by rewrite Hmm, Hrb.
Qed.

(** X6.  When [vfio_map_resources] has returned 0 on a device whose
    descriptors were zeroed but for the MSI-X marks, and no BAR with the
    table is a memory BAR of unaligned length, [vfio_unmap_resources]
    munmaps exactly the mappings that were made, each once, with the
    address mmap returned and the length it was asked for, in the order
    they were made, and frees exactly the ram blocks that were
    allocated for them. *)
Theorem unmap_releases_what_map_mapped v0 v' :
  pristine v0 -> no_slow_table v0 ->
  map_resources v0 = Done v' ->
  munmaps (vfio_unmap_resources v') = map mm_key (mmaps v') /\
  ram_frees (vfio_unmap_resources v') = map rb_handle (ram_blocks v').
Proof.
  intros Hp Hns Hrun.
  destruct (released_inv_run v0 v' Hp Hns Hrun)
    as (j & Hj & Hl & Hrest & Hmm & Hrb).
  assert (forall k, (PCI_ROM_SLOT <= k)%nat -> unmap_slot (get_res v' k) = [])
    as Hnil.
  { intros k Hk. apply unmap_slot_invalid. unfold get_res.
    rewrite lookup_ge_None_2 by lia. done. }
  unfold vfio_unmap_resources.
  rewrite unmap_loop_munmaps, unmap_loop_ram_frees, Hmm, Hrb.
  split; symmetry; apply flat_map_seq_tail; try done;
    intros k Hk; by rewrite Hnil.
Qed.

(** *** 64-bit memory BARs *)

(** BAR [j] is implemented and its register reads as a 64-bit memory
    BAR. *)
Definition mem64 (j : nat) : Prop :=
  exists len bar,
    vfio_get_bar_len j = Some len /\ len <> 0 /\
    pread_bar (bar_reg_offset j) = Some bar /\
    Z.land bar PCI_BASE_ADDRESS_SPACE = PCI_BASE_ADDRESS_SPACE_MEMORY /\
    Z.land bar PCI_BASE_ADDRESS_MEM_TYPE_64 <> 0.

(** The loop invariant: every registration is of a slot before [i], and
    the slot after a registered 64-bit memory BAR is before [i] too, is
    as it was, and is not registered. *)
Definition wide_inv (v0 : VFIODevice) (i : nat) (v : VFIODevice) : Prop :=
  (forall k, (i <= k)%nat -> resources v !! k = resources v0 !! k) /\
  (forall r, In r (registered v) ->
     (reg_bar r < i)%nat /\
     (mem64 (reg_bar r) ->
        (S (reg_bar r) < i)%nat /\
        resources v !! S (reg_bar r) = resources v0 !! S (reg_bar r))) /\
  (forall r r', In r (registered v) -> In r' (registered v) ->
     mem64 (reg_bar r) -> reg_bar r' <> S (reg_bar r)).

Lemma part_frame i k name len offset v v2 :
  part i k name len offset v = Mapped v2 ->
  (forall j, j <> i -> resources v2 !! j = resources v !! j) /\
  registered v2 = registered v.
Proof.
  unfold map_part. destruct (do_mmap len offset) as [p|]; [|done].
  intros [= <-]. split; [|done]. intros j Hj. by rewrite lookup_upd_res_ne.
Qed.

Lemma direct_frame i len v v2 :
  direct i len v = Mapped v2 ->
  (forall j, j <> i -> resources v2 !! j = resources v !! j) /\
  registered v2 = registered v.
Proof.
  unfold map_direct. destruct (msix (get_res v i)).
  - destruct (negb (msix_offset (get_res v i) =? 0)).
    + destruct (part i 0 _ _ _ v) as [v1|v1] eqn:Hp1; [|done].
      destruct (part_frame _ _ _ _ _ _ _ Hp1) as [Hres1 Hreg1].
      destruct (len >? _).
      * intros Hp2. destruct (part_frame _ _ _ _ _ _ _ Hp2) as [Hres2 Hreg2].
        split; [|congruence]. intros j Hj. by rewrite Hres2, Hres1.
      * by intros [= <-].
    + destruct (len >? _).
      * apply part_frame.
      * by intros [= <-].
  - apply part_frame.
Qed.

Lemma wide_step_plain v0 i v v3 :
  wide_inv v0 i v ->
  (forall k, k <> i -> resources v3 !! k = resources v !! k) ->
  registered v3 = registered v ->
  wide_inv v0 (S i) v3.
Proof.
  intros (Hrest & Hreg & Hsep) Hother Hsame.
  split; [intros k Hk; rewrite Hother, Hrest by lia; done|].
  rewrite Hsame. split; [|done].
  intros r Hr. destruct (Hreg r Hr) as [Hlt Hw]. split; [lia|].
  intros H64. destruct (Hw H64) as [Hlt' Heq]. split; [lia|].
  rewrite Hother by lia. done.
Qed.

Lemma wide_step_register v0 i j v v3 rnew :
  wide_inv v0 i v -> (S i <= j)%nat -> (mem64 i -> j = S (S i)) ->
  (forall k, k <> i -> resources v3 !! k = resources v !! k) ->
  registered v3 = registered v ++ [rnew] -> reg_bar rnew = i ->
  wide_inv v0 j v3.
Proof.
  intros (Hrest & Hreg & Hsep) Hj H64j Hother Hnew Hbar.
  split; [intros k Hk; rewrite Hother, Hrest by lia; done|].
  rewrite Hnew. split.
  - intros r [Hr|[<-|[]]]%in_app_or.
    + destruct (Hreg r Hr) as [Hlt Hw]. split; [lia|].
      intros H64. destruct (Hw H64) as [Hlt' Heq]. split; [lia|].
      rewrite Hother by lia. done.
    + rewrite Hbar. split; [lia|]. intros H64. rewrite (H64j H64).
      split; [lia|]. rewrite Hother, Hrest by lia. done.
  - intros r r' [Hr|[<-|[]]]%in_app_or [Hr'|[<-|[]]]%in_app_or H64.
    + by apply Hsep.
    + rewrite Hbar. destruct (Hreg r Hr) as [_ Hw].
      destruct (Hw H64) as [Hlt _]. lia.
    + rewrite Hbar. destruct (Hreg r' Hr') as [Hlt _]. lia.
    + lia.
Qed.

Lemma mem64_next_slot i bar :
  pread_bar (bar_reg_offset i) = Some bar ->
  mem64 i -> next_slot i bar = S (S i).
Proof.
  intros Hbar (len' & bar' & _ & _ & Hbar' & _ & H64).
  assert (bar' = bar) as -> by congruence.
  unfold next_slot. by destruct (Z.eqb_spec (Z.land bar PCI_BASE_ADDRESS_MEM_TYPE_64) 0).
Qed.

Lemma wide_inv_run v0 v' :
  registered v0 = [] ->
  map_resources v0 = Done v' ->
  exists j, (PCI_ROM_SLOT <= j)%nat /\ wide_inv v0 j v'.
Proof.
  intros Hnone. unfold vfio_map_resources.
  apply (loop_done_ind (wide_inv v0)).
  - intros i v Hi Hinv Hlen. apply (wide_step_plain v0 i v); [done| |done].
    intros k Hk. by apply lookup_upd_res_ne.
  - intros i v len bar v2 Hi Hinv Hlen Hnz Hbar Hsp Hal Hd.
    destruct (direct_frame _ _ _ _ Hd) as [Hres Hreg].
    eapply (wide_step_register v0 i _ v); [done|apply next_slot_ge| | | |].
    + by apply mem64_next_slot.
    + intros k Hk. unfold after_register.
      rewrite lookup_upd_res_ne by done. cbn [pci_register_bar resources].
      rewrite Hres by done. unfold after_skip.
      by rewrite !lookup_upd_res_ne.
    + unfold after_register. cbn [upd_res pci_register_bar registered].
      rewrite Hreg. done.
    + done.
  - intros i v len bar Hi Hinv Hlen Hnz Hbar Hsp Hal.
    eapply (wide_step_register v0 i _ v); [done|apply next_slot_ge| | | |].
    + by apply mem64_next_slot.
    + intros k Hk. unfold after_slow, after_register, after_skip.
      rewrite lookup_upd_res_ne by done. cbn [pci_register_bar resources].
      by rewrite !lookup_upd_res_ne.
    + done.
    + done.
  - intros i v len bar Hi Hinv Hlen Hnz Hbar Hsp.
    eapply (wide_step_register v0 i (S i) v); [done|lia| | | |].
    + intros (len' & bar' & _ & _ & Hbar' & Hsp' & _).
      assert (bar' = bar) as -> by congruence.
      rewrite Hsp in Hsp'. discriminate Hsp'.
    + intros k Hk. unfold after_io, after_register, after_skip.
      rewrite lookup_upd_res_ne by done. cbn [pci_register_bar resources].
      by rewrite !lookup_upd_res_ne.
    + done.
    + done.
  - split; [done|]. rewrite Hnone. split; [by intros r []|by intros r r' []].
Qed.

(** X7.  A 64-bit memory BAR takes two slots.  When
    [vfio_map_resources] has returned 0, for every BAR it registered
    whose register reads as a 64-bit memory BAR, the slot after it was
    not registered with the PCI core and its descriptor is as it was
    before the call: the loop stepped over it. *)
Theorem wide_bar_takes_next_slot v0 v' r :
  registered v0 = [] ->
  map_resources v0 = Done v' ->
  In r (registered v') -> mem64 (reg_bar r) ->
  resources v' !! S (reg_bar r) = resources v0 !! S (reg_bar r) /\
  forall r', In r' (registered v') -> reg_bar r' <> S (reg_bar r).
Proof.
  intros Hnone Hrun Hr H64.
  destruct (wide_inv_run v0 v' Hnone Hrun) as (j & _ & _ & Hreg & Hsep).
  split.
  - by apply (Hreg r Hr).
  - intros r' Hr'. by apply Hsep.
Qed.

End Mapper.

Section Runs.

Import ResourcesExamples UnmapExamples.

Lemma unmap_releases_what_map_mapped_witness :
  exists v',
    map_resources_of 0x4000 (fresh_device 7 (Some (0%nat, 0x1000))) = Done v' /\
    munmaps (vfio_unmap_resources v') = map mm_key (mmaps v') /\
    ram_frees (vfio_unmap_resources v') = map (rb_handle ram_handle) (ram_blocks v').
Proof.
  eexists. split; [vm_compute; reflexivity|].
  apply (unmap_releases_what_map_mapped (bar_len 0x4000) bar_reg mmap_at
           ram_handle io_handle space_to_offset 0
           (fresh_device 7 (Some (0%nat, 0x1000)))).
  - split; [reflexivity|]. do 3 (split; [reflexivity|]).
    intros r Hr. vm_compute in Hr.
    repeat (destruct Hr as [<-|Hr]; [by vm_compute|]). destruct Hr.
  - intros i r len bar Hr Hm Hl _ _.
    destruct i as [|i]; [by injection Hl as <-|].
    vm_compute in Hr.
    do 5 (destruct i as [|i]; [injection Hr as <-; discriminate Hm|]).
    discriminate Hr.
  - vm_compute. reflexivity.
Defined.

Lemma wide_bar_takes_next_slot_witness :
  let v0 := fresh_device 7 None in
  let r := {| reg_bar := 0; reg_size := 0x4000;
              reg_type := PCI_BASE_ADDRESS_SPACE_MEMORY;
              reg_map := vfio_iomem_map_cb |} in
  exists v',
    map_resources64_of 0x4000 v0 = Done v' /\
    resources v' !! S (reg_bar r) = resources v0 !! S (reg_bar r) /\
    forall r', In r' (registered v') -> reg_bar r' <> S (reg_bar r).
Proof.
  intros v0 r. eexists. split; [vm_compute; reflexivity|].
  apply (wide_bar_takes_next_slot (bar_len 0x4000) bar_reg64 mmap_at
           ram_handle io_handle space_to_offset 0 v0).
  - reflexivity.
  - vm_compute. reflexivity.
  - left. reflexivity.
  - exists 0x4000, PCI_BASE_ADDRESS_MEM_TYPE_64.
    split; [reflexivity|]. split; [lia|]. split; [reflexivity|].
    split; [reflexivity|]. vm_compute. discriminate.
Defined.

End Runs.

End UnmapFacts.

(** ** Placing a BAR in guest-physical space *)

Module IomemFacts.
Import PCI Resources.

(** What part [k] of a BAR is backed by: the read/write callbacks of a
    slow BAR, the ram block of the part's mmap otherwise. *)
Definition backing (res : PCIResource) (k : nat) : mem_target :=
  if slow res then IoMemory (io_mem res)
  else RamBlock (match k with
                 | O => fst (memory_index res)
                 | _ => snd (memory_index res)
                 end).

(** What serves offset [d] of the BAR once the guest has placed it. *)
Definition serves (res : PCIResource) (d : Z) : mem_target :=
  if msix res then
    if d <? msix_offset res then backing res 0
    else if d <? msix_offset res + MSIX_PAGE_SIZE then MsixMmio
    else backing res 1
  else backing res 0.

Lemma phys_lookup_snoc pm r a :
  phys_lookup (pm ++ [r]) a =
    if in_region a r then Some r else phys_lookup pm a.
Proof. unfold phys_lookup. by rewrite fold_left_app. Qed.

Lemma uint64_small z : 0 <= z < 2 ^ 64 -> uint64 z = z.
Proof. intros H. unfold uint64. apply Z.mod_small. lia. Qed.

(** X8.  Once [vfio_iomem_map] has placed BAR [i] at [e_phys], every
    guest-physical address of the BAR is served: in a BAR that carries
    the MSI-X table, by the table emulation within the table page and by
    the backing of the part below or above it elsewhere; in any other
    BAR, by its one backing.  The backing is the trapped read/write
    callbacks for a slow BAR and the ram block of the mmap otherwise, so
    no address of the table page ever reaches the device directly. *)
Theorem iomem_map_serves_every_address v i res e_phys e_size a :
  resources v !! i = Some res ->
  0 <= msix_offset res -> msix_offset res + MSIX_PAGE_SIZE < 2 ^ 32 ->
  0 <= e_phys -> e_phys + e_size <= 2 ^ 64 ->
  e_phys <= a < e_phys + e_size ->
  exists r,
    phys_lookup (phys_map (vfio_iomem_map i e_phys e_size v)) a = Some r /\
    pr_target r = serves res (a - e_phys).
Proof.
  intros Hres Hoff Hwrap Hphys Hend Ha.
  assert (MSIX_PAGE_SIZE = 4096) as Hpage by reflexivity.
  unfold vfio_iomem_map, serves.
  rewrite (ResourcesFacts.get_res_lookup _ i (set_e e_phys e_size res))
    by (by apply ResourcesFacts.lookup_upd_res).
  cbn [set_e msix msix_offset slow io_mem memory_index].
  fold (backing res 0). fold (backing res 1).
  rewrite (uint32_small (msix_offset res + MSIX_PAGE_SIZE)) by lia.
  destruct (msix res).
  - unfold msix_mmio_map.
    set (v1 := if msix_offset res >? 0 then _ else _).
    assert (get_res v1 i = set_e e_phys e_size res) as Hg.
    { apply ResourcesFacts.get_res_lookup. unfold v1.
      destruct (msix_offset res >? 0); cbn;
        by rewrite list_lookup_alter_eq, Hres. }
    rewrite Hg. cbn [set_e msix_offset].
    destruct (Z.gtb_spec e_size (msix_offset res + MSIX_PAGE_SIZE)) as [Hgt|Hle].
    + cbn [cpu_register_physical_memory_offset cpu_register_physical_memory
           phys_map].
      rewrite !phys_lookup_snoc.
      rewrite !uint64_small by lia.
      unfold in_region at 1. cbn [pr_start pr_size].
      destruct (Z.ltb_spec (a - e_phys) (msix_offset res)) as [Hlo|Hlo].
      * destruct (Z.leb_spec (e_phys + (msix_offset res + MSIX_PAGE_SIZE)) a);
          [lia|]. cbn [andb].
        unfold in_region at 1. cbn [pr_start pr_size].
        destruct (Z.leb_spec (e_phys + msix_offset res) a); [lia|]. cbn [andb].
        unfold v1. destruct (Z.gtb_spec (msix_offset res) 0); [|lia].
        cbn [cpu_register_physical_memory_offset cpu_register_physical_memory
             phys_map].
        rewrite phys_lookup_snoc. unfold in_region. cbn [pr_start pr_size].
        destruct (Z.leb_spec e_phys a); [|lia].
        destruct (Z.ltb_spec a (e_phys + msix_offset res)); [|lia].
        by eexists.
      * destruct (Z.ltb_spec (a - e_phys) (msix_offset res + MSIX_PAGE_SIZE))
          as [Hmid|Hmid].
        -- destruct (Z.leb_spec (e_phys + (msix_offset res + MSIX_PAGE_SIZE)) a);
             [lia|]. cbn [andb].
           unfold in_region at 1. cbn [pr_start pr_size].
           destruct (Z.leb_spec (e_phys + msix_offset res) a); [|lia].
           destruct (Z.ltb_spec a (e_phys + msix_offset res + MSIX_PAGE_SIZE));
             [|lia].
           by eexists.
        -- destruct (Z.leb_spec (e_phys + (msix_offset res + MSIX_PAGE_SIZE)) a);
             [|lia].
           destruct (Z.ltb_spec a
                       (e_phys + (msix_offset res + MSIX_PAGE_SIZE) +
                        (e_size - (msix_offset res + MSIX_PAGE_SIZE))));
             [|lia].
           by eexists.
    + cbn [cpu_register_physical_memory_offset cpu_register_physical_memory
           phys_map].
      rewrite phys_lookup_snoc.
      unfold in_region at 1. cbn [pr_start pr_size].
      destruct (Z.ltb_spec (a - e_phys) (msix_offset res)) as [Hlo|Hlo].
      * destruct (Z.leb_spec (e_phys + msix_offset res) a); [lia|]. cbn [andb].
        unfold v1. destruct (Z.gtb_spec (msix_offset res) 0); [|lia].
        cbn [cpu_register_physical_memory_offset cpu_register_physical_memory
             phys_map].
        rewrite phys_lookup_snoc. unfold in_region. cbn [pr_start pr_size].
        destruct (Z.leb_spec e_phys a); [|lia].
        destruct (Z.ltb_spec a (e_phys + msix_offset res)); [|lia].
        by eexists.
      * destruct (Z.ltb_spec (a - e_phys) (msix_offset res + MSIX_PAGE_SIZE));
          [|lia].
        destruct (Z.leb_spec (e_phys + msix_offset res) a); [|lia].
        destruct (Z.ltb_spec a (e_phys + msix_offset res + MSIX_PAGE_SIZE));
          [|lia].
        by eexists.
  - cbn [cpu_register_physical_memory_offset cpu_register_physical_memory
         upd_res phys_map].
    rewrite phys_lookup_snoc. unfold in_region. cbn [pr_start pr_size].
    destruct (Z.leb_spec e_phys a); [|lia].
    destruct (Z.ltb_spec a (e_phys + e_size)); [|lia].
    by eexists.
Qed.

Lemma iomem_map_serves_every_address_witness :
  let v := fresh_device 7 (Some (0%nat, 0x1000)) in
  exists r,
    phys_lookup (phys_map (vfio_iomem_map 0 0xfe000000 0x4000 v)) 0xfe001800
      = Some r /\
    pr_target r = MsixMmio.
Proof.
  intros v.
  apply (iomem_map_serves_every_address v 0 (get_res v 0)
           0xfe000000 0x4000 0xfe001800).
  - reflexivity.
  - vm_compute. discriminate.
  - reflexivity.
  - lia.
  - lia.
  - lia.
Defined.

End IomemFacts.

(** ** The INTx line *)

Module IntxLineFacts.
Import Bridge IntxLine.

Definition level_of (b : bool) : Z := if b then 1 else 0.

Definition registered_on (x : INTx) : list Z :=
  if irq x <? 0 then [] else [irq x].

Lemma level_after_app l a b :
  level_after l (a ++ b) = level_after (level_after l a) b.
Proof. apply fold_left_app. Qed.

Lemma eoi_gsis_app gs a b :
  eoi_gsis gs (a ++ b) = eoi_gsis (eoi_gsis gs a) b.
Proof. apply fold_left_app. Qed.

Lemma handle_all_cons e es x :
  handle_all (e :: es) x =
    (fst (handle_all es (fst (handle e x))),
     snd (handle e x) ++ snd (handle_all es (fst (handle e x)))).
Proof.
  cbn [handle_all]. destruct (handle e x) as [x1 acts]. cbn [fst snd].
  by destruct (handle_all es x1).
Qed.

(** One handler: the line goes where [pending] goes, an unmask takes a
    pending interrupt, and only a signalled eventfd makes one pending. *)
Lemma handle_step e x :
  let '(x', acts) := handle e x in
  level_after (level_of (pending x)) acts = level_of (pending x') /\
  (length (List.filter is_unmask acts) + Nat.b2n (pending x') <=
     Nat.b2n (is_fired e) + Nat.b2n (pending x))%nat /\
  pin x' = pin x /\ intx_fd x' = intx_fd x.
Proof.
  destruct e as [[|]| |route]; cbn.
  - repeat split. destruct (pending x); cbn; lia.
  - by repeat split.
  - unfold vfio_eoi. destruct (pending x) eqn:Hp; cbn; rewrite ?Hp; by repeat split.
  - unfold vfio_update_irq. destruct (_ =? irq x); [by repeat split|].
    destruct (_ <? 0); [cbn; repeat split; lia|].
    unfold vfio_eoi. cbn.
    destruct (pending x) eqn:Hp; cbn; rewrite ?Hp; repeat split; cbn; lia.
Qed.

(** X9.  Over every sequence of eventfd wake-ups, EOIs and interrupt
    re-routings, the INTx handlers keep the interrupt line in step with
    [intx.pending]: a line that was asserted exactly when an interrupt
    was pending is so afterwards.  The physical interrupt is never
    unmasked more often than an interrupt was delivered: the number of
    VFIO_UNMASK_IRQ calls, plus one if an interrupt is still pending, is
    at most the number of signalled wake-ups, plus one if an interrupt
    was pending at the start.  The pin and the eventfd never change. *)
Theorem intx_line_follows_pending (es : list line_event) (x : INTx) :
  let '(x', acts) := handle_all es x in
  level_after (level_of (pending x)) acts = level_of (pending x') /\
  (length (List.filter is_unmask acts) + Nat.b2n (pending x') <=
     length (List.filter is_fired es) + Nat.b2n (pending x))%nat /\
  pin x' = pin x /\ intx_fd x' = intx_fd x.
Proof.
  revert x. induction es as [|e es IH]; intros x.
  - cbn. repeat split. lia.
  - rewrite handle_all_cons.
    pose proof (handle_step e x) as Hstep.
    destruct (handle e x) as [x1 acts1]. cbn [fst snd].
    specialize (IH x1). destruct (handle_all es x1) as [x2 acts2].
    cbn [fst snd].
    destruct Hstep as (Hl1 & Hc1 & Hp1 & Hf1).
    destruct IH as (Hl2 & Hc2 & Hp2 & Hf2).
    rewrite level_after_app, Hl1, Hl2, List.filter_app, length_app.
    split; [done|]. split; [|split; congruence].
    cbn [List.filter]. destruct (is_fired e); cbn [length Nat.b2n] in *; lia.
Qed.

Lemma eoi_step e x :
  eoi_gsis (registered_on x) (snd (handle e x)) =
    registered_on (fst (handle e x)).
Proof.
  destruct e as [[|]| |route]; cbn; try done.
  - unfold vfio_eoi. by destruct (pending x).
  - unfold vfio_update_irq.
    destruct (Z.eqb_spec (route (pin x)) (irq x)) as [Heq|Hne]; [done|].
    assert (List.filter (fun h => negb (h =? irq x)) (registered_on x) = [])
      as Hrm.
    { unfold registered_on. destruct (irq x <? 0); [done|]. cbn.
      by rewrite Z.eqb_refl. }
    destruct (Z.ltb_spec (route (pin x)) 0) as [Hneg|Hpos].
    + cbn. rewrite Hrm. unfold registered_on. cbn.
      by destruct (Z.ltb_spec (route (pin x)) 0); [|lia].
    + unfold vfio_eoi. cbn [set_irq pending pin].
      destruct (pending x); cbn; rewrite Hrm; unfold registered_on; cbn;
        by destruct (Z.ltb_spec (route (pin x)) 0); [lia|].
Qed.

(** X10.  The EOI notifier follows the routing of the pin: when it is
    registered on the interrupt line in [intx.irq] and on no other (on
    none while that line is negative), it is so again after every
    sequence of wake-ups, EOIs and re-routings. *)
Theorem eoi_notifier_follows_routing (es : list line_event) (x : INTx)
    (gsis : list Z) :
  gsis = registered_on x ->
  eoi_gsis gsis (snd (handle_all es x)) = registered_on (fst (handle_all es x)).
Proof.
  intros ->. revert x. induction es as [|e es IH]; intros x; [done|].
  rewrite handle_all_cons. cbn [fst snd].
  by rewrite eoi_gsis_app, eoi_step, IH.
Qed.

Lemma eoi_notifier_follows_routing_witness :
  eoi_gsis [11] (snd (handle_all ex_events ex_intx)) = [10].
Proof.
  apply (eoi_notifier_follows_routing ex_events ex_intx [11]). reflexivity.
Defined.

End IntxLineFacts.

(** ** The MSI and MSI-X vectors *)

Module MsiFacts.
Import Bridge.

Section Device.

Context {K : Type}.
Variable pread_config : K -> Z -> Z -> option Z.
Variable ioctl_set_irq_eventfd : K -> Z -> K * bool.
Variable ioctl_set_msi_eventfds : K -> bool -> list Z -> K * bool.
Variable ioctl_unmask_irq : K -> K.
Variable eventfd : K -> K * option Z.
Variable stale_fd : nat -> Z.
Variable pci_get_irq : PCIDevice -> Z -> Z.
Variable msi_nr_vectors_allocated : PCIDevice -> Z.

Local Abbreviation disable_interrupts :=
  (vfio_disable_interrupts pread_config ioctl_set_irq_eventfd
     ioctl_set_msi_eventfds ioctl_unmask_irq eventfd pci_get_irq).
Local Abbreviation enable_msi :=
  (vfio_enable_msi pread_config ioctl_set_irq_eventfd
     ioctl_set_msi_eventfds ioctl_unmask_irq eventfd stale_fd pci_get_irq
     msi_nr_vectors_allocated).
Local Abbreviation disable_msi :=
  (vfio_disable_msi pread_config ioctl_set_irq_eventfd
     ioctl_set_msi_eventfds ioctl_unmask_irq eventfd pci_get_irq).
Local Abbreviation prepare :=
  (msi_prepare eventfd stale_fd msi_nr_vectors_allocated).
Local Abbreviation setup_loop := (msi_setup_loop eventfd stale_fd).
Local Abbreviation vector_setup := (msi_vector_setup eventfd stale_fd).

(** Every vector carries its own number. *)
Definition numbered (v : VFIODevice K) : Prop :=
  forall i vec, msi_vectors v !! i = Some vec -> mv_vector vec = Z.of_nat i.

(** As long as the fds of the vectors differ, every vector has its own
    handler. *)
Definition routed (v : VFIODevice K) : Prop :=
  NoDup (map mv_fd (msi_vectors v)) ->
  forall i vec, msi_vectors v !! i = Some vec ->
    fd_handlers v !! mv_fd vec = Some (vfio_msi_interrupt i).

Lemma vector_setup_vectors msix i (v : VFIODevice K) :
  exists fd,
    msi_vectors (vector_setup msix i v) =
      msi_vectors v ++ [{| mv_fd := fd; mv_vector := Z.of_nat i |}] /\
    fd_handlers (vector_setup msix i v) =
      <[fd := vfio_msi_interrupt i]> (fd_handlers v).
Proof.
  unfold msi_vector_setup. destruct (eventfd (kernel v)) as [k [fd|]];
    destruct msix; cbn; eauto.
Qed.

Lemma vector_setup_numbered msix i (v : VFIODevice K) :
  length (msi_vectors v) = i -> numbered v ->
  numbered (vector_setup msix i v).
Proof.
  intros Hlen Hinv. unfold numbered.
  destruct (vector_setup_vectors msix i v) as (fd & -> & _).
  intros j vec Hj.
  apply lookup_app_Some in Hj as [Hj|[Hge Hj]]; [by apply Hinv|].
  rewrite Hlen in *.
  destruct (j - i)%nat as [|d] eqn:Hd; [|by destruct d].
  injection Hj as <-. cbn. f_equal. lia.
Qed.

Lemma vector_setup_routed msix i (v : VFIODevice K) :
  length (msi_vectors v) = i -> routed v ->
  routed (vector_setup msix i v).
Proof.
  intros Hlen Hinv. unfold routed.
  destruct (vector_setup_vectors msix i v) as (fd & -> & ->).
  rewrite map_app. cbn [map].
  intros (Hnd & Hfresh & _)%NoDup_app j vec Hj.
  apply lookup_app_Some in Hj as [Hj|[Hge Hj]].
  - rewrite lookup_insert_ne; [by apply Hinv|]. intros Heq.
    apply (Hfresh fd); [|by left].
    apply list_elem_of_fmap. exists vec. split; [done|].
    by apply list_elem_of_lookup_2 with j.
  - rewrite Hlen in *.
    destruct (j - i)%nat as [|d] eqn:Hd; [|by destruct d].
    injection Hj as <-. cbn. assert (j = i) as -> by lia.
    by rewrite lookup_insert_eq.
Qed.

Lemma setup_loop_routed msix n i (v : VFIODevice K) :
  length (msi_vectors v) = i -> numbered v -> routed v ->
  numbered (setup_loop msix n i v) /\ routed (setup_loop msix n i v).
Proof.
  revert i v. induction n as [|n IH]; intros i v Hlen Hnum Hinv; [done|].
  cbn [msi_setup_loop]. apply IH.
  - destruct (vector_setup_vectors msix i v) as (fd & -> & _).
    rewrite length_app. cbn. lia.
  - by apply vector_setup_numbered.
  - by apply vector_setup_routed.
Qed.

(** X11.  With two levels of fuel [vfio_enable_msi] returns, and then
    the device has as many vectors as it counts and vector [i] carries
    the number [i]; and, as long as the eventfds of the vectors are all
    different, the main loop calls [vfio_msi_interrupt] with vector [i]
    when the fd of vector [i] becomes readable. *)
Theorem enable_msi_routes_each_vector fuel msix (v : VFIODevice K) :
  (2 <= fuel)%nat ->
  exists v',
    enable_msi fuel msix v = Some v' /\
    length (msi_vectors v') = Z.to_nat (nr_vectors v') /\
    (forall i vec, msi_vectors v' !! i = Some vec ->
       mv_vector vec = Z.of_nat i) /\
    (NoDup (map mv_fd (msi_vectors v')) ->
     forall i vec, msi_vectors v' !! i = Some vec ->
       fd_handlers v' !! mv_fd vec = Some (vfio_msi_interrupt i)).
Proof.
  intros Hfuel.
  destruct (BridgeFacts.enable_msi_returns pread_config ioctl_set_irq_eventfd
              ioctl_set_msi_eventfds ioctl_unmask_irq eventfd stale_fd
              pci_get_irq msi_nr_vectors_allocated fuel msix v Hfuel)
    as (v' & Hrun & _).
  exists v'. split; [done|]. revert Hrun.
  unfold vfio_enable_msi.
  destruct (disable_interrupts fuel v) as [s|]; [|done].
  destruct (ioctl_set_msi_eventfds _ _ _) as [k ok].
  destruct ok; cbn [negb].
  - intros [= <-]. cbn [set_interrupt set_kernel msi_vectors fd_handlers
                        nr_vectors].
    unfold msi_prepare.
    set (n := if msix then _ else _).
    set (s0 := qemu_malloc_vectors (set_vectors n [] s)).
    destruct (BridgeFacts.setup_loop_frame eventfd stale_fd msix (Z.to_nat n) 0
                s0) as (_ & Hn & _ & Hlen).
    split; [by rewrite Hlen, Hn|].
    apply (setup_loop_routed msix (Z.to_nat n) 0 s0); [done| |].
    + by intros i vec Hi.
    + by intros _ i vec Hi.
  - intros [= <-]. split; [done|]. split; [by intros i vec Hi|].
    by intros _ i vec Hi.
Qed.

(** *** Back to INTx *)

Local Abbreviation enable_intx_with :=
  (vfio_enable_intx_with pread_config ioctl_set_irq_eventfd ioctl_unmask_irq
     eventfd pci_get_irq).





End Device.

Section Runs.

Import BridgeExamples MsiExamples.

Lemma enable_msi_routes_each_vector_witness :
  exists v',
    ex_enable_four 2 false ex_device = Some v' /\
    length (msi_vectors v') = Z.to_nat (nr_vectors v') /\
    (forall i vec, msi_vectors v' !! i = Some vec ->
       mv_vector vec = Z.of_nat i) /\
    (NoDup (map mv_fd (msi_vectors v')) ->
     forall i vec, msi_vectors v' !! i = Some vec ->
       fd_handlers v' !! mv_fd vec = Some (vfio_msi_interrupt i)).
Proof.
  apply (enable_msi_routes_each_vector ex_pread_config ex_set_irq_eventfd
           ex_accept_msi_eventfds ex_unmask_irq ex_eventfd ex_stale_fd
           ex_get_irq ex_four_vectors 2 false ex_device).
  lia.
Defined.

(** Four MSI vectors on the fds 100 to 103: the fd of vector 2 has the
    handler of vector 2. *)
Example four_vectors_routed :
  match ex_enable_four 2 false ex_device with
  | Some v' =>
      nr_vectors v' = 4 /\ map mv_fd (msi_vectors v') = [100; 101; 102; 103] /\
      map mv_vector (msi_vectors v') = [0; 1; 2; 3] /\
      fd_handlers v' !! 102 = Some (vfio_msi_interrupt 2)
  | None => False
  end.
Proof. vm_compute. done. Qed.


(** The kernel refuses the MSI-X vectors: [vfio_enable_msi] leaves the
    pointer on the block it has freed, and [vfio_disable_msi] called
    next frees that block again. *)
Example disable_after_refused_enable_frees_twice :
  match ex_enable_msi 2 true ex_device with
  | Some v1 =>
      vectors_block v1 = Dangling /\ freed_twice v1 = false /\
      match ex_disable_msi 2 true v1 with
      | Some v2 => freed_twice v2 = true
      | None => False
      end
  | None => False
  end.
Proof. vm_compute. done. Qed.

End Runs.

End MsiFacts.

(** ** Interrupt setup *)

Module SetupMsiFacts.
Import CapScan Resources SetupMsi.

Lemma uint16_range z : 0 <= uint16 z < 2 ^ 16.
Proof. unfold uint16. apply Z.mod_pos_bound. lia. Qed.

Lemma uint32_range z : 0 <= uint32 z < 2 ^ 32.
Proof. unfold uint32. apply Z.mod_pos_bound. lia. Qed.

(** [1 << ((ctrl & PCI_MSI_FLAGS_QMASK) >> 1)]. *)
Lemma msi_entries_pow2 ctrl :
  exists k, 0 <= k <= 7 /\
    Z.shiftl 1 (Z.shiftr (Z.land ctrl PCI_MSI_FLAGS_QMASK) 1) = 2 ^ k.
Proof.
  exists (Z.shiftr (Z.land ctrl PCI_MSI_FLAGS_QMASK) 1).
  assert (Z.shiftr (Z.land ctrl PCI_MSI_FLAGS_QMASK) 1
          = Z.shiftr ctrl 1 mod 2 ^ 3) as ->.
  { rewrite Z.shiftr_land. change (Z.shiftr PCI_MSI_FLAGS_QMASK 1) with (Z.ones 3).
    by rewrite Z.land_ones. }
  pose proof (Z.mod_pos_bound (Z.shiftr ctrl 1) (2 ^ 3) ltac:(lia)) as Hk.
  split; [lia|]. rewrite Z.shiftl_1_l. done.
Qed.

(** [table & PCI_MSIX_BIR] and [table & ~PCI_MSIX_BIR]. *)
Lemma table_split table :
  0 <= table < 2 ^ 32 ->
  let bar := Z.land table PCI_MSIX_BIR in
  let offset := uint32 (Z.land table (Z.lnot PCI_MSIX_BIR)) in
  0 <= bar < 8 /\ bar + offset = table /\ offset mod 8 = 0 /\
  0 <= offset < 2 ^ 32.
Proof.
  intros Ht. cbv zeta. change PCI_MSIX_BIR with (Z.ones 3).
  rewrite Z.land_ones, <- Z.ldiff_land, Z.ldiff_ones_r by lia.
  rewrite Z.shiftr_div_pow2, Z.shiftl_mul_pow2 by lia.
  change (2 ^ 3) with 8.
  pose proof (Z.mod_pos_bound table 8 ltac:(lia)) as Hm.
  pose proof (Z.div_mod table 8 ltac:(lia)) as Hd.
  assert (0 <= table / 8) as Hq by (apply Z.div_pos; lia).
  rewrite (uint32_small (table / 8 * 8)) by lia.
  split; [done|]. split; [lia|]. split; [|lia].
  by rewrite Z.mod_mul.
Qed.

(** [(ctrl & PCI_MSIX_TABSIZE) + 1]. *)
Lemma tabsize_range ctrl : 1 <= Z.land ctrl PCI_MSIX_TABSIZE + 1 <= 2048.
Proof.
  change PCI_MSIX_TABSIZE with (Z.ones 11). rewrite Z.land_ones by lia.
  pose proof (Z.mod_pos_bound ctrl (2 ^ 11) ltac:(lia)). lia.
Qed.

Section Setup.

Variable pread_config16 : Z -> option Z.
Variable pread_config32 : Z -> option Z.
Variable vfio_get_bar_len : Z -> option Z.
Variable msi_init : config_image -> Z -> Z -> bool -> bool -> option config_image.
Variable msix_init : config_image -> Z -> Z -> Z -> option config_image.

Local Abbreviation msi_part := (setup_msi_cap pread_config16 msi_init).
Local Abbreviation msix_part :=
  (setup_msix_cap pread_config16 pread_config32 vfio_get_bar_len msix_init).
Local Abbreviation setup_msi :=
  (vfio_setup_msi pread_config16 pread_config32 vfio_get_bar_len msi_init
     msix_init).

(** What the MSI part leaves behind: nothing when the image has no MSI
    capability, one initialisation from the flags read through the
    channel when it has one. *)
Definition msi_set_up (v v' : VFIODevice) : Prop :=
  let pos := vfio_find_cap_offset (config v) PCI_CAP_ID_MSI in
  (pos = 0 /\ msi_inits v' = msi_inits v /\
   msi_cap_size v' = msi_cap_size v) \/
  (pos <> 0 /\
   exists raw call k,
     pread_config16 (pos + PCI_CAP_FLAGS) = Some raw /\
     msi_inits v' = msi_inits v ++ [call] /\
     mi_pos call = pos /\
     mi_64bit call = negb (Z.land (uint16 raw) PCI_MSI_FLAGS_64BIT =? 0) /\
     mi_maskbit call =
       negb (Z.land (uint16 raw) PCI_MSI_FLAGS_MASKBIT =? 0) /\
     k = Z.shiftr (Z.land (uint16 raw) PCI_MSI_FLAGS_QMASK) 1 /\
     0 <= k <= 7 /\ mi_entries call = 2 ^ k /\
     msi_cap_size v' =
       0xa + (if mi_maskbit call then 0xa else 0) +
       (if mi_64bit call then 0x4 else 0) /\
     In (msi_cap_size v') [0xa; 0xe; 0x14; 0x18]).

Lemma msi_part_set_up v v1 :
  msi_part v = Some v1 ->
  msi_set_up v v1 /\ dev v1 = dev v /\ msix_inits v1 = msix_inits v /\
  beyond v1 = beyond v.
Proof.
  unfold setup_msi_cap, msi_set_up.
  destruct (Z.eqb_spec (vfio_find_cap_offset (config v) PCI_CAP_ID_MSI) 0)
    as [Hz|Hnz].
  { intros [= <-]. split; [by left|done]. }
  destruct (pread_config16 _) as [ctrl|] eqn:Hread; [|done].
  destruct (msi_init _ _ _ _ _) as [image|]; [|done].
  intros [= <-]. split; [|done]. right. split; [done|].
  destruct (msi_entries_pow2 (uint16 ctrl)) as (k & Hk & Hpow).
  assert (k = Z.shiftr (Z.land (uint16 ctrl) PCI_MSI_FLAGS_QMASK) 1) as Hkq.
  { rewrite Z.shiftl_1_l in Hpow. symmetry.
    apply (Z.pow_inj_r 2); [lia| |lia|done].
    apply Z.shiftr_nonneg, Z.land_nonneg. right. done. }
  eexists ctrl, _, k. cbn. split; [done|]. split; [done|]. split; [done|].
  split; [done|]. split; [done|]. split; [done|]. split; [done|].
  split; [done|]. split; [done|].
  destruct (negb (Z.land (uint16 ctrl) PCI_MSI_FLAGS_MASKBIT =? 0)),
           (negb (Z.land (uint16 ctrl) PCI_MSI_FLAGS_64BIT =? 0)); cbn; auto.
Qed.

Lemma store_msix_frame bar offset v :
  msi_inits (store_msix bar offset v) = msi_inits v /\
  msi_cap_size (store_msix bar offset v) = msi_cap_size v /\
  msix_inits (store_msix bar offset v) = msix_inits v /\
  config (store_msix bar offset v) = config v.
Proof. unfold store_msix. by destruct (_ <? _)%nat. Qed.

Lemma msix_part_frame v v' :
  msix_part v = Done v' ->
  msi_inits v' = msi_inits v /\ msi_cap_size v' = msi_cap_size v.
Proof.
  unfold setup_msix_cap. destruct (_ =? 0); [by intros [= <-]|].
  destruct (pread_config16 _) as [ctrl|]; [|done].
  destruct (pread_config32 _) as [table|]; [|done].
  destruct (vfio_get_bar_len _) as [len|]; [|done].
  destruct (msix_init _ _ _ _) as [image|]; [|done].
  intros [= <-]. cbn.
  by destruct (store_msix_frame (Z.land (uint32 table) PCI_MSIX_BIR)
       (uint32 (Z.land (uint32 table) (Z.lnot PCI_MSIX_BIR))) v)
    as (-> & -> & _).
Qed.

(** X13.  When [vfio_setup_msi] has returned 0 and the device has an
    MSI capability, the emulated capability was initialised once, at
    the position the scanner found and from the flags read through the
    channel there, with a vector count that is a power of two between 1
    and 128; the capability size recorded for the config-space proxy is
    10 bytes, plus 10 with per-vector masking, plus 4 with 64-bit
    addresses, so one of 10, 14, 20 and 24.  Without an MSI capability
    nothing is initialised and the size stays. *)
Theorem setup_msi_capability_size v v' :
  setup_msi v = Done v' -> msi_set_up v v'.
Proof.
  unfold vfio_setup_msi.
  destruct (msi_part v) as [v1|] eqn:Hmsi; [|done].
  destruct (msi_part_set_up v v1 Hmsi) as [Hset _].
  intros [Hi Hs]%msix_part_frame.
  unfold msi_set_up in *. rewrite Hi, Hs. exact Hset.
Qed.

(** What the MSI-X part leaves behind, from the device [v1] the MSI
    part has left: nothing when the image has no MSI-X capability;
    otherwise the mark stored through [resources[bar]] for the BAR
    indicator of the table register, which changes that descriptor when
    the indicator is below 6 and none of the six when it is 6 or 7, and
    one initialisation of the emulated table. *)
Definition table_marked (v1 v' : VFIODevice) : Prop :=
  let pos := vfio_find_cap_offset (config v1) PCI_CAP_ID_MSIX in
  (pos = 0 /\ v' = v1) \/
  (pos <> 0 /\
   exists raw16 raw call,
     pread_config16 (pos + PCI_CAP_FLAGS) = Some raw16 /\
     pread_config32 (pos + PCI_MSIX_TABLE) = Some raw /\
     let table := uint32 raw in
     let bar := Z.land table PCI_MSIX_BIR in
     let offset := uint32 (Z.land table (Z.lnot PCI_MSIX_BIR)) in
     0 <= bar < 8 /\ bar + offset = table /\ offset mod 8 = 0 /\
     (bar < Z.of_nat PCI_ROM_SLOT ->
        dev v' = upd_res (Z.to_nat bar) (set_msix offset) (dev v1) /\
        beyond v' = beyond v1) /\
     (Z.of_nat PCI_ROM_SLOT <= bar ->
        dev v' = dev v1 /\ beyond v' = beyond v1 ++ [(bar, offset)]) /\
     msix_inits v' = msix_inits v1 ++ [call] /\
     mx_bar call = bar /\ vfio_get_bar_len bar = Some (mx_len call) /\
     mx_entries call = Z.land (uint16 raw16) PCI_MSIX_TABSIZE + 1 /\
     1 <= mx_entries call <= 2048).

Lemma msix_part_marks v v' : msix_part v = Done v' -> table_marked v v'.
Proof.
  unfold setup_msix_cap, table_marked.
  destruct (Z.eqb_spec (vfio_find_cap_offset (config v) PCI_CAP_ID_MSIX) 0)
    as [Hz|Hnz]; [intros [= <-]; by left|].
  destruct (pread_config16 _) as [ctrl|] eqn:Hctrl; [|done].
  destruct (pread_config32 _) as [table|] eqn:Htable; [|done].
  pose proof (uint32_range table) as Ht.
  destruct (table_split (uint32 table) Ht) as (Hbar & Hsum & Hal & Hoff).
  destruct (vfio_get_bar_len _) as [len|] eqn:Hlen; [|done].
  destruct (msix_init _ _ _ _) as [image|]; [|done].
  intros [= <-]. right. split; [done|]. cbn.
  exists ctrl, table. eexists. split; [done|]. split; [done|].
  split; [done|]. split; [done|]. split; [done|].
  unfold store_msix.
  destruct (Nat.ltb_spec (Z.to_nat (Z.land (uint32 table) PCI_MSIX_BIR))
              PCI_ROM_SLOT) as [Hin|Hout]; cbn.
  - split; [done|]. split; [unfold PCI_ROM_SLOT in *; lia|].
    split; [done|]. split; [done|]. split; [done|]. split; [done|].
    apply tabsize_range.
  - split; [unfold PCI_ROM_SLOT in *; lia|]. split; [done|].
    split; [done|]. split; [done|]. split; [done|]. split; [done|].
    apply tabsize_range.
Qed.

(** X14.  When [vfio_setup_msi] has returned 0, the MSI part has left
    the BAR descriptors alone, and the MSI-X part has either found no
    MSI-X capability and changed nothing, or stored the mark of the
    table carrier through [resources[bar]] without a test of [bar]: the
    BAR indicator (0 to 7) and the offset it recorded add up to the
    table register read through the channel, the offset is a multiple
    of 8; for an indicator below 6 exactly that descriptor is marked,
    for 6 or 7 the store lands behind the array and none of the six
    descriptors changes; the emulated table was initialised for that
    indicator with the length the kernel reports for it and with
    between 1 and 2048 entries. *)
Theorem setup_msi_marks_table_bar v v' :
  setup_msi v = Done v' ->
  exists v1,
    msi_part v = Some v1 /\ dev v1 = dev v /\
    msix_inits v1 = msix_inits v /\ beyond v1 = beyond v /\
    table_marked v1 v'.
Proof.
  unfold vfio_setup_msi.
  destruct (msi_part v) as [v1|] eqn:Hmsi; [|done].
  destruct (msi_part_set_up v v1 Hmsi) as (_ & Hdev & Hinits & Hbeyond).
  intros Hx%msix_part_marks. by exists v1.
Qed.

End Setup.

Lemma setup_msi_capability_size_witness :
  exists v',
    ex_setup_msi ex_device = Done v' /\ msi_set_up ex_pread16 ex_device v'.
Proof.
  eexists. split; [vm_compute; reflexivity|].
  apply (setup_msi_capability_size ex_pread16 ex_pread32 ex_bar_len
           ex_msi_init ex_msix_init ex_device).
  vm_compute. reflexivity.
Defined.

Lemma setup_msi_marks_table_bar_witness :
  exists v' v1,
    ex_setup_msi_bir6 ex_device = Done v' /\
    setup_msi_cap ex_pread16 ex_msi_init ex_device = Some v1 /\
    dev v1 = dev ex_device /\
    msix_inits v1 = msix_inits ex_device /\ beyond v1 = beyond ex_device /\
    table_marked ex_pread16 ex_pread32_bir6 ex_bar_len v1 v'.
Proof.
  eexists.
  destruct (setup_msi_marks_table_bar ex_pread16 ex_pread32_bir6 ex_bar_len
              ex_msi_init ex_msix_init ex_device _ eq_refl)
    as (v1 & H1 & H2 & H3 & H4 & H5).
  exists v1. split; [vm_compute; reflexivity|]. done.
Defined.

(** The table register of [ex_pread32] names BAR 2: that descriptor is
    marked.  The one of [ex_pread32_bir6] names BAR 6: the call returns
    0 all the same, none of the six descriptors is marked and the store
    is behind the array. *)
Example setup_msi_marks_bar_2 :
  exists v',
    ex_setup_msi ex_device = Done v' /\
    map msix (resources (dev v')) = [false; false; true; false; false; false] /\
    map msix_offset (resources (dev v')) = [0; 0; 0x2000; 0; 0; 0] /\
    beyond v' = [].
Proof. eexists. split; [vm_compute; reflexivity|]. done. Qed.

Example setup_msi_bar_6_marks_none :
  exists v',
    ex_setup_msi_bir6 ex_device = Done v' /\
    resources (dev v') = resources (dev ex_device) /\
    beyond v' = [(6, 0x2000)].
Proof. eexists. split; [vm_compute; reflexivity|]. done. Qed.

End SetupMsiFacts.

(** ** IOMMU domains *)

Module UiommuFacts.
Import Uiommu.

Definition with_vdevs (u : VFIOUIOMMU) (ds : list nat) : VFIOUIOMMU :=
  {| u_fd := u_fd u; opened := opened u; vdevs := ds |}.

Lemma remove_first_at {A} (p : A -> bool) pre x post :
  Forall (fun y => p y = false) pre -> p x = true ->
  remove_first p (pre ++ x :: post) = pre ++ post.
Proof.
  intros Hpre Hx. induction Hpre as [|y pre Hy _ IH]; cbn.
  - by rewrite Hx.
  - by rewrite Hy, IH.
Qed.

Lemma find_domain_split fd l u :
  find_domain fd l = Some u ->
  exists pre post,
    l = pre ++ u :: post /\ u_fd u = fd /\
    Forall (fun x => (u_fd x =? fd) = false) pre.
Proof.
  induction l as [|x l IH]; [done|]. cbn.
  destruct (Z.eqb_spec (u_fd x) fd) as [Heq|Hne].
  - intros [= <-]. by exists [], l.
  - intros (pre & post & -> & Hfd & Hpre)%IH.
    exists (x :: pre), post. split; [done|]. split; [done|].
    constructor; [by apply Z.eqb_neq|done].
Qed.

Lemma find_domain_at fd pre u post :
  Forall (fun x => (u_fd x =? fd) = false) pre -> u_fd u = fd ->
  find_domain fd (pre ++ u :: post) = Some u.
Proof.
  intros Hpre Hu. induction Hpre as [|y pre Hy _ IH]; cbn.
  - by rewrite Hu, Z.eqb_refl.
  - by rewrite Hy.
Qed.

Lemma find_domain_none fd l :
  find_domain fd l = None -> fd ∉ map u_fd l.
Proof.
  induction l as [|x l IH]; cbn; [intros _; apply not_elem_of_nil|].
  destruct (Z.eqb_spec (u_fd x) fd) as [Heq|Hne]; [done|].
  intros Hl%IH. apply not_elem_of_cons. split; [congruence|done].
Qed.

Lemma join_domain_at fd id pre u post :
  Forall (fun x => (u_fd x =? fd) = false) pre -> u_fd u = fd ->
  join_domain fd id (pre ++ u :: post) =
    pre ++ with_vdevs u (id :: vdevs u) :: post.
Proof.
  intros Hpre Hu. induction Hpre as [|y pre Hy _ IH]; cbn.
  - by rewrite (proj2 (Z.eqb_eq _ _) Hu).
  - by rewrite Hy, IH.
Qed.

Lemma leave_domain_at fd id pre u post :
  Forall (fun x => (u_fd x =? fd) = false) pre -> u_fd u = fd ->
  leave_domain fd id (pre ++ u :: post) =
    pre ++ with_vdevs u (remove_first (Nat.eqb id) (vdevs u)) :: post.
Proof.
  intros Hpre Hu. induction Hpre as [|y pre Hy _ IH]; cbn.
  - by rewrite (proj2 (Z.eqb_eq _ _) Hu).
  - by rewrite Hy, IH.
Qed.

Lemma with_vdevs_same u : with_vdevs u (vdevs u) = u.
Proof. by destruct u. Qed.

Lemma remove_first_sublist {A} (p : A -> bool) l :
  remove_first p l `sublist_of` l.
Proof.
  induction l as [|x l IH]; cbn; [done|].
  destruct (p x); [by apply sublist_cons|by apply sublist_skip].
Qed.

Lemma remove_first_gone id l :
  NoDup l -> id ∉ remove_first (Nat.eqb id) l.
Proof.
  induction 1 as [|x l Hx Hnd IH]; cbn; [apply not_elem_of_nil|].
  destruct (Nat.eqb_spec id x) as [->|Hne]; [done|].
  apply not_elem_of_cons. by split.
Qed.

Section Domains.

Context {K : Type}.
Variable strtol : String.string -> Z.
Variable monitor_get_fd : String.string -> Z.
Variable open_uiommu : K -> K * sys_result.
Variable ioctl_set_uiommu_domain : K -> Z -> Z -> K * sys_result.

Local Abbreviation pick :=
  (pick_domain strtol monitor_get_fd open_uiommu).
Local Abbreviation enable :=
  (enable_uiommu strtol monitor_get_fd open_uiommu ioctl_set_uiommu_domain).
Local Abbreviation disable := (disable_uiommu ioctl_set_uiommu_domain).

(** The registry as the two functions keep it: the fds of the domains
    differ, no device is in two domains or twice in one, no domain is
    without a device, and the memory clients are those of the domains. *)
Definition well_formed (st : Registry K) : Prop :=
  NoDup (map u_fd (uiommu_list st)) /\
  NoDup (members st) /\
  Forall (fun u => vdevs u <> []) (uiommu_list st) /\
  clients st = map u_fd (uiommu_list st).

(** The device is where its pointer says. *)
Definition joined (vdev : VFIODevice) (st : Registry K) : Prop :=
  forall fd, uiommu vdev = Some fd ->
    exists u, find_domain fd (uiommu_list st) = Some u /\
      dev_id vdev ∈ vdevs u.

Lemma pick_domain_list vdev (st : Registry K) :
  uiommu_list (fst (pick vdev st)) = uiommu_list st /\
  clients (fst (pick vdev st)) = clients st.
Proof.
  unfold pick_domain. destruct (uiommufd_name vdev) as [[|c name]|].
  - destruct (negb _), (uiommu_list st) eqn:Hl; try done;
      destruct (open_uiommu (kernel st)) as [k [fd|e]]; cbn; by rewrite ?Hl.
  - destruct (qemu_isdigit c); [done|]. by destruct (_ <? 0).
  - destruct (negb _), (uiommu_list st) eqn:Hl; try done;
      destruct (open_uiommu (kernel st)) as [k [fd|e]]; cbn; by rewrite ?Hl.
Qed.

(** What [enable_uiommu] does to the list: nothing, a new domain at the
    head, or one more device in a listed domain. *)
Lemma enable_uiommu_cases vdev (st : Registry K) :
  let '(ret, vdev', st') := enable vdev st in
  (vdev' = vdev /\ uiommu_list st' = uiommu_list st /\
   clients st' = clients st) \/
  (exists fd,
     vdev' = set_uiommu (Some fd) vdev /\ ret = 0 /\
     ((exists was_opened,
         find_domain fd (uiommu_list st) = None /\
         uiommu_list st' =
           {| u_fd := fd; opened := was_opened; vdevs := [dev_id vdev] |}
             :: uiommu_list st /\
         clients st' = fd :: clients st /\
         open_fds st' = (if was_opened then [fd] else []) ++ open_fds st) \/
      (exists u,
         find_domain fd (uiommu_list st) = Some u /\
         uiommu_list st' = join_domain fd (dev_id vdev) (uiommu_list st) /\
         clients st' = clients st))).
Proof.
  unfold enable_uiommu.
  destruct (pick vdev st) as [st1 [[fd was_opened]|ret]] eqn:Hpick.
  2:{ left. pose proof (pick_domain_list vdev st) as H.
      rewrite Hpick in H. by destruct H. }
  assert (uiommu_list st1 = uiommu_list st /\ clients st1 = clients st /\
          open_fds st1 = (if was_opened then [fd] else []) ++ open_fds st)
    as (Hl & Hc & Ho).
  { revert Hpick. unfold pick_domain.
    destruct (uiommufd_name vdev) as [[|c name]|].
    - destruct (negb _), (uiommu_list st) eqn:Hl;
        try (by intros [= <- <- <-]);
        destruct (open_uiommu (kernel st)) as [k [fd'|e]];
        (intros [= <- <- <-]; cbn; by rewrite ?Hl) || done.
    - destruct (qemu_isdigit c); [by intros [= <- <- <-]|].
      destruct (_ <? 0); [done|]. by intros [= <- <- <-].
    - destruct (negb _), (uiommu_list st) eqn:Hl;
        try (by intros [= <- <- <-]);
        destruct (open_uiommu (kernel st)) as [k [fd'|e]];
        (intros [= <- <- <-]; cbn; by rewrite ?Hl) || done. }
  destruct (ioctl_set_uiommu_domain (kernel st1) (vfiofd vdev) fd)
    as [k [val|e]]; cbn [set_kernel uiommu_list clients open_fds kernel].
  2:{ left. by cbn. }
  rewrite Hl, Hc, Ho.
  destruct (find_domain fd (uiommu_list st)) as [u|] eqn:Hfind.
  - right. exists fd. split; [done|]. split; [done|]. right. by exists u.
  - right. exists fd. split; [done|]. split; [done|]. left.
    by exists was_opened.
Qed.

Lemma members_at (st : Registry K) pre u post :
  uiommu_list st = pre ++ u :: post ->
  members st = flat_map vdevs pre ++ vdevs u ++ flat_map vdevs post.
Proof. unfold members. intros ->. by rewrite flat_map_app. Qed.

Lemma well_formed_same (st st' : Registry K) :
  uiommu_list st' = uiommu_list st -> clients st' = clients st ->
  well_formed st -> well_formed st'.
Proof. unfold well_formed, members. by intros -> ->. Qed.

(** What the first part of [enable_uiommu] does to the registry: it
    opens an fd, or nothing. *)
Lemma pick_domain_picked vdev (st st1 : Registry K) fd was_opened :
  pick vdev st = (st1, inl (fd, was_opened)) ->
  uiommu_list st1 = uiommu_list st /\ clients st1 = clients st /\
  if was_opened
  then open_uiommu (kernel st) = (kernel st1, Ok fd) /\
       open_fds st1 = fd :: open_fds st
  else st1 = st.
Proof.
  unfold pick_domain. destruct (uiommufd_name vdev) as [[|c name]|].
  - destruct (negb _), (uiommu_list st) eqn:Hl;
      try (by intros [= <- <- <-]);
      destruct (open_uiommu (kernel st)) as [k [fd'|e]];
      (intros [= <- <- <-]; cbn; by rewrite ?Hl) || done.
  - destruct (qemu_isdigit c); [by intros [= <- <- <-]|].
    destruct (_ <? 0); [done|]. by intros [= <- <- <-].
  - destruct (negb _), (uiommu_list st) eqn:Hl;
      try (by intros [= <- <- <-]);
      destruct (open_uiommu (kernel st)) as [k [fd'|e]];
      (intros [= <- <- <-]; cbn; by rewrite ?Hl) || done.
Qed.

Lemma pick_domain_early vdev (st st1 : Registry K) ret :
  pick vdev st = (st1, inr ret) ->
  uiommu_list st1 = uiommu_list st /\ clients st1 = clients st /\
  open_fds st1 = open_fds st.
Proof.
  unfold pick_domain. destruct (uiommufd_name vdev) as [[|c name]|].
  - destruct (negb _), (uiommu_list st) eqn:Hl; try done;
      destruct (open_uiommu (kernel st)) as [k [fd'|e]];
      (intros [= <- <-]; cbn; by rewrite ?Hl) || done.
  - destruct (qemu_isdigit c); [done|].
    destruct (_ <? 0); [|done]. by intros [= <- <-].
  - destruct (negb _), (uiommu_list st) eqn:Hl; try done;
      destruct (open_uiommu (kernel st)) as [k [fd'|e]];
      (intros [= <- <-]; cbn; by rewrite ?Hl) || done.
Qed.

(** The call has changed nothing the registry lists: the device, the
    domains and the memory clients are as before.  The open fds are as
    before too, unless [open] had just given an fd and
    VFIO_SET_UIOMMU_DOMAIN was then refused: that fd stays open. *)
Definition nothing_joined (vdev vdev' : VFIODevice) (ret : Z)
    (st st' : Registry K) : Prop :=
  vdev' = vdev /\ uiommu_list st' = uiommu_list st /\
  clients st' = clients st /\
  (open_fds st' = open_fds st \/
   exists k fd k' e,
     open_uiommu (kernel st) = (k, Ok fd) /\
     ioctl_set_uiommu_domain k (vfiofd vdev) fd = (k', Errno e) /\
     ret = - e /\ open_fds st' = fd :: open_fds st).

(** The device has joined the domain on [fd]: a new one at the head of
    the list, with its memory client, or a listed one, the first on
    that fd, which has the device as its new first member; every other
    domain is as before.  The fd is one more open fd when it was opened
    here. *)
Definition joined_on (fd : Z) (vdev : VFIODevice) (st st' : Registry K)
    : Prop :=
  exists was_opened : bool,
    open_fds st' = (if was_opened then [fd] else []) ++ open_fds st /\
    ((find_domain fd (uiommu_list st) = None /\
      uiommu_list st' =
        {| u_fd := fd; opened := was_opened; vdevs := [dev_id vdev] |}
          :: uiommu_list st /\
      clients st' = fd :: clients st) \/
     (exists pre u post,
        uiommu_list st = pre ++ u :: post /\ u_fd u = fd /\
        fd ∉ map u_fd pre /\
        uiommu_list st' =
          pre ++ with_vdevs u (dev_id vdev :: vdevs u) :: post /\
        clients st' = clients st)).

Lemma not_in_fds fd (pre : list VFIOUIOMMU) :
  Forall (fun x => (u_fd x =? fd) = false) pre -> fd ∉ map u_fd pre.
Proof.
  induction 1 as [|x pre Hx _ IH]; cbn; [apply not_elem_of_nil|].
  apply not_elem_of_cons. split; [|done].
  apply Z.eqb_neq in Hx. congruence.
Qed.

(** X15.  [enable_uiommu] keeps the registry of IOMMU domains well
    formed: called for a device that is in no domain, it leaves a list
    in which the fds of the domains differ, every device is in at most
    one domain, no domain is empty, and exactly the listed domains have
    a physical memory client.  Either nothing was joined: the device,
    the list of domains and the memory clients are as before, and so
    are the open fds, except that the fd which [open] had just given
    stays open when VFIO_SET_UIOMMU_DOMAIN is then refused.  Or the
    call returned 0 and the device has joined one domain, the one its
    [uiommu] field names: a new domain at the head of the list or the
    first listed domain on that fd, every other domain being as it
    was. *)
Theorem enable_uiommu_keeps_registry vdev (st : Registry K) :
  well_formed st -> dev_id vdev ∉ members st ->
  let '(ret, vdev', st') := enable vdev st in
  well_formed st' /\
  (nothing_joined vdev vdev' ret st st' \/
   (exists fd,
      ret = 0 /\ vdev' = set_uiommu (Some fd) vdev /\ joined vdev' st' /\
      joined_on fd vdev st st')).
Proof.
  intros Hwf Hnew. unfold enable_uiommu.
  destruct (pick vdev st) as [st1 [[fd was_opened]|ret]] eqn:Hpick.
  2:{ destruct (pick_domain_early _ _ _ _ Hpick) as (Hl & Hc & Ho).
      split; [by apply (well_formed_same st)|]. left.
      split; [done|]. split; [done|]. split; [done|]. by left. }
  destruct (pick_domain_picked _ _ _ _ _ Hpick) as (Hl & Hc & Ho).
  destruct (ioctl_set_uiommu_domain (kernel st1) (vfiofd vdev) fd)
    as [k [val|e]] eqn:Hioctl;
    cbn [set_kernel uiommu_list clients open_fds kernel].
  2:{ split; [by apply (well_formed_same st)|]. left.
      split; [done|]. split; [done|]. split; [done|].
      destruct was_opened; [|left; by subst st1].
      destruct Ho as [Hopen Ho]. right.
      by exists (kernel st1), fd, k, e. }
  assert (open_fds st1 = (if was_opened then [fd] else []) ++ open_fds st)
    as Ho'.
  { destruct was_opened; [by destruct Ho|by subst st1]. }
  destruct Hwf as (Hfds & Hmem & Hfull & Hcl).
  rewrite Hl.
  destruct (find_domain fd (uiommu_list st)) as [u|] eqn:Hfind.
  - (* one more device in a listed domain *)
    destruct (find_domain_split fd _ u Hfind)
      as (pre & post & Hsplit & Hu & Hpre).
    rewrite Hsplit, (join_domain_at fd _ pre u post Hpre Hu).
    split.
    + unfold well_formed, members.
      cbn [uiommu_list clients]. rewrite Hc, Hcl, Hsplit.
      unfold members in Hmem, Hnew.
      rewrite Hsplit in Hfds, Hfull, Hmem, Hnew.
      rewrite !flat_map_app in *. rewrite !map_app in *.
      cbn [map flat_map with_vdevs u_fd vdevs] in *.
      split; [done|]. split.
      { rewrite <- app_comm_cons, <- Permutation_middle.
        by apply NoDup_cons. }
      split; [|done].
      apply Forall_app in Hfull as [Hp Hq]. apply Forall_app. split; [done|].
      inversion Hq; subst. by constructor.
    + right. exists fd. split; [done|]. split; [done|]. split.
      * intros fd' [= <-]. eexists. cbn [uiommu_list].
        rewrite (find_domain_at fd pre
                   (with_vdevs u (dev_id vdev :: vdevs u)) post Hpre Hu).
        split; [done|]. cbn. by left.
      * exists was_opened. cbn [uiommu_list clients open_fds].
        split; [done|]. right. exists pre, u, post.
        split; [done|]. split; [done|]. split; [by apply not_in_fds|].
        by split.
  - (* a new domain *)
    split.
    + unfold well_formed, members. cbn [uiommu_list clients flat_map map u_fd vdevs].
      rewrite Hc, Hcl.
      split; [apply NoDup_cons; split; [by apply find_domain_none|done]|].
      split; [by apply NoDup_cons|]. split; [|done].
      constructor; [done|done].
    + right. exists fd. split; [done|]. split; [done|]. split.
      * intros fd' [= <-]. eexists. cbn [uiommu_list find_domain List.find u_fd].
        rewrite Z.eqb_refl. split; [done|]. cbn. by left.
      * exists was_opened. cbn [uiommu_list clients open_fds].
        split; [done|]. left. by rewrite Hc.
Qed.

Lemma fds_differ_false fd (pre : list VFIOUIOMMU) :
  Forall (fun x => (u_fd x =? fd) = false) pre ->
  Forall (fun y => (fd =? y) = false) (map u_fd pre).
Proof.
  induction 1 as [|x pre Hx _ IH]; cbn; constructor; [|done].
  by rewrite Z.eqb_sym.
Qed.

(** X16.  [disable_uiommu] keeps the registry well formed too, and
    takes the device out: called for a device that is in the domain its
    [uiommu] field names, it clears the field and leaves a well-formed
    registry in which the device is in no domain.  A domain that loses
    its last device goes from the list together with its memory
    client. *)
Theorem disable_uiommu_keeps_registry vdev (st : Registry K) :
  well_formed st -> joined vdev st ->
  let '(vdev', st') := disable vdev st in
  well_formed st' /\ uiommu vdev' = None /\
  (uiommu vdev <> None -> dev_id vdev ∉ members st').
Proof.
  intros Hwf Hin. unfold disable_uiommu.
  set (k := fst (ioctl_set_uiommu_domain _ _ _)).
  destruct (uiommu vdev) as [fd|] eqn:Hptr.
  2:{ split; [by apply (well_formed_same st)|]. by split. }
  destruct (Hin fd Hptr) as (u & Hfind & Hid).
  destruct (find_domain_split fd _ u Hfind) as (pre & post & Hsplit & Hu & Hpre).
  cbn [set_kernel uiommu_list clients open_fds kernel].
  rewrite Hsplit, (leave_domain_at fd _ pre u post Hpre Hu).
  set (u' := with_vdevs u (remove_first (Nat.eqb (dev_id vdev)) (vdevs u))).
  rewrite (find_domain_at fd pre u' post Hpre Hu).
  destruct Hwf as (Hfds & Hmem & Hfull & Hcl).
  rewrite (members_at st _ _ _ Hsplit) in Hmem.
  rewrite Hsplit in Hfds, Hfull, Hcl. rewrite !map_app in Hfds, Hcl.
  cbn [map] in Hfds, Hcl.
  apply NoDup_app in Hmem as (Hm1 & Hdis1 & Hmem).
  apply NoDup_app in Hmem as (Hm2 & Hdis2 & Hm3).
  apply Forall_app in Hfull as [Hf1 Hf2]. inversion Hf2 as [|? ? Hfu Hf3]; subst.
  assert (dev_id vdev ∉ flat_map vdevs pre) as Hout1.
  { intros Hx. apply (Hdis1 _ Hx), elem_of_app. by left. }
  assert (dev_id vdev ∉ flat_map vdevs post) as Hout3 by by apply Hdis2.
  destruct (vdevs u') as [|d ds] eqn:Hleft.
  - (* the last device has left *)
    rewrite (remove_first_at _ pre u' post Hpre)
      by (cbn; by apply Z.eqb_eq).
    rewrite Hcl.
    rewrite (remove_first_at (Z.eqb (u_fd u)) (map u_fd pre) (u_fd u)
               (map u_fd post) (fds_differ_false _ pre Hpre) (Z.eqb_refl _)).
    split.
    + unfold well_formed, members. cbn [uiommu_list clients].
      rewrite !map_app, flat_map_app.
      split.
      { apply NoDup_app in Hfds as (Ha & Hb & Hc).
        apply NoDup_cons in Hc as [_ Hc]. apply NoDup_app.
        split; [done|]. split; [|done].
        intros x Hx Hy. apply (Hb x Hx). by right. }
      split.
      { apply NoDup_app. split; [done|]. split; [|done].
        intros x Hx Hy. apply (Hdis1 x Hx), elem_of_app. by right. }
      split; [by apply Forall_app|done].
    + split; [done|].
      intros _. unfold members. cbn [uiommu_list]. rewrite flat_map_app.
      intros [?|?]%elem_of_app; done.
  - (* other devices stay *)
    assert (vdevs u' `sublist_of` vdevs u) as Hsub
      by apply remove_first_sublist.
    assert (dev_id vdev ∉ vdevs u') as Hout2 by by apply remove_first_gone.
    rewrite Hleft in Hsub, Hout2.
    split.
    + unfold well_formed, members. cbn [uiommu_list clients].
      rewrite !map_app, flat_map_app. cbn [map flat_map u_fd u' with_vdevs].
      split; [done|]. split.
      { fold u'. rewrite Hleft.
        apply NoDup_app. split; [done|]. split.
        - intros x Hx [Hy|Hy]%elem_of_app; apply (Hdis1 x Hx), elem_of_app.
          + left. by apply (elem_of_sublist _ _ _ Hy Hsub).
          + by right.
        - apply NoDup_app. split; [by apply (sublist_NoDup _ _ Hm2 Hsub)|].
          split; [|done]. intros x Hx. apply Hdis2.
          by apply (elem_of_sublist _ _ _ Hx Hsub). }
      split; [|done].
      apply Forall_app. split; [done|]. constructor; [|done].
      fold u'. by rewrite Hleft.
    + split; [done|].
      intros _. unfold members. cbn [uiommu_list]. rewrite flat_map_app.
      cbn [flat_map]. rewrite Hleft. by rewrite !not_elem_of_app.
Qed.

Lemma set_uiommu_back vdev fd :
  uiommu vdev = None -> set_uiommu None (set_uiommu (Some fd) vdev) = vdev.
Proof. destruct vdev. cbn. by intros ->. Qed.

(** X17.  Joining and leaving is a round trip.  When [enable_uiommu]
    is called for a device that is in no domain and [disable_uiommu]
    for the device as it was left, the list of domains, with the devices
    in each, and the memory clients are as before, and so is the device.
    When the device had joined a domain that was not listed before, the
    fd that was opened for it has been closed again. *)
Theorem enable_disable_round_trip vdev (st : Registry K) :
  well_formed st -> uiommu vdev = None ->
  let '(ret, vdev', st') := enable vdev st in
  let '(vdev'', st'') := disable vdev' st' in
  uiommu_list st'' = uiommu_list st /\ clients st'' = clients st /\
  vdev'' = vdev /\
  (forall fd, uiommu vdev' = Some fd ->
     find_domain fd (uiommu_list st) = None -> open_fds st'' = open_fds st).
Proof.
  intros Hwf Hnone. pose proof (enable_uiommu_cases vdev st) as Hcases.
  destruct (enable vdev st) as [[ret vdev'] st'].
  destruct Hcases as [(-> & Hl & Hc)|(fd & -> & _ & Hjoin)].
  { unfold disable_uiommu. rewrite Hnone. cbn.
    split; [done|]. split; [done|]. split; [done|]. by intros fd [=]. }
  unfold disable_uiommu. cbn [uiommu set_uiommu dev_id vfiofd].
  cbn [set_kernel uiommu_list clients open_fds kernel].
  destruct Hjoin as [(was_opened & Hfind & Hl & Hc & Ho)|(u & Hfind & Hl & Hc)].
  - rewrite Hl. cbn [leave_domain u_fd vdevs opened]. rewrite Z.eqb_refl.
    cbn [find_domain List.find u_fd]. rewrite Z.eqb_refl.
    cbn [vdevs remove_first]. rewrite Nat.eqb_refl.
    cbn [remove_first u_fd uiommu_list clients open_fds opened].
    rewrite Z.eqb_refl, Hc, Ho. cbn [remove_first]. rewrite Z.eqb_refl.
    split; [done|]. split; [done|]. split; [by apply set_uiommu_back|].
    intros fd' _ _. destruct was_opened; cbn; by rewrite ?Z.eqb_refl.
  - destruct (find_domain_split fd _ u Hfind)
      as (pre & post & Hsplit & Hu & Hpre).
    rewrite Hl, Hsplit, (join_domain_at fd _ pre u post Hpre Hu).
    rewrite (leave_domain_at fd _ pre
               (with_vdevs u (dev_id vdev :: vdevs u)) post Hpre Hu).
    cbn [with_vdevs vdevs remove_first u_fd opened]. rewrite Nat.eqb_refl.
    change (with_vdevs (with_vdevs u (dev_id vdev :: vdevs u)) (vdevs u))
      with (with_vdevs u (vdevs u)).
    rewrite with_vdevs_same.
    rewrite (find_domain_at fd pre u post Hpre Hu).
    destruct Hwf as (_ & _ & Hfull & _). rewrite Hsplit in Hfull.
    apply Forall_app in Hfull as [_ Hfull]. inversion Hfull; subst.
    destruct (vdevs u) as [|d ds] eqn:Hd; [done|].
    cbn. split; [done|]. split; [done|]. split; [by apply set_uiommu_back|].
    intros fd' [= <-] Hno. rewrite <- Hsplit, Hfind in Hno. done.
Qed.



End Domains.

Section Runs.

Import UiommuExamples.

Lemma ex_one_domain_well_formed : well_formed ex_one_domain.
Proof.
  repeat split.
  - apply (bool_decide_unpack _). vm_compute. exact I.
  - apply (bool_decide_unpack _). vm_compute. exact I.
  - vm_compute. by repeat constructor.
Qed.

Lemma enable_uiommu_keeps_registry_witness :
  let '(ret, vdev', st') := ex_enable_refused ex_first ex_empty in
  well_formed st' /\
  (nothing_joined ex_open ex_refuse_domain ex_first vdev' ret ex_empty st' \/
   (exists fd,
      ret = 0 /\ vdev' = set_uiommu (Some fd) ex_first /\
      joined vdev' st' /\ joined_on fd ex_first ex_empty st')).
Proof.
  apply (enable_uiommu_keeps_registry ex_strtol ex_monitor_get_fd ex_open
           ex_refuse_domain ex_first ex_empty).
  - repeat split; vm_compute; constructor.
  - vm_compute. apply not_elem_of_nil.
Defined.

(** With a kernel that refuses VFIO_SET_UIOMMU_DOMAIN the call returns
    -EINVAL, no domain is listed, and fd 50, which [open] gave, is
    still open. *)
Example refused_domain_leaves_fd_open :
  let '(ret, vdev', st') := ex_enable_refused ex_first ex_empty in
  ret = -22 /\ vdev' = ex_first /\ uiommu_list st' = [] /\
  open_fds st' = [50].
Proof. vm_compute. done. Qed.

Lemma disable_uiommu_keeps_registry_witness :
  let '(vdev', st') := ex_disable ex_first_joined ex_one_domain in
  well_formed st' /\ uiommu vdev' = None /\
  (uiommu ex_first_joined <> None -> dev_id ex_first_joined ∉ members st').
Proof.
  apply (disable_uiommu_keeps_registry ex_set_domain ex_first_joined
           ex_one_domain).
  - apply ex_one_domain_well_formed.
  - intros fd [= <-]. eexists. split; [vm_compute; reflexivity|].
    vm_compute. by left.
Defined.

Lemma enable_disable_round_trip_witness :
  let '(ret, vdev', st') := ex_enable ex_second ex_one_domain in
  let '(vdev'', st'') := ex_disable vdev' st' in
  uiommu_list st'' = uiommu_list ex_one_domain /\
  clients st'' = clients ex_one_domain /\
  vdev'' = ex_second /\
  (forall fd, uiommu vdev' = Some fd ->
     find_domain fd (uiommu_list ex_one_domain) = None ->
     open_fds st'' = open_fds ex_one_domain).
Proof.
  apply (enable_disable_round_trip ex_strtol ex_monitor_get_fd ex_open
           ex_set_domain ex_second ex_one_domain).
  - apply ex_one_domain_well_formed.
  - reflexivity.
Defined.


End Runs.

End UiommuFacts.

(** ** The physical memory client *)

Module DMADispatchFacts.
Import DMA.

Definition call_fd (c : call) : Z :=
  match c with
  | MAP_DMA fd _ _ => fd
  | UNMAP_DMA fd _ _ => fd
  end.

Definition is_unmap (c : call) : bool :=
  match c with
  | UNMAP_DMA _ _ _ => true
  | MAP_DMA _ _ _ => false
  end.

Section Translator.

Variable K : Type.
Variable ioctl_map_dma : K -> Z -> vfio_dma_map_t -> K * option positive.
Variable ioctl_unmap_dma : K -> Z -> vfio_dma_map_t -> K * option positive.
Variable qemu_get_ram_ptr : Z -> Z.
Variable cpu_get_physical_page_desc : Z -> Z.
Variable VFIO_MAX_MAP_SIZE : Z.
Variable VFIO_FLAG_WRITE : Z.
Variable TARGET_PAGE_BITS : Z.
Variable IO_MEM_RAM : Z.
Variable IO_MEM_UNASSIGNED : Z.
Variable EBUSY : positive.

Local Abbreviation map_loop := (dma_map_loop ioctl_map_dma VFIO_MAX_MAP_SIZE).
Local Abbreviation dma_map :=
  (vfio_dma_map ioctl_map_dma qemu_get_ram_ptr VFIO_MAX_MAP_SIZE VFIO_FLAG_WRITE).
Local Abbreviation dma_unmap :=
  (vfio_dma_unmap ioctl_unmap_dma qemu_get_ram_ptr VFIO_FLAG_WRITE).
Local Abbreviation remap :=
  (remap_loop ioctl_map_dma ioctl_unmap_dma qemu_get_ram_ptr
     cpu_get_physical_page_desc VFIO_MAX_MAP_SIZE VFIO_FLAG_WRITE
     TARGET_PAGE_BITS).
Local Abbreviation set_memory :=
  (vfio_client_set_memory ioctl_map_dma ioctl_unmap_dma qemu_get_ram_ptr
     cpu_get_physical_page_desc VFIO_MAX_MAP_SIZE VFIO_FLAG_WRITE
     TARGET_PAGE_BITS IO_MEM_RAM IO_MEM_UNASSIGNED EBUSY).
Local Abbreviation MASK := (TARGET_PAGE_MASK TARGET_PAGE_BITS).

(** The calls of [w'] are those of [w] followed by calls on [fd]. *)
Definition extends_on (fd : Z) (w w' : World K) : Prop :=
  exists new, calls w' = calls w ++ new /\ Forall (fun c => call_fd c = fd) new.

Lemma extends_on_refl fd w : extends_on fd w w.
Proof. exists []. by rewrite app_nil_r. Qed.

Lemma extends_on_trans fd a b c :
  extends_on fd a b -> extends_on fd b c -> extends_on fd a c.
Proof.
  intros (n1 & H1 & F1) (n2 & H2 & F2). exists (n1 ++ n2).
  split; [by rewrite H2, H1, app_assoc|by apply Forall_app].
Qed.

Lemma do_map_extends fd w m : extends_on fd w (fst (do_map ioctl_map_dma fd w m)).
Proof.
  unfold do_map. destruct (ioctl_map_dma _ _ _) as [k r]. cbn.
  eexists. split; [done|]. by repeat constructor.
Qed.

Lemma do_unmap_extends fd w m :
  extends_on fd w (fst (do_unmap ioctl_unmap_dma fd w m)).
Proof.
  unfold do_unmap. destruct (ioctl_unmap_dma _ _ _) as [k r]. cbn.
  eexists. split; [done|]. by repeat constructor.
Qed.

Lemma map_loop_extends fuel fd w v d fl sz w' ret :
  map_loop fuel fd w v d fl sz = Some (w', ret) -> extends_on fd w w'.
Proof.
  revert w v d sz. induction fuel as [|fuel IH]; intros w v d sz;
    cbn [dma_map_loop]; destruct (sz =? 0);
    try (intros [= <- _]; apply extends_on_refl); try done.
  pose proof (do_map_extends fd w
                {| vaddr := v; dmaaddr := d;
                   size := Z.min sz VFIO_MAX_MAP_SIZE; flags := fl |}) as Hstep.
  destruct (do_map _ _ _ _) as [w1 [e|]]; cbn [fst] in Hstep.
  - by intros [= <- _].
  - intros Hrest%IH. by apply (extends_on_trans fd w w1).
Qed.

Lemma dma_unmap_extends fd w start_addr sz phys_offset :
  extends_on fd w (fst (dma_unmap fd w start_addr sz phys_offset)).
Proof.
  unfold vfio_dma_unmap.
  pose proof (do_unmap_extends fd w
                {| vaddr := uint64 (qemu_get_ram_ptr phys_offset);
                   dmaaddr := start_addr; size := sz;
                   flags := VFIO_FLAG_WRITE |}) as Hstep.
  destruct (do_unmap _ _ _ _) as [w1 [e|]]; exact Hstep.
Qed.

Lemma remap_extends fuel fd w curr end_ curr_phys ret w' curr' ret' :
  remap fuel fd w curr end_ curr_phys ret = Some (w', curr', ret') ->
  extends_on fd w w'.
Proof.
  revert w curr curr_phys ret. induction fuel as [|fuel IH];
    intros w curr curr_phys ret; cbn [remap_loop];
    destruct (negb (curr <? end_));
    try (intros [= <- _ _]; apply extends_on_refl); try done.
  destruct (negb (_ =? curr_phys)); [|apply IH].
  pose proof (dma_unmap_extends fd w curr
                (TARGET_PAGE_SIZE TARGET_PAGE_BITS)
                (cpu_get_physical_page_desc curr)) as Hun.
  destruct (dma_unmap fd w curr _ _) as [w1 r1]; cbn [fst] in Hun.
  destruct (dma_map fd w1 curr _ curr_phys) as [[w2 r2]|] eqn:Hmap; [|done].
  apply map_loop_extends in Hmap.
  assert (extends_on fd w w2) as H2 by by apply (extends_on_trans fd w w1).
  destruct (negb (r2 =? 0)).
  - by intros [= <- _ _].
  - intros Hrest%IH. by apply (extends_on_trans fd w w2).
Qed.

(** X19.  Whatever [vfio_client_set_memory] asks of the kernel, it
    asks through the first device of the domain: the calls after it are
    the calls before it followed by VFIO_MAP_DMA and VFIO_UNMAP_DMA
    ioctls on the fd of that device only.  It asks nothing at all when
    the domain has no device, when the start address or the size is not
    a multiple of the page size, or when the memory is neither ram nor
    unassigned. *)
Theorem set_memory_asks_first_device vdevs (w w' : World K)
    start_addr sz phys_offset :
  set_memory vdevs w start_addr sz phys_offset = Some w' ->
  let flags := Z.land phys_offset (Z.lnot MASK) in
  exists new,
    calls w' = calls w ++ new /\
    (forall c, In c new -> head vdevs = Some (call_fd c)) /\
    (vdevs = [] \/
     Z.land (Z.lor start_addr sz) (Z.lnot MASK) <> 0 \/
     (flags <> IO_MEM_RAM /\ flags <> IO_MEM_UNASSIGNED) ->
     new = []).
Proof.
  intros Hrun flags.
  assert (forall fd, head vdevs = Some fd -> extends_on fd w w' ->
          (vdevs = [] \/
           Z.land (Z.lor start_addr sz) (Z.lnot MASK) <> 0 \/
           (flags <> IO_MEM_RAM /\ flags <> IO_MEM_UNASSIGNED) ->
           calls w' = calls w) ->
          exists new,
            calls w' = calls w ++ new /\
            (forall c, In c new -> head vdevs = Some (call_fd c)) /\
            (vdevs = [] \/
             Z.land (Z.lor start_addr sz) (Z.lnot MASK) <> 0 \/
             (flags <> IO_MEM_RAM /\ flags <> IO_MEM_UNASSIGNED) ->
             new = [])) as Hwrap.
  { intros fd Hhd (new & Hnew & Hfd) Hquiet. exists new. split; [done|].
    split.
    - intros c Hc. rewrite Hhd. f_equal. symmetry.
      exact (proj1 (List.Forall_forall _ _) Hfd c Hc).
    - intros Hq. specialize (Hquiet Hq). rewrite Hnew in Hquiet.
      rewrite <- (app_nil_r (calls w)) in Hquiet at 2.
      by apply app_inv_head in Hquiet. }
  revert Hrun. unfold vfio_client_set_memory. fold flags.
  destruct vdevs as [|fd rest].
  { intros [= <-]. exists []. by rewrite app_nil_r. }
  destruct (Z.eqb_spec (Z.land (Z.lor start_addr sz) (Z.lnot MASK)) 0)
    as [Hal|Hal]; cbn [negb].
  2:{ intros [= <-]. apply (Hwrap fd eq_refl (extends_on_refl fd w)). done. }
  destruct (Z.eqb_spec flags IO_MEM_RAM) as [Hram|Hram].
  - intros Hrun. apply (Hwrap fd eq_refl).
    2:{ intros [?|[?|[? _]]]; done. }
    revert Hrun.
    destruct (dma_map fd w start_addr sz phys_offset) as [[w1 ret]|] eqn:Hmap;
      [|done].
    apply map_loop_extends in Hmap.
    destruct (ret =? 0); [by intros [= <-]|].
    pose proof (dma_unmap_extends fd w1 start_addr sz phys_offset) as Hun.
    destruct (ret =? _).
    + destruct (remap _ fd w1 _ _ _ _) as [[[w2 curr] ret2]|] eqn:Hre; [|done].
      apply remap_extends in Hre.
      pose proof (dma_unmap_extends fd w2 start_addr sz phys_offset) as Hun2.
      destruct (negb (curr <? _)).
      * intros [= <-]. by apply (extends_on_trans fd w w1).
      * intros [= <-]. apply (extends_on_trans fd w w1); [done|].
        by apply (extends_on_trans fd w1 w2).
    + intros [= <-]. by apply (extends_on_trans fd w w1).
  - destruct (Z.eqb_spec flags IO_MEM_UNASSIGNED) as [Hun|Hun].
    + intros [= <-]. apply (Hwrap fd eq_refl).
      * apply dma_unmap_extends.
      * intros [?|[?|[_ ?]]]; done.
    + intros [= <-]. apply (Hwrap fd eq_refl (extends_on_refl fd w)). done.
Qed.

End Translator.

Section Runs.

Import DMAExamples.

Lemma set_memory_asks_first_device_witness :
  exists w',
    vfio_client_set_memory busy_range accept_all ram_ptr page_desc
      0x400000 1 12 0 16 16%positive [5; 6] empty_world 0xa0000 0x2000 0x50000
      = Some w' /\
    exists new,
      calls w' = calls empty_world ++ new /\
      (forall c, In c new -> head [5; 6] = Some (call_fd c)) /\
      ([5; 6] = [] \/
       Z.land (Z.lor 0xa0000 0x2000) (Z.lnot (TARGET_PAGE_MASK 12)) <> 0 \/
       (Z.land 0x50000 (Z.lnot (TARGET_PAGE_MASK 12)) <> 0 /\
        Z.land 0x50000 (Z.lnot (TARGET_PAGE_MASK 12)) <> 16) ->
       new = []).
Proof.
  eexists. split; [vm_compute; reflexivity|].
  apply (set_memory_asks_first_device unit busy_range accept_all ram_ptr
           page_desc 0x400000 1 12 0 16 16%positive [5; 6] empty_world _
           0xa0000 0x2000 0x50000).
  vm_compute. reflexivity.
Defined.

End Runs.

End DMADispatchFacts.

(** ** Trapped BAR accesses *)

Module TrappedFacts.
Import Resources Trapped.

Lemma uint32_mod_width val n :
  0 <= n <= 32 -> uint32 val mod 2 ^ n = val mod 2 ^ n.
Proof.
  intros Hn. unfold uint32. apply Z.mod_mod_divide.
  exists (2 ^ (32 - n)). rewrite <- Z.pow_add_r by lia. f_equal. lia.
Qed.

Section Access.

Variable pread_resource : Z -> Z -> Z -> option Z.
Variable vfio_pci_space_to_offset : Z -> Z.
Variable VFIO_PCI_BAR0_RESOURCE : Z.

Local Abbreviation resource_reads :=
  (vfio_resource_reads pread_resource vfio_pci_space_to_offset
     VFIO_PCI_BAR0_RESOURCE).
Local Abbreviation ioport_reads :=
  (vfio_ioport_reads pread_resource vfio_pci_space_to_offset
     VFIO_PCI_BAR0_RESOURCE).

(** X21.  A trapped read of 1, 2 or 4 bytes asks the device fd for
    exactly that many bytes at the offset of the BAR plus the address
    within it, and returns what was read cut to the width of the
    access; when the read fails it returns all ones of that width.  The
    port handlers of an I/O BAR that the guest has placed at [e_phys]
    do the same with the port number less [e_phys]. *)
Theorem trapped_read_by_width (i : nat) res addr e_phys e_size :
  (i <= 2)%nat ->
  let len := 2 ^ Z.of_nat i in
  let offset :=
    uint64 (uint64 (vfio_pci_space_to_offset
                      (VFIO_PCI_BAR0_RESOURCE + bar res)) + uint32 addr) in
  resource_reads i res addr =
    match pread_resource (vfiofd res) len offset with
    | Some val => val mod 2 ^ (8 * len)
    | None => 2 ^ (8 * len) - 1
    end /\
  ioport_reads i (vfio_ioport_map e_phys e_size res) (e_phys + addr) =
    resource_reads i res addr.
Proof.
  intros Hi. cbv zeta.
  assert (forall x, uint32 (e_phys + x - e_phys) = uint32 x) as Hport
    by (intros x; f_equal; lia).
  destruct i as [|[|[|i]]]; [| | |lia]; cbn [vfio_resource_reads
    vfio_ioport_reads]; unfold vfio_resource_readb, vfio_resource_readw,
    vfio_resource_readl, vfio_ioport_readb, vfio_ioport_readw,
    vfio_ioport_readl, vfio_resource_read, vfio_ioport_map;
    cbn [set_e vfiofd bar Resources.e_phys]; rewrite Hport;
    (split; [|done]).
  - change (2 ^ Z.of_nat 0) with 1. change (8 * 1) with 8.
    destruct (pread_resource _ _ _) as [val|]; [|done].
    change 255 with (Z.ones 8). rewrite Z.land_ones by lia.
    apply uint32_mod_width. lia.
  - change (2 ^ Z.of_nat 1) with 2. change (8 * 2) with 16.
    destruct (pread_resource _ _ _) as [val|]; [|done].
    change 65535 with (Z.ones 16). rewrite Z.land_ones by lia.
    apply uint32_mod_width. lia.
  - change (2 ^ Z.of_nat 2) with 4. change (8 * 4) with 32.
    destruct (pread_resource _ _ _) as [val|]; done.
Qed.

End Access.

Lemma trapped_read_by_width_witness :
  let failing (fd len offset : Z) : option Z := None in
  let res := Resources.zero_resource in
  vfio_resource_reads failing (fun sp => Z.shiftl sp 32) 0 1 res 0x10 =
    2 ^ (8 * 2 ^ Z.of_nat 1) - 1 /\
  vfio_ioport_reads failing (fun sp => Z.shiftl sp 32) 0 1
    (vfio_ioport_map 0xc000 0x20 res) (0xc000 + 0x10) =
    vfio_resource_reads failing (fun sp => Z.shiftl sp 32) 0 1 res 0x10.
Proof.
  intros failing res.
  apply (trapped_read_by_width failing (fun sp => Z.shiftl sp 32) 0 1 res 0x10
           0xc000 0x20).
  lia.
Defined.

End TrappedFacts.

(** ** The host address property *)

Module HostAddrFacts.
Import Netlink HostAddr.

Lemma In_zseq n start len :
  start <= n < start + Z.of_nat len -> In n (zseq start len).
Proof.
  revert start. induction len as [|len IH]; intros start Hn; [lia|].
  cbn [zseq]. destruct (Z.eq_dec start n) as [->|Hne]; [by left|].
  right. apply IH. lia.
Qed.

(** The sixteen digits. *)
Lemma hex_char_facts d :
  0 <= d < 16 ->
  hex_value (hex_char d) = Some d /\ isspace (hex_char d) = false /\
  (code (hex_char d) =? 45) = false /\ (code (hex_char d) =? 43) = false /\
  (code (hex_char d) =? 120) = false /\ (code (hex_char d) =? 88) = false /\
  Ascii.eqb (hex_char d) colon = false /\ Ascii.eqb (hex_char d) dot = false.
Proof.
  intros Hd. assert (In d (zseq 0 16)) as Hin by (apply In_zseq; lia).
  cbn in Hin. by repeat (destruct Hin as [<-|Hin]; [by vm_compute|]).
Qed.

(** "%04x" of a number below 2^16: its four digits. *)
Lemma hex4_digits n :
  0 <= n < 65536 ->
  zero_pad 4 (to_hex n) =
    map hex_char [n / 4096; n / 256 mod 16; n / 16 mod 16; n mod 16].
Proof.
  intros Hn. unfold to_hex. rewrite uint32_small by lia.
  assert (n / 16 / 16 = n / 256) as E2 by (rewrite Z.div_div by lia; done).
  assert (n / 256 / 16 = n / 4096) as E3 by (rewrite Z.div_div by lia; done).
  assert (0 <= n / 4096 < 16) as H3
    by (split; [apply Z.div_pos; lia|apply Z.div_lt_upper_bound; lia]).
  assert (0 <= n / 16) as P1 by (apply Z.div_pos; lia).
  assert (0 <= n / 256) as P2 by (apply Z.div_pos; lia).
  cbn [hex_digits map].
  destruct (Z.ltb_spec n 16) as [H0|H0].
  { rewrite (Z.div_small n 4096), (Z.div_small n 256), (Z.div_small n 16),
      (Z.mod_small n 16) by lia. done. }
  rewrite E2. destruct (Z.ltb_spec (n / 16) 16) as [H1|H1].
  { assert (n < 256)
      by (pose proof (Z.div_mod n 16 ltac:(lia));
          pose proof (Z.mod_pos_bound n 16 ltac:(lia)); lia).
    rewrite (Z.div_small n 4096), (Z.div_small n 256),
      (Z.mod_small (n / 16) 16) by lia. done. }
  rewrite E3. destruct (Z.ltb_spec (n / 256) 16) as [H2|H2].
  { assert (n < 4096)
      by (pose proof (Z.div_mod n 256 ltac:(lia));
          pose proof (Z.mod_pos_bound n 256 ltac:(lia)); lia).
    rewrite (Z.div_small n 4096), (Z.mod_small (n / 256) 16) by lia. done. }
  destruct (Z.ltb_spec (n / 4096) 16); [done|lia].
Qed.

(** [strtol] of four digits. *)
Lemma strtol16_digits4 d3 d2 d1 d0 :
  0 <= d3 < 16 -> 0 <= d2 < 16 -> 0 <= d1 < 16 -> 0 <= d0 < 16 ->
  strtol16 (map hex_char [d3; d2; d1; d0]) =
    4096 * d3 + 256 * d2 + 16 * d1 + d0.
Proof.
  intros H3 H2 H1 H0.
  destruct (hex_char_facts d3 H3) as (V3 & S3 & M3 & P3 & _).
  destruct (hex_char_facts d2 H2) as (V2 & _ & _ & _ & X2 & Y2 & _).
  destruct (hex_char_facts d1 H1) as (V1 & _).
  destruct (hex_char_facts d0 H0) as (V0 & _).
  unfold strtol16. cbn [map skip_space]. rewrite S3, M3, P3.
  unfold skip_0x. rewrite X2, Y2, andb_false_r. cbn [andb].
  cbn [hex_digits_value]. rewrite V3, V2, V1, V0. lia.
Qed.

(** A segment reads back. *)
Lemma segment_reads_back n :
  0 <= n < 65536 ->
  let s := zero_pad 4 (to_hex n) in
  length s = 4%nat /\
  forallb (fun c => negb (Ascii.eqb c colon) && negb (Ascii.eqb c dot)) s
    = true /\
  strtol16 s = n.
Proof.
  intros Hn. cbv zeta. rewrite hex4_digits by done.
  assert (0 <= n / 4096 < 16) as H3
    by (split; [apply Z.div_pos; lia|apply Z.div_lt_upper_bound; lia]).
  pose proof (Z.mod_pos_bound (n / 256) 16 ltac:(lia)) as H2.
  pose proof (Z.mod_pos_bound (n / 16) 16 ltac:(lia)) as H1.
  pose proof (Z.mod_pos_bound n 16 ltac:(lia)) as H0.
  split; [done|]. split.
  - destruct (hex_char_facts _ H3) as (_ & _ & _ & _ & _ & _ & A3 & B3).
    destruct (hex_char_facts _ H2) as (_ & _ & _ & _ & _ & _ & A2 & B2).
    destruct (hex_char_facts _ H1) as (_ & _ & _ & _ & _ & _ & A1 & B1).
    destruct (hex_char_facts _ H0) as (_ & _ & _ & _ & _ & _ & A0 & B0).
    cbn [map forallb]. by rewrite A3, B3, A2, B2, A1, B1, A0, B0.
  - rewrite strtol16_digits4 by done.
    pose proof (Z.div_mod n 16 ltac:(lia)).
    pose proof (Z.div_mod (n / 16) 16 ltac:(lia)).
    pose proof (Z.div_mod (n / 256) 16 ltac:(lia)).
    replace (n / 16 / 16) with (n / 256) in *
      by (rewrite Z.div_div by lia; done).
    replace (n / 256 / 16) with (n / 4096) in *
      by (rewrite Z.div_div by lia; done).
    lia.
Qed.

Lemma bytes_read_back : forallb (reads_back 2) (zseq 0 (Z.to_nat 256)) = true.
Proof. vm_compute. reflexivity. Qed.

(** What [reads_back] says of a written number. *)
Lemma reads_back_spec width n :
  reads_back width n = true ->
  let s := zero_pad width (to_hex n) in
  length s = width /\
  forallb (fun c => negb (Ascii.eqb c colon) && negb (Ascii.eqb c dot)) s
    = true /\
  strtol16 s = n.
Proof.
  unfold reads_back. cbv zeta.
  intros [[Hl Hc]%andb_prop Hv]%andb_prop.
  split; [by apply Nat.eqb_eq|]. split; [done|]. by apply Z.eqb_eq.
Qed.

Lemma scan_set_field stop w s rest :
  (length s <= w)%nat ->
  forallb (fun c => negb (Ascii.eqb c stop)) s = true ->
  scan_set stop w (s ++ stop :: rest) = s.
Proof.
  revert w. induction s as [|c s IH]; intros w Hw Hs.
  - cbn [app]. destruct w; [done|]. cbn [scan_set].
    by rewrite Ascii.eqb_refl.
  - destruct w as [|w]; [cbn in Hw; lia|].
    cbn in Hs. apply andb_prop in Hs as [Hc Hs].
    cbn [app scan_set]. apply negb_true_iff in Hc. rewrite Hc.
    f_equal. apply IH; [cbn in Hw; lia|done].
Qed.

(** A field of one to four characters, none of them the separator,
    followed by the separator: [sscanf] reads the field, the character
    after it is the separator, and the text goes on behind it. *)
Lemma field_then_separator stop s rest :
  s <> [] -> (length s <= 4)%nat ->
  forallb (fun c => negb (Ascii.eqb c stop)) s = true ->
  sscanf_field stop (s ++ stop :: rest) = Some (s, length s) /\
  char_is (s ++ stop :: rest) (length s) stop = true /\
  drop (length s + 1) (s ++ stop :: rest) = rest.
Proof.
  intros Hne Hlen Hs. split; [|split].
  - unfold sscanf_field. rewrite scan_set_field by done. by destruct s.
  - unfold char_is, cstring. rewrite lookup_app_r by lia.
    rewrite Nat.sub_diag. cbn. apply Ascii.eqb_refl.
  - rewrite drop_app_ge by lia.
    replace (length s + 1 - length s)%nat with 1%nat by lia. done.
Qed.

Section Property.

Variable EINVAL : Z.

(** X22.  A host address is read back as it was written: for every
    address whose segment, bus, device and function fit their fields,
    [parse_hostaddr] on the text that [print_hostaddr] wrote into a
    buffer of at least 13 bytes returns 0 and stores that address. *)
Theorem hostaddr_round_trip (h ptr : PCIHostDevice) (len : Z) :
  0 <= seg h < 2 ^ 16 -> 0 <= bus h < 2 ^ 8 ->
  0 <= dev h < 2 ^ 5 -> 0 <= func h < 2 ^ 3 ->
  13 <= len ->
  parse_hostaddr EINVAL ptr (snd (print_hostaddr h len)) = (0, h).
Proof.
  intros Hseg Hbus Hdev Hfunc Hlen.
  assert (forall n, 0 <= n < 256 -> reads_back 2 n = true) as Rbyte.
  { intros n Hn. apply (proj1 (forallb_forall _ _) bytes_read_back), In_zseq.
    lia. }
  destruct (segment_reads_back (seg h)) as (Ls & Cs & Vs);
    [change (2 ^ 16) with 65536 in Hseg; lia|].
  destruct (reads_back_spec 2 _ (Rbyte (bus h) ltac:(lia))) as (Lb & Cb & Vb).
  destruct (reads_back_spec 2 _ (Rbyte (dev h) ltac:(lia))) as (Ld & Cd & Vd).
  set (fs := zero_pad 4 (to_hex (seg h))) in *.
  set (fb := zero_pad 2 (to_hex (bus h))) in *.
  set (fd := zero_pad 2 (to_hex (dev h))) in *.
  assert (forall s : cstring,
            forallb (fun c => negb (Ascii.eqb c colon) &&
                              negb (Ascii.eqb c dot)) s = true ->
            forallb (fun c => negb (Ascii.eqb c colon)) s = true /\
            forallb (fun c => negb (Ascii.eqb c dot)) s = true) as Hsplit.
  { intros s. induction s as [|c s IH]; [done|]. cbn.
    intros [[Ha Hb]%andb_prop Hr]%andb_prop. destruct (IH Hr) as [H1 H2].
    by rewrite Ha, Hb, H1, H2. }
  destruct (Hsplit fs Cs) as [Cs1 _]. destruct (Hsplit fb Cb) as [Cb1 _].
  destruct (Hsplit fd Cd) as [_ Cd2].
  assert (to_hex (func h) = [chr (48 + func h)]) as Hf.
  { assert (In (func h) (zseq 0 8)) as Hin by (apply In_zseq; lia).
    cbn in Hin. by repeat (destruct Hin as [<-|Hin]; [done|]). }
  assert (Uiommu.qemu_isdigit (chr (48 + func h)) = true /\
          code (chr (48 + func h)) - 48 = func h) as [Hdig Hcode].
  { assert (In (func h) (zseq 0 8)) as Hin by (apply In_zseq; lia).
    cbn in Hin. by repeat (destruct Hin as [<-|Hin]; [done|]). }
  unfold print_hostaddr. cbn [snd]. fold fs fb fd. rewrite Hf.
  rewrite take_ge.
  2:{ rewrite !length_app, Ls, Lb, Ld. cbn. lia. }
  unfold parse_hostaddr. cbn [app].
  destruct (field_then_separator colon fs
              (fb ++ colon :: fd ++ dot :: [chr (48 + func h)]))
    as (-> & -> & ->); [by destruct fs|lia|done|].
  cbn [negb].
  destruct (field_then_separator colon fb
              (fd ++ dot :: [chr (48 + func h)]))
    as (-> & -> & ->); [by destruct fb|lia|done|].
  destruct (field_then_separator dot fd [chr (48 + func h)])
    as (-> & -> & ->); [by destruct fd|lia|done|].
  cbn [negb]. rewrite Hdig. cbn [negb]. rewrite Vs, Vb, Vd, Hcode.
  f_equal. destruct h as [s b d f]. cbn in *.
  unfold uint16, uint8. rewrite !Z.mod_small by lia. done.
Qed.

End Property.

Lemma hostaddr_round_trip_witness :
  let h := {| seg := 0; bus := 1; dev := 0x1f; func := 7 |} in
  parse_hostaddr 22 {| seg := 9; bus := 9; dev := 9; func := 9 |}
    (snd (print_hostaddr h 64)) = (0, h).
Proof.
  intros h.
  apply (hostaddr_round_trip 22 h); cbn; lia.
Defined.

End HostAddrFacts.

(** ** The option ROM *)

Module RomFacts.
Import Rom.

Section Loader.

Context {K : Type}.
Variable vfio_get_rom_len : K -> K * option Z.
Variable pread : K -> Z -> Z -> K * read_result.
Variable qemu_ram_alloc : Z -> Z.
Variable voff : Z.
Variable EINTR : Z.
Variable EAGAIN : Z.

Local Abbreviation read_loop := (rom_read_loop pread voff EINTR EAGAIN).
Local Abbreviation load_rom :=
  (vfio_load_rom vfio_get_rom_len pread qemu_ram_alloc voff EINTR EAGAIN).

(** No read is interrupted. *)
Definition uninterrupted : Prop :=
  forall k count offset e,
    snd (pread k count offset) = ReadError e -> e <> EINTR /\ e <> EAGAIN.

(** The image after the reads [new]: what was there before, the bytes
    read, and 0xff for what is left of [size] bytes. *)
Definition image_after (pre : list Z) (size : Z) (new : list read_call)
    : list Z :=
  pre ++ flat_map rd_data new ++
  replicate (Z.to_nat size - length (flat_map rd_data new)) 0xff.

Definition loop_result (r : loop_end) : K * list Z * list read_call :=
  match r with
  | LoopDone k image log => (k, image, log)
  | LoopFailed k image log => (k, image, log)
  end.

Lemma store_at_end pre data size :
  (length data <= Z.to_nat size)%nat ->
  store (pre ++ replicate (Z.to_nat size) 0xff) (Z.of_nat (length pre)) data =
    (pre ++ data) ++
    replicate (Z.to_nat (size - Z.of_nat (length data))) 0xff.
Proof.
  intros Hlen. unfold store. rewrite Nat2Z.id.
  rewrite take_app_length, drop_app_ge by lia.
  rewrite drop_replicate, <- app_assoc. do 3 f_equal. lia.
Qed.

Lemma rom_read_loop_image fuel k pre log size r :
  0 <= size ->
  read_loop fuel k (pre ++ replicate (Z.to_nat size) 0xff) log
    (Z.of_nat (length pre)) size = Some r ->
  exists new,
    snd (loop_result r) = log ++ new /\
    snd (fst (loop_result r)) = image_after pre size new /\
    (length (flat_map rd_data new) <= Z.to_nat size)%nat.
Proof.
  assert (forall k pre log,
            exists new : list read_call,
              snd (loop_result (LoopDone k (pre ++ replicate (Z.to_nat 0) 0xff)
                                  log)) = log ++ new /\
              snd (fst (loop_result
                          (LoopDone k (pre ++ replicate (Z.to_nat 0) 0xff)
                             log))) = image_after pre 0 new /\
              (length (flat_map rd_data new) <= Z.to_nat 0)%nat) as Hempty.
  { intros k0 pre0 log0. exists []. cbn. unfold image_after. cbn.
    by rewrite !app_nil_r. }
  revert k pre log size r. induction fuel as [|fuel IH];
    intros k pre log size r Hsize; cbn [rom_read_loop];
    destruct (Z.eqb_spec size 0) as [->|Hnz];
    [intros [= <-]; apply Hempty|done|intros [= <-]; apply Hempty|].
  destruct (pread k size (voff + Z.of_nat (length pre))) as [k1 [data|e]].
  - set (taken := take (Z.to_nat size) data).
    assert (length taken <= Z.to_nat size)%nat as Htaken
      by (unfold taken; rewrite length_take; lia).
    destruct taken as [|b taken'] eqn:Ht.
    + intros [= <-]. eexists. split; [done|]. cbn.
      unfold image_after. cbn. split; [|lia]. do 2 f_equal. lia.
    + rewrite <- Ht in *. clearbody taken.
      assert (0 < length taken)%nat as Hpos by (rewrite Ht; cbn; lia).
      rewrite store_at_end by done.
      replace (Z.of_nat (length pre) + Z.of_nat (length taken))
        with (Z.of_nat (length (pre ++ taken)))
        by (rewrite length_app; lia).
      intros Hrest. apply IH in Hrest as (new & Hlog & Himg & Hlen); [|lia].
      eexists (_ :: new). rewrite Hlog, <- app_assoc. split; [done|].
      rewrite Himg. unfold image_after. cbn [flat_map rd_data rd_result].
      rewrite length_app, <- !app_assoc.
      rewrite Z2Nat.inj_sub, Nat2Z.id in Hlen |- * by lia.
      split; [|clear IH Hempty; lia].
      do 4 f_equal. lia.
  - destruct ((e =? EINTR) || (e =? EAGAIN)).
    + intros Hrest. apply IH in Hrest as (new & Hlog & Himg & Hlen); [|lia].
      eexists (_ :: new). rewrite Hlog, <- app_assoc. by split.
    + intros [= <-]. eexists. split; [done|]. cbn.
      unfold image_after. cbn. split; [|lia]. do 2 f_equal. lia.
Qed.

(** With no interrupted read the loop needs one turn per byte at most,
    and one more for the empty read at the end. *)
Lemma rom_read_loop_returns fuel k image log off size :
  uninterrupted -> 0 <= size -> (Z.to_nat size < fuel)%nat ->
  exists r, read_loop fuel k image log off size = Some r.
Proof.
  intros Hquiet. revert k image log off size.
  induction fuel as [|fuel IH]; intros k image log off size Hsize Hfuel;
    [lia|].
  cbn [rom_read_loop]. destruct (Z.eqb_spec size 0) as [->|Hnz]; [by eexists|].
  pose proof (Hquiet k size (voff + off)) as Hq.
  destruct (pread k size (voff + off)) as [k1 [data|e]].
  - destruct (take (Z.to_nat size) data) as [|b taken] eqn:Ht; [by eexists|].
    apply IH; [|cbn [length]; lia].
    assert (length (b :: taken) <= Z.to_nat size)%nat
      by (rewrite <- Ht, length_take; lia).
    cbn [length] in *. lia.
  - destruct (Hq e eq_refl) as [H1 H2].
    apply Z.eqb_neq in H1, H2. rewrite H1, H2. by eexists.
Qed.

(** X23.  When the ROM is to be taken from the device and its length
    is not 0, [vfio_load_rom] returns, as long as no read is
    interrupted.  With 0 it has registered the ROM BAR with the length
    the kernel reported, and the image holds the bytes that were read,
    in the order of the reads, followed by 0xff up to that length: what
    the device did not deliver reads as all ones.  With -1, after a
    read error, the ram block is freed again, [rom_offset] is 0 and no
    ROM BAR is registered. *)
Theorem load_rom_pads_with_ones (v : VFIODevice K) k len :
  romfile v = false -> rom_bar v = true ->
  vfio_get_rom_len (kernel v) = (k, Some len) -> 0 < len ->
  uninterrupted ->
  exists ret v' new,
    load_rom (S (Z.to_nat len)) v = Some (ret, v') /\
    reads v' = reads v ++ new /\
    ((ret = 0 /\ rom_registered v' = Some len /\
      rom_offset v' = qemu_ram_alloc len /\
      rom_image v' = Some (image_after [] len new)) \/
     (ret = -1 /\ rom_registered v' = rom_registered v /\
      rom_offset v' = 0 /\ rom_image v' = None)).
Proof.
  intros Hfile Hbar Hlen Hpos Hquiet. unfold vfio_load_rom.
  rewrite Hfile, Hbar, Hlen. cbn [orb negb].
  destruct (Z.eqb_spec len 0) as [?|_]; [lia|].
  destruct (rom_read_loop_returns (S (Z.to_nat len)) k
              (replicate (Z.to_nat len) 0xff) (reads v) 0 len Hquiet)
    as [r Hr]; [lia|lia|].
  rewrite Hr.
  destruct (rom_read_loop_image (S (Z.to_nat len)) k [] (reads v) len r)
    as (new & Hlog & Himg & _); [lia|exact Hr|].
  destruct r as [k' image log|k' image log]; cbn in Hlog, Himg.
  - exists 0. eexists. exists new. split; [done|]. split; [done|].
    left. cbn. by rewrite Himg.
  - exists (-1). eexists. exists new. split; [done|]. split; [done|].
    by right.
Qed.

End Loader.

Lemma load_rom_pads_with_ones_witness :
  exists ret v' new,
    ex_load_rom (S (Z.to_nat 6)) ex_device = Some (ret, v') /\
    reads v' = reads ex_device ++ new /\
    ((ret = 0 /\ rom_registered v' = Some 6 /\
      rom_offset v' = 0x40000 /\
      rom_image v' = Some (image_after [] 6 new)) \/
     (ret = -1 /\ rom_registered v' = rom_registered ex_device /\
      rom_offset v' = 0 /\ rom_image v' = None)).
Proof.
  apply (load_rom_pads_with_ones ex_rom_len ex_pread (fun size => 0x40000)
           0x600000000 4 11 ex_device 0%nat 6).
  - reflexivity.
  - reflexivity.
  - reflexivity.
  - lia.
  - intros k count offset e. unfold ex_pread. cbn.
    by destruct k as [|[|k]].
Defined.

End RomFacts.

(** ** The channel to the kernel *)

Module ChannelFacts.
Import Channel.

Lemma find_vfio_entry_first entries name :
  find_vfio_entry entries = Some name ->
  exists before after,
    entries = before ++ name :: after /\
    starts_with vfio_prefix name = true /\
    Forall (fun e => starts_with vfio_prefix e = false) before.
Proof.
  induction entries as [|e entries IH]; [done|]. cbn [find_vfio_entry].
  assert (hidden e = true -> starts_with vfio_prefix e = false) as Hdot.
  { destruct e as [|c e]; [done|]. cbn. intros ->%Ascii.eqb_eq. done. }
  destruct (hidden e) eqn:Hh.
  - intros (before & after & -> & Hp & Hb)%IH.
    exists (e :: before), after. split; [done|]. split; [done|].
    constructor; [by apply Hdot|done].
  - destruct (starts_with vfio_prefix e) eqn:Hs.
    + intros [= <-]. by exists [], entries.
    + intros (before & after & -> & Hp & Hb)%IH.
      exists (e :: before), after. split; [done|]. split; [done|].
      by constructor.
Qed.

Section Enable.

Variable strtol : cstring -> Z.
Variable monitor_get_fd : cstring -> Z.
Variable opendir : Netlink.PCIHostDevice -> option (list cstring).
Variable open_rdwr : cstring -> Z.

Local Abbreviation enable := (enable_vfio strtol monitor_get_fd opendir open_rdwr).

(** The device names its fd. *)
Definition names_fd (v : VFIODevice) : Prop :=
  exists c name, vfiofd_name v = Some (c :: name).

(** What a call of [enable_vfio] that went through the sysfs directory
    has left: the directory stream, which stays open, and, when the
    call returned 0, the device node of the first entry whose name
    begins with "vfio", which [disable_vfio] closes. *)
Definition looked_up (v v' : VFIODevice) (ret : Z)
    (files files' : list file_call) : Prop :=
  exists entries,
    opendir (host v) = Some entries /\
    ((find_vfio_entry entries = None /\ ret = -1 /\ v' = v /\
      files' = files ++ [OpenDir (host v)]) \/
     (exists name before after,
        entries = before ++ name :: after /\
        starts_with vfio_prefix name = true /\
        Forall (fun e => starts_with vfio_prefix e = false) before /\
        v' = set_vfiofd (open_rdwr (dev_dir ++ name)) v /\
        ((vfiofd v' < 0 /\ ret = -1 /\
          files' = files ++ [OpenDir (host v)]) \/
         (0 <= vfiofd v' /\ ret = 0 /\
          files' =
            files ++ [OpenDir (host v); Open (dev_dir ++ name) (vfiofd v')] /\
          disable_vfio v' files' = files' ++ [Close (vfiofd v')])))).

(** X24.  The file calls of [enable_vfio] and [disable_vfio].  When
    the device names its fd, [enable_vfio] opens nothing and
    [disable_vfio] closes nothing.  Otherwise [enable_vfio] opens the
    vfio directory of the host device with [opendir], and returns -1
    without any file call when that fails.  With the directory open it
    returns -1 when no entry begins with "vfio" or when the device node
    cannot be opened, and 0 after opening the device node of the first
    such entry; [disable_vfio] then closes exactly that fd.  The
    directory stream is closed by neither function, on no path: after
    enable and disable the calls are [opendir], [open], [close]. *)
Theorem enable_vfio_file_calls v files ret v' files' :
  enable v files = (ret, v', files') ->
  (names_fd v /\ files' = files /\ disable_vfio v' files' = files') \/
  (~ names_fd v /\
   ((opendir (host v) = None /\ ret = -1 /\ v' = v /\ files' = files) \/
    looked_up v v' ret files files')).
Proof.
  unfold enable_vfio, looked_up, names_fd, disable_vfio.
  destruct (vfiofd_name v) as [[|c name]|] eqn:Hname.
  - intros Hrun. right. split; [by intros (c & name & [=])|]. revert Hrun.
    destruct (opendir (host v)) as [entries|];
      [|intros [= <- <- <-]; by left].
    intros Hrun. right. exists entries. split; [done|]. revert Hrun.
    destruct (find_vfio_entry entries) as [name|] eqn:Hfind;
      [|intros [= <- <- <-]; by left].
    destruct (find_vfio_entry_first _ _ Hfind)
      as (before & after & -> & Hp & Hb).
    destruct (Z.ltb_spec (open_rdwr (dev_dir ++ name)) 0) as [Hneg|Hpos];
      intros [= <- <- <-]; right; exists name, before, after;
      (split; [done|]); (split; [done|]); (split; [done|]);
      (split; [done|]).
    + left. by cbn.
    + right. cbn. rewrite Hname, <- app_assoc. by cbn.
  - intros Hrun. left. split; [by exists c, name|]. revert Hrun.
    destruct (Uiommu.qemu_isdigit c).
    + intros [= <- <- <-]. by cbn; rewrite Hname.
    + destruct (_ <? 0); intros [= <- <- <-]; by cbn; rewrite Hname.
  - intros Hrun. right. split; [by intros (c & name & [=])|]. revert Hrun.
    destruct (opendir (host v)) as [entries|];
      [|intros [= <- <- <-]; by left].
    intros Hrun. right. exists entries. split; [done|]. revert Hrun.
    destruct (find_vfio_entry entries) as [name|] eqn:Hfind;
      [|intros [= <- <- <-]; by left].
    destruct (find_vfio_entry_first _ _ Hfind)
      as (before & after & -> & Hp & Hb).
    destruct (Z.ltb_spec (open_rdwr (dev_dir ++ name)) 0) as [Hneg|Hpos];
      intros [= <- <- <-]; right; exists name, before, after;
      (split; [done|]); (split; [done|]); (split; [done|]);
      (split; [done|]).
    + left. by cbn.
    + right. cbn. rewrite Hname, <- app_assoc. by cbn.
Qed.

End Enable.

Lemma enable_vfio_file_calls_witness :
  let vfio3 := map Ascii.ascii_of_nat [118; 102; 105; 111; 51]%nat in
  let v' := set_vfiofd 9 ex_device in
  let files' := [OpenDir (host ex_device); Open (dev_dir ++ vfio3) 9] in
  ex_enable_vfio ex_device [] = (0, v', files') /\
  ((names_fd ex_device /\ files' = [] /\ disable_vfio v' files' = files') \/
   (~ names_fd ex_device /\
    ((Some ex_entries = None /\ 0 = -1 /\ v' = ex_device /\ files' = []) \/
     looked_up (fun _ => Some ex_entries) (fun _ => 9) ex_device v' 0 []
       files'))).
Proof.
  intros vfio3 v' files'. split; [vm_compute; reflexivity|].
  apply (enable_vfio_file_calls (fun _ => 0) (fun _ => -1)
           (fun _ => Some ex_entries) (fun _ => 9) ex_device [] 0 v' files').
  vm_compute. reflexivity.
Defined.

(** Enable, then disable: the directory stream is still open. *)
Example directory_stream_stays_open :
  let '(ret, v', files') := ex_enable_vfio ex_device [] in
  ret = 0 /\
  disable_vfio v' files' =
    [OpenDir (host ex_device);
     Open (map Ascii.ascii_of_nat
             [47; 100; 101; 118; 47; 118; 102; 105; 111; 51]%nat) 9;
     Close 9].
Proof. vm_compute. done. Qed.

End ChannelFacts.
